(** * myfs: a block-structured virtual filesystem in one host file

    Shallow embedding of [src/myfs.c].  The C globals ([sb], the two
    in-memory bitmaps, the current working directory, the open disk) become
    the fields of one [State] record that every operation threads
    explicitly; [printf] lines are appended to the [stdout] field.

    Conventions.
    - C integers are [Z]; unsigned 32-bit arithmetic is wrapped with
      [wrap32] where the source computes in [uint32_t], and [to_int] is the
      conversion to [int].
    - A byte is an [ascii]; a disk block is a [list ascii] of [BLOCK_SIZE]
      bytes, a directory block is decoded with [get_de] exactly as the cast
      [(DirectoryEntry* )buffer] does (260-byte records, little endian).
    - The inode table is kept as typed [Inode] records (the padding of the
      C struct is not represented); data blocks are addressed relative to
      [data_blocks_start_block].
    - [time(NULL)] and the previous contents of uninitialised automatic
      arrays are inputs ([Env]). *)

From Stdlib Require Import String Ascii ZArith List Bool Lia.
Import ListNotations.
Open Scope Z_scope.

(** ** Constants *)

Definition BLOCK_SIZE : Z := 4096.
Definition MAX_INODES : Z := 512.
Definition MAX_DATA_BLOCKS : Z := 8192.
Definition MAX_FILENAME_LEN : Z := 255.
Definition INODE_DIRECT_POINTERS : Z := 12.
Definition ROOT_INODE_NUM : Z := 0.
Definition MAX_PATH_DEPTH : Z := 64.
Definition UNUSED_BLOCK : Z := 4294967295.

Definition INODE_BITMAP_BLOCK : Z := 1.
Definition DATA_BITMAP_BLOCK : Z := 2.
Definition INODE_TABLE_START_BLOCK : Z := 3.

(** [sizeof(DirectoryEntry)]: 256 name bytes and one [uint32_t]. *)
Definition sizeof_DirectoryEntry : Z := 260.
(** [sizeof(Inode)] on an LP64 target (8-byte [time_t]); it only fixes the
    number of inode-table blocks. *)
Definition sizeof_Inode : Z := 80.
(** [BLOCK_SIZE / sizeof(DirectoryEntry)] *)
Definition entries_per_block : nat := 15.

(** The same sizes as byte counts of buffers. *)
Definition BLOCK_BYTES : nat := 4096.          (* BLOCK_SIZE *)
Definition NAME_BYTES : nat := 256.            (* MAX_FILENAME_LEN + 1 *)
Definition DE_BYTES : nat := 260.              (* sizeof(DirectoryEntry) *)
Definition INODE_BITMAP_BYTES : nat := 64.     (* MAX_INODES / 8 *)
Definition DATA_BITMAP_BYTES : nat := 1024.    (* MAX_DATA_BLOCKS / 8 *)

(** ** C integers and bytes *)

Definition wrap32 (z : Z) : Z := z mod 4294967296.
Definition to_int (z : Z) : Z :=
  let w := wrap32 z in if w <? 2147483648 then w else w - 4294967296.

Definition NUL : ascii := Ascii.zero.
Definition slash : ascii := "/"%char.
Definition byteZ (c : ascii) : Z := Z.of_N (N_of_ascii c).
Definition Zbyte (z : Z) : ascii := ascii_of_N (Z.to_N (z mod 256)).
Definition is_nul (c : ascii) : bool := Ascii.eqb c NUL.

Definition le32_bytes (v : Z) : list ascii :=
  [Zbyte v; Zbyte (Z.shiftr v 8); Zbyte (Z.shiftr v 16); Zbyte (Z.shiftr v 24)].
Definition le32_value (bs : list ascii) : Z :=
  byteZ (nth 0 bs NUL) + 256 * byteZ (nth 1 bs NUL)
  + 65536 * byteZ (nth 2 bs NUL) + 16777216 * byteZ (nth 3 bs NUL).

(** The C string held in a byte array: the bytes before the first NUL. *)
Fixpoint cstr (s : list ascii) : list ascii :=
  match s with
  | [] => []
  | c :: s' => if is_nul c then [] else c :: cstr s'
  end.

Fixpoint bytes_eqb (a b : list ascii) : bool :=
  match a, b with
  | [], [] => true
  | x :: a', y :: b' => Ascii.eqb x y && bytes_eqb a' b'
  | _, _ => false
  end.

(** [strcmp(a, b) == 0] *)
Definition strcmp_eq (a b : list ascii) : bool := bytes_eqb (cstr a) (cstr b).

Definition str (s : string) : list ascii := list_ascii_of_string s.

Definition zeros (n : nat) : list ascii := repeat NUL n.

(** A buffer brought to exactly [n] bytes. *)
Definition fit (n : nat) (b : list ascii) : list ascii :=
  firstn n b ++ zeros (n - length b).

Fixpoint upd_nth {A : Type} (n : nat) (x : A) (l : list A) : list A :=
  match l, n with
  | [], _ => []
  | _ :: t, O => x :: t
  | h :: t, S n' => h :: upd_nth n' x t
  end.

(** ** Bitmap helpers

    [bitmap[n/8]] with [n] outside the array (negative, or past its end) is
    undefined in C; here such a write leaves the bitmap as it is and such a
    read gives 0. *)

Definition set_bit (bitmap : list ascii) (n : Z) : list ascii :=
  if n <? 0 then bitmap
  else
    let k := Z.to_nat (n / 8) in
    upd_nth k (Zbyte (Z.lor (byteZ (nth k bitmap NUL)) (Z.shiftl 1 (n mod 8)))) bitmap.

Definition clear_bit (bitmap : list ascii) (n : Z) : list ascii :=
  if n <? 0 then bitmap
  else
    let k := Z.to_nat (n / 8) in
    upd_nth k (Zbyte (Z.land (byteZ (nth k bitmap NUL))
                             (Z.lnot (Z.shiftl 1 (n mod 8))))) bitmap.

Definition get_bit (bitmap : list ascii) (n : Z) : bool :=
  if n <? 0 then false
  else
    let k := Z.to_nat (n / 8) in
    negb (Z.land (byteZ (nth k bitmap NUL)) (Z.shiftl 1 (n mod 8)) =? 0).

(** ** On-disk and in-memory data *)

Record Superblock := mkSuperblock {
  total_size : Z;
  num_inodes : Z;
  num_data_blocks : Z;
  inode_bitmap_block : Z;
  data_bitmap_block : Z;
  inode_table_start_block : Z;
  data_blocks_start_block : Z
}.

Record Inode := mkInode {
  mode : Z;                 (* 0 for file, 1 for directory *)
  size : Z;
  link_count : Z;
  creation_time : Z;
  modification_time : Z;
  direct_blocks : list Z    (* INODE_DIRECT_POINTERS entries *)
}.

Record DirectoryEntry := mkDirectoryEntry {
  name : list ascii;        (* the MAX_FILENAME_LEN + 1 bytes of the field *)
  inode_number : Z
}.

(** The backing file: superblock block, the two bitmap blocks (their
    meaningful prefix), the inode table, and the data region. *)
Record Disk := mkDisk {
  dk_super : Superblock;
  dk_inode_bitmap : list ascii;
  dk_data_bitmap : list ascii;
  dk_inodes : Z -> Inode;
  dk_data : Z -> list ascii
}.

(** One line written to standard output. *)
Inductive Msg :=
| ErrParentNotFound | ErrNameExists | ErrOutOfInodes | ErrOutOfDataBlocks
| ErrOutOfDataBlocksCleanup | ErrDirectoryFull | ErrCannotOpenHost
| ErrFileTooLarge | ErrFileNotFound | ErrNotAFile | ErrNotADirectory
| ErrCannotRemoveRoot | ErrDirectoryNotFound | ErrDirectoryNotEmpty
| ErrRmIsDirectory | ErrTargetMissing | ErrLinkToDirectory
| ErrAppendNonPositive | ErrAppendTooLarge | ErrTruncateNonPositive
| ErrCdNoSuch | ErrCdNotDir | ErrLsNoSuch
| MsgDirectoryCreated | MsgCopied | MsgRemoved | MsgRemovedDirectory
| MsgLinkCreated
| MsgAppended (n : Z)
| MsgTruncatedToZero
| MsgShortened (n : Z)
| MsgPwd (p : list ascii)
| MsgLsFile (sz : Z) (nm : list ascii)
| MsgLsEntry (is_dir : bool) (sz : Z) (nm : list ascii)
| MsgDf (used_inodes total_inodes used_blocks total_blocks : Z).

Record State := mkState {
  sb : Superblock;
  inode_bitmap : list ascii;          (* MAX_INODES / 8 bytes *)
  data_block_bitmap : list ascii;     (* MAX_DATA_BLOCKS / 8 bytes *)
  current_working_directory_inode : Z;
  virtual_disk : Disk;
  stdout : list Msg
}.

(** What an operation reads from its environment. *)
Record Env := mkEnv {
  now : Z;                  (* time(NULL) *)
  stack : nat -> ascii      (* prior contents of an uninitialised array *)
}.

Definition zero_inode : Inode := mkInode 0 0 0 0 0 (repeat 0 12).

Definition with_disk (st : State) (d : Disk) : State :=
  mkState (sb st) (inode_bitmap st) (data_block_bitmap st)
          (current_working_directory_inode st) d (stdout st).
Definition with_inode_bitmap (st : State) (bm : list ascii) : State :=
  mkState (sb st) bm (data_block_bitmap st)
          (current_working_directory_inode st) (virtual_disk st) (stdout st).
Definition with_data_bitmap (st : State) (bm : list ascii) : State :=
  mkState (sb st) (inode_bitmap st) bm
          (current_working_directory_inode st) (virtual_disk st) (stdout st).
Definition with_cwd (st : State) (c : Z) : State :=
  mkState (sb st) (inode_bitmap st) (data_block_bitmap st) c
          (virtual_disk st) (stdout st).
Definition printf (st : State) (m : Msg) : State :=
  mkState (sb st) (inode_bitmap st) (data_block_bitmap st)
          (current_working_directory_inode st) (virtual_disk st)
          (stdout st ++ [m]).

(** ** Low-level I/O *)

(** [read_block(sb.data_blocks_start_block + b, buffer)] *)
Definition read_block (st : State) (b : Z) : list ascii :=
  fit BLOCK_BYTES (dk_data (virtual_disk st) b).

(** [write_block(sb.data_blocks_start_block + b, buffer)] *)
Definition write_block (st : State) (b : Z) (buffer : list ascii) : State :=
  let d := virtual_disk st in
  with_disk st (mkDisk (dk_super d) (dk_inode_bitmap d) (dk_data_bitmap d)
                       (dk_inodes d)
                       (fun b' => if b' =? b then fit BLOCK_BYTES buffer else dk_data d b')).

(** [offset = (inode_num * sizeof(Inode)) % BLOCK_SIZE] of [read_inode] and
    [write_inode]. *)
Definition inode_offset (inode_num : Z) : Z := (inode_num * sizeof_Inode) mod BLOCK_SIZE.

(** The [sizeof(Inode)] bytes at [buffer + offset] lie inside
    [char buffer[BLOCK_SIZE]].  This fails for the inodes whose record
    crosses a block boundary of the inode table, the first of which is
    inode 51 (51 * 80 + 80 > 4096). *)
Definition inode_in_block (inode_num : Z) : bool :=
  inode_offset inode_num + sizeof_Inode <=? BLOCK_SIZE.

(** [read_inode] and [write_inode] read one block of the inode table into a
    buffer and [memcpy] the record at [buffer + offset].  The table of
    records below is that copy for the inodes with [inode_in_block]; for the
    others the C code copies past the end of the buffer, which has no
    defined result.  The properties in which an operation takes a new inode
    therefore ask for [inode_in_block] of the inode that [alloc_inode]
    gives. *)
Definition read_inode (st : State) (inode_num : Z) : Inode :=
  dk_inodes (virtual_disk st) inode_num.

Definition write_inode (st : State) (inode_num : Z) (inode : Inode) : State :=
  let d := virtual_disk st in
  with_disk st (mkDisk (dk_super d) (dk_inode_bitmap d) (dk_data_bitmap d)
                       (fun n => if n =? inode_num then inode else dk_inodes d n)
                       (dk_data d)).

Definition sync_bitmaps (st : State) : State :=
  let d := virtual_disk st in
  with_disk st (mkDisk (dk_super d) (inode_bitmap st) (data_block_bitmap st)
                       (dk_inodes d) (dk_data d)).

(** ** Allocator *)

(** The loop [for (i = start; i < start + k; i++) if (!get_bit(bm, i)) return i;] *)
Fixpoint scan_clear (bitmap : list ascii) (k : nat) (i : Z) : Z :=
  match k with
  | O => -1
  | S k' => if get_bit bitmap i then scan_clear bitmap k' (i + 1) else i
  end.

Definition alloc_inode (st : State) : Z * State :=
  let i := scan_clear (inode_bitmap st) (Z.to_nat (num_inodes (sb st))) 0 in
  if i =? -1 then (-1, st)
  else (i, with_inode_bitmap st (set_bit (inode_bitmap st) i)).

Definition free_inode (st : State) (inode_num : Z) : State :=
  with_inode_bitmap st (clear_bit (inode_bitmap st) inode_num).

Definition alloc_data_block (st : State) : Z * State :=
  let i := scan_clear (data_block_bitmap st) (Z.to_nat (num_data_blocks (sb st))) 0 in
  if i =? -1 then (-1, st)
  else (i, with_data_bitmap st (set_bit (data_block_bitmap st) i)).

Definition free_data_block (st : State) (block_num : Z) : State :=
  with_data_bitmap st (clear_bit (data_block_bitmap st) block_num).

(** ** Directory layer *)

(** [de[j]] for [de = (DirectoryEntry* )buffer] *)
Definition get_de (buffer : list ascii) (j : nat) : DirectoryEntry :=
  mkDirectoryEntry (firstn NAME_BYTES (skipn (DE_BYTES * j) buffer))
                   (le32_value (firstn 4 (skipn (DE_BYTES * j + NAME_BYTES) buffer))).

(** The 260 bytes of a directory entry. *)
Definition de_bytes (e : DirectoryEntry) : list ascii :=
  fit NAME_BYTES (name e) ++ le32_bytes (wrap32 (inode_number e)).

(** [memcpy(&de[j], &e, sizeof(DirectoryEntry))] *)
Definition put_de (buffer : list ascii) (j : nat) (e : DirectoryEntry) : list ascii :=
  firstn (DE_BYTES * j) buffer ++ de_bytes e ++ skipn (DE_BYTES * j + DE_BYTES) buffer.

(** [memset(&de[j], 0, sizeof(DirectoryEntry))] *)
Definition clear_de (buffer : list ascii) (j : nat) : list ascii :=
  firstn (DE_BYTES * j) buffer ++ zeros DE_BYTES ++ skipn (DE_BYTES * j + DE_BYTES) buffer.

(** [de[j].name[0] != '\0'] *)
Definition live (e : DirectoryEntry) : bool := negb (is_nul (nth 0 (name e) NUL)).

(** The inner loop shared by every directory walk: the live slots of one
    block, visited while [entries_found < total]; returns them with the
    updated [entries_found]. *)
Fixpoint scan_slots (buffer : list ascii) (total found : Z) (js : list nat)
  : list (nat * DirectoryEntry) * Z :=
  match js with
  | [] => ([], found)
  | j :: js' =>
    if found >=? total then ([], found)
    else
      let e := get_de buffer j in
      if live e then
        let (r, f) := scan_slots buffer total (found + 1) js' in ((j, e) :: r, f)
      else scan_slots buffer total found js'
  end.

(** The outer loop: blocks in order until an UNUSED pointer or until
    [total] live entries were seen.  Each entry comes with the index [i] of
    its direct pointer and its slot [j]. *)
Fixpoint scan_blocks (st : State) (blocks : list Z) (i : nat) (total found : Z)
  : list (nat * nat * DirectoryEntry) :=
  match blocks with
  | [] => []
  | b :: rest =>
    if (b =? UNUSED_BLOCK) || (found >=? total) then []
    else
      let (r, f) := scan_slots (read_block st b) total found (seq 0 entries_per_block) in
      map (fun je => (i, fst je, snd je)) r ++ scan_blocks st rest (S i) total f
  end.

(** The entries a directory walk over [dir_inode] visits, in order. *)
Definition dir_entries (st : State) (dir_inode : Inode) : list (nat * nat * DirectoryEntry) :=
  scan_blocks st (firstn 12 (direct_blocks dir_inode)) 0
              (size dir_inode / sizeof_DirectoryEntry) 0.

Definition find_entry_in_dir (st : State) (dir_inode_num : Z) (nm : list ascii) : Z :=
  let dir_inode := read_inode st dir_inode_num in
  if negb (mode dir_inode =? 1) then -1
  else
    match find (fun x => strcmp_eq (name (snd x)) nm) (dir_entries st dir_inode) with
    | Some (_, _, e) => to_int (inode_number e)
    | None => -1
    end.

(** [strncpy(new_entry.name, name, MAX_FILENAME_LEN); new_entry.name[MAX_FILENAME_LEN] = 0] *)
Definition strncpy_name (nm : list ascii) : list ascii :=
  fit NAME_BYTES (firstn (NAME_BYTES - 1) (cstr nm)).

(** First slot of a block whose name starts with NUL. *)
Definition first_free_slot (buffer : list ascii) : option nat :=
  find (fun j => negb (live (get_de buffer j))) (seq 0 entries_per_block).

Definition set_direct_block (inode : Inode) (i : nat) (b : Z) : Inode :=
  mkInode (mode inode) (size inode) (link_count inode) (creation_time inode)
          (modification_time inode) (upd_nth i b (direct_blocks inode)).
Definition set_size (inode : Inode) (s : Z) : Inode :=
  mkInode (mode inode) s (link_count inode) (creation_time inode)
          (modification_time inode) (direct_blocks inode).
Definition set_link_count (inode : Inode) (c : Z) : Inode :=
  mkInode (mode inode) (size inode) c (creation_time inode)
          (modification_time inode) (direct_blocks inode).
Definition set_modification_time (inode : Inode) (t : Z) : Inode :=
  mkInode (mode inode) (size inode) (link_count inode) (creation_time inode)
          t (direct_blocks inode).

(** The body of the [for i] loop of [add_entry_to_dir], for the remaining
    pointer indices [idxs]. *)
Fixpoint add_entry_loop (env : Env) (idxs : list nat) (st : State) (dir_inode_num : Z)
         (dir_inode : Inode) (new_entry : DirectoryEntry) : State :=
  match idxs with
  | [] => printf st ErrDirectoryFull
  | i :: idxs' =>
    let cur := nth i (direct_blocks dir_inode) UNUSED_BLOCK in
    let '(failed, current_block_num, st1, dir_inode1, buffer) :=
      if cur =? UNUSED_BLOCK then
        let (b, st') := alloc_data_block st in
        if b =? -1 then (true, b, st', dir_inode, [])
        else (false, b, st', set_direct_block dir_inode i b, zeros BLOCK_BYTES)
      else (false, cur, st, dir_inode, read_block st cur) in
    if failed then printf st1 ErrOutOfDataBlocks
    else
      match first_free_slot buffer with
      | Some j =>
        let st2 := write_block st1 current_block_num (put_de buffer j new_entry) in
        let current_entry_offset := Z.of_nat i * Z.of_nat entries_per_block + Z.of_nat j in
        let dir_inode2 :=
          if current_entry_offset * sizeof_DirectoryEntry >=? size dir_inode1
          then set_size dir_inode1 (wrap32 (size dir_inode1 + sizeof_DirectoryEntry))
          else dir_inode1 in
        write_inode st2 dir_inode_num (set_modification_time dir_inode2 (now env))
      | None => add_entry_loop env idxs' st1 dir_inode_num dir_inode1 new_entry
      end
  end.

Definition add_entry_to_dir (env : Env) (st : State) (dir_inode_num : Z)
           (nm : list ascii) (new_inode_num : Z) : State :=
  let dir_inode := read_inode st dir_inode_num in
  let new_entry := mkDirectoryEntry (strncpy_name nm) new_inode_num in
  add_entry_loop env (seq 0 12) st dir_inode_num dir_inode new_entry.

Definition do_rm_entry (st : State) (parent_inode_num : Z) (child_name : list ascii) : State :=
  let parent_inode := read_inode st parent_inode_num in
  match find (fun x => strcmp_eq (name (snd x)) child_name) (dir_entries st parent_inode) with
  | Some (i, j, _) =>
    let b := nth i (direct_blocks parent_inode) UNUSED_BLOCK in
    write_block st b (clear_de (read_block st b) j)
  | None => st
  end.

(** Returns the name found, or [None] for the C result [-1]. *)
Definition find_name_for_inode (st : State) (parent_inode_num child_inode_num : Z)
  : option (list ascii) :=
  let parent_inode := read_inode st parent_inode_num in
  if negb (mode parent_inode =? 1) then None
  else
    match find (fun x => (inode_number (snd x) =? wrap32 child_inode_num)
                         && negb (strcmp_eq (name (snd x)) (str "."))
                         && negb (strcmp_eq (name (snd x)) (str "..")))
               (dir_entries st parent_inode) with
    | Some (_, _, e) => Some (cstr (name e))
    | None => None
    end.

(** ** Path resolver *)

(** [s + strspn(s, "/")] *)
Fixpoint skip_delims (s : list ascii) : list ascii :=
  match s with
  | [] => []
  | c :: s' => if Ascii.eqb c slash then skip_delims s' else s
  end.

(** The token starting at [s] and what follows its delimiter. *)
Fixpoint span_token (s : list ascii) : list ascii * list ascii :=
  match s with
  | [] => ([], [])
  | c :: s' =>
    if Ascii.eqb c slash then ([], s')
    else let (t, r) := span_token s' in (c :: t, r)
  end.

(** [strtok_r(rest, "/", &rest)]: the token and the new [rest], or [None]
    for a NULL result. *)
Definition strtok_r (rest : list ascii) : option (list ascii * list ascii) :=
  match skip_delims rest with
  | [] => None
  | s => Some (span_token s)
  end.

(** The [while ((token = strtok_r(rest, "/", &rest)))] loop of
    [get_path_inode].  Every iteration consumes at least one byte of
    [rest], so [fuel = S (length rest)] is never exhausted. *)
Fixpoint path_walk (fuel : nat) (st : State) (rest : list ascii) (current_inode : Z) : Z :=
  match fuel with
  | O => current_inode
  | S fuel' =>
    match strtok_r rest with
    | None => current_inode
    | Some (token, rest') =>
      let current_inode' := find_entry_in_dir st current_inode token in
      if current_inode' =? -1 then -1
      else
        let temp_inode := read_inode st current_inode' in
        if negb (mode temp_inode =? 1) && negb (length rest' =? 0)%nat then -1
        else path_walk fuel' st rest' current_inode'
    end
  end.

Definition get_path_inode (st : State) (path : list ascii) : Z :=
  match path with
  | [] => -1
  | c :: tl =>
    if bytes_eqb path (str ".") then current_working_directory_inode st
    else
      let '(start_inode, rest) :=
        if Ascii.eqb c slash
        then (ROOT_INODE_NUM, if (1 <? length path)%nat then tl else path)
        else (current_working_directory_inode st, path) in
      if bytes_eqb path (str "/") then ROOT_INODE_NUM
      else path_walk (S (length rest)) st rest start_inode
  end.

(** *** dirname(3) and basename(3)

    Modelled from POSIX (libgen.h): these two are C library functions. *)

Definition strip_trailing_slashes (s : list ascii) : list ascii :=
  rev (skip_delims (rev s)).

Fixpoint take_until_slash (s : list ascii) : list ascii :=
  match s with
  | [] => []
  | c :: s' => if Ascii.eqb c slash then [] else c :: take_until_slash s'
  end.

Fixpoint drop_until_slash (s : list ascii) : list ascii :=
  match s with
  | [] => []
  | c :: s' => if Ascii.eqb c slash then s else drop_until_slash s'
  end.

Definition basename (path : list ascii) : list ascii :=
  match path with
  | [] => str "."
  | _ =>
    match strip_trailing_slashes path with
    | [] => str "/"
    | t => rev (take_until_slash (rev t))
    end
  end.

Definition dirname (path : list ascii) : list ascii :=
  match path with
  | [] => str "."
  | _ =>
    match strip_trailing_slashes path with
    | [] => str "/"
    | t =>
      match drop_until_slash (rev t) with
      | [] => str "."
      | r =>
        match strip_trailing_slashes (rev r) with
        | [] => str "/"
        | d => d
        end
      end
    end
  end.

(** ** Filesystem operations *)

(** [strcpy(dst, s)] into an array whose previous contents are [old]. *)
Definition strcpy_into (old s : list ascii) : list ascii :=
  s ++ [NUL] ++ skipn (length s + 1) old.

(** The two entries [entries[0] = (".", self)], [entries[1] = ("..", parent)]
    as [do_mkdir] and [do_mkfs] build them in an automatic array that is not
    initialised first: the name bytes after the terminator keep what the
    array held before. *)
Definition dot_entries (env : Env) (self parent : Z) : list ascii :=
  let old := map (stack env) (seq 0 (2 * DE_BYTES)) in
  de_bytes (mkDirectoryEntry (strcpy_into (firstn NAME_BYTES old) (str ".")) self)
  ++ de_bytes (mkDirectoryEntry (strcpy_into (firstn NAME_BYTES (skipn DE_BYTES old)) (str "..")) parent).

Definition fresh_pointers (b : Z) : list Z := b :: repeat UNUSED_BLOCK 11.

Definition do_mkdir (env : Env) (st : State) (path : list ascii) : State :=
  let parent_path := dirname path in
  let child_name := basename path in
  let parent_inode_num := get_path_inode st parent_path in
  if parent_inode_num =? -1 then printf st ErrParentNotFound
  else if negb (find_entry_in_dir st parent_inode_num child_name =? -1)
  then printf st ErrNameExists
  else
    let (new_inode_num, st1) := alloc_inode st in
    if new_inode_num =? -1 then printf st1 ErrOutOfInodes
    else
      let (new_block_num, st2) := alloc_data_block st1 in
      if new_block_num =? -1
      then free_inode (printf st2 ErrOutOfDataBlocks) new_inode_num
      else
        let new_inode :=
          mkInode 1 (2 * sizeof_DirectoryEntry) 2 (now env) (now env)
                  (fresh_pointers new_block_num) in
        let st3 := write_inode st2 new_inode_num new_inode in
        let buffer := dot_entries env new_inode_num parent_inode_num ++ zeros (BLOCK_BYTES - 2 * DE_BYTES) in
        let st4 := write_block st3 new_block_num buffer in
        let st5 := add_entry_to_dir env st4 parent_inode_num child_name new_inode_num in
        let parent_inode := read_inode st5 parent_inode_num in
        let st6 := write_inode st5 parent_inode_num
                     (set_link_count parent_inode (wrap32 (link_count parent_inode + 1))) in
        printf (sync_bitmaps st6) MsgDirectoryCreated.

(** The visible entries of a directory with the mode and size of the inode
    each one names, as [do_ls] prints them. *)
Definition do_ls (st : State) (path : list ascii) : State :=
  let path := match path with [] => str "." | _ => path end in
  let inode_num := get_path_inode st path in
  if inode_num =? -1 then printf st ErrLsNoSuch
  else
    let inode := read_inode st inode_num in
    if negb (mode inode =? 1) then printf st (MsgLsFile (size inode) (basename path))
    else
      fold_left
        (fun s x =>
           let entry_inode := read_inode st (inode_number (snd x)) in
           printf s (MsgLsEntry (mode entry_inode =? 1) (size entry_inode)
                                (cstr (name (snd x)))))
        (dir_entries st inode) st.

(** [for (j = 0; j < blocks_allocated; j++) free_data_block(direct_blocks[j])] *)
Definition free_blocks (st : State) (blocks : list Z) : State :=
  fold_left free_data_block blocks st.

(** The copy loop of [do_cp_to_vdisk] over the remaining pointer indices;
    [None] is the clean-up path after a failed allocation. *)
Fixpoint cp_to_loop (idxs : list nat) (st : State) (new_inode : Inode)
         (src : list ascii) : State * option Inode :=
  match idxs with
  | [] => (st, Some new_inode)
  | i :: idxs' =>
    match src with
    | [] => (st, Some new_inode)
    | _ =>
      let (new_block, st1) := alloc_data_block st in
      if new_block =? -1 then
        (free_blocks (printf st1 ErrOutOfDataBlocksCleanup)
                     (firstn i (direct_blocks new_inode)), None)
      else
        let new_inode1 := set_direct_block new_inode i new_block in
        let chunk := firstn BLOCK_BYTES src in
        let buffer := chunk ++ zeros (BLOCK_BYTES - length chunk) in
        let st2 := write_block st1 new_block buffer in
        cp_to_loop idxs' st2 new_inode1 (skipn BLOCK_BYTES src)
    end
  end.

Definition do_cp_to_vdisk (env : Env) (st : State) (host : option (list ascii))
           (vdisk_path : list ascii) : State :=
  match host with
  | None => printf st ErrCannotOpenHost
  | Some src =>
    let file_size := Z.of_nat (length src) in
    if file_size >? INODE_DIRECT_POINTERS * BLOCK_SIZE then printf st ErrFileTooLarge
    else
      let parent_path := dirname vdisk_path in
      let child_name := basename vdisk_path in
      let parent_inode_num := get_path_inode st parent_path in
      if parent_inode_num =? -1 then printf st ErrParentNotFound
      else if negb (find_entry_in_dir st parent_inode_num child_name =? -1)
      then printf st ErrNameExists
      else
        let (new_inode_num, st1) := alloc_inode st in
        if new_inode_num =? -1 then printf st1 ErrOutOfInodes
        else
          let new_inode :=
            mkInode 0 (wrap32 file_size) 1 (now env) (now env) (repeat UNUSED_BLOCK 12) in
          match cp_to_loop (seq 0 12) st1 new_inode src with
          | (st2, None) => sync_bitmaps (free_inode st2 new_inode_num)
          | (st2, Some new_inode1) =>
            let st3 := write_inode st2 new_inode_num new_inode1 in
            let st4 := add_entry_to_dir env st3 parent_inode_num child_name new_inode_num in
            printf (sync_bitmaps st4) MsgCopied
          end
  end.

(** The export loop: the bytes written to the host file. *)
Fixpoint cp_from_loop (st : State) (blocks : list Z) (bytes_left : Z) : list ascii :=
  match blocks with
  | [] => []
  | b :: rest =>
    if bytes_left <=? 0 then []
    else if b =? UNUSED_BLOCK then []
    else
      let bytes_to_write := if bytes_left >? BLOCK_SIZE then BLOCK_SIZE else bytes_left in
      firstn (Z.to_nat bytes_to_write) (read_block st b)
      ++ cp_from_loop st rest (bytes_left - bytes_to_write)
  end.

(** Returns the contents of the host file it creates, if it gets that far. *)
Definition do_cp_from_vdisk (st : State) (vdisk_path : list ascii)
  : State * option (list ascii) :=
  let inode_num := get_path_inode st vdisk_path in
  if inode_num =? -1 then (printf st ErrFileNotFound, None)
  else
    let inode := read_inode st inode_num in
    if negb (mode inode =? 0) then (printf st ErrNotAFile, None)
    else (printf st MsgCopied,
          Some (cp_from_loop st (firstn 12 (direct_blocks inode)) (size inode))).

(** [for (i = 0; i < 12; i++) if (direct_blocks[i] != UNUSED_BLOCK) free_data_block(...)] *)
Definition free_used_blocks (st : State) (blocks : list Z) : State :=
  fold_left (fun s b => if b =? UNUSED_BLOCK then s else free_data_block s (to_int b))
            blocks st.

Definition do_rm (st : State) (path : list ascii) : State :=
  let parent_path := dirname path in
  let child_name := basename path in
  let parent_inode_num := get_path_inode st parent_path in
  if parent_inode_num =? -1 then printf st ErrParentNotFound
  else
    let child_inode_num := find_entry_in_dir st parent_inode_num child_name in
    if child_inode_num =? -1 then printf st ErrFileNotFound
    else
      let child_inode := read_inode st child_inode_num in
      if mode child_inode =? 1 then printf st ErrRmIsDirectory
      else
        let st1 := do_rm_entry st parent_inode_num child_name in
        let parent_inode := read_inode st1 parent_inode_num in
        let st2 := write_inode st1 parent_inode_num
                     (set_size parent_inode (wrap32 (size parent_inode - sizeof_DirectoryEntry))) in
        let child_inode1 := set_link_count child_inode (wrap32 (link_count child_inode - 1)) in
        let st3 := write_inode st2 child_inode_num child_inode1 in
        let st4 :=
          if link_count child_inode1 =? 0
          then free_inode (free_used_blocks st3 (firstn 12 (direct_blocks child_inode1)))
                          child_inode_num
          else st3 in
        printf (sync_bitmaps st4) MsgRemoved.

Definition do_rmdir (st : State) (path : list ascii) : State :=
  if bytes_eqb path (str "/") then printf st ErrCannotRemoveRoot
  else
    let inode_num := get_path_inode st path in
    if inode_num =? -1 then printf st ErrDirectoryNotFound
    else
      let inode := read_inode st inode_num in
      if negb (mode inode =? 1) then printf st ErrNotADirectory
      else
        let entry_count := Z.of_nat (length (dir_entries st inode)) in
        if entry_count >? 2 then printf st ErrDirectoryNotEmpty
        else
          let parent_path := dirname path in
          let child_name := basename path in
          let parent_inode_num := get_path_inode st parent_path in
          let st1 := do_rm_entry st parent_inode_num child_name in
          let parent_inode := read_inode st1 parent_inode_num in
          let st2 := write_inode st1 parent_inode_num
                       (set_link_count
                          (set_size parent_inode
                                    (wrap32 (size parent_inode - sizeof_DirectoryEntry)))
                          (wrap32 (link_count parent_inode - 1))) in
          let b0 := nth 0 (direct_blocks inode) UNUSED_BLOCK in
          let st3 := if b0 =? UNUSED_BLOCK then st2 else free_data_block st2 (to_int b0) in
          let st4 := free_inode st3 inode_num in
          printf (sync_bitmaps st4) MsgRemovedDirectory.

Definition do_ln (env : Env) (st : State) (target_path link_path : list ascii) : State :=
  let target_inode_num := get_path_inode st target_path in
  if target_inode_num =? -1 then printf st ErrTargetMissing
  else
    let target_inode := read_inode st target_inode_num in
    if mode target_inode =? 1 then printf st ErrLinkToDirectory
    else
      let parent_path := dirname link_path in
      let child_name := basename link_path in
      let parent_inode_num := get_path_inode st parent_path in
      if parent_inode_num =? -1 then printf st ErrParentNotFound
      else if negb (find_entry_in_dir st parent_inode_num child_name =? -1)
      then printf st ErrNameExists
      else
        let st1 := add_entry_to_dir env st parent_inode_num child_name target_inode_num in
        let st2 := write_inode st1 target_inode_num
                     (set_link_count target_inode (wrap32 (link_count target_inode + 1))) in
        printf st2 MsgLinkCreated.

Fixpoint count_bits (bitmap : list ascii) (k : nat) (i : Z) : Z :=
  match k with
  | O => 0
  | S k' => (if get_bit bitmap i then 1 else 0) + count_bits bitmap k' (i + 1)
  end.

Definition do_df (st : State) : State :=
  printf st (MsgDf (count_bits (inode_bitmap st) (Z.to_nat (num_inodes (sb st))) 0)
                   (num_inodes (sb st))
                   (count_bits (data_block_bitmap st) (Z.to_nat (num_data_blocks (sb st))) 0)
                   (num_data_blocks (sb st))).

(** The result of an operation that indexes [direct_blocks] with a computed
    index: the new state, or the index that fell outside the array. *)
Inductive Outcome :=
| Done (st : State)
| OutOfBounds (idx : Z).

(** [inode.direct_blocks[idx]] *)
Definition direct_block_at (inode : Inode) (idx : Z) : option Z :=
  if (0 <=? idx) && (idx <? INODE_DIRECT_POINTERS)
  then nth_error (direct_blocks inode) (Z.to_nat idx)
  else None.

(** [inode.direct_blocks[idx] = b] *)
Definition store_direct_block (inode : Inode) (idx : Z) (b : Z) : option Inode :=
  if (0 <=? idx) && (idx <? INODE_DIRECT_POINTERS)
  then Some (set_direct_block inode (Z.to_nat idx) b)
  else None.

(** [memset(buffer + offset, 0, n)] *)
Definition zero_range (buffer : list ascii) (offset n : nat) : list ascii :=
  firstn offset buffer ++ zeros n ++ skipn (offset + n) buffer.

(** The [while (bytes_to_add > 0)] loop of [do_append].  [last_block_idx]
    grows by one per iteration and the loop leaves at 12, so starting from
    an index of at least -1 thirteen iterations are the most it runs.
    Returns the state, the inode and the bytes still to add. *)
Fixpoint append_loop (fuel : nat) (st : State) (inode : Inode)
         (bytes_to_add last_block_idx : Z) : (State * Inode * Z) + Z :=
  match fuel with
  | O => inl (st, inode, bytes_to_add)
  | S fuel' =>
    if bytes_to_add >? 0 then
      if last_block_idx >=? INODE_DIRECT_POINTERS then inl (st, inode, bytes_to_add)
      else
        let (new_block_num, st1) := alloc_data_block st in
        if new_block_num =? -1
        then inl (printf st1 ErrOutOfDataBlocks, inode, bytes_to_add)
        else
          match store_direct_block inode last_block_idx new_block_num with
          | None => inr last_block_idx
          | Some inode1 =>
            let bytes_to_write :=
              if bytes_to_add >? BLOCK_SIZE then BLOCK_SIZE else bytes_to_add in
            let st2 := write_block st1 new_block_num (zeros BLOCK_BYTES) in
            append_loop fuel' st2 inode1 (bytes_to_add - bytes_to_write) (last_block_idx + 1)
          end
    else inl (st, inode, bytes_to_add)
  end.

Definition do_append (env : Env) (st : State) (path : list ascii) (n_bytes : Z) : Outcome :=
  if n_bytes <=? 0 then Done (printf st ErrAppendNonPositive)
  else
    let inode_num := get_path_inode st path in
    if inode_num =? -1 then Done (printf st ErrFileNotFound)
    else
      let inode := read_inode st inode_num in
      if negb (mode inode =? 0) then Done (printf st ErrNotAFile)
      else
        let original_size := size inode in
        let new_size := original_size + n_bytes in
        if new_size >? INODE_DIRECT_POINTERS * BLOCK_SIZE
        then Done (printf st ErrAppendTooLarge)
        else
          let bytes_to_add := n_bytes in
          let last_block_idx :=
            if original_size >? 0 then Z.quot (original_size - 1) BLOCK_SIZE else -1 in
          let tail :=
            if (original_size >? 0) && negb (Z.rem original_size BLOCK_SIZE =? 0) then
              match direct_block_at inode last_block_idx with
              | None => inr last_block_idx
              | Some last_block_num =>
                let buffer := read_block st (to_int last_block_num) in
                let offset := Z.rem original_size BLOCK_SIZE in
                let space_in_block := BLOCK_SIZE - offset in
                let bytes_to_write :=
                  if bytes_to_add <? space_in_block then bytes_to_add else space_in_block in
                let st1 := write_block st (to_int last_block_num)
                             (zero_range buffer (Z.to_nat offset) (Z.to_nat bytes_to_write)) in
                inl (st1, bytes_to_add - bytes_to_write, last_block_idx + 1)
              end
            else inl (st, bytes_to_add, last_block_idx) in
          match tail with
          | inr idx => OutOfBounds idx
          | inl (st1, bytes_to_add1, last_block_idx1) =>
            match append_loop 13 st1 inode bytes_to_add1 last_block_idx1 with
            | inr idx => OutOfBounds idx
            | inl (st2, inode1, bytes_to_add2) =>
              let inode2 :=
                set_modification_time (set_size inode1 (wrap32 (new_size - bytes_to_add2)))
                                      (now env) in
              let st3 := write_inode st2 inode_num inode2 in
              Done (printf (sync_bitmaps st3) (MsgAppended (n_bytes - bytes_to_add2)))
            end
          end.

(** The [for (i = last_block_idx_to_keep + 1; i < 12; i++)] loop of
    [do_truncate] over the pointer indices [idxs]. *)
Fixpoint truncate_loop (idxs : list nat) (st : State) (inode : Inode) : State * Inode :=
  match idxs with
  | [] => (st, inode)
  | i :: idxs' =>
    let b := nth i (direct_blocks inode) UNUSED_BLOCK in
    if b =? UNUSED_BLOCK then truncate_loop idxs' st inode
    else truncate_loop idxs' (free_data_block st (to_int b))
                       (set_direct_block inode i UNUSED_BLOCK)
  end.

Definition do_truncate (env : Env) (st : State) (path : list ascii) (n_bytes : Z) : State :=
  if n_bytes <=? 0 then printf st ErrTruncateNonPositive
  else
    let inode_num := get_path_inode st path in
    if inode_num =? -1 then printf st ErrFileNotFound
    else
      let inode := read_inode st inode_num in
      if negb (mode inode =? 0) then printf st ErrNotAFile
      else
        let original_size := size inode in
        let new_size := if n_bytes >=? original_size then 0 else original_size - n_bytes in
        let last_block_idx_to_keep :=
          if new_size >? 0 then Z.quot (new_size - 1) BLOCK_SIZE else -1 in
        let first := Z.to_nat (last_block_idx_to_keep + 1) in
        let (st1, inode1) := truncate_loop (seq first (12 - first)) st inode in
        let inode2 := set_modification_time (set_size inode1 new_size) (now env) in
        let st2 := sync_bitmaps (write_inode st1 inode_num inode2) in
        if (new_size =? 0) && (original_size >? 0)
        then printf st2 MsgTruncatedToZero
        else printf st2 (MsgShortened new_size).

(** [components] joined with '/', the most recently pushed first, as the
    final loop of [do_pwd] prints them. *)
Fixpoint join_components (components : list (list ascii)) : list ascii :=
  match components with
  | [] => []
  | [c] => c
  | c :: rest => c ++ [slash] ++ join_components rest
  end.

(** The [while (current_inode != ROOT_INODE_NUM)] loop of [do_pwd]; [depth]
    grows by one per iteration and the loop returns at [MAX_PATH_DEPTH], so
    65 iterations are the most it runs.  [components] holds the names
    pushed so far, the latest first. *)
Fixpoint pwd_loop (fuel : nat) (st : State) (depth : Z) (current_inode : Z)
         (components : list (list ascii)) : list ascii :=
  match fuel with
  | O => str "/<path too deep>"
  | S fuel' =>
    if current_inode =? ROOT_INODE_NUM then slash :: join_components components
    else
      let parent_inode := find_entry_in_dir st current_inode (str "..") in
      if depth >=? MAX_PATH_DEPTH then str "/<path too deep>"
      else
        match find_name_for_inode st parent_inode current_inode with
        | None => str "/<error: fs inconsistent>"
        | Some nm =>
          if parent_inode =? current_inode then slash :: join_components (nm :: components)
          else pwd_loop fuel' st (depth + 1) parent_inode (nm :: components)
        end
  end.

(** The line [do_pwd] prints. *)
Definition pwd_output (st : State) : list ascii :=
  if current_working_directory_inode st =? ROOT_INODE_NUM then str "/"
  else pwd_loop 66 st 0 (current_working_directory_inode st) [].

Definition do_pwd (st : State) : State := printf st (MsgPwd (pwd_output st)).

Definition do_cd (st : State) (path : list ascii) : State :=
  match path with
  | [] => st
  | _ =>
    let target_inode_num := get_path_inode st path in
    if target_inode_num =? -1 then printf st ErrCdNoSuch
    else
      let target_inode := read_inode st target_inode_num in
      if negb (mode target_inode =? 1) then printf st ErrCdNotDir
      else with_cwd st target_inode_num
  end.

(** The backing file [do_mkfs] writes: every block it does not write is a
    hole of the fresh file and reads as zeros. *)
Definition do_mkfs (env : Env) (size_bytes : Z) : Disk :=
  let num_inode_blocks := (MAX_INODES * sizeof_Inode + BLOCK_SIZE - 1) / BLOCK_SIZE in
  let num_total_blocks := to_int (Z.quot size_bytes BLOCK_SIZE) in
  let start := wrap32 (INODE_TABLE_START_BLOCK + num_inode_blocks) in
  let n := wrap32 (num_total_blocks - start) in
  let temp_sb :=
    mkSuperblock (wrap32 size_bytes) MAX_INODES
                 (if n >? MAX_DATA_BLOCKS then MAX_DATA_BLOCKS else n)
                 INODE_BITMAP_BLOCK DATA_BITMAP_BLOCK INODE_TABLE_START_BLOCK start in
  let local_inode_bitmap := set_bit (zeros INODE_BITMAP_BYTES) ROOT_INODE_NUM in
  let local_data_block_bitmap := set_bit (zeros DATA_BITMAP_BYTES) 0 in
  let root_inode :=
    mkInode 1 (2 * sizeof_DirectoryEntry) 2 (now env) (now env) (fresh_pointers 0) in
  let buffer := dot_entries env ROOT_INODE_NUM ROOT_INODE_NUM ++ zeros (BLOCK_BYTES - 2 * DE_BYTES) in
  mkDisk temp_sb local_inode_bitmap local_data_block_bitmap
         (fun i => if i =? ROOT_INODE_NUM then root_inode else zero_inode)
         (fun b => if b =? 0 then buffer else zeros BLOCK_BYTES).

(** Start-up of [main]: superblock and bitmaps are loaded from the disk. *)
Definition mount (d : Disk) : State :=
  mkState (dk_super d) (fit INODE_BITMAP_BYTES (dk_inode_bitmap d))
          (fit DATA_BITMAP_BYTES (dk_data_bitmap d))
          ROOT_INODE_NUM d [].

(** ** The command loop *)

Inductive Command :=
| Cd (path : list ascii)
| Pwd
| Ls (path : list ascii)
| Mkdir (path : list ascii)
| CpTo (host : option (list ascii)) (vdisk_path : list ascii)
| CpFrom (vdisk_path : list ascii)
| Rm (path : list ascii)
| Rmdir (path : list ascii)
| Ln (target_path link_path : list ascii)
| Df
| Append (path : list ascii) (n_bytes : Z)
| Truncate (path : list ascii) (n_bytes : Z).

(** One iteration of the loop of [main] after the line is split; an empty
    list is an argument that was not given (usage lines are not logged). *)
Definition step (env : Env) (st : State) (c : Command) : Outcome :=
  match c with
  | Cd [] => Done (do_cd st (str "/"))
  | Cd p => Done (do_cd st p)
  | Pwd => Done (do_pwd st)
  | Ls [] => Done (do_ls st (str "."))
  | Ls p => Done (do_ls st p)
  | Mkdir [] => Done st
  | Mkdir p => Done (do_mkdir env st p)
  | CpTo _ [] => Done st
  | CpTo h p => Done (do_cp_to_vdisk env st h p)
  | CpFrom [] => Done st
  | CpFrom p => Done (fst (do_cp_from_vdisk st p))
  | Rm [] => Done st
  | Rm p => Done (do_rm st p)
  | Rmdir [] => Done st
  | Rmdir p => Done (do_rmdir st p)
  | Ln [] _ | Ln _ [] => Done st
  | Ln t l => Done (do_ln env st t l)
  | Df => Done (do_df st)
  | Append [] _ => Done st
  | Append p n => do_append env st p n
  | Truncate [] _ => Done st
  | Truncate p n => Done (do_truncate env st p n)
  end.

Fixpoint run (env : Env) (st : State) (cs : list Command) : Outcome :=
  match cs with
  | [] => Done st
  | c :: cs' =>
    match step env st c with
    | Done st' => run env st' cs'
    | OutOfBounds i => OutOfBounds i
    end
  end.

(** A fresh image of [size_bytes] bytes, mounted. *)
Definition fresh (env : Env) (size_bytes : Z) : State := mount (do_mkfs env size_bytes).

Definition env0 : Env := mkEnv 1700000000 (fun _ => NUL).

(** ** Vocabulary of the properties *)

Definition MiB : Z := 1048576.

Definition cwd (st : State) : Z := current_working_directory_inode st.

(** Number of live slots (first name byte not NUL) of one block. *)
Definition live_in_block (buffer : list ascii) : nat :=
  length (filter (fun j => live (get_de buffer j)) (seq 0 entries_per_block)).

(** Number of live slots in all the blocks a directory inode points to. *)
Definition live_slots (st : State) (inode : Inode) : nat :=
  fold_right
    (fun b acc => if b =? UNUSED_BLOCK then acc else (live_in_block (read_block st b) + acc)%nat)
    O (firstn 12 (direct_blocks inode)).

(** The size law of a directory: [size / sizeof(DirectoryEntry)] is the
    number of live slots. *)
Definition size_law (st : State) (d : Z) : Prop :=
  size (read_inode st d) / sizeof_DirectoryEntry = Z.of_nat (live_slots st (read_inode st d)).

(** Inode numbers [0 .. num_inodes - 1]. *)
Definition inode_numbers (st : State) : list Z :=
  map Z.of_nat (seq 0 (Z.to_nat (num_inodes (sb st)))).

Definition allocated_inodes (st : State) : list Z :=
  filter (get_bit (inode_bitmap st)) (inode_numbers st).

(** Data block [b] is one of the direct pointers of an allocated inode. *)
Definition listed_by_allocated_inode (st : State) (b : Z) : bool :=
  existsb (fun i => existsb (Z.eqb b) (firstn 12 (direct_blocks (read_inode st i))))
          (allocated_inodes st).

(** Every live slot of every block of a directory, whether or not a walk
    bounded by [size] would reach it. *)
Definition all_live_entries (st : State) (inode : Inode) : list DirectoryEntry :=
  flat_map
    (fun b =>
       if b =? UNUSED_BLOCK then []
       else filter live (map (get_de (read_block st b)) (seq 0 entries_per_block)))
    (firstn 12 (direct_blocks inode)).

(** Inode numbers named by the live slots of directory [i]. *)
Definition entry_targets (st : State) (i : Z) : list Z :=
  if mode (read_inode st i) =? 1
  then map (fun e => to_int (inode_number e)) (all_live_entries st (read_inode st i))
  else [].

Definition mem (x : Z) (l : list Z) : bool := existsb (Z.eqb x) l.

(** Inodes reachable from [seen] through directory entries, by saturation. *)
Fixpoint reach (fuel : nat) (st : State) (seen : list Z) : list Z :=
  match fuel with
  | O => seen
  | S fuel' =>
    let next := nodup Z.eq_dec
                  (filter (fun x => negb (mem x seen)) (flat_map (entry_targets st) seen)) in
    match next with
    | [] => seen
    | _ => reach fuel' st (seen ++ next)
    end
  end.

Definition reachable_from_root (st : State) (i : Z) : bool :=
  mem i (reach (Z.to_nat (num_inodes (sb st))) st [ROOT_INODE_NUM]).

(** The bitmap-consistency invariant of the specification. *)
Definition bitmap_consistent (st : State) : Prop :=
  (forall i, 0 <= i < num_inodes (sb st) ->
             get_bit (inode_bitmap st) i = true -> reachable_from_root st i = true)
  /\ (forall b, 0 <= b < num_data_blocks (sb st) ->
                get_bit (data_block_bitmap st) b = true ->
                listed_by_allocated_inode st b = true)
  /\ (forall i, reachable_from_root st i = true -> get_bit (inode_bitmap st) i = true)
  /\ (forall i k b, get_bit (inode_bitmap st) i = true ->
                    nth_error (firstn 12 (direct_blocks (read_inode st i))) k = Some b ->
                    b <> UNUSED_BLOCK -> get_bit (data_block_bitmap st) b = true).

(** The CWD refers to an allocated directory inode. *)
Definition cwd_valid (st : State) : Prop :=
  get_bit (inode_bitmap st) (cwd st) = true /\ mode (read_inode st (cwd st)) = 1.

(** Free inodes and data blocks, as [do_df] counts them. *)
Definition free_inodes (st : State) : Z :=
  num_inodes (sb st) - count_bits (inode_bitmap st) (Z.to_nat (num_inodes (sb st))) 0.
Definition free_data_blocks (st : State) : Z :=
  num_data_blocks (sb st)
  - count_bits (data_block_bitmap st) (Z.to_nat (num_data_blocks (sb st))) 0.

(** *** Command sequences used below *)

Definition tombstone_reuse : list Command :=
  [Mkdir (str "/a"); Mkdir (str "/b"); Rmdir (str "/a"); Mkdir (str "/c")].

(** Thirteen directories [/da] .. [/dm]: with [.] and [..] they fill the
    fifteen slots of the root's only block. *)
Definition thirteen_dirs : list Command :=
  map (fun k => Mkdir (str "/d" ++ [ascii_of_nat (97 + k)])) (seq 0 13).

(** An image with 13 + 15 blocks: fifteen data blocks. *)
Definition small_image : Z := 28 * 4096.

Definition block_of_A : list ascii := repeat "A"%char BLOCK_BYTES.

Definition append_after_full_block : list Command :=
  [CpTo (Some block_of_A) (str "/f"); Append (str "/f") 1].

Definition append_to_empty_file : list Command :=
  [CpTo (Some []) (str "/e"); Append (str "/e") 1].

Definition rmdir_of_cwd : list Command :=
  [Mkdir (str "/a"); Cd (str "/a"); Rmdir (str "/a")].


Definition stack_of (c : ascii) : nat -> ascii := fun _ => c.

(** *** Further command sequences *)

(** Fourteen subdirectories force [/d] to take a second block; once they
    are removed again [/d] is empty and can be removed itself. *)
Definition grow_and_remove : list Command :=
  Mkdir (str "/d")
  :: map (fun k => Mkdir (str "/d/s" ++ [ascii_of_nat (97 + k)])) (seq 0 14)
  ++ map (fun k => Rmdir (str "/d/s" ++ [ascii_of_nat (97 + k)])) (seq 0 14)
  ++ [Rmdir (str "/d")].

Definition hide_then_remove_parent : list Command :=
  [Mkdir (str "/d"); Mkdir (str "/d/a"); Mkdir (str "/d/b"); Rmdir (str "/d/a");
   Mkdir (str "/d/c"); Rmdir (str "/d/c"); Rmdir (str "/d")].

(** The state a command sequence leads to (the start state if an index
    left its array on the way). *)
Definition state_after (env : Env) (st : State) (cs : list Command) : State :=
  match run env st cs with
  | Done st' => st'
  | OutOfBounds _ => st
  end.

Definition two_block_file : list Command :=
  [CpTo (Some (repeat "A"%char (2 * BLOCK_BYTES))) (str "/big")].

(** *** Frames *)

(** [st'] has the inode bitmap, the CWD and every inode mode of [st]. *)
Definition keeps_dirs (st st' : State) : Prop :=
  inode_bitmap st' = inode_bitmap st
  /\ cwd st' = cwd st
  /\ forall m, mode (read_inode st' m) = mode (read_inode st m).

(** Inode [c] is allocated and a directory. *)
Definition valid_at (c : Z) (st : State) : Prop :=
  get_bit (inode_bitmap st) c = true /\ mode (read_inode st c) = 1.

(** *** Consistency of the directory tree *)

(** A path component: not empty, no ['/']. *)
Definition valid_component (nm : list ascii) : bool :=
  negb (length nm =? 0)%nat && forallb (fun c => negb (Ascii.eqb c slash)) nm.

(** What [path_walk] computes on a path given by its components: a lookup
    per component, with the directory check between two components. *)
Fixpoint walk_components (st : State) (p : Z) (comps : list (list ascii)) : Z :=
  match comps with
  | [] => p
  | nm :: rest =>
    let q := find_entry_in_dir st p nm in
    if q =? -1 then -1
    else if negb (mode (read_inode st q) =? 1) && negb (length rest =? 0)%nat then -1
    else walk_components st q rest
  end.




(** [d] is the directory that the components [names] lead to from the
    root, each step a parent and its child as [tree_ok] describes them. *)
Inductive canonical (st : State) : list (list ascii) -> Z -> Prop :=
| canonical_root : canonical st [] ROOT_INODE_NUM
| canonical_child names p nm d :
    canonical st names p ->
    valid_component nm = true ->
    0 < d < num_inodes (sb st) ->
    d <> p ->
    get_bit (inode_bitmap st) d = true ->
    mode (read_inode st d) = 1 ->
    find_entry_in_dir st p nm = d ->
    find_entry_in_dir st d (str "..") = p ->
    find_name_for_inode st p d = Some nm ->
    canonical st (names ++ [nm]) d.

(** Two states over the same disk, superblock and inode bitmap. *)
Definition same_fs (st st' : State) : Prop :=
  virtual_disk st' = virtual_disk st /\ sb st' = sb st
  /\ inode_bitmap st' = inode_bitmap st.

Definition two_levels : list Command := [Mkdir (str "/a"); Mkdir (str "/a/b")].

Definition two_levels_state : State := state_after env0 (fresh env0 MiB) two_levels.

Definition two_block_state : State := state_after env0 (fresh env0 MiB) two_block_file.

(** *** Vocabulary of the import/export round trip *)

(** The pointers of a directory up to the first unused one: the blocks a
    directory walk can reach. *)
Fixpoint used_prefix (blocks : list Z) : list Z :=
  match blocks with
  | [] => []
  | b :: rest => if b =? UNUSED_BLOCK then [] else b :: used_prefix rest
  end.

(** The fifteen slots of a directory block. *)
Definition block_slots (buffer : list ascii) : list DirectoryEntry :=
  map (get_de buffer) (seq 0 entries_per_block).

(** The slots of a directory in block-major order. *)
Definition dir_slots (st : State) (inode : Inode) : list DirectoryEntry :=
  flat_map (fun b => block_slots (read_block st b))
           (used_prefix (firstn 12 (direct_blocks inode))).

(** A directory without holes: its size is a whole number [t] of entries
    and its live slots are exactly the first [t]. *)
Definition packed (st : State) (inode : Inode) : bool :=
  let t := Z.to_nat (size inode / sizeof_DirectoryEntry) in
  let slots := dir_slots st inode in
  (size inode =? sizeof_DirectoryEntry * Z.of_nat t)
  && (t <=? length slots)%nat
  && forallb live (firstn t slots)
  && forallb (fun e => negb (live e)) (skipn t slots).

Fixpoint nodupb (l : list Z) : bool :=
  match l with
  | [] => true
  | x :: rest => negb (mem x rest) && nodupb rest
  end.

Definition used_pointers (inode : Inode) : list Z :=
  filter (fun b => negb (b =? UNUSED_BLOCK)) (direct_blocks inode).

(** The data blocks the allocated inodes point to. *)
Definition owned_blocks (st : State) : list Z :=
  flat_map (fun i => used_pointers (read_inode st i)) (allocated_inodes st).

(** The check of one allocated inode: twelve pointers, each unused or an
    allocated block; a directory lists itself as [.] and every entry a walk
    can see names an allocated inode. *)
Definition inode_ok (st : State) (i : Z) : bool :=
  let inode := read_inode st i in
  (length (direct_blocks inode) =? 12)%nat
  && forallb (fun b => (0 <=? b) && (b <? num_data_blocks (sb st))
                       && get_bit (data_block_bitmap st) b)
             (used_pointers inode)
  && (negb (mode inode =? 1)
      || ((find_entry_in_dir st i (str ".") =? i)
          && forallb (fun x => let t := to_int (inode_number (snd x)) in
                               (0 <=? t) && (t <? num_inodes (sb st))
                               && get_bit (inode_bitmap st) t)
                     (dir_entries st inode))).

(** Bitmaps and inode table agree: the geometry fits the bitmaps, root and
    CWD are allocated, every allocated inode passes [inode_ok], and no data
    block is pointed to twice. *)
Definition alloc_ok (st : State) : bool :=
  (0 <? num_inodes (sb st))
  && (num_inodes (sb st) <=? 8 * Z.of_nat (length (inode_bitmap st)))
  && (num_data_blocks (sb st) <=? 8 * Z.of_nat (length (data_block_bitmap st)))
  && (num_data_blocks (sb st) <=? MAX_DATA_BLOCKS)
  && (num_inodes (sb st) <=? MAX_INODES)
  && get_bit (inode_bitmap st) ROOT_INODE_NUM
  && (0 <=? cwd st) && (cwd st <? num_inodes (sb st))
  && get_bit (inode_bitmap st) (cwd st)
  && forallb (inode_ok st) (allocated_inodes st)
  && nodupb (owned_blocks st).

(** A path from its components. *)
Definition mkpath (absolute : bool) (comps : list (list ascii)) : list ascii :=
  (if absolute then [slash] else []) ++ join_components comps.

(** Number of blocks a file of [n] bytes takes. *)
Definition blocks_needed (n : nat) : Z := (Z.of_nat n + BLOCK_SIZE - 1) / BLOCK_SIZE.

(** No NUL byte: the list is a C string. *)
Definition nul_free (s : list ascii) : bool := forallb (fun c => negb (is_nul c)) s.

(** The lookup of [find_entry_in_dir] on the list of entries it walks. *)
Definition lookup_in (entries : list DirectoryEntry) (nm : list ascii) : Z :=
  match find (fun e => strcmp_eq (name e) nm) entries with
  | Some e => to_int (inode_number e)
  | None => -1
  end.

(** The entries a walk over a directory visits. *)
Definition visible (st : State) (inode : Inode) : list DirectoryEntry :=
  map snd (dir_entries st inode).

(** [st'] has kept every data block that is allocated in [st]: its bit and
    its contents. *)
Definition agree (st st' : State) : Prop :=
  forall b, get_bit (data_block_bitmap st) b = true ->
            read_block st' b = read_block st b
            /\ get_bit (data_block_bitmap st') b = true.



(** The commands that take a new inode. *)
Definition takes_inode (c : Command) : bool :=
  match c with
  | Mkdir _ | CpTo _ _ => true
  | _ => false
  end.

(** Inode [i] is in range and its bitmap bit is set. *)
Definition allocated (st : State) (i : Z) : Prop :=
  0 <= i < num_inodes (sb st) /\ get_bit (inode_bitmap st) i = true.

(** *** Further states *)

(** One empty file and 177 hard links to it in the root: with [.] and
    [..] the root holds 180 entries, twelve full blocks, and only inodes 0
    and 1 are in use. *)
Definition full_root : list Command :=
  CpTo (Some []) (str "/f")
  :: map (fun k => Ln (str "/f") (slash :: repeat "l"%char (S k))) (seq 0 177).

Definition full_root_state : State := state_after env0 (fresh env0 MiB) full_root.

(** An image with fourteen data blocks after [thirteen_dirs]: the root's
    block is full and no data block is free. *)
Definition no_block_state : State :=
  state_after env0 (fresh env0 (27 * 4096)) thirteen_dirs.

(** An image with two data blocks: the root's and one more. *)
Definition two_data_blocks : Z := 15 * 4096.

Definition small_file : list Command := [CpTo (Some (str "hello")) (str "/h")].

Definition small_file_state : State := state_after env0 (fresh env0 MiB) small_file.



(* ================================================================== *)
(** * Properties *)
(* ================================================================== *)

Lemma length_zeros n : length (zeros n) = n.
Proof. apply repeat_length. Qed.

Lemma length_fit n b : length (fit n b) = n.
Proof.
  unfold fit. rewrite length_app, length_firstn, length_zeros. lia.
Qed.

Lemma fit_id n b : length b = n -> fit n b = b.
Proof.
  intros H. unfold fit. rewrite firstn_all2 by lia.
  replace (n - length b)%nat with O by lia. apply app_nil_r.
Qed.

Lemma fit_fit n b : fit n (fit n b) = fit n b.
Proof. apply fit_id, length_fit. Qed.

Lemma length_upd_nth {A} (l : list A) n x : length (upd_nth n x l) = length l.
Proof.
  revert n; induction l as [|h t IH]; intros [|n]; simpl; auto.
Qed.

Lemma nth_upd_nth_same {A} (l : list A) n x d :
  (n < length l)%nat -> nth n (upd_nth n x l) d = x.
Proof.
  revert n; induction l as [|h t IH]; intros [|n] H; simpl in *; try lia; auto.
  apply IH; lia.
Qed.

Lemma nth_upd_nth_other {A} (l : list A) n m x d :
  n <> m -> nth m (upd_nth n x l) d = nth m l d.
Proof.
  revert n m; induction l as [|h t IH]; intros [|n] [|m] H; simpl; auto; try congruence.
Qed.

Lemma nth_upd_nth_out {A} (l : list A) n x :
  (length l <= n)%nat -> upd_nth n x l = l.
Proof.
  revert n; induction l as [|h t IH]; intros [|n] H; simpl in *; auto; try lia.
  f_equal. apply IH. lia.
Qed.

(** Bits *)
Lemma byteZ_Zbyte z : byteZ (Zbyte z) = z mod 256.
Proof.
  unfold byteZ, Zbyte. rewrite N_ascii_embedding.
  - apply Z2N.id. apply Z.mod_pos_bound. lia.
  - assert (0 <= z mod 256 < 256) by (apply Z.mod_pos_bound; lia).
    change 256%N with (Z.to_N 256). apply Z2N.inj_lt; lia.
Qed.

Lemma land_bit x j : 0 <= j ->
  negb (Z.land x (Z.shiftl 1 j) =? 0) = Z.testbit x j.
Proof.
  intros Hj. rewrite Z.shiftl_1_l.
  destruct (Z.testbit x j) eqn:E.
  - apply negb_true_iff, Z.eqb_neq. intros H.
    assert (Z.testbit (Z.land x (2 ^ j)) j = true).
    { rewrite Z.land_spec, E, Z.pow2_bits_true; auto. }
    rewrite H in H0. rewrite Z.bits_0 in H0. discriminate.
  - apply negb_false_iff, Z.eqb_eq. apply Z.bits_inj'. intros n Hn.
    rewrite Z.land_spec, Z.bits_0. destruct (Z.eq_dec j n) as [->|Hne].
    + rewrite E. reflexivity.
    + rewrite Z.pow2_bits_false by auto. apply andb_false_r.
Qed.

Lemma testbit_mod256 z j : 0 <= j < 8 -> Z.testbit (z mod 256) j = Z.testbit z j.
Proof.
  intros H. change 256 with (2 ^ 8). apply Z.mod_pow2_bits_low. lia.
Qed.

Lemma bit_index_split n m : 0 <= n -> 0 <= m -> n <> m ->
  n / 8 <> m / 8 \/ (n / 8 = m / 8 /\ n mod 8 <> m mod 8).
Proof.
  intros. destruct (Z.eq_dec (n / 8) (m / 8)); auto. right. split; auto.
  intros E. apply H1. rewrite (Z.div_mod n 8), (Z.div_mod m 8) by lia. lia.
Qed.

Lemma get_bit_clear_bit bm n m :
  get_bit (clear_bit bm n) m = if n =? m then false else get_bit bm m.
Proof.
  unfold get_bit, clear_bit.
  destruct (m <? 0) eqn:Hm; [destruct (n =? m); reflexivity|].
  destruct (n <? 0) eqn:Hn.
  { destruct (Z.eqb_spec n m); [lia|reflexivity]. }
  apply Z.ltb_ge in Hm, Hn.
  assert (Hj : 0 <= m mod 8 < 8) by (apply Z.mod_pos_bound; lia).
  assert (Hk : 0 <= n mod 8 < 8) by (apply Z.mod_pos_bound; lia).
  rewrite !land_bit by lia.
  destruct (Z.eqb_spec n m) as [->|Hne].
  - destruct (Nat.lt_ge_cases (Z.to_nat (m / 8)) (length bm)).
    + rewrite nth_upd_nth_same by auto. rewrite byteZ_Zbyte, testbit_mod256 by lia.
      rewrite Z.land_spec, Z.lnot_spec, Z.shiftl_1_l, Z.pow2_bits_true by lia.
      apply andb_false_r.
    + rewrite nth_upd_nth_out by auto. rewrite nth_overflow by auto.
      apply Z.bits_0.
  - destruct (bit_index_split n m Hn Hm Hne) as [Hd|[Hd Hb]].
    + rewrite nth_upd_nth_other; auto.
      intros E. apply Hd. apply Z2Nat.inj in E; auto; apply Z.div_pos; lia.
    + rewrite Hd. destruct (Nat.lt_ge_cases (Z.to_nat (m / 8)) (length bm)).
      * rewrite nth_upd_nth_same by auto. rewrite byteZ_Zbyte, testbit_mod256 by lia.
        rewrite Z.land_spec, Z.lnot_spec, Z.shiftl_1_l, Z.pow2_bits_false by lia.
        apply andb_true_r.
      * rewrite nth_upd_nth_out by auto. reflexivity.
Qed.

Lemma get_bit_set_bit_other bm n m : n <> m ->
  get_bit (set_bit bm n) m = get_bit bm m.
Proof.
  intros Hne. unfold get_bit, set_bit.
  destruct (m <? 0) eqn:Hm; [reflexivity|].
  destruct (n <? 0) eqn:Hn; [reflexivity|].
  apply Z.ltb_ge in Hm, Hn.
  assert (Hj : 0 <= m mod 8 < 8) by (apply Z.mod_pos_bound; lia).
  assert (Hk : 0 <= n mod 8 < 8) by (apply Z.mod_pos_bound; lia).
  rewrite !land_bit by lia.
  destruct (bit_index_split n m Hn Hm Hne) as [Hd|[Hd Hb]].
  - rewrite nth_upd_nth_other; auto.
    intros E. apply Hd. apply Z2Nat.inj in E; auto; apply Z.div_pos; lia.
  - rewrite Hd. destruct (Nat.lt_ge_cases (Z.to_nat (m / 8)) (length bm)).
    + rewrite nth_upd_nth_same by auto. rewrite byteZ_Zbyte, testbit_mod256 by lia.
      rewrite Z.lor_spec, Z.shiftl_1_l, Z.pow2_bits_false by lia.
      apply orb_false_r.
    + rewrite nth_upd_nth_out by auto. reflexivity.
Qed.

Lemma get_bit_set_bit_same bm n :
  0 <= n -> (Z.to_nat (n / 8) < length bm)%nat -> get_bit (set_bit bm n) n = true.
Proof.
  intros Hn Hlen. unfold get_bit, set_bit.
  destruct (n <? 0) eqn:E; [apply Z.ltb_lt in E; lia|].
  assert (Hk : 0 <= n mod 8 < 8) by (apply Z.mod_pos_bound; lia).
  rewrite land_bit by lia. rewrite nth_upd_nth_same by auto.
  rewrite byteZ_Zbyte, testbit_mod256 by lia.
  rewrite Z.lor_spec, Z.shiftl_1_l, Z.pow2_bits_true by lia. apply orb_true_r.
Qed.

Lemma get_bit_true_range bm n : get_bit bm n = true -> 0 <= n /\ (Z.to_nat (n / 8) < length bm)%nat.
Proof.
  unfold get_bit. destruct (n <? 0) eqn:E; [discriminate|]. apply Z.ltb_ge in E.
  intros H. split; auto. destruct (Nat.lt_ge_cases (Z.to_nat (n / 8)) (length bm)); auto.
  rewrite nth_overflow in H by auto. simpl in H. discriminate.
Qed.

(** ** The truncate loop *)

Lemma truncate_loop_frame idxs : forall st inode st' inode',
  truncate_loop idxs st inode = (st', inode') ->
  virtual_disk st' = virtual_disk st
  /\ inode_bitmap st' = inode_bitmap st
  /\ cwd st' = cwd st /\ sb st' = sb st /\ stdout st' = stdout st
  /\ mode inode' = mode inode /\ size inode' = size inode
  /\ link_count inode' = link_count inode
  /\ creation_time inode' = creation_time inode.
Proof.
  induction idxs as [|i idxs IH]; simpl; intros st inode st' inode' H.
  - inversion H; subst. repeat split.
  - destruct (nth i (direct_blocks inode) UNUSED_BLOCK =? UNUSED_BLOCK).
    + eauto.
    + apply IH in H. simpl in H. exact H.
Qed.

Lemma truncate_loop_pointers idxs : forall st inode st' inode',
  truncate_loop idxs st inode = (st', inode') ->
  forall i,
    nth i (direct_blocks inode') UNUSED_BLOCK
    = if in_dec Nat.eq_dec i idxs then UNUSED_BLOCK
      else nth i (direct_blocks inode) UNUSED_BLOCK.
Proof.
  induction idxs as [|k idxs IH]; simpl; intros st inode st' inode' H i.
  - inversion H; subst. reflexivity.
  - destruct (nth k (direct_blocks inode) UNUSED_BLOCK =? UNUSED_BLOCK) eqn:E.
    + rewrite (IH _ _ _ _ H i).
      destruct (Nat.eq_dec k i) as [->|Hne]; destruct (in_dec Nat.eq_dec i idxs); auto.
      apply Z.eqb_eq in E. auto.
    + rewrite (IH _ _ _ _ H i). simpl.
      destruct (Nat.eq_dec k i) as [->|Hne]; destruct (in_dec Nat.eq_dec i idxs); auto.
      * destruct (Nat.lt_ge_cases i (length (direct_blocks inode))).
        -- apply nth_upd_nth_same; auto.
        -- rewrite nth_upd_nth_out by auto. apply Z.eqb_neq in E.
           rewrite nth_overflow in E by auto. congruence.
      * apply nth_upd_nth_other; auto.
Qed.

(** The bits the loop clears are those of the used pointers it visits. *)
Lemma truncate_loop_bits idxs : forall st inode st' inode',
  truncate_loop idxs st inode = (st', inode') ->
  forall b,
    get_bit (data_block_bitmap st') b
    = if existsb (fun i => negb (nth i (direct_blocks inode) UNUSED_BLOCK =? UNUSED_BLOCK)
                           && (to_int (nth i (direct_blocks inode) UNUSED_BLOCK) =? b)) idxs
      then false else get_bit (data_block_bitmap st) b.
Proof.
  induction idxs as [|k idxs IH]; simpl; intros st inode st' inode' H b.
  - inversion H; subst. reflexivity.
  - destruct (nth k (direct_blocks inode) UNUSED_BLOCK =? UNUSED_BLOCK) eqn:E.
    + simpl. eauto.
    + simpl. rewrite (IH _ _ _ _ H b). simpl.
      rewrite get_bit_clear_bit.
      set (p := fun i => negb (nth i (direct_blocks inode) UNUSED_BLOCK =? UNUSED_BLOCK)
                         && (to_int (nth i (direct_blocks inode) UNUSED_BLOCK) =? b)).
      set (q := fun i => negb (nth i (upd_nth k UNUSED_BLOCK (direct_blocks inode)) UNUSED_BLOCK
                               =? UNUSED_BLOCK)
                         && (to_int (nth i (upd_nth k UNUSED_BLOCK (direct_blocks inode))
                                         UNUSED_BLOCK) =? b)).
      destruct (to_int (nth k (direct_blocks inode) UNUSED_BLOCK) =? b) eqn:Eb.
      * simpl. destruct (existsb q idxs); reflexivity.
      * simpl. destruct (existsb q idxs) eqn:Eq.
        -- apply existsb_exists in Eq. destruct Eq as (i & Hi & Hq).
           assert (Hp : existsb p idxs = true).
           { apply existsb_exists. exists i. split; auto. unfold q in Hq. unfold p.
             destruct (Nat.eq_dec k i) as [->|Hne].
             - destruct (Nat.lt_ge_cases i (length (direct_blocks inode))).
               + rewrite nth_upd_nth_same in Hq by auto. discriminate.
               + rewrite nth_upd_nth_out in Hq by auto. exact Hq.
             - rewrite nth_upd_nth_other in Hq by auto. exact Hq. }
           rewrite Hp. reflexivity.
        -- destruct (existsb p idxs) eqn:Ep; auto.
           apply existsb_exists in Ep. destruct Ep as (i & Hi & Hp).
           assert (Hq : existsb q idxs = true).
           { apply existsb_exists. exists i. split; auto. unfold p in Hp. unfold q.
             destruct (Nat.eq_dec k i) as [->|Hne].
             - apply andb_true_iff in Hp. destruct Hp as [_ Hp]. congruence.
             - rewrite nth_upd_nth_other by auto. exact Hp. }
           congruence.
Qed.

Lemma in_seq_from_keep (keep : Z) (i : nat) : -1 <= keep ->
  In i (seq (Z.to_nat (keep + 1)) (12 - Z.to_nat (keep + 1)))
  <-> keep < Z.of_nat i < 12.
Proof.
  intros H. rewrite in_seq. lia.
Qed.

(** X28 (truncate contract).  For an existing file and [n > 0], [do_truncate]
    sets the size to [max(0, size - n)]; every pointer above
    [last_block_to_keep] becomes [UNUSED_BLOCK] and the bit of the block it
    held is cleared; the pointers up to [last_block_to_keep] are unchanged;
    the bit of every block that is not held by a freed pointer is
    unchanged (so exactly those blocks are freed); no data block is
    rewritten. *)
Theorem truncate_contract env st path n :
  0 < n ->
  get_path_inode st path <> -1 ->
  mode (read_inode st (get_path_inode st path)) = 0 ->
  let f := get_path_inode st path in
  let old := read_inode st f in
  let st' := do_truncate env st path n in
  let new := read_inode st' f in
  let new_size := Z.max 0 (size old - n) in
  let last_block_to_keep := if new_size =? 0 then -1 else (new_size - 1) / BLOCK_SIZE in
  let freed i := last_block_to_keep < Z.of_nat i < INODE_DIRECT_POINTERS
                 /\ nth i (direct_blocks old) UNUSED_BLOCK <> UNUSED_BLOCK in
  size new = new_size
  /\ (forall i, last_block_to_keep < Z.of_nat i < INODE_DIRECT_POINTERS ->
                nth i (direct_blocks new) UNUSED_BLOCK = UNUSED_BLOCK)
  /\ (forall i, freed i ->
                get_bit (data_block_bitmap st')
                        (to_int (nth i (direct_blocks old) UNUSED_BLOCK)) = false)
  /\ (forall i, Z.of_nat i <= last_block_to_keep ->
                nth i (direct_blocks new) UNUSED_BLOCK = nth i (direct_blocks old) UNUSED_BLOCK)
  /\ (forall b, (forall i, freed i -> to_int (nth i (direct_blocks old) UNUSED_BLOCK) <> b) ->
                get_bit (data_block_bitmap st') b = get_bit (data_block_bitmap st) b)
  /\ (forall b, read_block st' b = read_block st b).
Proof.
  intros Hn Hf Hm f old st' new new_size keep freed.
  assert (Hsz : (if n >=? size old then 0 else size old - n) = new_size).
  { unfold new_size. destruct (n >=? size old) eqn:E; lia. }
  assert (Hkeep : (if new_size >? 0 then Z.quot (new_size - 1) BLOCK_SIZE else -1) = keep).
  { unfold keep. assert (0 <= new_size) by (unfold new_size; lia).
    destruct (new_size =? 0) eqn:E0; destruct (new_size >? 0) eqn:E1; try lia.
    apply Z.quot_div_nonneg; unfold BLOCK_SIZE; lia. }
  assert (Hk : -1 <= keep).
  { unfold keep. destruct (new_size =? 0) eqn:E0; [lia|].
    assert (0 <= (new_size - 1) / BLOCK_SIZE); [|lia].
    apply Z.div_pos; unfold BLOCK_SIZE, new_size in *; lia. }
  subst new st'. unfold do_truncate.
  destruct (n <=? 0) eqn:En; [lia|].
  fold f. destruct (f =? -1) eqn:Ef; [apply Z.eqb_eq in Ef; contradiction|].
  fold old. unfold f in Hm. fold f in Hm. unfold old. rewrite Hm. simpl negb. cbv iota.
  fold old. rewrite Hsz, Hkeep.
  destruct (truncate_loop _ st old) as [st1 inode1] eqn:Hloop.
  pose proof (truncate_loop_frame _ _ _ _ _ Hloop) as (Hd & Hib & Hc & Hs & Ho & Hmo & Hsi & Hl & Hct).
  pose proof (truncate_loop_pointers _ _ _ _ _ Hloop) as Hp.
  pose proof (truncate_loop_bits _ _ _ _ _ Hloop) as Hb.
  set (inode2 := set_modification_time (set_size inode1 new_size) (now env)).
  set (st2 := sync_bitmaps (write_inode st1 f inode2)).
  assert (Hr : read_inode st2 f = inode2).
  { unfold st2, read_inode, sync_bitmaps, write_inode. simpl. rewrite Z.eqb_refl. reflexivity. }
  assert (Hbm : data_block_bitmap st2 = data_block_bitmap st1) by reflexivity.
  assert (Hblk : forall b, read_block st2 b = read_block st b).
  { intros b. unfold st2, read_block, sync_bitmaps, write_inode. simpl. rewrite Hd. reflexivity. }
  assert (Goal :
    size (read_inode st2 f) = new_size
    /\ (forall i, keep < Z.of_nat i < INODE_DIRECT_POINTERS ->
                  nth i (direct_blocks (read_inode st2 f)) UNUSED_BLOCK = UNUSED_BLOCK)
    /\ (forall i, freed i ->
                  get_bit (data_block_bitmap st2)
                          (to_int (nth i (direct_blocks old) UNUSED_BLOCK)) = false)
    /\ (forall i, Z.of_nat i <= keep ->
                  nth i (direct_blocks (read_inode st2 f)) UNUSED_BLOCK
                  = nth i (direct_blocks old) UNUSED_BLOCK)
    /\ (forall b, (forall i, freed i -> to_int (nth i (direct_blocks old) UNUSED_BLOCK) <> b) ->
                  get_bit (data_block_bitmap st2) b = get_bit (data_block_bitmap st) b)
    /\ (forall b, read_block st2 b = read_block st b)).
  { rewrite Hr, Hbm. unfold inode2. simpl.
    split; [reflexivity|]. split; [|split; [|split; [|split]]].
    - intros i Hi. rewrite Hp.
      destruct (in_dec _ _ _) as [_|Hnin]; auto.
      exfalso. apply Hnin. apply in_seq_from_keep; auto.
    - intros i [Hi Hu]. rewrite Hb.
      match goal with |- (if ?c then _ else _) = _ => assert (Hc' : c = true) end.
      { apply existsb_exists. exists i. split; [apply in_seq_from_keep; auto|].
        apply andb_true_iff. split; [apply negb_true_iff, Z.eqb_neq; auto|apply Z.eqb_refl]. }
      rewrite Hc'. reflexivity.
    - intros i Hi. rewrite Hp.
      destruct (in_dec _ _ _) as [Hin|_]; auto.
      apply in_seq_from_keep in Hin; auto. lia.
    - intros b Hfree. rewrite Hb.
      match goal with |- (if ?c then _ else _) = _ => destruct c eqn:Hc' end; auto.
      apply existsb_exists in Hc'. destruct Hc' as (i & Hin & Hi).
      apply andb_true_iff in Hi. destruct Hi as [Hu He].
      apply in_seq_from_keep in Hin; auto.
      exfalso. apply (Hfree i).
      + split; auto. apply negb_true_iff, Z.eqb_neq in Hu. exact Hu.
      + apply Z.eqb_eq. exact He.
    - exact Hblk. }
  destruct ((new_size =? 0) && (size old >? 0)); exact Goal.
Qed.

(** ** What the operations leave alone *)

Lemma keeps_refl st : keeps_dirs st st.
Proof. repeat split. Qed.

Lemma keeps_trans a b c : keeps_dirs a b -> keeps_dirs b c -> keeps_dirs a c.
Proof.
  intros (H1 & H2 & H3) (H4 & H5 & H6).
  split; [congruence|]. split; [congruence|].
  intros m. rewrite H6. apply H3.
Qed.

Lemma keeps_printf st m : keeps_dirs st (printf st m).
Proof. repeat split. Qed.

Lemma keeps_sync st : keeps_dirs st (sync_bitmaps st).
Proof. repeat split. Qed.

Lemma keeps_write_block st b buf : keeps_dirs st (write_block st b buf).
Proof. repeat split. Qed.

Lemma keeps_with_data_bitmap st bm : keeps_dirs st (with_data_bitmap st bm).
Proof. repeat split. Qed.

Lemma keeps_free_data_block st b : keeps_dirs st (free_data_block st b).
Proof. repeat split. Qed.

Lemma keeps_alloc_data_block st b st1 :
  alloc_data_block st = (b, st1) -> keeps_dirs st st1.
Proof.
  unfold alloc_data_block. destruct (_ =? -1); intros H; inversion H; subst; repeat split.
Qed.

Lemma read_write_inode st n x m :
  read_inode (write_inode st n x) m = if m =? n then x else read_inode st m.
Proof. reflexivity. Qed.

Lemma keeps_write_inode st n x :
  mode x = mode (read_inode st n) -> keeps_dirs st (write_inode st n x).
Proof.
  intros H. repeat split. intros m. rewrite read_write_inode.
  destruct (Z.eqb_spec m n); subst; auto.
Qed.

Create HintDb keeps.
#[local] Hint Resolve keeps_refl keeps_printf keeps_sync keeps_write_block
  keeps_with_data_bitmap keeps_free_data_block keeps_write_inode : keeps.

Lemma keeps_add_entry_loop env idxs : forall st d dir_inode e,
  mode dir_inode = mode (read_inode st d) ->
  keeps_dirs st (add_entry_loop env idxs st d dir_inode e).
Proof.
  induction idxs as [|i idxs IH]; intros st d dir_inode e Hm; cbn [add_entry_loop].
  - auto with keeps.
  - destruct (nth i (direct_blocks dir_inode) UNUSED_BLOCK =? UNUSED_BLOCK).
    + destruct (alloc_data_block st) as [b st1] eqn:Ha.
      pose proof (keeps_alloc_data_block _ _ _ Ha) as K.
      destruct (b =? -1).
      * eapply keeps_trans; eauto with keeps.
      * eapply keeps_trans; [exact K|].
        destruct (first_free_slot (zeros BLOCK_BYTES)) as [j|].
        -- eapply keeps_trans; [apply keeps_write_block|].
           apply keeps_write_inode. simpl.
           destruct (_ >=? _); simpl; rewrite Hm; symmetry; apply K.
        -- apply IH. simpl. rewrite Hm. symmetry. apply K.
    + destruct (first_free_slot (read_block st _)) as [j|].
      * eapply keeps_trans; [apply keeps_write_block|].
        apply keeps_write_inode. simpl.
        destruct (_ >=? _); simpl; exact Hm.
      * apply IH. exact Hm.
Qed.

Lemma keeps_add_entry_to_dir env st d nm n :
  keeps_dirs st (add_entry_to_dir env st d nm n).
Proof. apply keeps_add_entry_loop. reflexivity. Qed.

Lemma keeps_do_rm_entry st p nm : keeps_dirs st (do_rm_entry st p nm).
Proof.
  unfold do_rm_entry. destruct (find _ _) as [[[i j] e]|]; auto with keeps.
Qed.

Lemma keeps_fold_free (f : State -> Z -> State) l :
  (forall s b, keeps_dirs s (f s b)) -> forall st, keeps_dirs st (fold_left f l st).
Proof.
  intros Hf. induction l as [|b l IH]; intros st; simpl; auto with keeps.
  eapply keeps_trans; [apply Hf|apply IH].
Qed.

Lemma keeps_free_blocks st l : keeps_dirs st (free_blocks st l).
Proof. apply keeps_fold_free. auto with keeps. Qed.

Lemma keeps_free_used_blocks st l : keeps_dirs st (free_used_blocks st l).
Proof.
  apply keeps_fold_free. intros s b. destruct (b =? UNUSED_BLOCK); auto with keeps.
Qed.

Lemma keeps_cp_to_loop idxs : forall st inode src st2 r,
  cp_to_loop idxs st inode src = (st2, r) -> keeps_dirs st st2.
Proof.
  induction idxs as [|i idxs IH]; intros st inode src st2 r H; cbn [cp_to_loop] in H.
  - inversion H; subst; auto with keeps.
  - destruct src as [|c src]; [inversion H; subst; auto with keeps|].
    destruct (alloc_data_block st) as [b st1] eqn:Ha.
    pose proof (keeps_alloc_data_block _ _ _ Ha) as K.
    destruct (b =? -1).
    + injection H as <- _. eapply keeps_trans; [exact K|].
      eapply keeps_trans; [apply keeps_printf|apply keeps_free_blocks].
    + apply IH in H. eapply keeps_trans; [exact K|].
      eapply keeps_trans; [apply keeps_write_block|exact H].
Qed.

Lemma keeps_append_loop fuel : forall st inode n idx st2 inode2 n2,
  append_loop fuel st inode n idx = inl (st2, inode2, n2) ->
  keeps_dirs st st2 /\ mode inode2 = mode inode.
Proof.
  induction fuel as [|fuel IH]; intros st inode n idx st2 inode2 n2 H;
    cbn [append_loop] in H.
  - inversion H; subst; auto with keeps.
  - destruct (n >? 0); [|inversion H; subst; auto with keeps].
    destruct (idx >=? INODE_DIRECT_POINTERS); [inversion H; subst; auto with keeps|].
    destruct (alloc_data_block st) as [b st1] eqn:Ha.
    pose proof (keeps_alloc_data_block _ _ _ Ha) as K.
    destruct (b =? -1).
    + inversion H; subst. split; auto.
    + destruct (store_direct_block inode idx b) as [inode1|] eqn:Es; [|discriminate].
      apply IH in H. destruct H as [H1 H2]. split.
      * eapply keeps_trans; [exact K|]. eapply keeps_trans; [apply keeps_write_block|exact H1].
      * rewrite H2. unfold store_direct_block in Es.
        destruct (_ && _); inversion Es; reflexivity.
Qed.

Lemma keeps_truncate_loop idxs st inode st' inode' :
  truncate_loop idxs st inode = (st', inode') -> keeps_dirs st st'.
Proof.
  intros H. apply truncate_loop_frame in H.
  destruct H as (Hd & Hib & Hc & _). repeat split; auto.
  intros m. unfold read_inode. rewrite Hd. reflexivity.
Qed.

Lemma keeps_valid c st st' : keeps_dirs st st' -> valid_at c st -> valid_at c st'.
Proof.
  intros (H1 & H2 & H3) [Hb Hm]. split; [rewrite H1|rewrite H3]; auto.
Qed.

(** The allocator returns an index whose bit is clear. *)
Lemma scan_clear_spec bm k : forall i r,
  scan_clear bm k i = r -> r <> -1 -> 0 <= i ->
  i <= r < i + Z.of_nat k /\ get_bit bm r = false.
Proof.
  induction k as [|k IH]; intros i r H Hr Hi; simpl in H.
  - congruence.
  - destruct (get_bit bm i) eqn:E.
    + apply IH in H; [|auto|lia]. destruct H as [H1 H2]. split; [lia|exact H2].
    + subst. split; auto. lia.
Qed.

Lemma alloc_inode_spec st n st1 :
  alloc_inode st = (n, st1) ->
  (n = -1 /\ st1 = st)
  \/ (0 <= n < Z.of_nat (Z.to_nat (num_inodes (sb st)))
      /\ get_bit (inode_bitmap st) n = false
      /\ st1 = with_inode_bitmap st (set_bit (inode_bitmap st) n)).
Proof.
  unfold alloc_inode. destruct (Z.eqb_spec (scan_clear (inode_bitmap st) (Z.to_nat (num_inodes (sb st))) 0) (-1)) as [E|E];
    intros H; inversion H; subst; auto.
  right. pose proof (scan_clear_spec _ _ _ _ eq_refl E (Z.le_refl 0)) as [H1 H2].
  repeat split; auto; lia.
Qed.

Lemma valid_set_other c st n :
  n <> c -> valid_at c st ->
  valid_at c (with_inode_bitmap st (set_bit (inode_bitmap st) n)).
Proof.
  intros Hne [Hb Hm]. split; auto. simpl. rewrite get_bit_set_bit_other; auto.
Qed.

Lemma valid_free_other c st n :
  n <> c -> valid_at c st -> valid_at c (free_inode st n).
Proof.
  intros Hne [Hb Hm]. split; auto. simpl. rewrite get_bit_clear_bit.
  destruct (Z.eqb_spec n c); congruence.
Qed.

Lemma valid_write_other c st n x :
  n <> c -> valid_at c st -> valid_at c (write_inode st n x).
Proof.
  intros Hne [Hb Hm]. split; auto. rewrite read_write_inode.
  destruct (Z.eqb_spec c n); congruence.
Qed.

Lemma cwd_keeps st st' : keeps_dirs st st' -> cwd st' = cwd st.
Proof. intros (_ & H & _). exact H. Qed.

Ltac keep_chain :=
  repeat first
    [ apply keeps_refl
    | eapply keeps_trans; [|solve [auto with keeps]]
    | solve [auto with keeps] ].

Lemma do_mkdir_cwd env st p c :
  valid_at c st -> cwd (do_mkdir env st p) = cwd st /\ valid_at c (do_mkdir env st p).
Proof.
  intros V. unfold do_mkdir.
  destruct (get_path_inode st (dirname p) =? -1); [auto|].
  destruct (negb _); [auto|].
  destruct (alloc_inode st) as [n st1] eqn:Ha.
  destruct (alloc_inode_spec _ _ _ Ha) as [[-> ->]|(Hn & Hbit & ->)]; [simpl; auto|].
  assert (Hne : n <> c) by (destruct V as [Vb _]; congruence).
  destruct (n =? -1); [split; [reflexivity|apply valid_set_other; auto]|].
  set (s1 := with_inode_bitmap st (set_bit (inode_bitmap st) n)).
  assert (V1 : valid_at c s1) by (apply valid_set_other; auto).
  destruct (alloc_data_block s1) as [b st2] eqn:Hb.
  pose proof (keeps_alloc_data_block _ _ _ Hb) as K2.
  destruct (b =? -1).
  - split; [simpl; apply (cwd_keeps _ _ K2)|].
    apply valid_free_other; auto. eapply keeps_valid; [apply keeps_printf|].
    eapply keeps_valid; eauto.
  - match goal with |- context [add_entry_to_dir env ?s ?d ?nm ?k] =>
      set (s4 := s); pose proof (keeps_add_entry_to_dir env s4 d nm k) as K5;
      set (s5 := add_entry_to_dir env s4 d nm k) in * end.
    assert (V4 : valid_at c s4).
    { unfold s4. eapply keeps_valid; [apply keeps_write_block|].
      apply valid_write_other; auto. eapply keeps_valid; eauto. }
    assert (C4 : cwd s4 = cwd st) by (unfold s4; simpl; apply (cwd_keeps _ _ K2)).
    match goal with |- context [write_inode s5 ?d ?x] =>
      assert (K6 : keeps_dirs s5 (write_inode s5 d x)) by (apply keeps_write_inode; reflexivity) end.
    split.
    + simpl. change (current_working_directory_inode s5) with (cwd s5).
      rewrite (cwd_keeps _ _ K5). exact C4.
    + eapply keeps_valid; [apply keeps_printf|].
      eapply keeps_valid; [apply keeps_sync|].
      eapply keeps_valid; [exact K6|]. eapply keeps_valid; eauto.
Qed.

Lemma do_cp_to_vdisk_cwd env st h p c :
  valid_at c st ->
  cwd (do_cp_to_vdisk env st h p) = cwd st /\ valid_at c (do_cp_to_vdisk env st h p).
Proof.
  intros V. unfold do_cp_to_vdisk.
  destruct h as [src|]; [|auto].
  destruct (_ >? _); [auto|].
  destruct (get_path_inode st (dirname p) =? -1); [auto|].
  destruct (negb _); [auto|].
  destruct (alloc_inode st) as [n st1] eqn:Ha.
  destruct (alloc_inode_spec _ _ _ Ha) as [[-> ->]|(Hn & Hbit & ->)]; [simpl; auto|].
  assert (Hne : n <> c) by (destruct V as [Vb _]; congruence).
  destruct (n =? -1); [split; [reflexivity|apply valid_set_other; auto]|].
  set (s1 := with_inode_bitmap st (set_bit (inode_bitmap st) n)).
  assert (V1 : valid_at c s1) by (apply valid_set_other; auto).
  destruct (cp_to_loop _ s1 _ src) as [st2 r] eqn:Hl.
  pose proof (keeps_cp_to_loop _ _ _ _ _ _ Hl) as K2.
  assert (V2 : valid_at c st2) by (eapply keeps_valid; eauto).
  assert (C2 : cwd st2 = cwd st) by (apply (cwd_keeps _ _ K2)).
  destruct r as [inode1|].
  - match goal with |- context [add_entry_to_dir env ?s ?d ?nm ?k] =>
      pose proof (keeps_add_entry_to_dir env s d nm k) as K5;
      set (s5 := add_entry_to_dir env s d nm k) in * end.
    split.
    + simpl. change (current_working_directory_inode s5) with (cwd s5).
      rewrite (cwd_keeps _ _ K5). exact C2.
    + eapply keeps_valid; [apply keeps_printf|].
      eapply keeps_valid; [apply keeps_sync|].
      eapply keeps_valid; [exact K5|]. apply valid_write_other; auto.
  - split; [exact C2|]. eapply keeps_valid; [apply keeps_sync|].
    apply valid_free_other; auto.
Qed.

Lemma do_rm_cwd st p c :
  valid_at c st -> cwd (do_rm st p) = cwd st /\ valid_at c (do_rm st p).
Proof.
  intros V. unfold do_rm.
  destruct (get_path_inode st (dirname p) =? -1); [auto|].
  set (parent := get_path_inode st (dirname p)).
  set (child := find_entry_in_dir st parent (basename p)).
  destruct (child =? -1); [auto|].
  destruct (Z.eqb_spec (mode (read_inode st child)) 1) as [E|E]; [auto|].
  assert (Hne : child <> c) by (intros ->; destruct V; congruence).
  pose proof (keeps_do_rm_entry st parent (basename p)) as K1.
  set (s1 := do_rm_entry st parent (basename p)) in *.
  match goal with |- context [write_inode s1 parent ?x] =>
    assert (K2 : keeps_dirs s1 (write_inode s1 parent x)) by (apply keeps_write_inode; reflexivity);
    set (s2 := write_inode s1 parent x) in * end.
  match goal with |- context [write_inode s2 child ?x] =>
    set (s3 := write_inode s2 child x) in * end.
  assert (V3 : valid_at c s3).
  { apply valid_write_other; auto. eapply keeps_valid; [exact K2|].
    eapply keeps_valid; eauto. }
  assert (C3 : cwd s3 = cwd st).
  { change (cwd s3) with (cwd s2). rewrite (cwd_keeps _ _ K2). apply (cwd_keeps _ _ K1). }
  destruct (_ =? 0).
  - split; [|].
    + simpl. match goal with |- context [free_used_blocks s3 ?l] =>
        pose proof (keeps_free_used_blocks s3 l) as K4 end.
      etransitivity; [|exact C3]. apply (cwd_keeps _ _ K4).
    + eapply keeps_valid; [apply keeps_printf|].
      eapply keeps_valid; [apply keeps_sync|].
      apply valid_free_other; auto.
      eapply keeps_valid; [apply keeps_free_used_blocks|]. exact V3.
  - split; [exact C3|]. exact V3.
Qed.

Lemma do_rmdir_cwd st p c :
  valid_at c st -> get_path_inode st p <> c ->
  cwd (do_rmdir st p) = cwd st /\ valid_at c (do_rmdir st p).
Proof.
  intros V Hne. unfold do_rmdir.
  destruct (bytes_eqb p (str "/")); [auto|].
  set (inode_num := get_path_inode st p) in *.
  destruct (inode_num =? -1); [auto|].
  destruct (negb _); [auto|].
  destruct (_ >? 2); [auto|].
  set (parent := get_path_inode st (dirname p)).
  pose proof (keeps_do_rm_entry st parent (basename p)) as K1.
  set (s1 := do_rm_entry st parent (basename p)) in *.
  match goal with |- context [write_inode s1 parent ?x] =>
    assert (K2 : keeps_dirs s1 (write_inode s1 parent x)) by (apply keeps_write_inode; reflexivity);
    set (s2 := write_inode s1 parent x) in * end.
  match goal with |- context [free_inode ?s inode_num] =>
    assert (K3 : keeps_dirs s2 s)
      by (destruct (nth 0 _ UNUSED_BLOCK =? UNUSED_BLOCK);
          [apply keeps_refl|apply keeps_free_data_block]);
    set (s3 := s) in * end.
  assert (V3 : valid_at c s3).
  { eapply keeps_valid; [exact K3|]. eapply keeps_valid; [exact K2|].
    eapply keeps_valid; eauto. }
  split.
  - simpl. change (current_working_directory_inode s3) with (cwd s3).
    rewrite (cwd_keeps _ _ K3), (cwd_keeps _ _ K2). apply (cwd_keeps _ _ K1).
  - eapply keeps_valid; [apply keeps_printf|].
    eapply keeps_valid; [apply keeps_sync|].
    apply valid_free_other; auto.
Qed.

Lemma do_ln_cwd env st t l c :
  valid_at c st -> cwd (do_ln env st t l) = cwd st /\ valid_at c (do_ln env st t l).
Proof.
  intros V. unfold do_ln.
  set (target := get_path_inode st t).
  destruct (target =? -1); [auto|].
  destruct (Z.eqb_spec (mode (read_inode st target)) 1) as [E|E]; [auto|].
  destruct (get_path_inode st (dirname l) =? -1); [auto|].
  destruct (negb _); [auto|].
  assert (Hne : target <> c) by (intros ->; destruct V; congruence).
  match goal with |- context [add_entry_to_dir env ?s ?d ?nm ?k] =>
    pose proof (keeps_add_entry_to_dir env s d nm k) as K1;
    set (s1 := add_entry_to_dir env s d nm k) in * end.
  split.
  - simpl. apply (cwd_keeps _ _ K1).
  - eapply keeps_valid; [apply keeps_printf|].
    apply valid_write_other; auto. eapply keeps_valid; eauto.
Qed.

Lemma do_append_cwd env st p n st' c :
  valid_at c st -> do_append env st p n = Done st' ->
  cwd st' = cwd st /\ valid_at c st'.
Proof.
  intros V. unfold do_append.
  destruct (n <=? 0); [intros H; inversion H; subst; auto|].
  set (f := get_path_inode st p).
  destruct (f =? -1); [intros H; inversion H; subst; auto|].
  destruct (Z.eqb_spec (mode (read_inode st f)) 0) as [E|E]; simpl negb; cbv iota;
    [|intros H; inversion H; subst; auto].
  destruct (_ >? _); [intros H; inversion H; subst; auto|].
  assert (Hne : f <> c) by (intros ->; destruct V; congruence).
  match goal with |- context [match ?t with inl _ => _ | inr _ => _ end] =>
    assert (Ht : forall s1 a i, t = inl (s1, a, i) -> keeps_dirs st s1);
    [|destruct t as [[[s1 a] i]|idx] eqn:Et; [specialize (Ht _ _ _ eq_refl)|discriminate]] end.
  { intros s1 a i. destruct (_ && _).
    - destruct (direct_block_at _ _); [|discriminate].
      intros H; injection H as <- _ _. apply keeps_write_block.
    - intros H; injection H as <- _ _. apply keeps_refl. }
  destruct (append_loop 13 s1 (read_inode st f) a i) as [[[s2 inode1] n2]|idx] eqn:El;
    [|discriminate].
  apply keeps_append_loop in El. destruct El as [K2 Hm].
  intros H; injection H as <-. split.
  - simpl. change (current_working_directory_inode s2) with (cwd s2).
    rewrite (cwd_keeps _ _ K2). apply (cwd_keeps _ _ Ht).
  - eapply keeps_valid; [apply keeps_printf|].
    eapply keeps_valid; [apply keeps_sync|].
    apply valid_write_other; auto. eapply keeps_valid; [exact K2|].
    eapply keeps_valid; eauto.
Qed.

Lemma do_truncate_cwd env st p n c :
  valid_at c st ->
  cwd (do_truncate env st p n) = cwd st /\ valid_at c (do_truncate env st p n).
Proof.
  intros V. unfold do_truncate.
  destruct (n <=? 0); [auto|].
  set (f := get_path_inode st p).
  destruct (f =? -1); [auto|].
  destruct (Z.eqb_spec (mode (read_inode st f)) 0) as [E|E]; simpl negb; cbv iota; [|auto].
  assert (Hne : f <> c) by (intros ->; destruct V; congruence).
  destruct (truncate_loop _ st (read_inode st f)) as [s1 inode1] eqn:Hl.
  apply keeps_truncate_loop in Hl.
  match goal with |- context [sync_bitmaps ?s] =>
    assert (V2 : valid_at c (sync_bitmaps s) /\ cwd (sync_bitmaps s) = cwd st) end.
  { split.
    - eapply keeps_valid; [apply keeps_sync|]. apply valid_write_other; auto.
      eapply keeps_valid; eauto.
    - simpl. apply (cwd_keeps _ _ Hl). }
  destruct V2 as [V2 C2].
  destruct (_ && _); split; auto.
Qed.

Lemma keeps_fold_printf {A} (g : A -> Msg) l : forall s0 st,
  keeps_dirs s0 st -> keeps_dirs s0 (fold_left (fun s x => printf s (g x)) l st).
Proof.
  induction l as [|x l IH]; intros s0 st K; simpl; [exact K|].
  apply IH. eapply keeps_trans; [exact K|apply keeps_printf].
Qed.

Lemma keeps_do_ls st p : keeps_dirs st (do_ls st p).
Proof.
  unfold do_ls. destruct (_ =? -1); [apply keeps_printf|].
  destruct (negb _); [apply keeps_printf|].
  apply keeps_fold_printf, keeps_refl.
Qed.

Lemma do_cd_mode st p :
  mode (read_inode st (cwd st)) = 1 ->
  mode (read_inode (do_cd st p) (cwd (do_cd st p))) = 1
  /\ inode_bitmap (do_cd st p) = inode_bitmap st.
Proof.
  intros V. unfold do_cd. destruct p as [|a p]; [auto|].
  destruct (_ =? -1); [auto|].
  destruct (Z.eqb_spec (mode (read_inode st (get_path_inode st (a :: p)))) 1) as [E|E];
    simpl negb; cbv iota; auto.
Qed.

(** C10, amended.  A command other than [cd] that runs to its end (no
    store through [direct_blocks[-1]], and for [mkdir] and the import a new
    inode whose record lies inside one block of the inode table) never
    changes the CWD, and it leaves the CWD's inode-bitmap bit set and its
    mode "directory", unless it is an [rmdir] whose path resolves to the
    CWD itself.  [cd] moves the CWD only to an inode whose mode is
    "directory" and does not touch the bitmap. *)
Theorem cwd_stays_valid env st c st' :
  cwd_valid st ->
  step env st c = Done st' ->
  (takes_inode c = true -> inode_in_block (fst (alloc_inode st)) = true) ->
  (forall p, c = Rmdir p -> get_path_inode st p <> cwd st) ->
  match c with
  | Cd _ => mode (read_inode st' (cwd st')) = 1 /\ inode_bitmap st' = inode_bitmap st
  | _ => cwd st' = cwd st /\ cwd_valid st'
  end.
Proof.
  intros V H _ Hrm.
  assert (V' : valid_at (cwd st) st) by exact V.
  assert (R : forall s, cwd s = cwd st /\ valid_at (cwd st) s -> cwd s = cwd st /\ cwd_valid s).
  { intros s [C W]. split; auto. unfold cwd_valid. rewrite C. exact W. }
  assert (K : forall s, keeps_dirs st s -> cwd s = cwd st /\ cwd_valid s).
  { intros s Ks. apply R. split; [apply (cwd_keeps _ _ Ks)|eapply keeps_valid; eauto]. }
  destruct c; cbv beta iota delta [step] in H.
  - destruct V as [_ Vm].
    destruct path as [|a path]; injection H as <-;
      [apply (do_cd_mode st (str "/"))|apply (do_cd_mode st (a :: path))]; exact Vm.
  - injection H as <-. apply K, keeps_printf.
  - destruct path as [|a path]; injection H as <-; apply K;
      [apply (keeps_do_ls st (str "."))|apply (keeps_do_ls st (a :: path))].
  - destruct path; injection H as <-; [auto|]. apply R, do_mkdir_cwd; auto.
  - destruct vdisk_path; injection H as <-; [auto|]. apply R, do_cp_to_vdisk_cwd; auto.
  - destruct vdisk_path; injection H as <-; [auto|].
    apply K. unfold do_cp_from_vdisk.
    destruct (_ =? -1); [apply keeps_printf|]. destruct (negb _); apply keeps_printf.
  - destruct path; injection H as <-; [auto|]. apply R, do_rm_cwd; auto.
  - destruct path; injection H as <-; [auto|]. apply R, do_rmdir_cwd; auto.
  - destruct target_path; [injection H as <-; auto|].
    destruct link_path; injection H as <-; [auto|]. apply R, do_ln_cwd; auto.
  - injection H as <-. apply K, keeps_printf.
  - destruct path; [injection H as <-; auto|].
    apply R. eapply do_append_cwd; eauto.
  - destruct path; injection H as <-; [auto|]. apply R, do_truncate_cwd; auto.
Qed.

(** ** Paths given by their components *)

Lemma bytes_eqb_eq a : forall b, bytes_eqb a b = true <-> a = b.
Proof.
  induction a as [|x a IH]; intros [|y b]; simpl; split; intros H;
    try reflexivity; try discriminate.
  - apply andb_true_iff in H. destruct H as [H1 H2].
    apply Ascii.eqb_eq in H1. apply IH in H2. congruence.
  - inversion H; subst. rewrite Ascii.eqb_refl. simpl. apply IH. reflexivity.
Qed.

Lemma bytes_eqb_refl a : bytes_eqb a a = true.
Proof. apply bytes_eqb_eq. reflexivity. Qed.

Lemma cstr_idem s : cstr (cstr s) = cstr s.
Proof.
  induction s as [|c s IH]; simpl; auto.
  destruct (is_nul c) eqn:E; simpl; auto. rewrite E, IH. reflexivity.
Qed.

Lemma valid_component_cons nm :
  valid_component nm = true ->
  exists c tl, nm = c :: tl /\ Ascii.eqb c slash = false
               /\ forallb (fun c => negb (Ascii.eqb c slash)) tl = true.
Proof.
  unfold valid_component. destruct nm as [|c tl]; simpl; [discriminate|].
  intros H. apply andb_true_iff in H. destruct H as [H1 H2].
  exists c, tl. repeat split; auto. apply negb_true_iff. exact H1.
Qed.

Lemma span_token_app nm rest :
  forallb (fun c => negb (Ascii.eqb c slash)) nm = true ->
  span_token (nm ++ slash :: rest) = (nm, rest).
Proof.
  induction nm as [|c nm IH]; simpl; intros H.
  - reflexivity.
  - apply andb_true_iff in H. destruct H as [H1 H2].
    apply negb_true_iff in H1. rewrite H1, (IH H2). reflexivity.
Qed.

Lemma span_token_end nm :
  forallb (fun c => negb (Ascii.eqb c slash)) nm = true ->
  span_token nm = (nm, []).
Proof.
  induction nm as [|c nm IH]; simpl; intros H.
  - reflexivity.
  - apply andb_true_iff in H. destruct H as [H1 H2].
    apply negb_true_iff in H1. rewrite H1, (IH H2). reflexivity.
Qed.

Lemma join_components_cons nm rest :
  join_components (nm :: rest)
  = match rest with [] => nm | _ => nm ++ slash :: join_components rest end.
Proof. destruct rest; reflexivity. Qed.

Lemma join_components_app a b :
  a <> [] -> b <> [] ->
  join_components (a ++ b) = join_components a ++ slash :: join_components b.
Proof.
  induction a as [|x a IH]; intros Ha Hb; [congruence|].
  destruct a as [|y a].
  - simpl. destruct b; [congruence|reflexivity].
  - change (join_components ((x :: y :: a) ++ b))
      with (x ++ slash :: join_components ((y :: a) ++ b)).
    rewrite IH by (auto; discriminate).
    change (join_components (x :: y :: a))
      with (x ++ slash :: join_components (y :: a)).
    rewrite <- app_assoc. reflexivity.
Qed.

Lemma strtok_r_cons c x :
  Ascii.eqb c slash = false -> strtok_r (c :: x) = Some (span_token (c :: x)).
Proof. intros Hc. unfold strtok_r. simpl skip_delims. rewrite Hc. reflexivity. Qed.

Lemma strtok_r_join nm rest :
  valid_component nm = true ->
  strtok_r (join_components (nm :: rest)) = Some (nm, join_components rest).
Proof.
  intros V. destruct (valid_component_cons _ V) as (c & tl & -> & Hc & Htl).
  assert (Hall : forallb (fun c => negb (Ascii.eqb c slash)) (c :: tl) = true).
  { simpl. rewrite Hc, Htl. reflexivity. }
  rewrite join_components_cons. destruct rest as [|r rest].
  - rewrite strtok_r_cons by exact Hc.
    rewrite span_token_end by exact Hall. reflexivity.
  - change ((c :: tl) ++ slash :: join_components (r :: rest))
      with (c :: (tl ++ slash :: join_components (r :: rest))).
    rewrite strtok_r_cons by exact Hc.
    change (c :: (tl ++ slash :: join_components (r :: rest)))
      with ((c :: tl) ++ slash :: join_components (r :: rest)).
    rewrite span_token_app by exact Hall. reflexivity.
Qed.

Lemma join_components_nil_iff comps :
  Forall (fun nm => valid_component nm = true) comps ->
  (length (join_components comps) =? 0)%nat = (length comps =? 0)%nat.
Proof.
  intros H. destruct H as [|nm rest V _]; [reflexivity|].
  destruct (valid_component_cons _ V) as (c & tl & -> & _).
  rewrite join_components_cons. destruct rest; reflexivity.
Qed.

Lemma length_join_components comps :
  Forall (fun nm => valid_component nm = true) comps ->
  (length comps <= length (join_components comps))%nat.
Proof.
  induction 1 as [|nm rest V _ IH]; [simpl; lia|].
  destruct (valid_component_cons _ V) as (c & tl & -> & _).
  rewrite join_components_cons. destruct rest as [|r rest].
  - simpl. lia.
  - rewrite length_app. simpl length in *. lia.
Qed.

(** [path_walk] on the joined components is [walk_components]. *)
Lemma path_walk_join st comps : forall fuel p,
  Forall (fun nm => valid_component nm = true) comps ->
  (length comps <= fuel)%nat ->
  path_walk fuel st (join_components comps) p = walk_components st p comps.
Proof.
  induction comps as [|nm rest IH]; intros fuel p V Hf.
  - destruct fuel; reflexivity.
  - destruct fuel as [|fuel]; [simpl in Hf; lia|].
    inversion V as [|? ? V1 V2]; subst.
    cbn [path_walk walk_components]. rewrite strtok_r_join by exact V1.
    destruct (find_entry_in_dir st p nm =? -1); [reflexivity|].
    rewrite join_components_nil_iff by exact V2.
    destruct (_ && _); [reflexivity|].
    apply IH; [exact V2|simpl in Hf; lia].
Qed.

Lemma bytes_eqb_false_head (c : ascii) tl s :
  match s with c' :: _ => Ascii.eqb c c' = false | [] => True end ->
  bytes_eqb (c :: tl) s = false.
Proof.
  destruct s as [|c' s]; simpl; [reflexivity|]. intros ->. reflexivity.
Qed.

(** An absolute path with at least one component. *)
Lemma get_path_inode_absolute st comps :
  comps <> [] ->
  Forall (fun nm => valid_component nm = true) comps ->
  get_path_inode st (slash :: join_components comps)
  = walk_components st ROOT_INODE_NUM comps.
Proof.
  intros Hne V. destruct comps as [|nm rest]; [congruence|].
  inversion V as [|? ? V1 V2]; subst.
  destruct (valid_component_cons _ V1) as (c & tl & -> & Hc & Htl).
  set (path := join_components ((c :: tl) :: rest)).
  assert (Hp : exists tl', path = c :: tl').
  { unfold path. rewrite join_components_cons. destruct rest; simpl; eauto. }
  destruct Hp as (tl' & Hp).
  unfold get_path_inode.
  assert (E1 : bytes_eqb (slash :: path) (str ".") = false) by reflexivity.
  assert (E2 : bytes_eqb (slash :: path) (str "/") = false).
  { rewrite Hp. reflexivity. }
  rewrite E1, E2. rewrite Ascii.eqb_refl.
  assert (E3 : (1 <? length (slash :: path))%nat = true).
  { rewrite Hp. reflexivity. }
  rewrite E3. apply path_walk_join; [exact V|].
  pose proof (length_join_components _ V). fold path in H. lia.
Qed.

(** ** States over the same disk *)

Lemma scan_blocks_same st st' :
  virtual_disk st' = virtual_disk st ->
  forall blocks i total found,
    scan_blocks st' blocks i total found = scan_blocks st blocks i total found.
Proof.
  intros E.
  assert (R : forall b, read_block st' b = read_block st b)
    by (intros b; unfold read_block; rewrite E; reflexivity).
  induction blocks as [|b blocks IH]; intros i total found; cbn [scan_blocks]; auto.
  rewrite R. destruct (_ || _); auto.
  destruct (scan_slots _ _ _ _) as [r f]. rewrite IH. reflexivity.
Qed.

Lemma read_inode_same st st' :
  virtual_disk st' = virtual_disk st -> forall n, read_inode st' n = read_inode st n.
Proof. intros E n. unfold read_inode. rewrite E. reflexivity. Qed.

Lemma dir_entries_same st st' :
  virtual_disk st' = virtual_disk st ->
  forall inode, dir_entries st' inode = dir_entries st inode.
Proof. intros E inode. apply scan_blocks_same. exact E. Qed.

Lemma find_entry_in_dir_same st st' :
  virtual_disk st' = virtual_disk st ->
  forall d nm, find_entry_in_dir st' d nm = find_entry_in_dir st d nm.
Proof.
  intros E d nm. unfold find_entry_in_dir.
  rewrite (read_inode_same _ _ E), (dir_entries_same _ _ E). reflexivity.
Qed.


Lemma path_walk_same st st' :
  virtual_disk st' = virtual_disk st ->
  forall fuel rest p, path_walk fuel st' rest p = path_walk fuel st rest p.
Proof.
  intros E. induction fuel as [|fuel IH]; intros rest p; simpl; auto.
  destruct (strtok_r rest) as [[tok rest']|]; auto.
  rewrite (find_entry_in_dir_same _ _ E), (read_inode_same _ _ E), IH. reflexivity.
Qed.

Lemma get_path_inode_same st st' :
  virtual_disk st' = virtual_disk st -> cwd st' = cwd st ->
  forall path, get_path_inode st' path = get_path_inode st path.
Proof.
  intros E C path. unfold get_path_inode. unfold cwd in C. rewrite C.
  destruct path as [|c tl]; auto.
  destruct (bytes_eqb _ _); auto.
  destruct (Ascii.eqb c slash); destruct (bytes_eqb _ _); auto;
    apply path_walk_same; exact E.
Qed.





(** ** The directory tree *)

Lemma find_entry_in_dir_found st p nm t :
  find_entry_in_dir st p nm = t -> t <> -1 ->
  mode (read_inode st p) = 1
  /\ exists x, In x (dir_entries st (read_inode st p))
               /\ strcmp_eq (name (snd x)) nm = true
               /\ t = to_int (inode_number (snd x)).
Proof.
  unfold find_entry_in_dir. intros H Ht.
  destruct (Z.eqb_spec (mode (read_inode st p)) 1) as [E|E]; simpl in H; [|congruence].
  split; auto.
  destruct (find _ _) as [[[i j] e]|] eqn:F; [|congruence].
  apply find_some in F. destruct F as [F1 F2]. exists (i, j, e). auto.
Qed.


Lemma cstr_str_dotdot : cstr (str "..") = str "..".
Proof. reflexivity. Qed.

Lemma in_inode_numbers st d :
  0 <= d < num_inodes (sb st) -> In d (inode_numbers st).
Proof.
  intros H. unfold inode_numbers. apply in_map_iff. exists (Z.to_nat d).
  split; [lia|]. apply in_seq. lia.
Qed.




Lemma canonical_app_inv st names nm d :
  canonical st (names ++ [nm]) d ->
  exists p, canonical st names p /\ find_entry_in_dir st d (str "..") = p.
Proof.
  intros C. inversion C as [E|names' p nm' d' Cp V R N B M F1 F2 F3 E].
  - destruct names; discriminate.
  - apply app_inj_tail in E. destruct E as [-> ->]. eauto.
Qed.









Lemma walk_components_snoc st nm : forall ns p q,
  walk_components st p ns = q -> q <> -1 -> mode (read_inode st q) = 1 ->
  walk_components st p (ns ++ [nm]) = walk_components st q [nm].
Proof.
  induction ns as [|n0 ns IH]; intros p q H Hq Mq.
  - simpl in H. subst. reflexivity.
  - cbn [walk_components app] in *.
    destruct (find_entry_in_dir st p n0 =? -1); [congruence|].
    set (q0 := find_entry_in_dir st p n0) in *.
    destruct (Z.eqb_spec (mode (read_inode st q0)) 1) as [M0|M0]; simpl in *.
    + apply IH; auto.
    + destruct ns as [|n1 ns]; simpl in H.
      * congruence.
      * congruence.
Qed.



Lemma canonical_root_names st names :
  canonical st names ROOT_INODE_NUM -> names = [].
Proof.
  intros C. inversion C; auto. unfold ROOT_INODE_NUM in *. lia.
Qed.





(** *** The depth of a directory *)





(** ** Directory entries in a block *)

Lemma length_read_block st b : length (read_block st b) = BLOCK_BYTES.
Proof. apply length_fit. Qed.

Lemma read_write_block st b buf b' :
  read_block (write_block st b buf) b'
  = if b' =? b then fit BLOCK_BYTES buf else read_block st b'.
Proof.
  unfold read_block, write_block. cbn [virtual_disk with_disk dk_data].
  destruct (b' =? b); [apply fit_fit|reflexivity].
Qed.

Lemma length_le32_bytes v : length (le32_bytes v) = 4%nat.
Proof. reflexivity. Qed.

Lemma length_de_bytes e : length (de_bytes e) = DE_BYTES.
Proof.
  unfold de_bytes. rewrite length_app, length_fit, length_le32_bytes. reflexivity.
Qed.

Lemma le32_round_trip v : 0 <= v < 4294967296 -> le32_value (le32_bytes v) = v.
Proof.
  intros H. unfold le32_value, le32_bytes. cbn [nth].
  rewrite !byteZ_Zbyte, !Z.shiftr_div_pow2 by lia.
  change (2 ^ 8) with 256. change (2 ^ 16) with 65536. change (2 ^ 24) with 16777216.
  Z.div_mod_to_equations. lia.
Qed.

(** A splice: [k] bytes [m] written at offset [a]. *)
Lemma nth_splice (b m : list ascii) (a i : nat) d :
  (a + length m <= length b)%nat ->
  nth i (firstn a b ++ m ++ skipn (a + length m) b) d
  = if (i <? a)%nat then nth i b d
    else if (i <? a + length m)%nat then nth (i - a) m d
    else nth i b d.
Proof.
  intros H.
  assert (La : length (firstn a b) = a) by (rewrite length_firstn; lia).
  destruct (Nat.ltb_spec i a).
  - rewrite app_nth1 by lia. rewrite nth_firstn.
    destruct (Nat.ltb_spec i a); [reflexivity|lia].
  - rewrite app_nth2 by lia. rewrite La.
    destruct (Nat.ltb_spec i (a + length m)).
    + rewrite app_nth1 by lia. reflexivity.
    + rewrite app_nth2 by lia. rewrite nth_skipn. f_equal. lia.
Qed.

Lemma length_splice (b m : list ascii) (a : nat) :
  (a + length m <= length b)%nat ->
  length (firstn a b ++ m ++ skipn (a + length m) b) = length b.
Proof.
  intros H. rewrite !length_app, length_firstn, length_skipn. lia.
Qed.

Lemma slice_ext (b b' : list ascii) (off len : nat) :
  (off + len <= length b)%nat -> (off + len <= length b')%nat ->
  (forall i, (i < len)%nat -> nth (off + i) b NUL = nth (off + i) b' NUL) ->
  firstn len (skipn off b) = firstn len (skipn off b').
Proof.
  intros H1 H2 H. apply (nth_ext _ _ NUL NUL).
  - rewrite !length_firstn, !length_skipn. lia.
  - intros i Hi. rewrite length_firstn, length_skipn in Hi.
    rewrite !nth_firstn. destruct (Nat.ltb_spec i len); [|reflexivity].
    rewrite !nth_skipn. apply H. lia.
Qed.

Lemma slice_of_splice_inside (b m : list ascii) (a off len : nat) :
  (a + length m <= length b)%nat -> (off + len <= length m)%nat ->
  firstn len (skipn (a + off) (firstn a b ++ m ++ skipn (a + length m) b))
  = firstn len (skipn off m).
Proof.
  intros H1 H2. apply (nth_ext _ _ NUL NUL).
  - rewrite !length_firstn, !length_skipn, length_splice by lia. lia.
  - intros i Hi. rewrite length_firstn, length_skipn, length_splice in Hi by lia.
    rewrite !nth_firstn. destruct (Nat.ltb_spec i len); [|reflexivity].
    rewrite !nth_skipn, nth_splice by lia.
    destruct (Nat.ltb_spec (a + off + i) a); [lia|].
    destruct (Nat.ltb_spec (a + off + i) (a + length m)); [|lia].
    f_equal. lia.
Qed.

Lemma slice_of_splice_outside (b m : list ascii) (a off len : nat) :
  (a + length m <= length b)%nat -> (off + len <= length b)%nat ->
  (off + len <= a \/ a + length m <= off)%nat ->
  firstn len (skipn off (firstn a b ++ m ++ skipn (a + length m) b))
  = firstn len (skipn off b).
Proof.
  intros H1 H2 H3.
  pose proof (length_splice b m a H1) as L.
  apply slice_ext; [lia|lia|].
  intros i Hi. rewrite nth_splice by lia.
  destruct (Nat.ltb_spec (off + i) a); [reflexivity|].
  destruct (Nat.ltb_spec (off + i) (a + length m)); [lia|reflexivity].
Qed.

Lemma de_offsets (j : nat) :
  (j < entries_per_block)%nat -> (DE_BYTES * j + DE_BYTES <= BLOCK_BYTES)%nat.
Proof. unfold entries_per_block, DE_BYTES, BLOCK_BYTES. lia. Qed.

Lemma put_de_splice buf j e :
  put_de buf j e
  = firstn (DE_BYTES * j) buf ++ de_bytes e
    ++ skipn (DE_BYTES * j + length (de_bytes e)) buf.
Proof. rewrite length_de_bytes. reflexivity. Qed.

Lemma length_put_de buf j e :
  length buf = BLOCK_BYTES -> (j < entries_per_block)%nat ->
  length (put_de buf j e) = BLOCK_BYTES.
Proof.
  intros L Hj. pose proof (de_offsets j Hj).
  rewrite put_de_splice, length_splice; auto.
  rewrite length_de_bytes. lia.
Qed.

(** What [de[j]] reads after [memcpy(&de[j], &e, sizeof e)]. *)
Lemma get_de_put_de_same buf j e :
  length buf = BLOCK_BYTES -> (j < entries_per_block)%nat ->
  get_de (put_de buf j e) j
  = mkDirectoryEntry (fit NAME_BYTES (name e)) (wrap32 (inode_number e)).
Proof.
  intros L Hj. pose proof (de_offsets j Hj) as Ho.
  assert (D : DE_BYTES = 260%nat) by reflexivity.
  assert (N : NAME_BYTES = 256%nat) by reflexivity.
  unfold get_de. rewrite put_de_splice.
  f_equal.
  - replace (DE_BYTES * j)%nat with (DE_BYTES * j + 0)%nat at 1 by lia.
    rewrite slice_of_splice_inside; rewrite ?length_de_bytes; try lia.
    unfold de_bytes. cbn [skipn]. rewrite firstn_app, length_fit.
    rewrite Nat.sub_diag. cbn [firstn]. rewrite app_nil_r.
    apply firstn_all2. rewrite length_fit. lia.
  - rewrite slice_of_splice_inside; rewrite ?length_de_bytes; try lia.
    unfold de_bytes. rewrite skipn_app, length_fit, Nat.sub_diag.
    rewrite skipn_all2 by (rewrite length_fit; lia).
    cbn [skipn app firstn le32_bytes].
    apply (le32_round_trip (wrap32 (inode_number e))).
    unfold wrap32. apply Z.mod_pos_bound. lia.
Qed.

Lemma get_de_put_de_other buf j j' e :
  length buf = BLOCK_BYTES -> (j < entries_per_block)%nat ->
  (j' < entries_per_block)%nat -> j <> j' ->
  get_de (put_de buf j e) j' = get_de buf j'.
Proof.
  intros L Hj Hj' Hne. pose proof (de_offsets j Hj) as Ho.
  pose proof (de_offsets j' Hj') as Ho'.
  assert (D : DE_BYTES = 260%nat) by reflexivity.
  assert (N : NAME_BYTES = 256%nat) by reflexivity.
  unfold get_de. rewrite put_de_splice.
  f_equal.
  - apply slice_of_splice_outside; rewrite ?length_de_bytes; try lia.
  - f_equal. apply slice_of_splice_outside; rewrite ?length_de_bytes; try lia.
Qed.

(** ** The directory walk as a prefix of the live slots *)

Lemma scan_slots_spec buf total : forall js found r f,
  scan_slots buf total found js = (r, f) ->
  map snd r = firstn (Z.to_nat (total - found)) (filter live (map (get_de buf) js))
  /\ f = found + Z.of_nat (length r).
Proof.
  induction js as [|j js IH]; intros found r f H; cbn [scan_slots] in H.
  - injection H as <- <-. rewrite firstn_nil. split; [reflexivity|simpl; lia].
  - destruct (found >=? total) eqn:G.
    + injection H as <- <-. replace (Z.to_nat (total - found)) with O by lia.
      split; [reflexivity|simpl; lia].
    + cbn [map filter]. destruct (live (get_de buf j)) eqn:Lv.
      * destruct (scan_slots buf total (found + 1) js) as [r' f'] eqn:E.
        injection H as <- <-. destruct (IH _ _ _ E) as [I1 I2].
        replace (Z.to_nat (total - found)) with (S (Z.to_nat (total - (found + 1)))) by lia.
        cbn [map snd firstn length]. rewrite I1. split; [reflexivity|lia].
      * apply IH. exact H.
Qed.

Lemma firstn_app_prefix {A} n (a b : list A) :
  firstn n (a ++ b) = firstn n a ++ firstn (n - length (firstn n a)) b.
Proof.
  rewrite firstn_app. f_equal. rewrite length_firstn.
  destruct (Nat.le_ge_cases n (length a)).
  - replace (n - length a)%nat with O by lia.
    replace (n - Nat.min n (length a))%nat with O by lia. reflexivity.
  - f_equal. lia.
Qed.

Lemma scan_blocks_spec st total : forall blocks i found,
  map snd (scan_blocks st blocks i total found)
  = firstn (Z.to_nat (total - found))
           (filter live (flat_map (fun b => block_slots (read_block st b))
                                  (used_prefix blocks))).
Proof.
  induction blocks as [|b blocks IH]; intros i found; cbn [scan_blocks used_prefix].
  - rewrite firstn_nil. reflexivity.
  - destruct (b =? UNUSED_BLOCK) eqn:U; cbn [orb].
    + rewrite firstn_nil. reflexivity.
    + destruct (found >=? total) eqn:G.
      * replace (Z.to_nat (total - found)) with O by lia. reflexivity.
      * destruct (scan_slots _ _ _ _) as [r f] eqn:E.
        destruct (scan_slots_spec _ _ _ _ _ _ E) as [S1 S2].
        cbn [flat_map]. rewrite filter_app, firstn_app_prefix.
        rewrite map_app, map_map. cbn [snd]. change (map (fun x => snd x) r) with (map snd r).
        fold (block_slots (read_block st b)) in S1. rewrite <- S1. f_equal.
        rewrite IH. f_equal. rewrite length_map. lia.
Qed.

Lemma visible_spec st inode :
  visible st inode
  = firstn (Z.to_nat (size inode / sizeof_DirectoryEntry))
           (filter live (dir_slots st inode)).
Proof.
  unfold visible, dir_entries, dir_slots. rewrite scan_blocks_spec.
  rewrite Z.sub_0_r. reflexivity.
Qed.

Lemma find_snd {A B} (f : B -> bool) (l : list (A * B)) :
  option_map snd (find (fun x => f (snd x)) l) = find f (map snd l).
Proof.
  induction l as [|x l IH]; simpl; auto.
  destruct (f (snd x)); auto.
Qed.

Lemma find_entry_in_dir_lookup st d nm :
  find_entry_in_dir st d nm
  = if negb (mode (read_inode st d) =? 1) then -1
    else lookup_in (visible st (read_inode st d)) nm.
Proof.
  unfold find_entry_in_dir, lookup_in, visible.
  destruct (negb _); [reflexivity|].
  rewrite <- (find_snd (fun e => strcmp_eq (name e) nm)).
  destruct (find _ _) as [[[i j] e]|]; reflexivity.
Qed.

Lemma filter_all {A} (f : A -> bool) l : forallb f l = true -> filter f l = l.
Proof.
  induction l as [|x l IH]; simpl; auto. intros H.
  apply andb_true_iff in H. destruct H as [H1 H2]. rewrite H1, IH; auto.
Qed.

Lemma filter_none {A} (f : A -> bool) l :
  forallb (fun x => negb (f x)) l = true -> filter f l = [].
Proof.
  induction l as [|x l IH]; simpl; auto. intros H.
  apply andb_true_iff in H. destruct H as [H1 H2].
  apply negb_true_iff in H1. rewrite H1. auto.
Qed.

Lemma packed_facts st inode :
  packed st inode = true ->
  size inode
  = sizeof_DirectoryEntry * Z.of_nat (Z.to_nat (size inode / sizeof_DirectoryEntry))
  /\ (Z.to_nat (size inode / sizeof_DirectoryEntry) <= length (dir_slots st inode))%nat
  /\ forallb live (firstn (Z.to_nat (size inode / sizeof_DirectoryEntry))
                          (dir_slots st inode)) = true
  /\ forallb (fun e => negb (live e))
             (skipn (Z.to_nat (size inode / sizeof_DirectoryEntry))
                    (dir_slots st inode)) = true.
Proof.
  unfold packed. cbv zeta. intros H.
  apply andb_true_iff in H. destruct H as [H H4].
  apply andb_true_iff in H. destruct H as [H H3].
  apply andb_true_iff in H. destruct H as [H1 H2].
  apply Z.eqb_eq in H1. apply Nat.leb_le in H2. auto.
Qed.

(** In a directory without holes a walk visits the first [size / 260]
    slots. *)
Lemma visible_packed st inode :
  packed st inode = true ->
  visible st inode
  = firstn (Z.to_nat (size inode / sizeof_DirectoryEntry)) (dir_slots st inode).
Proof.
  intros P. destruct (packed_facts _ _ P) as (H1 & H2 & H3 & H4).
  rewrite visible_spec.
  set (t := Z.to_nat (size inode / sizeof_DirectoryEntry)) in *.
  rewrite <- (firstn_skipn t (dir_slots st inode)) at 1.
  rewrite filter_app, (filter_all _ _ H3), (filter_none _ _ H4), app_nil_r.
  rewrite firstn_firstn. f_equal. lia.
Qed.

(** ** Counting free bits *)

Lemma scan_clear_none bm k : forall i,
  0 <= i -> scan_clear bm k i = -1 -> count_bits bm k i = Z.of_nat k.
Proof.
  induction k as [|k IH]; intros i Hi H; cbn [scan_clear count_bits] in *.
  - reflexivity.
  - destruct (get_bit bm i); [|lia]. rewrite IH by (auto; lia). lia.
Qed.

Lemma count_bits_bounds bm k : forall i, 0 <= count_bits bm k i <= Z.of_nat k.
Proof.
  induction k as [|k IH]; intros i; cbn [count_bits]; [cbn [andb]; lia|].
  specialize (IH (i + 1)). destruct (get_bit bm i); lia.
Qed.

Lemma count_bits_set_bit bm b k : forall i,
  get_bit bm b = false -> 0 <= b -> (Z.to_nat (b / 8) < length bm)%nat ->
  count_bits (set_bit bm b) k i
  = count_bits bm k i + (if (i <=? b) && (b <? i + Z.of_nat k) then 1 else 0).
Proof.
  induction k as [|k IH]; intros i Hb H0 Hl; cbn [count_bits].
  - destruct (Z.leb_spec i b); destruct (Z.ltb_spec b (i + Z.of_nat 0)); cbn [andb]; lia.
  - rewrite IH by auto.
    destruct (Z.eq_dec i b) as [->|Hne].
    + rewrite get_bit_set_bit_same, Hb by auto.
      destruct (Z.leb_spec (b + 1) b); [lia|].
      destruct (Z.leb_spec b b); [|lia].
      destruct (Z.ltb_spec b (b + Z.of_nat (S k))); [|lia]. cbn [andb]. lia.
    + rewrite get_bit_set_bit_other by auto.
      destruct (Z.leb_spec i b); destruct (Z.leb_spec (i + 1) b);
        destruct (Z.ltb_spec b (i + 1 + Z.of_nat k));
        destruct (Z.ltb_spec b (i + Z.of_nat (S k))); cbn [andb]; lia.
Qed.

Lemma count_bits_clear_bit bm b k : forall i,
  get_bit bm b = true ->
  count_bits (clear_bit bm b) k i
  = count_bits bm k i - (if (i <=? b) && (b <? i + Z.of_nat k) then 1 else 0).
Proof.
  induction k as [|k IH]; intros i Hb; cbn [count_bits].
  - destruct (Z.leb_spec i b); destruct (Z.ltb_spec b (i + Z.of_nat 0)); cbn [andb]; lia.
  - rewrite IH by auto. rewrite get_bit_clear_bit.
    destruct (Z.eqb_spec b i) as [->|Hne].
    + rewrite Hb.
      destruct (Z.leb_spec (i + 1) i); [lia|].
      destruct (Z.leb_spec i i); [|lia].
      destruct (Z.ltb_spec i (i + Z.of_nat (S k))); [|lia]. cbn [andb]. lia.
    + destruct (Z.leb_spec i b); destruct (Z.leb_spec (i + 1) b);
        destruct (Z.ltb_spec b (i + 1 + Z.of_nat k));
        destruct (Z.ltb_spec b (i + Z.of_nat (S k))); cbn [andb]; lia.
Qed.

(** [alloc_data_block] succeeds while a block is free. *)
Lemma alloc_data_block_succeeds st :
  1 <= free_data_blocks st ->
  num_data_blocks (sb st) <= 8 * Z.of_nat (length (data_block_bitmap st)) ->
  exists b,
    alloc_data_block st = (b, with_data_bitmap st (set_bit (data_block_bitmap st) b))
    /\ 0 <= b < num_data_blocks (sb st)
    /\ get_bit (data_block_bitmap st) b = false
    /\ get_bit (set_bit (data_block_bitmap st) b) b = true
    /\ free_data_blocks (with_data_bitmap st (set_bit (data_block_bitmap st) b))
       = free_data_blocks st - 1.
Proof.
  intros Hfree Hlen. unfold alloc_data_block.
  set (bm := data_block_bitmap st) in *. set (n := num_data_blocks (sb st)) in *.
  destruct (Z.eqb_spec (scan_clear bm (Z.to_nat n) 0) (-1)) as [E|E].
  - exfalso. apply scan_clear_none in E; [|lia].
    unfold free_data_blocks in Hfree. fold bm n in Hfree. lia.
  - pose proof (scan_clear_spec _ _ _ _ eq_refl E (Z.le_refl 0)) as [H1 H2].
    set (b := scan_clear bm (Z.to_nat n) 0) in *.
    assert (Hr : (Z.to_nat (b / 8) < length bm)%nat).
    { assert (b / 8 < Z.of_nat (length bm)) by (apply Z.div_lt_upper_bound; lia).
      assert (0 <= b / 8) by (apply Z.div_pos; lia). lia. }
    exists b. repeat split; try lia; auto.
    + apply get_bit_set_bit_same; [lia|auto].
    + unfold free_data_blocks. cbn [sb data_block_bitmap with_data_bitmap].
      fold bm n. rewrite count_bits_set_bit by (auto; lia).
      destruct (Z.leb_spec 0 b); [|lia].
      destruct (Z.ltb_spec b (0 + Z.of_nat (Z.to_nat n))); [|lia]. cbn [andb]. lia.
Qed.

(** [alloc_inode] succeeds while an inode is free. *)
Lemma alloc_inode_succeeds st :
  1 <= free_inodes st ->
  num_inodes (sb st) <= 8 * Z.of_nat (length (inode_bitmap st)) ->
  exists n,
    alloc_inode st = (n, with_inode_bitmap st (set_bit (inode_bitmap st) n))
    /\ 0 <= n < num_inodes (sb st)
    /\ get_bit (inode_bitmap st) n = false
    /\ get_bit (set_bit (inode_bitmap st) n) n = true.
Proof.
  intros Hfree Hlen. unfold alloc_inode.
  set (bm := inode_bitmap st) in *. set (k := num_inodes (sb st)) in *.
  destruct (Z.eqb_spec (scan_clear bm (Z.to_nat k) 0) (-1)) as [E|E].
  - exfalso. apply scan_clear_none in E; [|lia].
    unfold free_inodes in Hfree. fold bm k in Hfree. lia.
  - pose proof (scan_clear_spec _ _ _ _ eq_refl E (Z.le_refl 0)) as [H1 H2].
    set (n := scan_clear bm (Z.to_nat k) 0) in *.
    assert (Hr : (Z.to_nat (n / 8) < length bm)%nat).
    { assert (n / 8 < Z.of_nat (length bm)) by (apply Z.div_lt_upper_bound; lia).
      assert (0 <= n / 8) by (apply Z.div_pos; lia). lia. }
    exists n. repeat split; try lia; auto.
    apply get_bit_set_bit_same; [lia|auto].
Qed.

(** ** The copy loops *)

Lemma agree_refl st : agree st st.
Proof. intros b H. auto. Qed.

Lemma agree_trans a b c : agree a b -> agree b c -> agree a c.
Proof.
  intros H1 H2 x Hx. destruct (H1 x Hx) as [R1 B1]. destruct (H2 x B1) as [R2 B2].
  split; [congruence|exact B2].
Qed.

Lemma blocks_needed_0 : blocks_needed 0 = 0.
Proof. reflexivity. Qed.

Lemma blocks_needed_step n :
  (0 < n)%nat -> blocks_needed n = 1 + blocks_needed (n - BLOCK_BYTES).
Proof.
  intros H. unfold blocks_needed, BLOCK_SIZE.
  assert (B : Z.of_nat BLOCK_BYTES = 4096) by reflexivity.
  destruct (Nat.le_gt_cases n BLOCK_BYTES) as [L|L].
  - replace (n - BLOCK_BYTES)%nat with O by lia. change (Z.of_nat 0) with 0.
    change ((0 + 4096 - 1) / 4096) with 0.
    assert (Z.of_nat n <= 4096) by lia.
    rewrite Z.add_0_r. symmetry.
    apply Z.div_unique with (r := Z.of_nat n - 1); lia.
  - rewrite Nat2Z.inj_sub by lia. rewrite B.
    replace (Z.of_nat n + 4096 - 1) with (1 * 4096 + (Z.of_nat n - 4096 + 4096 - 1)) by lia.
    rewrite Z.div_add_l by lia. reflexivity.
Qed.

Lemma blocks_needed_nonneg n : 0 <= blocks_needed n.
Proof. unfold blocks_needed, BLOCK_SIZE. apply Z.div_pos; lia. Qed.

Lemma set_direct_block_length inode i b :
  length (direct_blocks (set_direct_block inode i b)) = length (direct_blocks inode).
Proof. apply length_upd_nth. Qed.

Lemma firstn_upd_nth {A} (l : list A) i x n :
  (n <= i)%nat -> firstn n (upd_nth i x l) = firstn n l.
Proof.
  revert i n. induction l as [|h t IH]; intros [|i] [|n] H; simpl; auto; try lia.
  f_equal. apply IH. lia.
Qed.

Lemma skipn_nth_cons {A} (l : list A) i d :
  (i < length l)%nat -> skipn i l = nth i l d :: skipn (S i) l.
Proof.
  revert i. induction l as [|h t IH]; intros [|i] H; simpl in *; try lia; auto.
  apply IH. lia.
Qed.

Lemma write_fresh_agree st b buf :
  get_bit (data_block_bitmap st) b = false ->
  agree st (write_block (with_data_bitmap st (set_bit (data_block_bitmap st) b)) b buf).
Proof.
  intros Hb x Hx. assert (x <> b) by congruence. split.
  - rewrite read_write_block. destruct (Z.eqb_spec x b); [congruence|reflexivity].
  - cbn [data_block_bitmap write_block with_disk with_data_bitmap].
    rewrite get_bit_set_bit_other by congruence. exact Hx.
Qed.

Lemma free_data_blocks_write_block st b buf :
  free_data_blocks (write_block st b buf) = free_data_blocks st.
Proof. reflexivity. Qed.

Lemma cp_from_loop_done st blocks : cp_from_loop st blocks 0 = [].
Proof. destruct blocks; reflexivity. Qed.

Ltac cp_nothing :=
  split; [reflexivity|]; split; [apply agree_refl|];
  split; [reflexivity|]; split; [reflexivity|]; split; [reflexivity|];
  split; [reflexivity|]; split; [reflexivity|];
  split; [cbn [length]; rewrite blocks_needed_0; lia|];
  split; [assumption|]; split; [reflexivity|]; split; [reflexivity|];
  split; [reflexivity|]; intros stX _; apply cp_from_loop_done.

(** The import loop followed by the export loop gives the source back, in
    every later state that has left the blocks the import took alone. *)
Lemma cp_loops_round_trip : forall k i st inode src,
  (i + k = 12)%nat ->
  length (direct_blocks inode) = 12%nat ->
  blocks_needed (length src) <= Z.of_nat k ->
  blocks_needed (length src) <= free_data_blocks st ->
  num_data_blocks (sb st) <= 8 * Z.of_nat (length (data_block_bitmap st)) ->
  num_data_blocks (sb st) <= MAX_DATA_BLOCKS ->
  exists st2 inode2,
    cp_to_loop (seq i k) st inode src = (st2, Some inode2)
    /\ agree st st2
    /\ (forall n, read_inode st2 n = read_inode st n)
    /\ inode_bitmap st2 = inode_bitmap st
    /\ sb st2 = sb st
    /\ cwd st2 = cwd st
    /\ length (data_block_bitmap st2) = length (data_block_bitmap st)
    /\ free_data_blocks st2 = free_data_blocks st - blocks_needed (length src)
    /\ length (direct_blocks inode2) = 12%nat
    /\ mode inode2 = mode inode /\ size inode2 = size inode
    /\ firstn i (direct_blocks inode2) = firstn i (direct_blocks inode)
    /\ (forall stX,
          (forall b, get_bit (data_block_bitmap st) b = false ->
                     get_bit (data_block_bitmap st2) b = true ->
                     read_block stX b = read_block st2 b) ->
          cp_from_loop stX (skipn i (direct_blocks inode2))
                       (Z.of_nat (length src)) = src).
Proof.
  induction k as [|k IH]; intros i st inode src Hik Hlen Hk Hfree Hbm Hmax.
  - assert (src = []).
    { destruct src as [|c src]; auto.
      rewrite blocks_needed_step in Hk by (simpl; lia).
      pose proof (blocks_needed_nonneg (length (c :: src) - BLOCK_BYTES)).
      change (Z.of_nat 0) with 0 in Hk. lia. }
    subst src. exists st, inode. cbn [seq cp_to_loop]. cp_nothing.
  - cbn [seq cp_to_loop]. destruct src as [|c src].
    + exists st, inode. cp_nothing.
    + set (s := c :: src) in *.
      assert (Hs : (0 < length s)%nat) by (unfold s; simpl; lia).
      rewrite (blocks_needed_step _ Hs) in Hk, Hfree.
      pose proof (blocks_needed_nonneg (length s - BLOCK_BYTES)) as Hnn.
      destruct (alloc_data_block_succeeds st ltac:(lia) Hbm)
        as (b & Ha & Hb & Hclear & Hset & Hf1).
      rewrite Ha.
      destruct (Z.eqb_spec b (-1)) as [E|_]; [lia|].
      set (st1 := with_data_bitmap st (set_bit (data_block_bitmap st) b)) in *.
      set (chunk := firstn BLOCK_BYTES s).
      set (buffer := chunk ++ zeros (BLOCK_BYTES - length chunk)).
      set (st2 := write_block st1 b buffer).
      assert (Lchunk : length chunk = Nat.min BLOCK_BYTES (length s))
        by (unfold chunk; apply length_firstn).
      assert (Lbuf : length buffer = BLOCK_BYTES).
      { unfold buffer. rewrite length_app, length_zeros. lia. }
      assert (Hlen' : length (skipn BLOCK_BYTES s) = (length s - BLOCK_BYTES)%nat)
        by apply length_skipn.
      assert (Lbm : length (data_block_bitmap st2) = length (data_block_bitmap st)).
      { unfold st2, st1. cbn [data_block_bitmap write_block with_disk with_data_bitmap].
        unfold set_bit. destruct (b <? 0); [reflexivity|]. apply length_upd_nth. }
      destruct (IH (S i) st2 (set_direct_block inode i b) (skipn BLOCK_BYTES s))
        as (st3 & inode3 & Hloop & Hag & Hri & Hib & Hsb & Hcwd & Hlbm & Hf3 & Hl3
            & Hm3 & Hs3 & Hfn & Hrt).
      * lia.
      * rewrite set_direct_block_length. exact Hlen.
      * rewrite Hlen'. lia.
      * rewrite Hlen'. unfold st2. rewrite free_data_blocks_write_block. lia.
      * rewrite Lbm. exact Hbm.
      * exact Hmax.
      * exists st3, inode3. rewrite Hloop.
        assert (Ag1 : agree st st2) by (apply write_fresh_agree; exact Hclear).
        assert (Hb2 : get_bit (data_block_bitmap st2) b = true) by exact Hset.
        split; [reflexivity|]. split; [eapply agree_trans; eauto|].
        split; [intros n; rewrite Hri; reflexivity|].
        split; [rewrite Hib; reflexivity|].
        split; [rewrite Hsb; reflexivity|].
        split; [rewrite Hcwd; reflexivity|].
        split; [rewrite Hlbm; exact Lbm|].
        split.
        { rewrite Hf3, Hlen'. unfold st2. rewrite free_data_blocks_write_block.
          rewrite (blocks_needed_step _ Hs). lia. }
        split; [exact Hl3|]. split; [exact Hm3|]. split; [exact Hs3|].
        assert (Hnth : nth i (direct_blocks inode3) UNUSED_BLOCK = b).
        { assert (N : nth i (firstn (S i) (direct_blocks inode3)) UNUSED_BLOCK
                      = nth i (firstn (S i) (direct_blocks (set_direct_block inode i b)))
                            UNUSED_BLOCK) by (rewrite Hfn; reflexivity).
          rewrite !nth_firstn in N.
          destruct (Nat.ltb_spec i (S i)); [|lia]. rewrite N.
          apply nth_upd_nth_same. lia. }
        split.
        { transitivity (firstn i (firstn (S i) (direct_blocks inode3))).
          { rewrite firstn_firstn. f_equal. lia. }
          rewrite Hfn, firstn_firstn. replace (Nat.min i (S i)) with i by lia.
          apply (firstn_upd_nth (direct_blocks inode) i b i). lia. }
        intros stX HX.
        rewrite (skipn_nth_cons _ i UNUSED_BLOCK) by lia. rewrite Hnth.
        cbn [cp_from_loop].
        destruct (Z.leb_spec (Z.of_nat (length s)) 0); [lia|].
        assert (Hbu : (b =? UNUSED_BLOCK) = false).
        { apply Z.eqb_neq. unfold MAX_DATA_BLOCKS, UNUSED_BLOCK in *. lia. }
        rewrite Hbu.
        assert (Hrb : read_block stX b = buffer).
        { rewrite (HX b Hclear (proj2 (Hag b Hb2))).
          destruct (Hag b Hb2) as [R3 _]. rewrite R3.
          unfold st2. rewrite read_write_block, Z.eqb_refl. apply fit_id. exact Lbuf. }
        rewrite Hrb.
        assert (BS : Z.of_nat BLOCK_BYTES = BLOCK_SIZE) by reflexivity.
        set (btw := if Z.of_nat (length s) >? BLOCK_SIZE then BLOCK_SIZE
                    else Z.of_nat (length s)).
        assert (Hbtw : Z.to_nat btw = length chunk).
        { unfold btw. destruct (Z.gtb_spec (Z.of_nat (length s)) BLOCK_SIZE); lia. }
        rewrite Hbtw. unfold buffer. rewrite firstn_app, Nat.sub_diag, firstn_all.
        cbn [firstn]. rewrite app_nil_r.
        replace (Z.of_nat (length s) - btw) with (Z.of_nat (length (skipn BLOCK_BYTES s))).
        2:{ rewrite Hlen'. unfold btw.
            destruct (Z.gtb_spec (Z.of_nat (length s)) BLOCK_SIZE); lia. }
        rewrite (Hrt stX); [apply firstn_skipn|].
        intros b' C2 S3. apply HX; [|exact S3].
        destruct (get_bit (data_block_bitmap st) b') eqn:C; [|reflexivity].
        destruct (Ag1 b' C) as [_ S2]. congruence.
Qed.

(** ** Slots of a directory by index *)

Lemma length_block_slots buf : length (block_slots buf) = entries_per_block.
Proof. unfold block_slots. rewrite length_map, length_seq. reflexivity. Qed.

Lemma nth_block_slots buf j d :
  (j < entries_per_block)%nat -> nth j (block_slots buf) d = get_de buf j.
Proof.
  intros H. unfold block_slots.
  rewrite (nth_indep _ d (get_de buf 0)) by (rewrite length_map, length_seq; exact H).
  rewrite (map_nth (get_de buf) (seq 0 entries_per_block) 0%nat j).
  rewrite seq_nth by exact H. reflexivity.
Qed.

Lemma length_flat_map_chunks {A B} (f : A -> list B) c l :
  (forall x, length (f x) = c) -> length (flat_map f l) = (c * length l)%nat.
Proof.
  intros H. induction l as [|x l IH]; simpl; [lia|].
  rewrite length_app, H, IH. lia.
Qed.

Lemma nth_flat_map_chunks {A B} (f : A -> list B) c l dx d : forall i j,
  (forall x, length (f x) = c) -> (i < length l)%nat -> (j < c)%nat ->
  nth (c * i + j) (flat_map f l) d = nth j (f (nth i l dx)) d.
Proof.
  induction l as [|x l IH]; intros i j H Hi Hj; simpl in Hi; [lia|].
  cbn [flat_map]. destruct i as [|i].
  - rewrite Nat.mul_0_r. rewrite app_nth1 by (rewrite H; lia). reflexivity.
  - rewrite app_nth2 by (rewrite H; lia). rewrite H.
    replace (c * S i + j - c)%nat with (c * i + j)%nat by lia.
    cbn [nth]. apply IH; auto. lia.
Qed.

Lemma length_dir_slots st inode :
  length (dir_slots st inode)
  = (entries_per_block * length (used_prefix (firstn 12 (direct_blocks inode))))%nat.
Proof.
  unfold dir_slots. apply length_flat_map_chunks. intros x. apply length_block_slots.
Qed.

Lemma nth_dir_slots st inode i j d :
  (i < length (used_prefix (firstn 12 (direct_blocks inode))))%nat ->
  (j < entries_per_block)%nat ->
  nth (entries_per_block * i + j) (dir_slots st inode) d
  = get_de (read_block st (nth i (used_prefix (firstn 12 (direct_blocks inode)))
                               UNUSED_BLOCK)) j.
Proof.
  intros Hi Hj. unfold dir_slots.
  rewrite (nth_flat_map_chunks (fun b => block_slots (read_block st b))
             entries_per_block _ UNUSED_BLOCK d i j);
    [apply nth_block_slots; exact Hj|intros x; apply length_block_slots|exact Hi|exact Hj].
Qed.

(** *** The used prefix of the pointers *)

Lemma used_prefix_nth blocks : forall i,
  (i < length (used_prefix blocks))%nat ->
  nth i (used_prefix blocks) UNUSED_BLOCK = nth i blocks UNUSED_BLOCK
  /\ nth i blocks UNUSED_BLOCK <> UNUSED_BLOCK.
Proof.
  induction blocks as [|b blocks IH]; intros i Hi; cbn [used_prefix] in *.
  - simpl in Hi. lia.
  - destruct (Z.eqb_spec b UNUSED_BLOCK) as [E|E]; [simpl in Hi; lia|].
    destruct i as [|i]; simpl; [auto|]. apply IH. simpl in Hi. lia.
Qed.

Lemma used_prefix_length_le blocks : (length (used_prefix blocks) <= length blocks)%nat.
Proof.
  induction blocks as [|b blocks IH]; cbn [used_prefix]; [lia|].
  destruct (b =? UNUSED_BLOCK); simpl; lia.
Qed.

Lemma used_prefix_end blocks :
  (length (used_prefix blocks) < length blocks)%nat ->
  nth (length (used_prefix blocks)) blocks UNUSED_BLOCK = UNUSED_BLOCK.
Proof.
  induction blocks as [|b blocks IH]; cbn [used_prefix]; intros H; [simpl in H; lia|].
  destruct (Z.eqb_spec b UNUSED_BLOCK) as [E|E]; [simpl; exact E|].
  simpl. apply IH. simpl in H. lia.
Qed.

Lemma used_prefix_filter blocks :
  exists rest,
    filter (fun b => negb (b =? UNUSED_BLOCK)) blocks = used_prefix blocks ++ rest.
Proof.
  induction blocks as [|b blocks IH]; cbn [used_prefix filter].
  - exists []. reflexivity.
  - destruct (b =? UNUSED_BLOCK); cbn [negb].
    + eexists. reflexivity.
    + destruct IH as [rest IH]. exists rest. rewrite IH. reflexivity.
Qed.

Lemma used_prefix_upd blocks b :
  b <> UNUSED_BLOCK ->
  (length (used_prefix blocks) < length blocks)%nat ->
  exists rest,
    used_prefix (upd_nth (length (used_prefix blocks)) b blocks)
    = used_prefix blocks ++ b :: rest.
Proof.
  intros Hb. induction blocks as [|x blocks IH]; cbn [used_prefix]; intros H;
    [simpl in H; lia|].
  destruct (Z.eqb_spec x UNUSED_BLOCK) as [E|E].
  - cbn [length upd_nth used_prefix app].
    destruct (Z.eqb_spec b UNUSED_BLOCK); [congruence|]. eexists. reflexivity.
  - cbn [length upd_nth used_prefix app].
    destruct (Z.eqb_spec x UNUSED_BLOCK); [congruence|].
    destruct IH as [rest IH]; [simpl in H; lia|]. exists rest. rewrite IH. reflexivity.
Qed.

(** *** The first free slot of a block *)

Lemma find_seq_none (f : nat -> bool) : forall k s,
  (forall j, (s <= j < s + k)%nat -> f j = false) -> find f (seq s k) = None.
Proof.
  induction k as [|k IH]; intros s H; cbn [seq find]; auto.
  rewrite H by lia. apply IH. intros j Hj. apply H. lia.
Qed.

Lemma find_seq_first (f : nat -> bool) : forall k s j0,
  (s <= j0 < s + k)%nat ->
  (forall j, (s <= j < j0)%nat -> f j = false) -> f j0 = true ->
  find f (seq s k) = Some j0.
Proof.
  induction k as [|k IH]; intros s j0 Hr Hlt Hj; [lia|]. cbn [seq find].
  destruct (Nat.eq_dec s j0) as [->|Hne].
  - rewrite Hj. reflexivity.
  - rewrite Hlt by lia. apply IH; auto; [lia|]. intros j Hjr. apply Hlt. lia.
Qed.

Lemma first_free_slot_full buf :
  (forall j, (j < entries_per_block)%nat -> live (get_de buf j) = true) ->
  first_free_slot buf = None.
Proof.
  intros H. unfold first_free_slot. apply find_seq_none.
  intros j Hj. rewrite H by lia. reflexivity.
Qed.

Lemma first_free_slot_at buf j0 :
  (j0 < entries_per_block)%nat ->
  (forall j, (j < j0)%nat -> live (get_de buf j) = true) ->
  live (get_de buf j0) = false ->
  first_free_slot buf = Some j0.
Proof.
  intros Hj H H0. unfold first_free_slot. apply find_seq_first.
  - lia.
  - intros j Hjr. rewrite H by lia. reflexivity.
  - rewrite H0. reflexivity.
Qed.

Lemma forallb_nth {A} (f : A -> bool) l d q :
  forallb f l = true -> (q < length l)%nat -> f (nth q l d) = true.
Proof.
  intros H Hq. rewrite forallb_forall in H. apply H. apply nth_In. exact Hq.
Qed.

Lemma zero_block_slots_dead j :
  (j < entries_per_block)%nat -> live (get_de (zeros BLOCK_BYTES) j) = false.
Proof.
  intros H.
  assert (F : forallb (fun j => negb (live (get_de (zeros BLOCK_BYTES) j)))
                      (seq 0 entries_per_block) = true) by (vm_compute; reflexivity).
  rewrite forallb_forall in F. apply negb_true_iff. apply F. apply in_seq. lia.
Qed.

(** ** Insertion into a directory without holes *)

Lemma add_entry_loop_used env i idxs st d inode e :
  nth i (direct_blocks inode) UNUSED_BLOCK <> UNUSED_BLOCK ->
  add_entry_loop env (i :: idxs) st d inode e
  = let b := nth i (direct_blocks inode) UNUSED_BLOCK in
    match first_free_slot (read_block st b) with
    | Some j =>
      write_inode (write_block st b (put_de (read_block st b) j e)) d
        (set_modification_time
           (if (Z.of_nat i * Z.of_nat entries_per_block + Z.of_nat j)
               * sizeof_DirectoryEntry >=? size inode
            then set_size inode (wrap32 (size inode + sizeof_DirectoryEntry))
            else inode) (now env))
    | None => add_entry_loop env idxs st d inode e
    end.
Proof.
  intros Hb. cbn [add_entry_loop]. apply Z.eqb_neq in Hb. rewrite Hb. reflexivity.
Qed.

Lemma first_free_slot_zeros : first_free_slot (zeros BLOCK_BYTES) = Some 0%nat.
Proof. vm_compute. reflexivity. Qed.

Lemma add_entry_loop_unused env i idxs st d inode e b st1 :
  nth i (direct_blocks inode) UNUSED_BLOCK = UNUSED_BLOCK ->
  alloc_data_block st = (b, st1) -> b <> -1 ->
  add_entry_loop env (i :: idxs) st d inode e
  = write_inode (write_block st1 b (put_de (zeros BLOCK_BYTES) 0 e)) d
      (set_modification_time
         (if (Z.of_nat i * Z.of_nat entries_per_block + Z.of_nat 0)
             * sizeof_DirectoryEntry >=? size inode
          then set_size (set_direct_block inode i b)
                        (wrap32 (size inode + sizeof_DirectoryEntry))
          else set_direct_block inode i b) (now env)).
Proof.
  intros Hu Ha Hb. cbn [add_entry_loop]. rewrite Hu, Z.eqb_refl, Ha.
  apply Z.eqb_neq in Hb. rewrite Hb. cbv beta iota.
  rewrite first_free_slot_zeros. reflexivity.
Qed.

Lemma list_split_at {A} (l l' : list A) t x d :
  (t < length l')%nat -> (t <= length l)%nat ->
  (forall q, (q < t)%nat -> nth q l' d = nth q l d) ->
  nth t l' d = x ->
  l' = firstn t l ++ x :: skipn (S t) l'.
Proof.
  intros H1 H2 H3 H4.
  rewrite <- (firstn_skipn t l') at 1. f_equal.
  - apply (nth_ext _ _ d d).
    + rewrite !length_firstn. lia.
    + intros q Hq. rewrite length_firstn in Hq. rewrite !nth_firstn.
      destruct (Nat.ltb_spec q t); [apply H3; lia|reflexivity].
  - rewrite (skipn_nth_cons l' t d) by lia. rewrite H4. reflexivity.
Qed.

Lemma firstn_live_insert (E R : list DirectoryEntry) x t :
  length E = t -> forallb live E = true -> live x = true ->
  firstn (S t) (filter live (E ++ x :: R)) = E ++ [x].
Proof.
  intros L HE Hx. rewrite filter_app, (filter_all _ _ HE). cbn [filter]. rewrite Hx.
  rewrite firstn_app, L. replace (S t - t)%nat with 1%nat by lia.
  rewrite firstn_all2 by lia. reflexivity.
Qed.

Section Insertion.

Variables (env : Env) (st : State) (d : Z) (e : DirectoryEntry).

Let inode := read_inode st d.
Let bs := direct_blocks inode.
Let prefix := used_prefix (firstn 12 bs).
Let t := Z.to_nat (size inode / sizeof_DirectoryEntry).
Let slots := dir_slots st inode.
Let new_slot := mkDirectoryEntry (fit NAME_BYTES (name e)) (wrap32 (inode_number e)).

Hypothesis Hpacked : packed st inode = true.
Hypothesis Hlen : length bs = 12%nat.
Hypothesis Hnodup : NoDup (used_pointers inode).
Hypothesis Hbits : forall b, In b (used_pointers inode) ->
                             get_bit (data_block_bitmap st) b = true.
Hypothesis Hfree : 1 <= free_data_blocks st.
Hypothesis Hgeom :
  num_data_blocks (sb st) <= 8 * Z.of_nat (length (data_block_bitmap st)).
Hypothesis Hmax : num_data_blocks (sb st) <= MAX_DATA_BLOCKS.
Hypothesis Hlive : live new_slot = true.

Let E15 : entries_per_block = 15%nat := eq_refl.

Lemma ins_firstn_bs : firstn 12 bs = bs.
Proof. apply firstn_all2. lia. Qed.

Lemma ins_size : size inode = sizeof_DirectoryEntry * Z.of_nat t.
Proof. destruct (packed_facts _ _ Hpacked) as (H & _). exact H. Qed.



Lemma ins_prefix_le : (length prefix <= 12)%nat.
Proof.
  unfold prefix. rewrite ins_firstn_bs.
  pose proof (used_prefix_length_le bs). lia.
Qed.

Lemma ins_prefix_used i :
  (i < length prefix)%nat ->
  nth i prefix UNUSED_BLOCK = nth i bs UNUSED_BLOCK
  /\ nth i bs UNUSED_BLOCK <> UNUSED_BLOCK.
Proof.
  intros H. unfold prefix in *. rewrite ins_firstn_bs in *.
  apply used_prefix_nth. exact H.
Qed.

Lemma ins_nth_slots i j :
  (i < length prefix)%nat -> (j < entries_per_block)%nat ->
  nth (entries_per_block * i + j) slots new_slot
  = get_de (read_block st (nth i prefix UNUSED_BLOCK)) j.
Proof. intros Hi Hj. apply nth_dir_slots; assumption. Qed.

Lemma ins_length_slots : length slots = (entries_per_block * length prefix)%nat.
Proof. apply length_dir_slots. Qed.

Lemma ins_t_le : (t <= entries_per_block * length prefix)%nat.
Proof.
  destruct (packed_facts _ _ Hpacked) as (_ & H & _).
  fold t slots in H. rewrite ins_length_slots in H. exact H.
Qed.

Lemma ins_slot_live i j :
  (i < length prefix)%nat -> (j < entries_per_block)%nat ->
  (entries_per_block * i + j < t)%nat ->
  live (get_de (read_block st (nth i bs UNUSED_BLOCK)) j) = true.
Proof.
  intros Hi Hj Hq. destruct (packed_facts _ _ Hpacked) as (_ & H2 & H3 & _).
  fold t slots in H2, H3.
  destruct (ins_prefix_used i Hi) as [P1 _]. rewrite <- P1.
  rewrite <- (ins_nth_slots i j) by auto.
  rewrite <- (firstn_skipn t slots).
  rewrite app_nth1 by (rewrite length_firstn; lia).
  apply forallb_nth; [exact H3|rewrite length_firstn; lia].
Qed.

Lemma ins_slot_dead i j :
  (i < length prefix)%nat -> (j < entries_per_block)%nat ->
  (t <= entries_per_block * i + j)%nat ->
  live (get_de (read_block st (nth i bs UNUSED_BLOCK)) j) = false.
Proof.
  intros Hi Hj Hq. destruct (packed_facts _ _ Hpacked) as (_ & H2 & _ & H4).
  fold t slots in H2, H4.
  destruct (ins_prefix_used i Hi) as [P1 _]. rewrite <- P1.
  rewrite <- (ins_nth_slots i j) by auto.
  pose proof ins_length_slots as Ls.
  rewrite <- (firstn_skipn t slots).
  rewrite app_nth2 by (rewrite length_firstn; lia).
  rewrite length_firstn. replace (Nat.min t (length slots)) with t by lia.
  apply negb_true_iff.
  apply (forallb_nth (fun e0 => negb (live e0))); [exact H4|].
  rewrite length_skipn. lia.
Qed.

(** The loop passes over the full blocks. *)
Lemma ins_skip_full : forall i,
  (entries_per_block * i <= t)%nat ->
  add_entry_loop env (seq 0 12) st d inode e
  = add_entry_loop env (seq i (12 - i)) st d inode e.
Proof.
  induction i as [|i IH]; intros Hi; [reflexivity|].
  rewrite IH by lia.
  pose proof ins_t_le as Ht. pose proof ins_prefix_le as Hp.
  assert (Hi' : (i < length prefix)%nat) by lia.
  destruct (ins_prefix_used i Hi') as [P1 P2].
  replace (12 - i)%nat with (S (12 - S i)) by lia. cbn [seq].
  rewrite add_entry_loop_used by exact P2. cbv zeta.
  rewrite first_free_slot_full; [reflexivity|].
  intros j Hj. apply ins_slot_live; auto. lia.
Qed.

Hypothesis Hroom : (t < 180)%nat.

Lemma ins_nodup_prefix : NoDup prefix.
Proof.
  destruct (used_prefix_filter bs) as [rest Hr].
  unfold used_pointers in Hnodup. fold bs in Hnodup. rewrite Hr in Hnodup.
  apply NoDup_app_remove_r in Hnodup. unfold prefix. rewrite ins_firstn_bs.
  exact Hnodup.
Qed.

Lemma ins_prefix_in i :
  (i < length prefix)%nat -> In (nth i prefix UNUSED_BLOCK) (used_pointers inode).
Proof.
  intros Hi. destruct (used_prefix_filter bs) as [rest Hr].
  unfold used_pointers. fold bs. rewrite Hr. apply in_or_app. left.
  unfold prefix in *. rewrite ins_firstn_bs in *. apply nth_In. exact Hi.
Qed.

(** What the walk sees once slot [t] holds the new entry and the slots
    before it are as they were. *)
Lemma ins_visible st' inode' i0 j0 :
  size inode' = size inode + sizeof_DirectoryEntry ->
  t = (entries_per_block * i0 + j0)%nat -> (j0 < entries_per_block)%nat ->
  (i0 < length (used_prefix (firstn 12 (direct_blocks inode'))))%nat ->
  (forall i j, (i < length prefix)%nat -> (j < entries_per_block)%nat ->
               (entries_per_block * i + j < t)%nat ->
     get_de (read_block st' (nth i (used_prefix (firstn 12 (direct_blocks inode')))
                                 UNUSED_BLOCK)) j
     = get_de (read_block st (nth i prefix UNUSED_BLOCK)) j) ->
  get_de (read_block st' (nth i0 (used_prefix (firstn 12 (direct_blocks inode')))
                              UNUSED_BLOCK)) j0 = new_slot ->
  visible st' inode' = visible st inode ++ [new_slot].
Proof.
  intros Hsize Ht Hj0 Hi0 Hold Hnew.
  destruct (packed_facts _ _ Hpacked) as (P1 & P2 & P3 & P4).
  fold t slots in P1, P2, P3, P4.
  rewrite (visible_packed _ _ Hpacked). fold t slots.
  rewrite visible_spec.
  assert (T1 : Z.to_nat (size inode' / sizeof_DirectoryEntry) = S t).
  { rewrite Hsize, P1. unfold sizeof_DirectoryEntry.
    replace (260 * Z.of_nat t + 260) with ((Z.of_nat t + 1) * 260) by lia.
    rewrite Z.div_mul by lia. lia. }
  rewrite T1.
  set (slots' := dir_slots st' inode').
  assert (L' : length slots'
               = (entries_per_block
                  * length (used_prefix (firstn 12 (direct_blocks inode'))))%nat)
    by apply length_dir_slots.
  pose proof ins_length_slots as L.
  rewrite (list_split_at slots slots' t new_slot new_slot).
  - apply firstn_live_insert; [rewrite length_firstn; lia|exact P3|exact Hlive].
  - rewrite L'. rewrite E15 in *. nia.
  - exact P2.
  - intros q Hq.
    assert (Q : q = (entries_per_block * (q / entries_per_block)
                     + q mod entries_per_block)%nat)
      by (apply Nat.div_mod_eq).
    assert (Qm : (q mod entries_per_block < entries_per_block)%nat)
      by (apply Nat.mod_upper_bound; rewrite E15; lia).
    set (i := (q / entries_per_block)%nat) in *.
    set (j := (q mod entries_per_block)%nat) in *.
    assert (Hi : (i < length prefix)%nat) by (rewrite E15 in *; nia).
    assert (Hi' : (i < length (used_prefix (firstn 12 (direct_blocks inode'))))%nat)
      by (rewrite E15 in *; nia).
    rewrite Q. unfold slots'. rewrite nth_dir_slots by assumption.
    rewrite ins_nth_slots by assumption. apply Hold; auto. lia.
  - rewrite Ht. unfold slots'. rewrite nth_dir_slots by assumption. exact Hnew.
Qed.

Lemma ins_wrap_size : wrap32 (size inode + sizeof_DirectoryEntry)
                      = size inode + sizeof_DirectoryEntry.
Proof.
  rewrite ins_size. unfold wrap32, sizeof_DirectoryEntry. apply Z.mod_small. lia.
Qed.

(** The state an insertion leaves behind, seen from the outside. *)
Let appended (st' : State) : Prop :=
  mode (read_inode st' d) = mode inode
  /\ length (direct_blocks (read_inode st' d)) = 12%nat
  /\ visible st' (read_inode st' d) = visible st inode ++ [new_slot]
  /\ (forall k, k <> d -> read_inode st' k = read_inode st k)
  /\ (forall x, get_bit (data_block_bitmap st) x = true ->
                ~ In x (used_pointers inode) -> read_block st' x = read_block st x)
  /\ (forall x, get_bit (data_block_bitmap st) x = true ->
                get_bit (data_block_bitmap st') x = true)
  /\ inode_bitmap st' = inode_bitmap st /\ sb st' = sb st /\ cwd st' = cwd st
  /\ link_count (read_inode st' d) = link_count inode
  /\ size (read_inode st' d) = size inode + sizeof_DirectoryEntry
  /\ free_data_blocks st'
     = free_data_blocks st
       - (if (t <? entries_per_block * length prefix)%nat then 0 else 1).

Lemma read_block_write_inode s k i b :
  read_block (write_inode s k i) b = read_block s b.
Proof. reflexivity. Qed.

(** Case 1: the next slot lies in a block the directory already has. *)
Lemma ins_existing_block :
  (t < entries_per_block * length prefix)%nat ->
  appended (add_entry_loop env (seq 0 12) st d inode e).
Proof.
  intros Hin.
  set (i0 := (t / entries_per_block)%nat).
  set (j0 := (t mod entries_per_block)%nat).
  assert (Ht : t = (entries_per_block * i0 + j0)%nat) by apply Nat.div_mod_eq.
  assert (Hj0 : (j0 < entries_per_block)%nat)
    by (apply Nat.mod_upper_bound; rewrite E15; lia).
  assert (Hi0 : (i0 < length prefix)%nat) by (rewrite E15 in *; nia).
  pose proof ins_prefix_le as Hp.
  destruct (ins_prefix_used i0 Hi0) as [P1 P2].
  rewrite (ins_skip_full i0) by lia.
  replace (12 - i0)%nat with (S (12 - S i0)) by lia. cbn [seq].
  rewrite add_entry_loop_used by exact P2. cbv zeta.
  set (b := nth i0 bs UNUSED_BLOCK) in *. fold bs. fold b.
  set (buf := read_block st b).
  rewrite (first_free_slot_at buf j0 Hj0).
  2:{ intros j Hj. apply ins_slot_live; auto; lia. }
  2:{ apply ins_slot_dead; auto; lia. }
  assert (Hoff : ((Z.of_nat i0 * Z.of_nat entries_per_block + Z.of_nat j0)
                  * sizeof_DirectoryEntry >=? size inode) = true).
  { rewrite ins_size. unfold sizeof_DirectoryEntry.
    destruct (Z.geb_spec ((Z.of_nat i0 * Z.of_nat entries_per_block + Z.of_nat j0) * 260)
                         (260 * Z.of_nat t)); [reflexivity|lia]. }
  rewrite Hoff, ins_wrap_size.
  assert (Lbuf : length buf = BLOCK_BYTES) by apply length_read_block.
  unfold appended. rewrite read_write_inode, Z.eqb_refl.
  split; [reflexivity|]. split; [exact Hlen|]. split.
  - apply (ins_visible _ _ i0 j0); auto.
    + intros i j Hi Hj Hq.
      change (direct_blocks _) with bs. fold prefix.
      rewrite read_block_write_inode, read_write_block.
      destruct (Z.eqb_spec (nth i prefix UNUSED_BLOCK) b) as [E|E]; [|reflexivity].
      assert (i = i0).
      { apply (proj1 (NoDup_nth prefix UNUSED_BLOCK) ins_nodup_prefix); auto.
        rewrite E, P1. reflexivity. }
      subst i. rewrite E. fold buf.
      rewrite fit_id by (apply length_put_de; auto).
      apply get_de_put_de_other; auto. lia.
    + change (direct_blocks _) with bs. fold prefix.
      rewrite read_block_write_inode, read_write_block, P1, Z.eqb_refl.
      rewrite fit_id by (apply length_put_de; auto).
      apply get_de_put_de_same; auto.
  - split.
    { intros k Hk. rewrite read_write_inode.
      destruct (Z.eqb_spec k d); [contradiction|reflexivity]. }
    split.
    { intros x Hx Hnot. rewrite read_block_write_inode, read_write_block.
      destruct (Z.eqb_spec x b) as [E|E]; [|reflexivity].
      exfalso. apply Hnot. rewrite E, <- P1.
      apply ins_prefix_in. exact Hi0. }
    split; [intros x Hx; exact Hx|].
    split; [reflexivity|]. split; [reflexivity|]. split; [reflexivity|].
    split; [reflexivity|]. split; [reflexivity|].
    destruct (Nat.ltb_spec t (entries_per_block * length prefix)); [|lia].
    change (free_data_blocks (write_inode (write_block st b (put_de buf j0 e)) d
              (set_modification_time
                 (set_size inode (size inode + sizeof_DirectoryEntry)) (now env))))
      with (free_data_blocks st). lia.
Qed.

(** Case 2: every block is full and the entry opens a new one. *)
Lemma ins_new_block :
  t = (entries_per_block * length prefix)%nat ->
  appended (add_entry_loop env (seq 0 12) st d inode e).
Proof.
  intros Ht.
  set (m := length prefix) in *.
  assert (Hm : (m < 12)%nat) by (rewrite E15 in *; lia).
  assert (Hend : nth m bs UNUSED_BLOCK = UNUSED_BLOCK).
  { unfold m, prefix. rewrite ins_firstn_bs. apply used_prefix_end.
    fold bs. unfold m, prefix in Hm. rewrite ins_firstn_bs in Hm. lia. }
  rewrite (ins_skip_full m) by lia.
  replace (12 - m)%nat with (S (12 - S m)) by lia. cbn [seq].
  destruct (alloc_data_block_succeeds st Hfree Hgeom)
    as (b & Ha & Hb & Hclear & Hset & Hf1).
  assert (Hbu : b <> UNUSED_BLOCK)
    by (unfold UNUSED_BLOCK, MAX_DATA_BLOCKS in *; lia).
  rewrite (add_entry_loop_unused _ _ _ _ _ _ _ _ _ Hend Ha) by lia.
  set (st1 := with_data_bitmap st (set_bit (data_block_bitmap st) b)).
  assert (Hoff : ((Z.of_nat m * Z.of_nat entries_per_block + Z.of_nat 0)
                  * sizeof_DirectoryEntry >=? size inode) = true).
  { rewrite ins_size. unfold sizeof_DirectoryEntry.
    destruct (Z.geb_spec ((Z.of_nat m * Z.of_nat entries_per_block + Z.of_nat 0) * 260)
                         (260 * Z.of_nat t)); [reflexivity|lia]. }
  rewrite Hoff, ins_wrap_size.
  destruct (used_prefix_upd bs b Hbu) as [rest Hrest].
  { unfold m, prefix in Hm. rewrite ins_firstn_bs in Hm. fold bs. lia. }
  assert (Hpre : used_prefix (firstn 12 (upd_nth m b bs)) = prefix ++ b :: rest).
  { rewrite firstn_all2 by (rewrite length_upd_nth; lia).
    unfold m, prefix. rewrite ins_firstn_bs. exact Hrest. }
  unfold appended. rewrite read_write_inode, Z.eqb_refl.
  split; [reflexivity|].
  split; [cbn [direct_blocks set_modification_time set_size set_direct_block];
          rewrite length_upd_nth; exact Hlen|].
  split.
  - apply (ins_visible _ _ m 0%nat); auto.
    + lia.
    + rewrite E15. lia.
    + cbn [direct_blocks set_modification_time set_size set_direct_block].
      fold bs. rewrite Hpre, length_app. cbn [length]. fold m. lia.
    + intros i j Hi Hj Hq.
      cbn [direct_blocks set_modification_time set_size set_direct_block].
      fold bs. rewrite Hpre, app_nth1 by exact Hi.
      rewrite read_block_write_inode, read_write_block.
      destruct (Z.eqb_spec (nth i prefix UNUSED_BLOCK) b) as [E|E]; [|reflexivity].
      exfalso. pose proof (Hbits _ (ins_prefix_in i Hi)) as B. rewrite E in B. congruence.
    + cbn [direct_blocks set_modification_time set_size set_direct_block].
      fold bs. rewrite Hpre, app_nth2 by (fold m; lia). fold m.
      rewrite Nat.sub_diag. cbn [nth].
      rewrite read_block_write_inode, read_write_block, Z.eqb_refl.
      rewrite fit_id by (apply length_put_de; [apply length_zeros|rewrite E15; lia]).
      apply get_de_put_de_same; [apply length_zeros|rewrite E15; lia].
  - split.
    { intros k Hk. rewrite read_write_inode.
      destruct (Z.eqb_spec k d); [contradiction|reflexivity]. }
    split.
    { intros x Hx Hnot. rewrite read_block_write_inode, read_write_block.
      destruct (Z.eqb_spec x b) as [E|E]; [congruence|reflexivity]. }
    split.
    { intros x Hx. cbn [data_block_bitmap write_inode write_block with_disk].
      unfold st1. cbn [data_block_bitmap with_data_bitmap].
      destruct (Z.eq_dec b x) as [->|Hne]; [exact Hset|].
      rewrite get_bit_set_bit_other by exact Hne. exact Hx. }
    split; [reflexivity|]. split; [reflexivity|]. split; [reflexivity|].
    split; [reflexivity|]. split; [reflexivity|].
    destruct (Nat.ltb_spec t (entries_per_block * m)) as [Hlt|_]; [lia|].
    exact Hf1.
Qed.

Lemma ins_appended : appended (add_entry_loop env (seq 0 12) st d inode e).
Proof.
  pose proof ins_t_le as H.
  destruct (Nat.eq_dec t (entries_per_block * length prefix)) as [E|E].
  - apply ins_new_block. exact E.
  - apply ins_existing_block. lia.
Qed.

End Insertion.

(** ** Consequences of [alloc_ok] *)

Lemma nodupb_NoDup l : nodupb l = true -> NoDup l.
Proof.
  induction l as [|x l IH]; cbn [nodupb]; intros H; constructor.
  - apply andb_true_iff in H. destruct H as [H _]. apply negb_true_iff in H.
    intros Hin. unfold mem in H.
    assert (E : existsb (Z.eqb x) l = true).
    { apply existsb_exists. exists x. split; [exact Hin|apply Z.eqb_refl]. }
    congruence.
  - apply IH. apply andb_true_iff in H. tauto.
Qed.

Lemma NoDup_flat_map_part {A B} (f : A -> list B) l a :
  NoDup (flat_map f l) -> In a l -> NoDup (f a).
Proof.
  induction l as [|h t IH]; cbn [flat_map]; intros N Hin; [destruct Hin|].
  destruct Hin as [->|Hin].
  - eapply NoDup_app_remove_r; eauto.
  - apply IH; auto. eapply NoDup_app_remove_l; eauto.
Qed.

Lemma NoDup_app_disjoint {A} (l1 l2 : list A) x :
  NoDup (l1 ++ l2) -> In x l1 -> In x l2 -> False.
Proof.
  induction l1 as [|h t IH]; cbn [app]; intros N H1 H2; [destruct H1|].
  inversion N as [|? ? Hn N']; subst. destruct H1 as [->|H1].
  - apply Hn. apply in_or_app. right. exact H2.
  - apply IH; auto.
Qed.

Lemma NoDup_flat_map_disjoint {A B} (f : A -> list B) l :
  NoDup (flat_map f l) ->
  forall a b x, In a l -> In b l -> a <> b -> In x (f a) -> In x (f b) -> False.
Proof.
  induction l as [|h t IH]; cbn [flat_map]; intros N a b x Ha Hb Hne Xa Xb;
    [destruct Ha|].
  destruct Ha as [->|Ha], Hb as [->|Hb].
  - congruence.
  - apply (NoDup_app_disjoint _ _ x N Xa). apply in_flat_map. exists b. auto.
  - apply (NoDup_app_disjoint _ _ x N Xb). apply in_flat_map. exists a. auto.
  - apply (IH (NoDup_app_remove_l _ _ N) a b x); auto.
Qed.

Lemma allocated_in st i : allocated st i <-> In i (allocated_inodes st).
Proof.
  unfold allocated, allocated_inodes. rewrite filter_In. split.
  - intros [R B]. split; [apply in_inode_numbers; exact R|exact B].
  - intros [I B]. split; [|exact B].
    unfold inode_numbers in I. apply in_map_iff in I.
    destruct I as (k & <- & Hk). apply in_seq in Hk. lia.
Qed.

Lemma alloc_ok_facts st :
  alloc_ok st = true ->
  0 < num_inodes (sb st)
  /\ num_inodes (sb st) <= 8 * Z.of_nat (length (inode_bitmap st))
  /\ num_data_blocks (sb st) <= 8 * Z.of_nat (length (data_block_bitmap st))
  /\ num_data_blocks (sb st) <= MAX_DATA_BLOCKS
  /\ num_inodes (sb st) <= MAX_INODES
  /\ allocated st ROOT_INODE_NUM
  /\ allocated st (cwd st)
  /\ forallb (inode_ok st) (allocated_inodes st) = true
  /\ NoDup (owned_blocks st).
Proof.
  unfold alloc_ok. intros H.
  repeat (apply andb_true_iff in H; destruct H as [H ?]).
  repeat match goal with
         | X : (_ <? _) = true |- _ => apply Z.ltb_lt in X
         | X : (_ <=? _) = true |- _ => apply Z.leb_le in X
         end.
  apply Z.ltb_lt in H. unfold allocated, ROOT_INODE_NUM.
  repeat split; auto; try lia. apply nodupb_NoDup. assumption.
Qed.

Lemma alloc_ok_inode st i :
  alloc_ok st = true -> allocated st i -> inode_ok st i = true.
Proof.
  intros H A. destruct (alloc_ok_facts st H) as (_ & _ & _ & _ & _ & _ & _ & F & _).
  rewrite forallb_forall in F. apply F. apply allocated_in. exact A.
Qed.

Lemma inode_ok_facts st i :
  inode_ok st i = true ->
  length (direct_blocks (read_inode st i)) = 12%nat
  /\ (forall b, In b (used_pointers (read_inode st i)) ->
                0 <= b < num_data_blocks (sb st)
                /\ get_bit (data_block_bitmap st) b = true)
  /\ (mode (read_inode st i) = 1 ->
      find_entry_in_dir st i (str ".") = i
      /\ forall x, In x (dir_entries st (read_inode st i)) ->
                   allocated st (to_int (inode_number (snd x)))).
Proof.
  unfold inode_ok. cbv zeta. intros H.
  apply andb_true_iff in H. destruct H as [H H3].
  apply andb_true_iff in H. destruct H as [H1 H2].
  apply Nat.eqb_eq in H1. split; [exact H1|]. split.
  - intros b Hb. rewrite forallb_forall in H2. specialize (H2 b Hb).
    apply andb_true_iff in H2. destruct H2 as [H2 B].
    apply andb_true_iff in H2. destruct H2 as [L U].
    apply Z.leb_le in L. apply Z.ltb_lt in U. auto.
  - intros M. rewrite M in H3. cbn [Z.eqb Pos.eqb negb orb] in H3.
    apply andb_true_iff in H3. destruct H3 as [D E]. apply Z.eqb_eq in D.
    split; [exact D|]. intros x Hx. rewrite forallb_forall in E.
    specialize (E x Hx). cbv zeta in E.
    apply andb_true_iff in E. destruct E as [E B].
    apply andb_true_iff in E. destruct E as [L U].
    apply Z.leb_le in L. apply Z.ltb_lt in U. unfold allocated. auto.
Qed.

Lemma owned_nodup st i :
  alloc_ok st = true -> allocated st i -> NoDup (used_pointers (read_inode st i)).
Proof.
  intros H A. destruct (alloc_ok_facts st H) as (_ & _ & _ & _ & _ & _ & _ & _ & N).
  apply (NoDup_flat_map_part (fun i => used_pointers (read_inode st i))
                             (allocated_inodes st) i N).
  apply allocated_in. exact A.
Qed.

Lemma owned_disjoint st a b x :
  alloc_ok st = true -> allocated st a -> allocated st b -> a <> b ->
  In x (used_pointers (read_inode st a)) ->
  ~ In x (used_pointers (read_inode st b)).
Proof.
  intros H A B Hne Xa Xb.
  destruct (alloc_ok_facts st H) as (_ & _ & _ & _ & _ & _ & _ & _ & N).
  apply (NoDup_flat_map_disjoint (fun i => used_pointers (read_inode st i))
                                 (allocated_inodes st) N a b x);
    auto; apply allocated_in; assumption.
Qed.

(** An entry found in an allocated directory names an allocated inode. *)
Lemma find_entry_allocated st d nm q :
  alloc_ok st = true -> allocated st d ->
  find_entry_in_dir st d nm = q -> q <> -1 ->
  mode (read_inode st d) = 1 /\ allocated st q.
Proof.
  intros H A F Hq.
  destruct (find_entry_in_dir_found st d nm q F Hq) as (M & x & Hx & _ & ->).
  split; [exact M|].
  destruct (inode_ok_facts st d (alloc_ok_inode st d H A)) as (_ & _ & E).
  destruct (E M) as [_ E']. apply E'. exact Hx.
Qed.

Lemma walk_allocated st : forall comps d p,
  alloc_ok st = true -> allocated st d ->
  walk_components st d comps = p -> p <> -1 -> allocated st p.
Proof.
  induction comps as [|nm rest IH]; intros d p H A W Hp; cbn [walk_components] in W.
  - subst p. exact A.
  - cbv zeta in W.
    destruct (Z.eqb_spec (find_entry_in_dir st d nm) (-1)) as [E|E]; [congruence|].
    destruct (find_entry_allocated st d nm _ H A eq_refl E) as [_ Aq].
    destruct (_ && _); [congruence|]. eapply IH; eauto.
Qed.

(** A name that [find_entry_in_dir] misses in an allocated directory is the
    name of no visible entry. *)
Lemma find_entry_none st d nm :
  alloc_ok st = true -> allocated st d -> mode (read_inode st d) = 1 ->
  find_entry_in_dir st d nm = -1 ->
  find (fun e => strcmp_eq (name e) nm) (visible st (read_inode st d)) = None.
Proof.
  intros H A M F.
  destruct (inode_ok_facts st d (alloc_ok_inode st d H A)) as (_ & _ & E).
  destruct (E M) as [_ E'].
  unfold find_entry_in_dir in F. rewrite M in F. cbn [Z.eqb Pos.eqb negb] in F.
  unfold visible. rewrite <- (find_snd (fun e => strcmp_eq (name e) nm)).
  destruct (find _ (dir_entries st (read_inode st d))) as [[[i j] e]|] eqn:Fd;
    [|reflexivity].
  apply find_some in Fd. destruct Fd as [Hin _].
  specialize (E' _ Hin). cbn [snd] in E'. unfold allocated in E'. lia.
Qed.

(** ** Directory walks read only the directory's own blocks *)

Lemma scan_blocks_ext st st' : forall blocks i total found,
  (forall b, In b blocks -> b <> UNUSED_BLOCK -> read_block st' b = read_block st b) ->
  scan_blocks st' blocks i total found = scan_blocks st blocks i total found.
Proof.
  induction blocks as [|b rest IH]; intros i total found H; cbn [scan_blocks]; auto.
  destruct (Z.eqb_spec b UNUSED_BLOCK) as [E|E]; cbn [orb]; [reflexivity|].
  destruct (found >=? total); [reflexivity|].
  rewrite (H b) by (simpl; auto).
  destruct (scan_slots _ _ _ _) as [r f]. f_equal. apply IH.
  intros x Hx. apply H. simpl. auto.
Qed.

Lemma in_firstn_used inode b :
  In b (firstn 12 (direct_blocks inode)) -> b <> UNUSED_BLOCK ->
  In b (used_pointers inode).
Proof.
  intros Hin Hb. unfold used_pointers. apply filter_In. split.
  - rewrite <- (firstn_skipn 12 (direct_blocks inode)). apply in_or_app. auto.
  - apply negb_true_iff. apply Z.eqb_neq. exact Hb.
Qed.

Lemma dir_entries_ext st st' inode :
  (forall b, In b (used_pointers inode) -> read_block st' b = read_block st b) ->
  dir_entries st' inode = dir_entries st inode.
Proof.
  intros H. unfold dir_entries. apply scan_blocks_ext.
  intros b Hin Hb. apply H. apply in_firstn_used; assumption.
Qed.

Lemma visible_ext st st' inode :
  (forall b, In b (used_pointers inode) -> read_block st' b = read_block st b) ->
  visible st' inode = visible st inode.
Proof. intros H. unfold visible. rewrite (dir_entries_ext st st' inode H). reflexivity. Qed.

Lemma used_prefix_in blocks b :
  In b (used_prefix blocks) -> In b blocks /\ b <> UNUSED_BLOCK.
Proof.
  induction blocks as [|x rest IH]; cbn [used_prefix]; intros H; [destruct H|].
  destruct (Z.eqb_spec x UNUSED_BLOCK) as [E|E]; [destruct H|].
  destruct H as [->|H]; [simpl; auto|]. destruct (IH H). simpl. auto.
Qed.

Lemma flat_map_ext_in {A B} (f g : A -> list B) l :
  (forall a, In a l -> f a = g a) -> flat_map f l = flat_map g l.
Proof.
  induction l as [|h t IH]; cbn [flat_map]; intros H; auto.
  rewrite (H h) by (simpl; auto). f_equal. apply IH. intros a Ha. apply H. simpl. auto.
Qed.

Lemma dir_slots_ext st st' inode :
  (forall b, In b (used_pointers inode) -> read_block st' b = read_block st b) ->
  dir_slots st' inode = dir_slots st inode.
Proof.
  intros H. unfold dir_slots. apply flat_map_ext_in. intros b Hb.
  apply used_prefix_in in Hb. destruct Hb as [Hin Hne].
  rewrite H; [reflexivity|]. apply in_firstn_used; assumption.
Qed.

Lemma packed_ext st st' inode :
  (forall b, In b (used_pointers inode) -> read_block st' b = read_block st b) ->
  packed st' inode = packed st inode.
Proof. intros H. unfold packed. rewrite (dir_slots_ext st st' inode H). reflexivity. Qed.

Lemma find_entry_in_dir_ext st st' d nm :
  read_inode st' d = read_inode st d ->
  (forall b, In b (used_pointers (read_inode st d)) ->
             read_block st' b = read_block st b) ->
  find_entry_in_dir st' d nm = find_entry_in_dir st d nm.
Proof.
  intros Hi Hb. unfold find_entry_in_dir. rewrite Hi.
  rewrite (dir_entries_ext st st' _ Hb). reflexivity.
Qed.

Lemma find_app_some {A} (f : A -> bool) l1 l2 x :
  find f l1 = Some x -> find f (l1 ++ l2) = Some x.
Proof.
  induction l1 as [|h t IH]; cbn [find app]; [discriminate|].
  destruct (f h); auto.
Qed.

Lemma find_app_none {A} (f : A -> bool) l1 l2 :
  find f l1 = None -> find f (l1 ++ l2) = find f l2.
Proof.
  induction l1 as [|h t IH]; cbn [find app]; auto.
  destruct (f h); [discriminate|auto].
Qed.

(** ** Path walks after an entry was appended to one directory *)

Section WalkFrame.

Variables (st st' : State) (p : Z) (new_entry : DirectoryEntry).

Hypothesis Hok : alloc_ok st = true.
Hypothesis Hp : allocated st p.
Hypothesis Hmodes :
  forall k, allocated st k -> mode (read_inode st' k) = mode (read_inode st k).
Hypothesis Hvis :
  visible st' (read_inode st' p) = visible st (read_inode st p) ++ [new_entry].
Hypothesis Hdirs : forall k,
  allocated st k -> k <> p -> mode (read_inode st k) = 1 ->
  read_inode st' k = read_inode st k.
Hypothesis Hblocks : forall x,
  get_bit (data_block_bitmap st) x = true ->
  ~ In x (used_pointers (read_inode st p)) -> read_block st' x = read_block st x.

Lemma frame_find d nm :
  allocated st d -> find_entry_in_dir st d nm <> -1 ->
  find_entry_in_dir st' d nm = find_entry_in_dir st d nm.
Proof.
  intros A F. destruct (Z.eq_dec d p) as [->|Hne].
  - rewrite !find_entry_in_dir_lookup in *. rewrite (Hmodes p Hp).
    destruct (negb _); [reflexivity|]. rewrite Hvis. unfold lookup_in in *.
    destruct (find _ (visible st (read_inode st p))) as [e|] eqn:E; [|congruence].
    rewrite (find_app_some _ _ _ _ E). reflexivity.
  - destruct (find_entry_in_dir_found st d nm _ eq_refl F) as [M _].
    apply find_entry_in_dir_ext.
    + apply Hdirs; assumption.
    + intros b Hb.
      destruct (inode_ok_facts st d (alloc_ok_inode st d Hok A)) as (_ & U & _).
      apply Hblocks; [apply U; exact Hb|].
      apply (owned_disjoint st d p b Hok A Hp Hne Hb).
Qed.

Lemma frame_walk : forall comps d,
  allocated st d -> walk_components st d comps <> -1 ->
  walk_components st' d comps = walk_components st d comps.
Proof.
  induction comps as [|nm rest IH]; intros d A W; cbn [walk_components] in *; auto.
  cbv zeta in *.
  destruct (Z.eqb_spec (find_entry_in_dir st d nm) (-1)) as [E|E]; [congruence|].
  destruct (find_entry_allocated st d nm _ Hok A eq_refl E) as [_ Aq].
  rewrite (frame_find d nm A E).
  destruct (Z.eqb_spec (find_entry_in_dir st d nm) (-1)) as [E'|_]; [congruence|].
  rewrite (Hmodes _ Aq).
  destruct (_ && _); [congruence|]. apply IH; auto.
Qed.

Lemma frame_path_walk : forall fuel rest c,
  allocated st c -> path_walk fuel st rest c <> -1 ->
  path_walk fuel st' rest c = path_walk fuel st rest c.
Proof.
  induction fuel as [|fuel IH]; intros rest c A W; cbn [path_walk] in *; auto.
  destruct (strtok_r rest) as [[token rest']|]; [|reflexivity].
  cbv zeta in *.
  destruct (Z.eqb_spec (find_entry_in_dir st c token) (-1)) as [E|E]; [congruence|].
  destruct (find_entry_allocated st c token _ Hok A eq_refl E) as [_ Aq].
  rewrite (frame_find c token A E).
  destruct (Z.eqb_spec (find_entry_in_dir st c token) (-1)) as [E'|_]; [congruence|].
  rewrite (Hmodes _ Aq).
  destruct (_ && _); [congruence|]. apply IH; auto.
Qed.

(** A path that resolved before the insertion resolves to the same inode
    after it. *)
Lemma frame_get_path path :
  cwd st' = cwd st -> get_path_inode st path <> -1 ->
  get_path_inode st' path = get_path_inode st path.
Proof.
  intros C W. unfold get_path_inode in *. unfold cwd in C. rewrite C.
  destruct (alloc_ok_facts st Hok) as (_ & _ & _ & _ & _ & Ar & Ac & _).
  destruct path as [|c tl]; [reflexivity|].
  destruct (bytes_eqb _ _); [reflexivity|].
  destruct (Ascii.eqb c slash); (destruct (bytes_eqb _ _); [reflexivity|]);
    apply frame_path_walk; assumption.
Qed.

(** The appended name resolves to the appended inode, if the directory did
    not have the name before. *)
Lemma frame_new nm :
  mode (read_inode st p) = 1 ->
  find_entry_in_dir st p nm = -1 ->
  strcmp_eq (name new_entry) nm = true ->
  find_entry_in_dir st' p nm = to_int (inode_number new_entry).
Proof.
  intros M F S. rewrite find_entry_in_dir_lookup, (Hmodes p Hp), M.
  cbn [Z.eqb Pos.eqb negb]. rewrite Hvis. unfold lookup_in.
  rewrite find_app_none by (apply find_entry_none; auto).
  cbn [find]. rewrite S. reflexivity.
Qed.

End WalkFrame.

(** ** dirname and basename of a path built from components *)

Lemma take_until_slash_app a b :
  forallb (fun c => negb (Ascii.eqb c slash)) a = true ->
  (b = [] \/ exists b', b = slash :: b') ->
  take_until_slash (a ++ b) = a.
Proof.
  intros Ha Hb. induction a as [|x a IH]; cbn [app].
  - destruct Hb as [->|(b' & ->)]; reflexivity.
  - cbn [forallb] in Ha. apply andb_true_iff in Ha. destruct Ha as [Hx Ha].
    apply negb_true_iff in Hx. cbn [take_until_slash]. rewrite Hx, IH; auto.
Qed.

Lemma drop_until_slash_app a b :
  forallb (fun c => negb (Ascii.eqb c slash)) a = true ->
  (b = [] \/ exists b', b = slash :: b') ->
  drop_until_slash (a ++ b) = b.
Proof.
  intros Ha Hb. induction a as [|x a IH]; cbn [app].
  - destruct Hb as [->|(b' & ->)]; reflexivity.
  - cbn [forallb] in Ha. apply andb_true_iff in Ha. destruct Ha as [Hx Ha].
    apply negb_true_iff in Hx. cbn [drop_until_slash]. rewrite Hx, IH; auto.
Qed.

Lemma valid_component_rev nm :
  valid_component nm = true ->
  forallb (fun c => negb (Ascii.eqb c slash)) (rev nm) = true
  /\ exists x tl, rev nm = x :: tl /\ Ascii.eqb x slash = false.
Proof.
  intros V. unfold valid_component in V. apply andb_true_iff in V.
  destruct V as [Hl Hs].
  assert (F : forallb (fun c => negb (Ascii.eqb c slash)) (rev nm) = true).
  { apply forallb_forall. intros x Hx. apply in_rev in Hx.
    rewrite forallb_forall in Hs. apply Hs. exact Hx. }
  split; [exact F|].
  destruct (rev nm) as [|x tl] eqn:E.
  - apply (f_equal (@length ascii)) in E. rewrite length_rev in E.
    destruct nm; [discriminate Hl|discriminate E].
  - exists x, tl. split; [reflexivity|]. cbn [forallb] in F.
    apply andb_true_iff in F. destruct F as [F _]. apply negb_true_iff. exact F.
Qed.

Lemma strip_trailing_slashes_keeps pre nm :
  valid_component nm = true ->
  strip_trailing_slashes (pre ++ nm) = pre ++ nm.
Proof.
  intros V. destruct (valid_component_rev nm V) as (_ & x & tl & E & Hx).
  unfold strip_trailing_slashes. rewrite rev_app_distr, E. cbn [app skip_delims].
  rewrite Hx. change (x :: tl ++ rev pre) with ((x :: tl) ++ rev pre).
  rewrite <- E, <- rev_app_distr. apply rev_involutive.
Qed.

Lemma rev_prefix_shape pre :
  (pre = [] \/ exists q, pre = q ++ [slash]) ->
  rev pre = [] \/ exists b', rev pre = slash :: b'.
Proof.
  intros [->|(q & ->)]; [left; reflexivity|right].
  rewrite rev_app_distr. cbn [rev app]. eauto.
Qed.

Lemma nonempty_app_valid pre nm :
  valid_component nm = true -> exists c tl, pre ++ nm = c :: tl.
Proof.
  intros V. destruct (valid_component_cons _ V) as (c & tl & -> & _).
  destruct pre as [|p pre]; cbn [app]; eauto.
Qed.

(** [basename] of a path that ends in a component is that component. *)
Lemma basename_last pre nm :
  valid_component nm = true ->
  (pre = [] \/ exists q, pre = q ++ [slash]) ->
  basename (pre ++ nm) = nm.
Proof.
  intros V Hpre. unfold basename.
  rewrite (strip_trailing_slashes_keeps pre nm V).
  destruct (nonempty_app_valid pre nm V) as (c & tl & E). rewrite E. rewrite <- E.
  destruct (valid_component_rev nm V) as (F & _).
  rewrite rev_app_distr, take_until_slash_app; auto using rev_prefix_shape.
  apply rev_involutive.
Qed.

(** [dirname] of a path that ends in a component is what precedes it,
    without the trailing slashes. *)
Lemma dirname_last pre nm :
  valid_component nm = true ->
  (pre = [] \/ exists q, pre = q ++ [slash]) ->
  dirname (pre ++ nm)
  = match pre with
    | [] => str "."
    | _ => match strip_trailing_slashes pre with
           | [] => str "/"
           | d => d
           end
    end.
Proof.
  intros V Hpre. unfold dirname.
  rewrite (strip_trailing_slashes_keeps pre nm V).
  destruct (nonempty_app_valid pre nm V) as (c & tl & E). rewrite E. rewrite <- E.
  destruct (valid_component_rev nm V) as (F & _).
  rewrite rev_app_distr, drop_until_slash_app; auto using rev_prefix_shape.
  destruct Hpre as [->|(q & ->)]; [reflexivity|].
  rewrite rev_app_distr. cbn [rev app]. rewrite rev_involutive.
  destruct q; reflexivity.
Qed.

Lemma join_components_snoc comps nm :
  comps <> [] ->
  join_components (comps ++ [nm]) = (join_components comps ++ [slash]) ++ nm.
Proof.
  intros H. rewrite join_components_app by (auto; discriminate).
  rewrite <- app_assoc. reflexivity.
Qed.

Lemma strip_after_join abs comps :
  comps <> [] -> Forall (fun nm => valid_component nm = true) comps ->
  strip_trailing_slashes (mkpath abs comps ++ [slash]) = mkpath abs comps.
Proof.
  intros Hne V. destruct (exists_last Hne) as (cs & c & ->).
  assert (Vc : valid_component c = true).
  { rewrite Forall_forall in V. apply V. apply in_or_app. right. simpl. auto. }
  assert (E : exists pre, mkpath abs (cs ++ [c]) = pre ++ c).
  { unfold mkpath. destruct cs as [|c0 cs'].
    - exists (if abs then [slash] else []). reflexivity.
    - rewrite join_components_snoc by discriminate.
      eexists. rewrite app_assoc. reflexivity. }
  destruct E as (pre & E). rewrite E.
  unfold strip_trailing_slashes at 1. rewrite rev_app_distr. cbn [rev app skip_delims].
  rewrite Ascii.eqb_refl. fold (strip_trailing_slashes (pre ++ c)).
  apply strip_trailing_slashes_keeps. exact Vc.
Qed.

Lemma mkpath_snoc abs comps nm :
  exists pre,
    mkpath abs (comps ++ [nm]) = pre ++ nm
    /\ (pre = [] \/ exists q, pre = q ++ [slash])
    /\ pre = match comps with
             | [] => if abs then [slash] else []
             | _ => mkpath abs comps ++ [slash]
             end.
Proof.
  unfold mkpath. destruct comps as [|c0 cs].
  - exists (if abs then [slash] else []). split; [reflexivity|]. split; [|reflexivity].
    destruct abs; [right; exists []; reflexivity|left; reflexivity].
  - exists (((if abs then [slash] else []) ++ join_components (c0 :: cs)) ++ [slash]).
    split.
    { rewrite join_components_snoc by discriminate. rewrite !app_assoc. reflexivity. }
    split; [|reflexivity]. right. eexists. reflexivity.
Qed.

Lemma basename_mkpath abs comps nm :
  valid_component nm = true -> basename (mkpath abs (comps ++ [nm])) = nm.
Proof.
  intros V. destruct (mkpath_snoc abs comps nm) as (pre & -> & S & _).
  apply basename_last; assumption.
Qed.

Lemma dirname_mkpath abs comps nm :
  Forall (fun c => valid_component c = true) comps ->
  valid_component nm = true ->
  dirname (mkpath abs (comps ++ [nm]))
  = match comps with
    | [] => if abs then str "/" else str "."
    | _ => mkpath abs comps
    end.
Proof.
  intros Vs V. destruct (mkpath_snoc abs comps nm) as (pre & -> & S & P).
  rewrite dirname_last by assumption. subst pre.
  destruct comps as [|c0 cs]; [destruct abs; reflexivity|].
  rewrite strip_after_join by (auto; discriminate).
  assert (E : exists x tl, mkpath abs (c0 :: cs) ++ [slash] = x :: tl).
  { unfold mkpath. destruct abs; cbn [app]; [eauto|].
    inversion Vs as [|? ? V0 _]; subst.
    destruct (valid_component_cons _ V0) as (c & tl & -> & _).
    rewrite join_components_cons. destruct cs; cbn [app]; eauto. }
  destruct E as (x & tl & E). rewrite E.
  assert (N : exists y tl', mkpath abs (c0 :: cs) = y :: tl').
  { unfold mkpath. destruct abs; cbn [app]; [eauto|].
    inversion Vs as [|? ? V0 _]; subst.
    destruct (valid_component_cons _ V0) as (c & tl0 & -> & _).
    rewrite join_components_cons. destruct cs; cbn [app]; eauto. }
  destruct N as (y & tl' & N). rewrite N. reflexivity.
Qed.

(** ** Paths and walks *)

Lemma get_path_inode_relative st comps :
  comps <> [] -> Forall (fun nm => valid_component nm = true) comps ->
  join_components comps <> str "." ->
  get_path_inode st (join_components comps) = walk_components st (cwd st) comps.
Proof.
  intros Hne V Hdot. destruct comps as [|nm rest]; [congruence|].
  inversion V as [|? ? V1 V2]; subst.
  destruct (valid_component_cons _ V1) as (c & tl & -> & Hc & Htl).
  set (path := join_components ((c :: tl) :: rest)) in *.
  assert (Hp : exists tl', path = c :: tl').
  { unfold path. rewrite join_components_cons. destruct rest; simpl; eauto. }
  destruct Hp as (tl' & Hp).
  pose proof (length_join_components _ V) as L. fold path in L.
  unfold get_path_inode. rewrite Hp. cbv iota. rewrite <- Hp.
  destruct (bytes_eqb path (str ".")) eqn:E1.
  { apply bytes_eqb_eq in E1. contradiction. }
  rewrite Hc.
  assert (E2 : bytes_eqb path (str "/") = false).
  { rewrite Hp. cbn [str list_ascii_of_string bytes_eqb].
    fold slash. rewrite Hc. reflexivity. }
  rewrite E2. apply path_walk_join; [exact V|lia].
Qed.

Lemma join_is_dot comps :
  Forall (fun nm => valid_component nm = true) comps ->
  join_components comps = str "." -> comps = [str "."].
Proof.
  intros V E. pose proof (length_join_components _ V) as L. rewrite E in L.
  destruct comps as [|c [|c2 rest]]; cbn [length] in L.
  - discriminate E.
  - rewrite join_components_cons in E. subst c. reflexivity.
  - change (length (str ".")) with 1%nat in L. lia.
Qed.

Lemma walk_one st d nm :
  walk_components st d [nm] = find_entry_in_dir st d nm.
Proof.
  cbn [walk_components]. cbv zeta.
  destruct (Z.eqb_spec (find_entry_in_dir st d nm) (-1)) as [E|E]; [congruence|].
  cbn [length Nat.eqb negb]. rewrite andb_false_r. reflexivity.
Qed.

(** [get_path_inode] on a path built from components follows the
    components, from the root or from the CWD; the path [.] is handled
    apart by the code. *)
Lemma get_path_inode_components st (abs : bool) comps :
  comps <> [] -> Forall (fun nm => valid_component nm = true) comps ->
  (abs = false -> join_components comps <> str ".") ->
  get_path_inode st (mkpath abs comps)
  = walk_components st (if abs then ROOT_INODE_NUM else cwd st) comps.
Proof.
  intros Hne V Hdot. unfold mkpath. destruct abs; cbn [app].
  - apply get_path_inode_absolute; assumption.
  - apply get_path_inode_relative; auto.
Qed.

Lemma get_path_inode_mkpath st (abs : bool) comps :
  alloc_ok st = true ->
  comps <> [] -> Forall (fun nm => valid_component nm = true) comps ->
  walk_components st (if abs then ROOT_INODE_NUM else cwd st) comps <> -1 ->
  get_path_inode st (mkpath abs comps)
  = walk_components st (if abs then ROOT_INODE_NUM else cwd st) comps.
Proof.
  intros Hok Hne V W. unfold mkpath. destruct abs; cbn [app].
  - apply get_path_inode_absolute; assumption.
  - destruct (list_eq_dec ascii_dec (join_components comps) (str ".")) as [E|E].
    + rewrite E. rewrite (join_is_dot comps V E) in *.
      rewrite walk_one in *.
      destruct (alloc_ok_facts st Hok) as (_ & _ & _ & _ & _ & _ & Ac & _).
      destruct (find_entry_allocated st (cwd st) (str ".") _ Hok Ac eq_refl W) as [M _].
      destruct (inode_ok_facts st _ (alloc_ok_inode st _ Hok Ac)) as (_ & _ & D).
      destruct (D M) as [D1 _]. rewrite D1. reflexivity.
    + apply get_path_inode_relative; assumption.
Qed.

(** The directory part of a path resolves to the walk over all components
    but the last. *)
Lemma get_path_inode_dirname st (abs : bool) comps nm :
  alloc_ok st = true ->
  Forall (fun c => valid_component c = true) comps ->
  valid_component nm = true ->
  walk_components st (if abs then ROOT_INODE_NUM else cwd st) comps <> -1 ->
  get_path_inode st (dirname (mkpath abs (comps ++ [nm])))
  = walk_components st (if abs then ROOT_INODE_NUM else cwd st) comps.
Proof.
  intros Hok Vs V W. rewrite dirname_mkpath by assumption.
  destruct comps as [|c0 cs].
  - destruct abs; reflexivity.
  - apply get_path_inode_mkpath; auto. discriminate.
Qed.

(** ** Import followed by export *)

Lemma cstr_nul_free s : nul_free s = true -> cstr s = s.
Proof.
  induction s as [|c s IH]; cbn [nul_free forallb cstr]; auto. intros H.
  apply andb_true_iff in H. destruct H as [Hc Hs]. apply negb_true_iff in Hc.
  rewrite Hc. f_equal. apply IH. exact Hs.
Qed.

Lemma cstr_app_nul s rest : nul_free s = true -> cstr (s ++ NUL :: rest) = s.
Proof.
  induction s as [|c s IH]; cbn [nul_free forallb cstr app].
  - reflexivity.
  - intros H. apply andb_true_iff in H. destruct H as [Hc Hs].
    apply negb_true_iff in Hc. rewrite Hc. f_equal. apply IH. exact Hs.
Qed.

(** A name of at most 255 bytes is stored whole. *)
Lemma cstr_strncpy_name nm :
  nul_free nm = true -> (length nm <= 255)%nat -> cstr (strncpy_name nm) = nm.
Proof.
  intros Hn Hl. unfold strncpy_name. rewrite (cstr_nul_free nm Hn).
  assert (N : NAME_BYTES = 256%nat) by reflexivity.
  rewrite firstn_all2 by lia. unfold fit. rewrite firstn_all2 by lia.
  destruct (NAME_BYTES - length nm)%nat as [|k] eqn:E; [lia|].
  cbn [zeros repeat]. apply cstr_app_nul. exact Hn.
Qed.

Lemma strncpy_name_fit nm : fit NAME_BYTES (strncpy_name nm) = strncpy_name nm.
Proof. unfold strncpy_name. apply fit_fit. Qed.

Lemma strncpy_name_live nm n :
  valid_component nm = true -> nul_free nm = true ->
  live (mkDirectoryEntry (strncpy_name nm) n) = true.
Proof.
  intros V Hn. destruct (valid_component_cons _ V) as (c & tl & -> & _).
  cbn [nul_free forallb] in Hn. apply andb_true_iff in Hn. destruct Hn as [Hc _].
  unfold live, strncpy_name. cbn [name cstr]. apply negb_true_iff in Hc. rewrite Hc.
  unfold fit. cbn [firstn]. change (NAME_BYTES - 1)%nat with 255%nat.
  change NAME_BYTES with 256%nat. cbn [firstn app nth]. rewrite Hc. reflexivity.
Qed.

Lemma blocks_needed_le n :
  Z.of_nat n <= INODE_DIRECT_POINTERS * BLOCK_SIZE -> blocks_needed n <= 12.
Proof.
  unfold blocks_needed, INODE_DIRECT_POINTERS, BLOCK_SIZE. intros H.
  assert ((Z.of_nat n + 4096 - 1) / 4096 < 13); [|lia].
  apply Z.div_lt_upper_bound; lia.
Qed.

Lemma to_int_wrap32_small n : 0 <= n < 2147483648 -> to_int (wrap32 n) = n.
Proof.
  intros H. unfold to_int, wrap32. rewrite Z.mod_mod by lia.
  rewrite Z.mod_small by lia. destruct (Z.ltb_spec n 2147483648); lia.
Qed.

(** Where the path of a newly appended entry leads. *)
Lemma resolve_new_entry st sF (abs : bool) comps leaf n :
  let p := walk_components st (if abs then ROOT_INODE_NUM else cwd st) comps in
  alloc_ok st = true ->
  Forall (fun c => valid_component c = true) comps ->
  valid_component leaf = true -> nul_free leaf = true -> (length leaf <= 255)%nat ->
  p <> -1 -> mode (read_inode st p) = 1 ->
  find_entry_in_dir st p leaf = -1 ->
  0 <= n < 2147483648 ->
  cwd sF = cwd st ->
  (forall k, allocated st k -> mode (read_inode sF k) = mode (read_inode st k)) ->
  visible sF (read_inode sF p)
  = visible st (read_inode st p) ++ [mkDirectoryEntry (strncpy_name leaf) (wrap32 n)] ->
  (forall k, allocated st k -> k <> p -> mode (read_inode st k) = 1 ->
             read_inode sF k = read_inode st k) ->
  (forall x, get_bit (data_block_bitmap st) x = true ->
             ~ In x (used_pointers (read_inode st p)) ->
             read_block sF x = read_block st x) ->
  get_path_inode sF (mkpath abs (comps ++ [leaf])) = n.
Proof.
  intros p Hok Vs V Hnul Hlen Hp Hmode Hfind Hn Hcwd HM HV HD HB.
  destruct (alloc_ok_facts st Hok)
    as (Hni & Hig & Hdg & Hdmax & Himax & Aroot & Acwd & _ & _).
  assert (Astart : allocated st (if abs then ROOT_INODE_NUM else cwd st))
    by (destruct abs; assumption).
  assert (Ap : allocated st p)
    by (apply (walk_allocated st comps _ p Hok Astart eq_refl Hp)).
  destruct (inode_ok_facts st p (alloc_ok_inode st p Hok Ap)) as (_ & _ & Dp).
  destruct (Dp Hmode) as [Dot _].
  rewrite get_path_inode_components.
  - rewrite Hcwd.
    rewrite (walk_components_snoc sF leaf comps _ p).
    + rewrite walk_one.
      rewrite (frame_new st sF p _ Hok Ap HM HV leaf Hmode Hfind).
      * cbn [inode_number]. apply to_int_wrap32_small. exact Hn.
      * cbn [name]. unfold strcmp_eq.
        rewrite cstr_strncpy_name, cstr_nul_free by assumption.
        apply bytes_eqb_refl.
    + apply (frame_walk st sF p _ Hok Ap HM HV HD HB); assumption.
    + exact Hp.
    + rewrite (HM p Ap). exact Hmode.
  - destruct comps; discriminate.
  - apply Forall_app. split; [exact Vs|]. constructor; [exact V|constructor].
  - intros _ E.
    apply join_is_dot in E;
      [|apply Forall_app; split; [exact Vs|constructor; [exact V|constructor]]].
    destruct comps as [|c0 [|c1 cs]]; try discriminate E.
    injection E as E. subst leaf. unfold p in *. cbn [walk_components] in *.
    apply Hp. rewrite <- Dot. exact Hfind.
Qed.

(** What a successful import leaves behind: the new inode [n] holds the
    file, and the parent directory [p] has gained one entry for it. *)
Lemma import_succeeds env st (abs : bool) comps leaf B :
  let path := mkpath abs (comps ++ [leaf]) in
  let p := walk_components st (if abs then ROOT_INODE_NUM else cwd st) comps in
  alloc_ok st = true ->
  Z.of_nat (length B) <= INODE_DIRECT_POINTERS * BLOCK_SIZE ->
  Forall (fun c => valid_component c = true) comps ->
  valid_component leaf = true -> nul_free leaf = true ->
  p <> -1 -> mode (read_inode st p) = 1 ->
  find_entry_in_dir st p leaf = -1 ->
  packed st (read_inode st p) = true ->
  size (read_inode st p) / sizeof_DirectoryEntry < 180 ->
  1 <= free_inodes st ->
  blocks_needed (length B) + 1 <= free_data_blocks st ->
  exists n inode2,
    let st' := do_cp_to_vdisk env st (Some B) path in
    0 <= n < num_inodes (sb st)
    /\ get_bit (inode_bitmap st) n = false
    /\ read_inode st' n = inode2
    /\ mode inode2 = 0
    /\ size inode2 = Z.of_nat (length B)
    /\ length (direct_blocks inode2) = 12%nat
    /\ cp_from_loop st' (direct_blocks inode2) (Z.of_nat (length B)) = B
    /\ cwd st' = cwd st
    /\ mode (read_inode st' p) = mode (read_inode st p)
    /\ visible st' (read_inode st' p)
       = visible st (read_inode st p)
         ++ [mkDirectoryEntry (strncpy_name leaf) (wrap32 n)]
    /\ (forall k, k <> p -> k <> n -> read_inode st' k = read_inode st k)
    /\ (forall x, get_bit (data_block_bitmap st) x = true ->
                  ~ In x (used_pointers (read_inode st p)) ->
                  read_block st' x = read_block st x)
    /\ free_inodes st' = free_inodes st - 1
    /\ free_data_blocks st'
       = free_data_blocks st - blocks_needed (length B)
         - (if (Z.to_nat (size (read_inode st p) / sizeof_DirectoryEntry)
                <? entries_per_block
                   * length (used_prefix (firstn 12 (direct_blocks (read_inode st p)))))%nat
            then 0 else 1).
Proof.
  intros path p Hok HB Vs V Hnul Hp Hmode Hfind Hpacked Hroom Hfi Hfd.
  destruct (alloc_ok_facts st Hok)
    as (Hni & Hig & Hdg & Hdmax & Himax & Aroot & Acwd & _ & _).
  assert (Astart : allocated st (if abs then ROOT_INODE_NUM else cwd st))
    by (destruct abs; assumption).
  assert (Ap : allocated st p)
    by (apply (walk_allocated st comps _ p Hok Astart eq_refl Hp)).
  destruct (inode_ok_facts st p (alloc_ok_inode st p Hok Ap)) as (Lp & Up & _).
  unfold do_cp_to_vdisk.
  destruct (Z.gtb_spec (Z.of_nat (length B)) (INODE_DIRECT_POINTERS * BLOCK_SIZE))
    as [G|_]; [lia|].
  cbv zeta. unfold path.
  rewrite (basename_mkpath abs comps leaf V).
  rewrite (get_path_inode_dirname st abs comps leaf Hok Vs V Hp). fold p.
  destruct (Z.eqb_spec p (-1)) as [E|_]; [contradiction|].
  rewrite Hfind. change (negb (-1 =? -1)) with false. cbv iota.
  destruct (alloc_inode_succeeds st Hfi Hig) as (n & Han & Hn & Hnclear & Hnset).
  rewrite Han.
  destruct (Z.eqb_spec n (-1)) as [E|_]; [lia|].
  set (st1 := with_inode_bitmap st (set_bit (inode_bitmap st) n)).
  set (new_inode := mkInode 0 (wrap32 (Z.of_nat (length B))) 1 (now env) (now env)
                            (repeat UNUSED_BLOCK 12)).
  pose proof (blocks_needed_le _ HB) as Hbn.
  destruct (cp_loops_round_trip 12 0 st1 new_inode B)
    as (st2 & inode2 & Hloop & Hag & Hri & Hib & Hsb & Hcwd & Hlbm & Hf2 & Hl2
        & Hm2 & Hs2 & _ & Hrt).
  { reflexivity. }
  { reflexivity. }
  { change (Z.of_nat 12) with 12. exact Hbn. }
  { change (free_data_blocks st1) with (free_data_blocks st). lia. }
  { exact Hdg. }
  { exact Hdmax. }
  rewrite Hloop.
  set (st3 := write_inode st2 n inode2).
  unfold add_entry_to_dir.
  set (e := mkDirectoryEntry (strncpy_name leaf) n).
  assert (Hpn : p <> n) by (destruct Ap as [_ Bp]; congruence).
  assert (R3 : read_inode st3 p = read_inode st p).
  { unfold st3. rewrite read_write_inode.
    destruct (Z.eqb_spec p n); [contradiction|]. rewrite Hri. reflexivity. }
  assert (B3 : forall b, get_bit (data_block_bitmap st) b = true ->
                         read_block st3 b = read_block st b
                         /\ get_bit (data_block_bitmap st3) b = true).
  { intros b Hb. destruct (Hag b Hb) as [R2 S2]. split; [exact R2|exact S2]. }
  assert (X3 : forall b, In b (used_pointers (read_inode st p)) ->
                         read_block st3 b = read_block st b).
  { intros b Hb. apply B3. apply Up. exact Hb. }
  pose proof (ins_appended env st3 p e) as Hins. cbv beta in Hins.
  set (st4 := add_entry_loop env (seq 0 12) st3 p (read_inode st3 p) e) in *.
  rewrite R3 in Hins.
  destruct Hins as (M4 & L4 & V4 & I4 & K4 & Bits4 & IB4 & SB4 & C4 & _ & _ & F4).
  { rewrite (packed_ext st st3 _ X3). exact Hpacked. }
  { exact Lp. }
  { apply owned_nodup; assumption. }
  { intros b Hb. apply B3. apply Up. exact Hb. }
  { change (free_data_blocks st3) with (free_data_blocks st2). rewrite Hf2.
    change (free_data_blocks st1) with (free_data_blocks st). lia. }
  { change (sb st3) with (sb st2). rewrite Hsb.
    change (data_block_bitmap st3) with (data_block_bitmap st2). rewrite Hlbm.
    exact Hdg. }
  { change (sb st3) with (sb st2). rewrite Hsb. exact Hdmax. }
  { unfold e. cbn [name inode_number]. rewrite strncpy_name_fit.
    apply strncpy_name_live; assumption. }
  { lia. }
  exists n, inode2. cbv zeta.
  set (sF := printf (sync_bitmaps st4) MsgCopied).
  assert (RF : forall k, read_inode sF k = read_inode st4 k) by reflexivity.
  assert (DF : forall b, read_block sF b = read_block st4 b) by reflexivity.
  assert (I2 : read_inode st4 n = inode2).
  { rewrite I4 by auto. unfold st3. rewrite read_write_inode, Z.eqb_refl. reflexivity. }
  split; [exact Hn|]. split; [exact Hnclear|].
  split; [rewrite RF; exact I2|]. split; [rewrite Hm2; reflexivity|].
  split.
  { rewrite Hs2. unfold new_inode. cbn [size]. unfold wrap32.
    apply Z.mod_small. unfold INODE_DIRECT_POINTERS, BLOCK_SIZE in HB. lia. }
  split; [exact Hl2|].
  split.
  { apply (Hrt sF). intros b C1 S2. rewrite DF. apply K4; [exact S2|].
    intros Hin. destruct (Up b Hin) as [_ Sb].
    change (data_block_bitmap st1) with (data_block_bitmap st) in C1. congruence. }
  split.
  { change (cwd sF) with (cwd st4). rewrite C4. change (cwd st3) with (cwd st2).
    rewrite Hcwd. reflexivity. }
  split; [rewrite RF; exact M4|].
  split.
  { rewrite RF. rewrite (visible_ext st4 sF) by (intros; apply DF).
    rewrite V4. rewrite (visible_ext st st3 _ X3). unfold e. cbn [name inode_number].
    rewrite strncpy_name_fit. reflexivity. }
  split.
  { intros k Hk1 Hk2. rewrite RF, I4 by exact Hk1. unfold st3.
    rewrite read_write_inode. destruct (Z.eqb_spec k n); [contradiction|].
    rewrite Hri. reflexivity. }
  split.
  { intros x Hx Hnot. rewrite DF.
    destruct (B3 x Hx) as [Rx Sx]. rewrite K4; auto. }
  split.
  { change (free_inodes sF) with (free_inodes st4). unfold free_inodes.
    rewrite SB4, IB4. change (sb st3) with (sb st2).
    change (inode_bitmap st3) with (inode_bitmap st2). rewrite Hsb, Hib.
    unfold st1. cbn [sb inode_bitmap with_inode_bitmap].
    rewrite count_bits_set_bit.
    - destruct (Z.leb_spec 0 n); [|lia].
      destruct (Z.ltb_spec n (0 + Z.of_nat (Z.to_nat (num_inodes (sb st))))); [|lia].
      cbn [andb]. lia.
    - exact Hnclear.
    - lia.
    - assert (n / 8 < Z.of_nat (length (inode_bitmap st)))
        by (apply Z.div_lt_upper_bound; lia).
      assert (0 <= n / 8) by (apply Z.div_pos; lia). lia. }
  change (free_data_blocks sF) with (free_data_blocks st4). rewrite F4.
  change (free_data_blocks st3) with (free_data_blocks st2). rewrite Hf2.
  reflexivity.
Qed.

(** X24.  What a successful import costs: one inode, the blocks the file
    takes, and one more block when every block of the parent directory is
    full.  The state is one whose bitmaps and inode table agree
    ([alloc_ok]); the parent directory exists, has its live slots exactly
    in its first size/260 slots ([packed]), holds fewer than 180 entries
    and does not have the name; one inode, whose record lies inside one
    block of the inode table, and enough data blocks are free. *)
Theorem import_accounting env st (abs : bool) comps leaf B :
  let path := mkpath abs (comps ++ [leaf]) in
  let p := walk_components st (if abs then ROOT_INODE_NUM else cwd st) comps in
  alloc_ok st = true ->
  Z.of_nat (length B) <= INODE_DIRECT_POINTERS * BLOCK_SIZE ->
  Forall (fun c => valid_component c = true) comps ->
  valid_component leaf = true -> nul_free leaf = true ->
  p <> -1 -> mode (read_inode st p) = 1 ->
  find_entry_in_dir st p leaf = -1 ->
  packed st (read_inode st p) = true ->
  size (read_inode st p) / sizeof_DirectoryEntry < 180 ->
  1 <= free_inodes st ->
  inode_in_block (fst (alloc_inode st)) = true ->
  blocks_needed (length B) + 1 <= free_data_blocks st ->
  let st' := do_cp_to_vdisk env st (Some B) path in
  free_inodes st' = free_inodes st - 1
  /\ free_data_blocks st'
     = free_data_blocks st - blocks_needed (length B)
       - (if (Z.to_nat (size (read_inode st p) / sizeof_DirectoryEntry)
              <? entries_per_block
                 * length (used_prefix (firstn 12 (direct_blocks (read_inode st p)))))%nat
          then 0 else 1).
Proof.
  intros path p Hok HB Vs V Hnul Hp Hmode Hfind Hpacked Hroom Hfi _ Hfd.
  destruct (import_succeeds env st abs comps leaf B Hok HB Vs V Hnul Hp Hmode Hfind
                            Hpacked Hroom Hfi Hfd)
    as (n & inode2 & _ & _ & _ & _ & _ & _ & _ & _ & _ & _ & _ & _ & F1 & F2).
  split; [exact F1|exact F2].
Qed.


(** * Further properties of the code *)

(** ** Bitmaps and the allocator *)

(** X1.  [set_bit], [clear_bit] and [get_bit]: after [set_bit] of an index
    inside the bitmap that index reads as set, after [clear_bit] it reads
    as clear, and in both cases every other index reads as before. *)
Theorem bitmap_write_then_read bm n m :
  0 <= n -> (Z.to_nat (n / 8) < length bm)%nat ->
  get_bit (set_bit bm n) m = (if m =? n then true else get_bit bm m)
  /\ get_bit (clear_bit bm n) m = (if m =? n then false else get_bit bm m).
Proof.
  intros H0 Hl. split.
  - destruct (Z.eqb_spec m n) as [->|Hne].
    + apply get_bit_set_bit_same; assumption.
    + apply get_bit_set_bit_other. congruence.
  - rewrite get_bit_clear_bit. rewrite (Z.eqb_sym n m). reflexivity.
Qed.

Lemma scan_clear_lowest bm k : forall i r,
  scan_clear bm k i = r -> r <> -1 -> 0 <= i ->
  forall j, i <= j < r -> get_bit bm j = true.
Proof.
  induction k as [|k IH]; intros i r H Hr Hi j Hj; cbn [scan_clear] in H.
  - congruence.
  - destruct (get_bit bm i) eqn:E; [|lia].
    destruct (Z.eq_dec j i) as [->|Hne]; [exact E|].
    apply (IH (i + 1) r H Hr); lia.
Qed.

Lemma scan_clear_full bm k : forall i,
  count_bits bm k i = Z.of_nat k -> scan_clear bm k i = -1.
Proof.
  induction k as [|k IH]; intros i H; cbn [scan_clear count_bits] in *; auto.
  pose proof (count_bits_bounds bm k (i + 1)) as B.
  destruct (get_bit bm i); [apply IH; lia|lia].
Qed.

(** X2.  [alloc_data_block] with a free block: it returns the lowest block
    whose bit is clear, sets that bit and no other, lowers the number of
    free blocks by one and writes nothing to the disk. *)
Theorem alloc_data_block_takes_lowest_free st :
  1 <= free_data_blocks st ->
  num_data_blocks (sb st) <= 8 * Z.of_nat (length (data_block_bitmap st)) ->
  let b := fst (alloc_data_block st) in
  let st' := snd (alloc_data_block st) in
  0 <= b < num_data_blocks (sb st)
  /\ get_bit (data_block_bitmap st) b = false
  /\ (forall j, 0 <= j < b -> get_bit (data_block_bitmap st) j = true)
  /\ (forall m, get_bit (data_block_bitmap st') m
                = if m =? b then true else get_bit (data_block_bitmap st) m)
  /\ free_data_blocks st' = free_data_blocks st - 1
  /\ virtual_disk st' = virtual_disk st
  /\ inode_bitmap st' = inode_bitmap st.
Proof.
  intros Hfree Hgeom.
  destruct (alloc_data_block_succeeds st Hfree Hgeom) as (b & Ha & Hb & Hc & Hs & Hf).
  cbv zeta. rewrite Ha. cbn [fst snd].
  split; [exact Hb|]. split; [exact Hc|]. split.
  - intros j Hj. unfold alloc_data_block in Ha.
    set (r := scan_clear (data_block_bitmap st) (Z.to_nat (num_data_blocks (sb st))) 0) in *.
    destruct (Z.eqb_spec r (-1)) as [E|E].
    + injection Ha as Hb1 _. lia.
    + injection Ha as Hb1 _.
      apply (scan_clear_lowest _ _ 0 r eq_refl E); lia.
  - split.
    { intros m. cbn [data_block_bitmap with_data_bitmap].
      destruct (Z.eqb_spec m b) as [->|Hne]; [exact Hs|].
      apply get_bit_set_bit_other. congruence. }
    split; [exact Hf|]. split; reflexivity.
Qed.

Lemma alloc_inode_exhausted st : free_inodes st = 0 -> alloc_inode st = (-1, st).
Proof.
  intros H. unfold free_inodes in H. unfold alloc_inode.
  pose proof (count_bits_bounds (inode_bitmap st) (Z.to_nat (num_inodes (sb st))) 0).
  rewrite scan_clear_full by lia. reflexivity.
Qed.

Lemma alloc_data_block_exhausted st :
  free_data_blocks st = 0 -> alloc_data_block st = (-1, st).
Proof.
  intros H. unfold free_data_blocks in H. unfold alloc_data_block.
  pose proof (count_bits_bounds (data_block_bitmap st)
                                (Z.to_nat (num_data_blocks (sb st))) 0).
  rewrite scan_clear_full by lia. reflexivity.
Qed.

(** X3.  With no free inode [alloc_inode] returns -1, with no free data
    block [alloc_data_block] returns -1, and neither changes the state. *)
Theorem allocators_fail_when_exhausted st :
  (free_inodes st = 0 -> alloc_inode st = (-1, st))
  /\ (free_data_blocks st = 0 -> alloc_data_block st = (-1, st)).
Proof.
  split; [apply alloc_inode_exhausted|apply alloc_data_block_exhausted].
Qed.

(** X4.  [alloc_inode] with a free inode: it returns the lowest inode whose
    bit is clear, sets that bit and no other, and touches neither the data
    bitmap nor the disk. *)
Theorem alloc_inode_takes_lowest_free st :
  1 <= free_inodes st ->
  num_inodes (sb st) <= 8 * Z.of_nat (length (inode_bitmap st)) ->
  let n := fst (alloc_inode st) in
  let st' := snd (alloc_inode st) in
  0 <= n < num_inodes (sb st)
  /\ get_bit (inode_bitmap st) n = false
  /\ (forall j, 0 <= j < n -> get_bit (inode_bitmap st) j = true)
  /\ (forall m, get_bit (inode_bitmap st') m
                = if m =? n then true else get_bit (inode_bitmap st) m)
  /\ data_block_bitmap st' = data_block_bitmap st
  /\ virtual_disk st' = virtual_disk st.
Proof.
  intros Hfree Hgeom.
  destruct (alloc_inode_succeeds st Hfree Hgeom) as (n & Ha & Hn & Hc & Hs).
  cbv zeta. rewrite Ha. cbn [fst snd].
  split; [exact Hn|]. split; [exact Hc|]. split.
  - intros j Hj. unfold alloc_inode in Ha.
    set (r := scan_clear (inode_bitmap st) (Z.to_nat (num_inodes (sb st))) 0) in *.
    destruct (Z.eqb_spec r (-1)) as [E|E].
    + injection Ha as Hb1 _. lia.
    + injection Ha as Hb1 _.
      apply (scan_clear_lowest _ _ 0 r eq_refl E); lia.
  - split.
    { intros m. cbn [inode_bitmap with_inode_bitmap].
      destruct (Z.eqb_spec m n) as [->|Hne]; [exact Hs|].
      apply get_bit_set_bit_other. congruence. }
    split; reflexivity.
Qed.

(** X5.  A block taken by [alloc_data_block] and given back by
    [free_data_block] leaves every bit of the data bitmap as it was, and
    the number of free blocks too. *)
Theorem alloc_then_free_data_block st :
  1 <= free_data_blocks st ->
  num_data_blocks (sb st) <= 8 * Z.of_nat (length (data_block_bitmap st)) ->
  let b := fst (alloc_data_block st) in
  let st' := free_data_block (snd (alloc_data_block st)) b in
  (forall m, get_bit (data_block_bitmap st') m = get_bit (data_block_bitmap st) m)
  /\ free_data_blocks st' = free_data_blocks st.
Proof.
  intros Hfree Hgeom.
  destruct (alloc_data_block_succeeds st Hfree Hgeom) as (b & Ha & Hb & Hc & Hs & Hf).
  cbv zeta. rewrite Ha. cbn [fst snd]. split.
  - intros m. unfold free_data_block. cbn [data_block_bitmap with_data_bitmap].
    rewrite get_bit_clear_bit. destruct (Z.eqb_spec b m) as [<-|Hne]; [congruence|].
    apply get_bit_set_bit_other. exact Hne.
  - unfold free_data_blocks in *. unfold free_data_block.
    cbn [data_block_bitmap with_data_bitmap sb] in *.
    rewrite count_bits_clear_bit by exact Hs.
    destruct (Z.leb_spec 0 b); [|lia].
    destruct (Z.ltb_spec b (0 + Z.of_nat (Z.to_nat (num_data_blocks (sb st))))); [|lia].
    cbn [andb]. lia.
Qed.

(** ** Directory entries *)

(** X6.  A directory entry written into slot [j] of a block with [memcpy]
    is read back from slot [j] as it was written, and the other fourteen
    slots of the block are not disturbed. *)
Theorem directory_slot_round_trip buf j e :
  length buf = BLOCK_BYTES -> (j < entries_per_block)%nat ->
  length (name e) = NAME_BYTES -> 0 <= inode_number e < 4294967296 ->
  get_de (put_de buf j e) j = e
  /\ (forall j', (j' < entries_per_block)%nat -> j' <> j ->
                 get_de (put_de buf j e) j' = get_de buf j')
  /\ length (put_de buf j e) = BLOCK_BYTES.
Proof.
  intros L Hj Hn Hi. split.
  - rewrite get_de_put_de_same by assumption. destruct e as [nm i].
    cbn [name inode_number] in *. rewrite fit_id by exact Hn.
    unfold wrap32. rewrite Z.mod_small by lia. reflexivity.
  - split.
    + intros j' Hj' Hne. apply get_de_put_de_other; auto.
    + apply length_put_de; assumption.
Qed.

Lemma nul_free_cstr s : nul_free (cstr s) = true.
Proof.
  induction s as [|c s IH]; cbn [cstr]; [reflexivity|].
  destruct (is_nul c) eqn:E; [reflexivity|].
  cbn [nul_free forallb]. rewrite E. exact IH.
Qed.

Lemma nul_free_firstn k s : nul_free s = true -> nul_free (firstn k s) = true.
Proof.
  revert s. induction k as [|k IH]; intros [|c s] H; cbn [firstn]; auto.
  cbn [nul_free forallb] in *. apply andb_true_iff in H. destruct H as [H1 H2].
  rewrite H1. apply IH. exact H2.
Qed.

(** X7.  The name [add_entry_to_dir] stores is the first 255 bytes of the
    name it is given: shorter names are stored whole, longer ones cut. *)
Theorem stored_name_is_cut_at_255 nm :
  length (strncpy_name nm) = NAME_BYTES
  /\ cstr (strncpy_name nm) = firstn (Z.to_nat MAX_FILENAME_LEN) (cstr nm).
Proof.
  unfold strncpy_name. split; [apply length_fit|].
  change (NAME_BYTES - 1)%nat with 255%nat.
  change (Z.to_nat MAX_FILENAME_LEN) with 255%nat.
  set (x := firstn 255 (cstr nm)).
  assert (Lx : (length x <= 255)%nat) by (unfold x; rewrite length_firstn; lia).
  assert (Nx : nul_free x = true) by (apply nul_free_firstn, nul_free_cstr).
  unfold fit. change NAME_BYTES with 256%nat. rewrite firstn_all2 by lia.
  destruct (256 - length x)%nat as [|k] eqn:E; [lia|].
  cbn [zeros repeat]. apply cstr_app_nul. exact Nx.
Qed.

(** X8.  What [find_entry_in_dir] computes: on a directory, the inode number
    of the first entry with the given name among the first [size / 260]
    live slots, taken block by block up to the first unused pointer; -1 if
    there is none, or if the inode is not a directory. *)
Theorem find_entry_in_dir_first_match st d nm :
  find_entry_in_dir st d nm
  = if mode (read_inode st d) =? 1
    then lookup_in (firstn (Z.to_nat (size (read_inode st d) / sizeof_DirectoryEntry))
                           (filter live (dir_slots st (read_inode st d)))) nm
    else -1.
Proof.
  rewrite find_entry_in_dir_lookup, visible_spec.
  destruct (mode (read_inode st d) =? 1); reflexivity.
Qed.

(** ** Insertion into a directory *)

Lemma strncpy_name_live_nonempty nm n :
  nm <> [] -> nul_free nm = true ->
  live (mkDirectoryEntry (strncpy_name nm) n) = true.
Proof.
  intros Hne Hn. destruct nm as [|c tl]; [congruence|].
  cbn [nul_free forallb] in Hn. apply andb_true_iff in Hn. destruct Hn as [Hc _].
  unfold live, strncpy_name. cbn [name cstr]. apply negb_true_iff in Hc. rewrite Hc.
  unfold fit. change (NAME_BYTES - 1)%nat with 255%nat.
  change NAME_BYTES with 256%nat. cbn [firstn app nth]. rewrite Hc. reflexivity.
Qed.

(** X9.  Insert, then look up.  In a consistent state, on an allocated
    directory without holes that holds fewer than 180 entries, with one
    data block free: after [add_entry_to_dir] the new name (a C string of
    1 to 255 bytes the directory did not have) resolves to the new inode
    number, every name that resolved before resolves to the same inode, and
    no other inode is written. *)
Theorem add_entry_then_find env st d nm n :
  alloc_ok st = true -> allocated st d -> mode (read_inode st d) = 1 ->
  packed st (read_inode st d) = true ->
  size (read_inode st d) / sizeof_DirectoryEntry < 180 ->
  1 <= free_data_blocks st ->
  nm <> [] -> nul_free nm = true -> (length nm <= 255)%nat ->
  0 <= n < 2147483648 ->
  find_entry_in_dir st d nm = -1 ->
  let st' := add_entry_to_dir env st d nm n in
  find_entry_in_dir st' d nm = n
  /\ (forall nm', find_entry_in_dir st d nm' <> -1 ->
                  find_entry_in_dir st' d nm' = find_entry_in_dir st d nm')
  /\ (forall k, k <> d -> read_inode st' k = read_inode st k)
  /\ inode_bitmap st' = inode_bitmap st.
Proof.
  intros Hok Ad Hmode Hpacked Hroom Hfree Hne Hnul Hlen Hn Hfind.
  cbv zeta. unfold add_entry_to_dir.
  destruct (alloc_ok_facts st Hok) as (_ & _ & Hdg & Hdmax & _).
  destruct (inode_ok_facts st d (alloc_ok_inode st d Hok Ad)) as (Ld & Ud & _).
  pose proof (ins_appended env st d (mkDirectoryEntry (strncpy_name nm) n)) as Hins.
  cbv beta in Hins. cbn [name inode_number] in Hins.
  rewrite strncpy_name_fit in Hins.
  destruct Hins as (M & L & V & I & K & Bits & IB & _).
  { exact Hpacked. }
  { exact Ld. }
  { apply owned_nodup; assumption. }
  { intros b Hb. apply Ud. exact Hb. }
  { exact Hfree. }
  { exact Hdg. }
  { exact Hdmax. }
  { apply strncpy_name_live_nonempty; assumption. }
  { lia. }
  set (st' := add_entry_loop env (seq 0 12) st d (read_inode st d)
                             (mkDirectoryEntry (strncpy_name nm) n)) in *.
  split.
  { assert (HM : forall k, allocated st k ->
                             mode (read_inode st' k) = mode (read_inode st k)).
    { intros k _. destruct (Z.eq_dec k d) as [->|Hk]; [exact M|].
      rewrite I by exact Hk. reflexivity. }
    rewrite (frame_new st st' d _ Hok Ad HM V nm Hmode Hfind).
    - cbn [inode_number]. apply to_int_wrap32_small. exact Hn.
    - cbn [name]. unfold strcmp_eq.
      rewrite cstr_strncpy_name, cstr_nul_free by assumption. apply bytes_eqb_refl. }
  split.
  { intros nm' F. rewrite (find_entry_in_dir_lookup st d nm') in F |- *.
    rewrite (find_entry_in_dir_lookup st' d nm'), M.
    rewrite Hmode in F |- *. cbn [Z.eqb Pos.eqb negb] in F |- *.
    rewrite V. unfold lookup_in in F |- *.
    destruct (find _ (visible st (read_inode st d))) as [e|] eqn:E; [|congruence].
    rewrite (find_app_some _ _ _ _ E). reflexivity. }
  split; [exact I|exact IB].
Qed.

(** X10.  A directory of 180 entries, twelve full blocks, is full:
    [add_entry_to_dir] prints its error and changes nothing on the disk or
    in the bitmaps. *)
Theorem add_entry_to_full_directory env st d nm n :
  packed st (read_inode st d) = true ->
  length (direct_blocks (read_inode st d)) = 12%nat ->
  size (read_inode st d) / sizeof_DirectoryEntry = 180 ->
  add_entry_to_dir env st d nm n = printf st ErrDirectoryFull.
Proof.
  intros Hp Hl Hs. unfold add_entry_to_dir.
  rewrite (ins_skip_full env st d _ Hp Hl 12).
  - reflexivity.
  - rewrite Hs. change entries_per_block with 15%nat. lia.
Qed.

(** X11.  When every block of a directory is full and no data block is
    free, [add_entry_to_dir] prints that it is out of data blocks and
    changes nothing else: the entry is not added. *)
Theorem add_entry_without_free_block env st d nm n :
  packed st (read_inode st d) = true ->
  length (direct_blocks (read_inode st d)) = 12%nat ->
  Z.to_nat (size (read_inode st d) / sizeof_DirectoryEntry)
  = (entries_per_block
     * length (used_prefix (firstn 12 (direct_blocks (read_inode st d)))))%nat ->
  size (read_inode st d) / sizeof_DirectoryEntry < 180 ->
  free_data_blocks st = 0 ->
  add_entry_to_dir env st d nm n = printf st ErrOutOfDataBlocks.
Proof.
  intros Hp Hl Ht Hroom Hfree. unfold add_entry_to_dir.
  set (inode := read_inode st d) in *.
  set (m := length (used_prefix (firstn 12 (direct_blocks inode)))) in *.
  assert (Hm : (m < 12)%nat) by (change entries_per_block with 15%nat in Ht; lia).
  rewrite (ins_skip_full env st d _ Hp Hl m) by (fold inode; lia).
  fold inode.
  replace (12 - m)%nat with (S (12 - S m)) by lia. cbn [seq add_entry_loop].
  assert (Hend : nth m (direct_blocks inode) UNUSED_BLOCK = UNUSED_BLOCK).
  { unfold m. rewrite firstn_all2 by lia. apply used_prefix_end.
    unfold m in Hm. rewrite firstn_all2 in Hm by lia. lia. }
  rewrite Hend, Z.eqb_refl, (alloc_data_block_exhausted st Hfree). reflexivity.
Qed.

(** ** Path resolution *)

(** X12.  [get_path_inode]: the empty path resolves to nothing, [/] to the
    root, [.] to the CWD, and a path of components joined by [/] to the
    walk over its components, from the root if it starts with [/] and from
    the CWD otherwise. *)
Theorem path_resolution_by_components st (abs : bool) comps :
  Forall (fun nm => valid_component nm = true) comps ->
  get_path_inode st [] = -1
  /\ get_path_inode st (str "/") = ROOT_INODE_NUM
  /\ get_path_inode st (str ".") = cwd st
  /\ (comps <> [] -> (abs = false -> join_components comps <> str ".") ->
      get_path_inode st (mkpath abs comps)
      = walk_components st (if abs then ROOT_INODE_NUM else cwd st) comps).
Proof.
  intros V. split; [reflexivity|]. split; [reflexivity|]. split; [reflexivity|].
  intros Hne Hdot. apply get_path_inode_components; assumption.
Qed.

Lemma walk_components_file st : forall a p f b,
  a <> [] -> walk_components st p a = f -> f <> -1 ->
  mode (read_inode st f) <> 1 -> b <> [] ->
  walk_components st p (a ++ b) = -1.
Proof.
  induction a as [|nm a IH]; intros p f b Ha W Hf Mf Hb; [congruence|].
  cbn [walk_components app] in *. cbv zeta in *.
  destruct (Z.eqb_spec (find_entry_in_dir st p nm) (-1)) as [E|E]; [reflexivity|].
  set (g := find_entry_in_dir st p nm) in *.
  destruct a as [|nm2 a].
  - cbn [length Nat.eqb negb app] in *. rewrite andb_false_r in W.
    cbn [walk_components] in W. subst f.
    destruct (Z.eqb_spec (mode (read_inode st g)) 1) as [M|M]; [contradiction|].
    destruct b; [congruence|]. reflexivity.
  - cbn [length Nat.eqb negb app] in *. rewrite andb_true_r in *.
    destruct (Z.eqb_spec (mode (read_inode st g)) 1) as [M|M]; cbn [negb] in *.
    + apply (IH g f b); auto. discriminate.
    + reflexivity.
Qed.

Lemma walk_components_missing st : forall a p b,
  a <> [] -> walk_components st p a = -1 -> walk_components st p (a ++ b) = -1.
Proof.
  induction a as [|nm a IH]; intros p b Ha W; [congruence|].
  cbn [walk_components app] in *. cbv zeta in *.
  destruct (Z.eqb_spec (find_entry_in_dir st p nm) (-1)) as [E|E]; [reflexivity|].
  set (g := find_entry_in_dir st p nm) in *.
  destruct a as [|nm2 a].
  - cbn [length Nat.eqb negb] in W. rewrite andb_false_r in W.
    cbn [walk_components] in W. contradiction.
  - cbn [length Nat.eqb negb app] in *. rewrite andb_true_r in *.
    destruct (negb (mode (read_inode st g) =? 1)); [reflexivity|].
    apply IH; auto. discriminate.
Qed.

(** X13.  A path does not resolve once one of its components, other than
    the last, is missing or names something that is not a directory. *)
Theorem path_resolution_stops_at_files st (abs : bool) pre c rest :
  Forall (fun nm => valid_component nm = true) (pre ++ c :: rest) ->
  rest <> [] ->
  let f := walk_components st (if abs then ROOT_INODE_NUM else cwd st) (pre ++ [c]) in
  f = -1 \/ mode (read_inode st f) <> 1 ->
  get_path_inode st (mkpath abs (pre ++ c :: rest)) = -1.
Proof.
  intros V Hrest f Hf.
  rewrite get_path_inode_components.
  - replace (pre ++ c :: rest) with ((pre ++ [c]) ++ rest)
      by (rewrite <- app_assoc; reflexivity).
    destruct (Z.eq_dec f (-1)) as [E|E].
    + apply walk_components_missing; [destruct pre; discriminate|exact E].
    + destruct Hf as [Hf|Hf]; [contradiction|].
      apply (walk_components_file st _ _ f); auto. destruct pre; discriminate.
  - destruct pre; discriminate.
  - exact V.
  - intros _ E. apply join_is_dot in E; [|exact V].
    destruct pre as [|p0 [|p1 pre]]; destruct rest; try discriminate E; congruence.
Qed.

(** ** Commands that only read *)

Lemma fold_printf_frame {A} (g : A -> Msg) l : forall st,
  let st' := fold_left (fun s x => printf s (g x)) l st in
  virtual_disk st' = virtual_disk st /\ inode_bitmap st' = inode_bitmap st
  /\ data_block_bitmap st' = data_block_bitmap st /\ sb st' = sb st
  /\ cwd st' = cwd st.
Proof.
  induction l as [|x l IH]; intros st; cbn [fold_left]; [repeat split|].
  cbv zeta in *. destruct (IH (printf st (g x))) as (H1 & H2 & H3 & H4 & H5).
  rewrite H1, H2, H3, H4, H5. repeat split.
Qed.

Lemma do_ls_frame st p :
  virtual_disk (do_ls st p) = virtual_disk st
  /\ inode_bitmap (do_ls st p) = inode_bitmap st
  /\ data_block_bitmap (do_ls st p) = data_block_bitmap st
  /\ sb (do_ls st p) = sb st /\ cwd (do_ls st p) = cwd st.
Proof.
  unfold do_ls. destruct (_ =? -1); [repeat split|].
  destruct (negb _); [repeat split|]. apply fold_printf_frame.
Qed.

Lemma do_cd_frame st p :
  virtual_disk (do_cd st p) = virtual_disk st
  /\ inode_bitmap (do_cd st p) = inode_bitmap st
  /\ data_block_bitmap (do_cd st p) = data_block_bitmap st
  /\ sb (do_cd st p) = sb st.
Proof.
  unfold do_cd. destruct p; [repeat split|].
  destruct (_ =? -1); [repeat split|]. destruct (negb _); repeat split.
Qed.

(** X16.  [cd], [pwd], [ls], export and [df] write nothing: after any of
    them the disk, both bitmaps and the superblock are as before, and all
    but [cd] leave the CWD. *)
Theorem read_only_commands env st c :
  match c with Cd _ | Pwd | Ls _ | CpFrom _ | Df => True | _ => False end ->
  exists st',
    step env st c = Done st'
    /\ virtual_disk st' = virtual_disk st
    /\ inode_bitmap st' = inode_bitmap st
    /\ data_block_bitmap st' = data_block_bitmap st
    /\ sb st' = sb st
    /\ match c with Cd _ => True | _ => cwd st' = cwd st end.
Proof.
  intros Hc. destruct c as [p| |p|p|h p|p|p|p|t l| |p n|p n]; try contradiction.
  - assert (E : exists q, step env st (Cd p) = Done (do_cd st q))
      by (destruct p; eexists; reflexivity).
    destruct E as [q E]. exists (do_cd st q).
    destruct (do_cd_frame st q) as (H1 & H2 & H3 & H4). repeat split; assumption.
  - exists (do_pwd st). repeat split.
  - assert (E : exists q, step env st (Ls p) = Done (do_ls st q))
      by (destruct p; eexists; reflexivity).
    destruct E as [q E]. exists (do_ls st q).
    destruct (do_ls_frame st q) as (H1 & H2 & H3 & H4 & H5). repeat split; assumption.
  - destruct p as [|a p]; [exists st; repeat split|].
    exists (fst (do_cp_from_vdisk st (a :: p))). split; [reflexivity|].
    unfold do_cp_from_vdisk. destruct (_ =? -1); [repeat split|].
    destruct (negb _); repeat split.
  - exists (do_df st). repeat split.
Qed.

(** ** Start-up *)

(** X21.  Bitmaps written by [sync_bitmaps] are the bitmaps the next
    start-up loads; inodes and data blocks are read as before, and the
    session starts in the root. *)
Theorem bitmaps_survive_remount st :
  length (inode_bitmap st) = INODE_BITMAP_BYTES ->
  length (data_block_bitmap st) = DATA_BITMAP_BYTES ->
  let st' := mount (virtual_disk (sync_bitmaps st)) in
  inode_bitmap st' = inode_bitmap st
  /\ data_block_bitmap st' = data_block_bitmap st
  /\ (forall k, read_inode st' k = read_inode st k)
  /\ (forall b, read_block st' b = read_block st b)
  /\ cwd st' = ROOT_INODE_NUM.
Proof.
  intros Hi Hd. cbv zeta. unfold mount, sync_bitmaps.
  cbn [inode_bitmap data_block_bitmap virtual_disk with_disk dk_inode_bitmap
       dk_data_bitmap].
  rewrite !fit_id by assumption. repeat split.
Qed.

(** ** Removal *)

Lemma free_used_blocks_frame blocks : forall st,
  virtual_disk (free_used_blocks st blocks) = virtual_disk st
  /\ inode_bitmap (free_used_blocks st blocks) = inode_bitmap st.
Proof.
  unfold free_used_blocks.
  induction blocks as [|b blocks IH]; intros st; cbn [fold_left]; [auto|].
  destruct (b =? UNUSED_BLOCK); [apply IH|].
  destruct (IH (free_data_block st (to_int b))) as [H1 H2]. rewrite H1, H2. auto.
Qed.

Lemma free_used_blocks_stays_clear blocks : forall st x,
  get_bit (data_block_bitmap st) x = false ->
  get_bit (data_block_bitmap (free_used_blocks st blocks)) x = false.
Proof.
  unfold free_used_blocks.
  induction blocks as [|b blocks IH]; intros st x H; cbn [fold_left]; [exact H|].
  destruct (b =? UNUSED_BLOCK); [apply IH; exact H|].
  apply IH. unfold free_data_block. cbn [data_block_bitmap with_data_bitmap].
  rewrite get_bit_clear_bit. destruct (_ =? _); [reflexivity|exact H].
Qed.

Lemma free_used_blocks_clears blocks : forall st b,
  In b blocks -> b <> UNUSED_BLOCK ->
  get_bit (data_block_bitmap (free_used_blocks st blocks)) (to_int b) = false.
Proof.
  induction blocks as [|x blocks IH]; intros st b Hin Hb; [destruct Hin|].
  unfold free_used_blocks in *. cbn [fold_left].
  destruct Hin as [->|Hin].
  - destruct (Z.eqb_spec b UNUSED_BLOCK); [contradiction|].
    apply (free_used_blocks_stays_clear blocks).
    unfold free_data_block. cbn [data_block_bitmap with_data_bitmap].
    rewrite get_bit_clear_bit, Z.eqb_refl. reflexivity.
  - destruct (x =? UNUSED_BLOCK); apply IH; assumption.
Qed.

Lemma do_rm_entry_bitmaps st p nm :
  inode_bitmap (do_rm_entry st p nm) = inode_bitmap st
  /\ data_block_bitmap (do_rm_entry st p nm) = data_block_bitmap st
  /\ forall k, read_inode (do_rm_entry st p nm) k = read_inode st k.
Proof.
  unfold do_rm_entry. destruct (find _ _) as [[[i j] e]|]; repeat split.
Qed.

(** X23.  [rm] of a name that resolves to a file.  If it was the last link
    the inode's bit is cleared together with the bit of every block the
    inode points to; if other links remain, both bitmaps stay as they are
    and the inode keeps its blocks, with one link less. *)
Theorem rm_frees_on_last_link st path :
  let p := get_path_inode st (dirname path) in
  let c := find_entry_in_dir st p (basename path) in
  let inode := read_inode st c in
  p <> -1 -> c <> -1 -> mode inode <> 1 ->
  let st' := do_rm st path in
  (wrap32 (link_count inode - 1) = 0 ->
     get_bit (inode_bitmap st') c = false
     /\ forall b, In b (firstn 12 (direct_blocks inode)) -> b <> UNUSED_BLOCK ->
                  get_bit (data_block_bitmap st') (to_int b) = false)
  /\ (wrap32 (link_count inode - 1) <> 0 ->
     inode_bitmap st' = inode_bitmap st
     /\ data_block_bitmap st' = data_block_bitmap st
     /\ direct_blocks (read_inode st' c) = direct_blocks inode
     /\ link_count (read_inode st' c) = wrap32 (link_count inode - 1)).
Proof.
  intros p c inode Hp Hc Hm. cbv zeta. unfold do_rm. fold p. fold c. fold inode.
  destruct (Z.eqb_spec p (-1)) as [E|_]; [contradiction|].
  destruct (Z.eqb_spec c (-1)) as [E|_]; [contradiction|].
  destruct (Z.eqb_spec (mode inode) 1) as [E|_]; [contradiction|].
  destruct (do_rm_entry_bitmaps st p (basename path)) as (I1 & D1 & R1).
  set (st1 := do_rm_entry st p (basename path)) in *.
  cbn [link_count set_link_count direct_blocks].
  split; intros L.
  - rewrite L. cbn [Z.eqb]. split.
    + cbn [inode_bitmap printf sync_bitmaps with_disk free_inode with_inode_bitmap].
      rewrite get_bit_clear_bit, Z.eqb_refl. reflexivity.
    + intros b Hin Hb.
      cbn [data_block_bitmap printf sync_bitmaps with_disk free_inode with_inode_bitmap].
      apply free_used_blocks_clears; assumption.
  - destruct (Z.eqb_spec (wrap32 (link_count inode - 1)) 0) as [E|_]; [contradiction|].
    split; [exact I1|]. split; [exact D1|].
    cbn [read_inode printf sync_bitmaps with_disk virtual_disk write_inode dk_inodes].
    rewrite Z.eqb_refl. split; reflexivity.
Qed.

(** ** A failed import *)

Lemma free_blocks_bits blocks : forall st m,
  get_bit (data_block_bitmap (free_blocks st blocks)) m
  = if mem m blocks then false else get_bit (data_block_bitmap st) m.
Proof.
  unfold free_blocks.
  induction blocks as [|b blocks IH]; intros st m; cbn [fold_left mem existsb];
    [reflexivity|].
  rewrite IH. unfold free_data_block. cbn [data_block_bitmap with_data_bitmap].
  rewrite get_bit_clear_bit. fold (mem m blocks).
  rewrite (Z.eqb_sym b m).
  destruct (mem m blocks); destruct (m =? b); reflexivity.
Qed.

Lemma free_blocks_frame blocks : forall st,
  inode_bitmap (free_blocks st blocks) = inode_bitmap st
  /\ (forall k, read_inode (free_blocks st blocks) k = read_inode st k)
  /\ cwd (free_blocks st blocks) = cwd st.
Proof.
  unfold free_blocks.
  induction blocks as [|b blocks IH]; intros st; cbn [fold_left]; [auto|].
  destruct (IH (free_data_block st b)) as (H1 & H2 & H3). rewrite H1, H3.
  split; [reflexivity|]. split; [|reflexivity].
  intros k. rewrite H2. reflexivity.
Qed.

Lemma mem_app x a b : mem x (a ++ b) = mem x a || mem x b.
Proof. unfold mem. apply existsb_app. Qed.

Lemma firstn_S_upd_nth {A} (l : list A) i x :
  (i < length l)%nat -> firstn (S i) (upd_nth i x l) = firstn i l ++ [x].
Proof.
  revert i. induction l as [|h t IH]; intros [|i] H; cbn [length] in H; try lia.
  - reflexivity.
  - cbn [upd_nth firstn app]. f_equal. apply IH. lia.
Qed.

(** The clean-up of the import loop: the blocks it took are all given
    back. *)
Lemma cp_to_loop_cleanup : forall k i st inode src st0 st2,
  (i + k = 12)%nat -> length (direct_blocks inode) = 12%nat ->
  num_data_blocks (sb st) <= 8 * Z.of_nat (length (data_block_bitmap st)) ->
  (forall m, get_bit (data_block_bitmap st) m
             = if mem m (firstn i (direct_blocks inode)) then true
               else get_bit (data_block_bitmap st0) m) ->
  (forall m, mem m (firstn i (direct_blocks inode)) = true ->
             get_bit (data_block_bitmap st0) m = false) ->
  cp_to_loop (seq i k) st inode src = (st2, None) ->
  (forall m, get_bit (data_block_bitmap st2) m = get_bit (data_block_bitmap st0) m)
  /\ inode_bitmap st2 = inode_bitmap st
  /\ (forall n, read_inode st2 n = read_inode st n)
  /\ cwd st2 = cwd st.
Proof.
  induction k as [|k IH]; intros i st inode src st0 st2 Hik Hlen Hgeom Hbits Hclear H;
    cbn [seq cp_to_loop] in H; [discriminate|].
  destruct src as [|c src]; [discriminate|].
  destruct (alloc_data_block st) as [b st1] eqn:Ha.
  unfold alloc_data_block in Ha.
  set (r := scan_clear (data_block_bitmap st) (Z.to_nat (num_data_blocks (sb st))) 0) in *.
  destruct (Z.eqb_spec r (-1)) as [E|E].
  - injection Ha as <- <-. cbn [Z.eqb] in H. injection H as <-.
    destruct (free_blocks_frame (firstn i (direct_blocks inode))
                                (printf st ErrOutOfDataBlocksCleanup)) as (F1 & F2 & F3).
    split; [|split; [exact F1|split; [exact F2|exact F3]]].
    intros m. rewrite free_blocks_bits.
    cbn [data_block_bitmap printf]. rewrite Hbits.
    destruct (mem m (firstn i (direct_blocks inode))) eqn:M; [|reflexivity].
    symmetry. apply Hclear. exact M.
  - injection Ha as <- <-.
    destruct (Z.eqb_spec r (-1)) as [E'|_]; [contradiction|].
    destruct (scan_clear_spec _ _ 0 r eq_refl E ltac:(lia)) as [Hr Hc].
    fold r in Hc.
    apply IH with (st0 := st0) in H.
    + destruct H as (H1 & H2 & H3 & H4). split; [exact H1|]. split; [exact H2|].
      split; [exact H3|exact H4].
    + lia.
    + rewrite set_direct_block_length. exact Hlen.
    + cbn [sb data_block_bitmap write_block with_disk with_data_bitmap].
      unfold set_bit. destruct (r <? 0); [exact Hgeom|].
      rewrite length_upd_nth. exact Hgeom.
    + intros m. cbn [direct_blocks set_direct_block data_block_bitmap write_block
                     with_disk with_data_bitmap].
      rewrite firstn_S_upd_nth by lia. rewrite mem_app. cbn [mem existsb].
      rewrite orb_false_r.
      destruct (Z.eqb_spec m r) as [->|Hne].
      * rewrite orb_true_r.
        apply get_bit_set_bit_same; [lia|].
        assert (r / 8 < Z.of_nat (length (data_block_bitmap st)))
          by (apply Z.div_lt_upper_bound; lia).
        assert (0 <= r / 8) by (apply Z.div_pos; lia). lia.
      * rewrite orb_false_r. rewrite get_bit_set_bit_other by congruence.
        apply Hbits.
    + intros m. cbn [direct_blocks set_direct_block].
      rewrite firstn_S_upd_nth by lia. rewrite mem_app. cbn [mem existsb].
      rewrite orb_false_r. intros Hm. apply orb_true_iff in Hm.
      destruct Hm as [Hm|Hm]; [apply Hclear; exact Hm|].
      apply Z.eqb_eq in Hm. subst m.
      rewrite Hbits in Hc.
      destruct (mem r (firstn i (direct_blocks inode))); [discriminate|exact Hc].
Qed.

(** X14.  An import is all or nothing for the allocation state, when the
    inode that [alloc_inode] gives has its record inside one block of the
    inode table: either [do_cp_to_vdisk] ends with the message of success,
    or every bit of both bitmaps and every inode are as before the call
    (the inode and the blocks taken before the failure are given back),
    and the CWD is unchanged. *)
Theorem failed_import_restores_bitmaps env st host path :
  num_data_blocks (sb st) <= 8 * Z.of_nat (length (data_block_bitmap st)) ->
  inode_in_block (fst (alloc_inode st)) = true ->
  let st' := do_cp_to_vdisk env st host path in
  (exists out, stdout st' = out ++ [MsgCopied])
  \/ ((forall m, get_bit (inode_bitmap st') m = get_bit (inode_bitmap st) m)
      /\ (forall m, get_bit (data_block_bitmap st') m
                    = get_bit (data_block_bitmap st) m)
      /\ (forall k, read_inode st' k = read_inode st k)
      /\ cwd st' = cwd st).
Proof.
  intros Hgeom _. cbv zeta. unfold do_cp_to_vdisk.
  destruct host as [src|]; [|right; repeat split].
  destruct (_ >? _); [right; repeat split|].
  destruct (_ =? -1); [right; repeat split|].
  destruct (negb _); [right; repeat split|].
  destruct (alloc_inode st) as [n st1] eqn:Ha.
  destruct (alloc_inode_spec st n st1 Ha) as [[-> ->]|(Hn & Hc & ->)].
  { right. repeat split. }
  destruct (Z.eqb_spec n (-1)) as [E|_]; [lia|].
  set (st1 := with_inode_bitmap st (set_bit (inode_bitmap st) n)) in *.
  set (new_inode := mkInode 0 (wrap32 (Z.of_nat (length src))) 1 (now env) (now env)
                            (repeat UNUSED_BLOCK 12)).
  destruct (cp_to_loop (seq 0 12) st1 new_inode src) as [st2 [inode2|]] eqn:Hl.
  { left. eexists. reflexivity. }
  right.
  destruct (cp_to_loop_cleanup 12 0 st1 new_inode src st1 st2) as (D2 & I2 & R2 & C2).
  { reflexivity. }
  { reflexivity. }
  { exact Hgeom. }
  { intros m. reflexivity. }
  { intros m Hm. discriminate Hm. }
  { exact Hl. }
  split.
  { intros m.
    cbn [inode_bitmap sync_bitmaps with_disk free_inode with_inode_bitmap].
    rewrite I2, get_bit_clear_bit. unfold st1. cbn [inode_bitmap with_inode_bitmap].
    destruct (Z.eqb_spec n m) as [<-|Hne]; [congruence|].
    apply get_bit_set_bit_other. exact Hne. }
  split.
  { intros m.
    cbn [data_block_bitmap sync_bitmaps with_disk free_inode with_inode_bitmap].
    rewrite D2. reflexivity. }
  split.
  { intros k. change (read_inode (sync_bitmaps (free_inode st2 n)) k)
                with (read_inode st2 k). rewrite R2. reflexivity. }
  change (cwd (sync_bitmaps (free_inode st2 n))) with (cwd st2).
  rewrite C2. reflexivity.
Qed.

(** ** Resolution after a file inode was rewritten *)

Lemma path_walk_ext st st' :
  (forall d nm, find_entry_in_dir st' d nm = find_entry_in_dir st d nm) ->
  (forall k, mode (read_inode st' k) = mode (read_inode st k)) ->
  forall fuel rest c, path_walk fuel st' rest c = path_walk fuel st rest c.
Proof.
  intros F M. induction fuel as [|fuel IH]; intros rest c; cbn [path_walk]; auto.
  destruct (strtok_r rest) as [[token rest']|]; [|reflexivity].
  cbv zeta. rewrite F, M.
  destruct (_ =? -1); [reflexivity|]. destruct (_ && _); [reflexivity|]. apply IH.
Qed.

Lemma get_path_inode_ext st st' path :
  (forall d nm, find_entry_in_dir st' d nm = find_entry_in_dir st d nm) ->
  (forall k, mode (read_inode st' k) = mode (read_inode st k)) ->
  cwd st' = cwd st ->
  get_path_inode st' path = get_path_inode st path.
Proof.
  intros F M C. unfold get_path_inode. unfold cwd in C. rewrite C.
  destruct path as [|c tl]; [reflexivity|].
  destruct (bytes_eqb _ _); [reflexivity|].
  destruct (Ascii.eqb c slash); (destruct (bytes_eqb _ _); [reflexivity|]);
    apply path_walk_ext; assumption.
Qed.

Lemma find_entry_in_dir_file_change st st' i :
  (forall b, read_block st' b = read_block st b) ->
  (forall k, k <> i -> read_inode st' k = read_inode st k) ->
  mode (read_inode st' i) = mode (read_inode st i) ->
  mode (read_inode st i) <> 1 ->
  forall d nm, find_entry_in_dir st' d nm = find_entry_in_dir st d nm.
Proof.
  intros B R M N d nm. destruct (Z.eq_dec d i) as [->|Hne].
  - unfold find_entry_in_dir. rewrite M.
    destruct (Z.eqb_spec (mode (read_inode st i)) 1); [contradiction|reflexivity].
  - apply find_entry_in_dir_ext; [apply R; exact Hne|]. intros b _. apply B.
Qed.

Lemma get_path_inode_file_change st st' i path :
  (forall b, read_block st' b = read_block st b) ->
  (forall k, k <> i -> read_inode st' k = read_inode st k) ->
  mode (read_inode st' i) = mode (read_inode st i) ->
  mode (read_inode st i) <> 1 ->
  cwd st' = cwd st ->
  get_path_inode st' path = get_path_inode st path.
Proof.
  intros B R M N C. apply get_path_inode_ext; [|intros k|exact C].
  - apply (find_entry_in_dir_file_change st st' i); assumption.
  - destruct (Z.eq_dec k i) as [->|Hne]; [exact M|rewrite R by exact Hne; reflexivity].
Qed.

(** ** Export after truncate *)

Lemma cp_from_loop_nothing st blocks s : s <= 0 -> cp_from_loop st blocks s = [].
Proof.
  intros H. destruct blocks; cbn [cp_from_loop]; [reflexivity|].
  destruct (Z.leb_spec s 0); [reflexivity|lia].
Qed.

(** The export of fewer bytes from pointers that agree as far as those
    bytes reach is a prefix of the export of more bytes. *)
Lemma cp_from_loop_prefix st : forall blocks blocks' s s',
  s' <= s -> length blocks' = length blocks ->
  (forall idx, Z.of_nat idx * BLOCK_SIZE < s' ->
               nth idx blocks' UNUSED_BLOCK = nth idx blocks UNUSED_BLOCK) ->
  cp_from_loop st blocks' s' = firstn (Z.to_nat s') (cp_from_loop st blocks s).
Proof.
  assert (BS : BLOCK_SIZE = 4096) by reflexivity.
  assert (BB : BLOCK_BYTES = 4096%nat) by reflexivity.
  induction blocks as [|b rest IH]; intros [|b' rest'] s s' Hs Hl Hp;
    try discriminate Hl.
  - cbn [cp_from_loop]. rewrite firstn_nil. reflexivity.
  - destruct (Z.leb_spec s' 0) as [Z0|Z0].
    { rewrite cp_from_loop_nothing by exact Z0.
      replace (Z.to_nat s') with 0%nat by lia. reflexivity. }
    assert (b' = b) by (apply (Hp 0%nat); lia). subst b'.
    cbn [cp_from_loop].
    destruct (Z.leb_spec s' 0); [lia|]. destruct (Z.leb_spec s 0); [lia|].
    destruct (b =? UNUSED_BLOCK); [rewrite firstn_nil; reflexivity|].
    pose proof (length_read_block st b) as Lb. rewrite BB in Lb.
    destruct (Z.gtb_spec s' BLOCK_SIZE) as [G'|G'].
    + destruct (Z.gtb_spec s BLOCK_SIZE) as [G|G]; [|lia].
      rewrite BS. change (Z.to_nat 4096) with 4096%nat.
      rewrite (firstn_all2 (n := 4096)) by lia.
      rewrite firstn_app, firstn_all2 by lia. f_equal.
      rewrite Lb. replace (Z.to_nat s' - 4096)%nat with (Z.to_nat (s' - 4096)) by lia.
      apply IH; [lia|simpl in Hl; lia|].
      intros idx Hidx. apply (Hp (S idx)). lia.
    + rewrite Z.sub_diag, cp_from_loop_nothing, app_nil_r by lia.
      set (btw := if s >? BLOCK_SIZE then BLOCK_SIZE else s).
      assert (Hb : s' <= btw <= 4096).
      { unfold btw. destruct (Z.gtb_spec s BLOCK_SIZE); lia. }
      rewrite firstn_app, firstn_firstn, length_firstn.
      replace (Nat.min (Z.to_nat s') (Z.to_nat btw)) with (Z.to_nat s') by lia.
      replace (Z.to_nat s' - Nat.min (Z.to_nat btw) (length (read_block st b)))%nat
        with 0%nat by lia.
      cbn [firstn]. rewrite app_nil_r. reflexivity.
Qed.

Lemma cp_from_loop_ext st st' :
  (forall b, read_block st' b = read_block st b) ->
  forall blocks s, cp_from_loop st' blocks s = cp_from_loop st blocks s.
Proof.
  intros H. induction blocks as [|b rest IH]; intros s; cbn [cp_from_loop]; auto.
  rewrite H, IH. reflexivity.
Qed.

Lemma truncate_loop_length idxs : forall st inode st' inode',
  truncate_loop idxs st inode = (st', inode') ->
  length (direct_blocks inode') = length (direct_blocks inode).
Proof.
  induction idxs as [|i idxs IH]; intros st inode st' inode' H; cbn [truncate_loop] in H.
  - injection H as <- <-. reflexivity.
  - destruct (_ =? UNUSED_BLOCK); [eapply IH; eauto|].
    apply IH in H. rewrite H. apply set_direct_block_length.
Qed.

(** X15.  Truncate, then export: the bytes exported after [truncate n] are
    the first [size - n] bytes of what the export gave before (none if
    [n] is the size or more). *)
Theorem truncate_then_export env st path n :
  0 < n ->
  let i := get_path_inode st path in
  i <> -1 -> mode (read_inode st i) = 0 ->
  exists old,
    snd (do_cp_from_vdisk st path) = Some old
    /\ snd (do_cp_from_vdisk (do_truncate env st path n) path)
       = Some (firstn (Z.to_nat (size (read_inode st i) - n)) old).
Proof.
  intros Hn i Hi Hm.
  exists (cp_from_loop st (firstn 12 (direct_blocks (read_inode st i)))
                       (size (read_inode st i))).
  split.
  { unfold do_cp_from_vdisk. fold i.
    destruct (Z.eqb_spec i (-1)); [contradiction|]. rewrite Hm. reflexivity. }
  unfold do_truncate. fold i.
  destruct (Z.leb_spec n 0) as [|_]; [lia|].
  destruct (Z.eqb_spec i (-1)); [contradiction|].
  rewrite Hm. cbn [Z.eqb negb].
  set (inode := read_inode st i) in *.
  set (new_size := if n >=? size inode then 0 else size inode - n).
  set (first := Z.to_nat ((if new_size >? 0 then Z.quot (new_size - 1) BLOCK_SIZE else -1) + 1)).
  destruct (truncate_loop (seq first (12 - first)) st inode) as [st1 inode1] eqn:Hl.
  destruct (truncate_loop_frame _ _ _ _ _ Hl) as (V1 & _ & C1 & _ & _ & M1 & _).
  pose proof (truncate_loop_pointers _ _ _ _ _ Hl) as P1.
  pose proof (truncate_loop_length _ _ _ _ _ Hl) as L1.
  set (inode2 := set_modification_time (set_size inode1 new_size) (now env)).
  set (st2 := sync_bitmaps (write_inode st1 i inode2)).
  assert (E : exists msg,
             (if (new_size =? 0) && (size inode >? 0)
              then printf st2 MsgTruncatedToZero
              else printf st2 (MsgShortened new_size)) = printf st2 msg)
    by (destruct (_ && _); eexists; reflexivity).
  destruct E as [msg ->].
  set (st' := printf st2 msg).
  assert (RB : forall b, read_block st' b = read_block st b).
  { intros b. change (read_block st' b) with (read_block st1 b).
    unfold read_block. rewrite V1. reflexivity. }
  assert (RI : forall k, k <> i -> read_inode st' k = read_inode st k).
  { intros k Hk. change (read_inode st' k) with (read_inode (write_inode st1 i inode2) k).
    rewrite read_write_inode. destruct (Z.eqb_spec k i); [contradiction|].
    unfold read_inode. rewrite V1. reflexivity. }
  assert (R2 : read_inode st' i = inode2).
  { change (read_inode st' i) with (read_inode (write_inode st1 i inode2) i).
    rewrite read_write_inode, Z.eqb_refl. reflexivity. }
  assert (Hpath : get_path_inode st' path = i).
  { apply (get_path_inode_file_change st st' i); [exact RB|exact RI| | |].
    - rewrite R2. unfold inode2. cbn [mode set_modification_time set_size].
      rewrite M1. reflexivity.
    - fold inode. rewrite Hm. discriminate.
    - change (cwd st') with (cwd st1). exact C1. }
  unfold do_cp_from_vdisk. rewrite Hpath.
  destruct (Z.eqb_spec i (-1)); [contradiction|].
  rewrite R2. unfold inode2 at 1. cbn [mode set_modification_time set_size].
  rewrite M1. fold inode. rewrite Hm. cbn [Z.eqb negb snd]. f_equal.
  unfold inode2. cbn [size direct_blocks set_modification_time set_size].
  assert (BS : BLOCK_SIZE = 4096) by reflexivity.
  unfold new_size in *.
  destruct (Z.geb_spec n (size inode)) as [G|G].
  { rewrite cp_from_loop_nothing by lia.
    replace (Z.to_nat (size inode - n)) with 0%nat by lia. reflexivity. }
  rewrite (cp_from_loop_ext st st' RB).
  rewrite (cp_from_loop_prefix st (firstn 12 (direct_blocks inode))
                               (firstn 12 (direct_blocks inode1))
                               (size inode) (size inode - n)).
  - reflexivity.
  - lia.
  - rewrite !length_firstn, L1. reflexivity.
  - intros idx Hidx. rewrite !nth_firstn.
    destruct (Nat.ltb_spec idx 12); [|reflexivity].
    rewrite P1. destruct (in_dec Nat.eq_dec idx (seq first (12 - first))) as [Hin|_];
      [|reflexivity].
    exfalso. apply in_seq in Hin. unfold first in Hin.
    destruct (Z.gtb_spec (size inode - n) 0); [|lia].
    rewrite Z.quot_div_nonneg in Hin by lia. rewrite BS in *.
    assert ((size inode - n - 1) / 4096 < Z.of_nat idx); [lia|].
    assert (Z.of_nat idx <= (size inode - n - 1) / 4096); [|lia].
    apply Z.div_le_lower_bound; lia.
Qed.

(** ** A fresh image *)

Lemma num_data_blocks_fresh env size_bytes :
  14 * BLOCK_SIZE <= size_bytes < 2147483648 * BLOCK_SIZE ->
  0 < num_data_blocks (sb (fresh env size_bytes)) <= MAX_DATA_BLOCKS.
Proof.
  intros H. unfold fresh, mount, do_mkfs. cbn [sb dk_super num_data_blocks].
  unfold BLOCK_SIZE, MAX_DATA_BLOCKS, MAX_INODES, sizeof_Inode,
    INODE_TABLE_START_BLOCK in *.
  change ((512 * 80 + 4096 - 1) / 4096) with 10. change (wrap32 (3 + 10)) with 13.
  assert (Q : 14 <= Z.quot size_bytes 4096 < 2147483648).
  { rewrite Z.quot_div_nonneg by lia. split.
    - apply Z.div_le_lower_bound; lia.
    - apply Z.div_lt_upper_bound; lia. }
  set (q := Z.quot size_bytes 4096) in *.
  assert (T : to_int q = q).
  { unfold to_int, wrap32. rewrite Z.mod_small by lia.
    destruct (Z.ltb_spec q 2147483648); lia. }
  rewrite T. unfold wrap32. rewrite Z.mod_small by lia.
  destruct (Z.gtb_spec (q - 13) 8192); lia.
Qed.

(** X22.  [do_mkfs] followed by start-up gives a consistent file system,
    for every image size of at least 14 blocks and whatever the
    uninitialised bytes of its directory entries hold: bitmaps and inode
    table agree ([alloc_ok]), the root is the only allocated inode and the
    CWD, its directory has no holes and holds exactly [.] and [..], both
    naming the root, and all other inodes are free. *)
Theorem mkfs_gives_consistent_state env size_bytes :
  14 * BLOCK_SIZE <= size_bytes < 2147483648 * BLOCK_SIZE ->
  let st := fresh env size_bytes in
  alloc_ok st = true
  /\ cwd st = ROOT_INODE_NUM
  /\ allocated_inodes st = [ROOT_INODE_NUM]
  /\ packed st (read_inode st ROOT_INODE_NUM) = true
  /\ map (fun e => (cstr (name e), inode_number e))
         (visible st (read_inode st ROOT_INODE_NUM))
     = [(str ".", ROOT_INODE_NUM); (str "..", ROOT_INODE_NUM)]
  /\ free_inodes st = MAX_INODES - 1
  /\ free_data_blocks st = num_data_blocks (sb st) - 1.
Proof.
  intros H. cbv zeta.
  pose proof (num_data_blocks_fresh env size_bytes H) as N.
  set (st := fresh env size_bytes) in *.
  assert (A : allocated_inodes st = [ROOT_INODE_NUM]) by (vm_compute; reflexivity).
  assert (DB : data_block_bitmap st = set_bit (zeros DATA_BITMAP_BYTES) 0)
    by (vm_compute; reflexivity).
  assert (G0 : get_bit (data_block_bitmap st) 0 = true) by (vm_compute; reflexivity).
  split.
  { unfold alloc_ok. rewrite A. cbn [forallb].
    replace (nodupb (owned_blocks st)) with true by (vm_compute; reflexivity).
    replace (0 <? num_inodes (sb st)) with true by (vm_compute; reflexivity).
    replace (num_inodes (sb st) <=? 8 * Z.of_nat (length (inode_bitmap st)))
      with true by (vm_compute; reflexivity).
    replace (num_inodes (sb st) <=? MAX_INODES) with true by (vm_compute; reflexivity).
    replace (get_bit (inode_bitmap st) ROOT_INODE_NUM) with true
      by (vm_compute; reflexivity).
    replace (0 <=? cwd st) with true by (vm_compute; reflexivity).
    replace (cwd st <? num_inodes (sb st)) with true by (vm_compute; reflexivity).
    replace (get_bit (inode_bitmap st) (cwd st)) with true by (vm_compute; reflexivity).
    replace (length (data_block_bitmap st)) with 1024%nat by (vm_compute; reflexivity).
    unfold MAX_DATA_BLOCKS in *.
    destruct (Z.leb_spec (num_data_blocks (sb st)) (8 * Z.of_nat 1024)); [|lia].
    destruct (Z.leb_spec (num_data_blocks (sb st)) 8192); [|lia].
    cbn [andb]. rewrite andb_true_r.
    unfold inode_ok. cbv zeta.
    replace (used_pointers (read_inode st ROOT_INODE_NUM)) with [0]
      by (vm_compute; reflexivity).
    cbn [forallb]. rewrite G0.
    destruct (Z.ltb_spec 0 (num_data_blocks (sb st))); [|lia].
    replace (length (direct_blocks (read_inode st ROOT_INODE_NUM)) =? 12)%nat
      with true by (vm_compute; reflexivity).
    cbn [Z.leb Z.compare andb].
    vm_compute. reflexivity. }
  split; [reflexivity|]. split; [exact A|].
  split; [vm_compute; reflexivity|]. split; [vm_compute; reflexivity|].
  split; [vm_compute; reflexivity|].
  unfold free_data_blocks. rewrite DB.
  rewrite count_bits_set_bit; [|vm_compute; reflexivity|lia|vm_compute; lia].
  assert (Z0 : forall k i, count_bits (zeros DATA_BITMAP_BYTES) k i = 0).
  { induction k as [|k IH]; intros i; cbn [count_bits]; [reflexivity|].
    rewrite IH. replace (get_bit (zeros DATA_BITMAP_BYTES) i) with false; [reflexivity|].
    symmetry. unfold get_bit. destruct (i <? 0); [reflexivity|].
    assert (Hz : nth (Z.to_nat (i / 8)) (zeros DATA_BITMAP_BYTES) NUL = NUL).
    { unfold zeros. destruct (Nat.lt_ge_cases (Z.to_nat (i / 8)) DATA_BITMAP_BYTES).
      - apply nth_repeat.
      - apply nth_overflow. rewrite repeat_length. lia. }
    rewrite Hz. reflexivity. }
  rewrite Z0.
  destruct (Z.leb_spec 0 0); [|lia].
  destruct (Z.ltb_spec 0 (0 + Z.of_nat (Z.to_nat (num_data_blocks (sb st))))); [|lia].
  cbn [andb]. lia.
Qed.

(** ** Hard links *)

Lemma path_walk_allocated st : forall fuel rest c r,
  alloc_ok st = true -> allocated st c ->
  path_walk fuel st rest c = r -> r <> -1 -> allocated st r.
Proof.
  induction fuel as [|fuel IH]; intros rest c r Hok A W Hr; cbn [path_walk] in W.
  - subst r. exact A.
  - destruct (strtok_r rest) as [[token rest']|]; [|subst r; exact A].
    cbv zeta in W.
    destruct (Z.eqb_spec (find_entry_in_dir st c token) (-1)) as [E|E]; [congruence|].
    destruct (find_entry_allocated st c token _ Hok A eq_refl E) as [_ Aq].
    destruct (_ && _); [congruence|]. eapply IH; eauto.
Qed.

(** What a path resolves to in a consistent state is an allocated inode. *)
Lemma get_path_inode_allocated st path r :
  alloc_ok st = true -> get_path_inode st path = r -> r <> -1 -> allocated st r.
Proof.
  intros Hok W Hr.
  destruct (alloc_ok_facts st Hok) as (_ & _ & _ & _ & _ & Ar & Ac & _).
  unfold get_path_inode in W. destruct path as [|c tl]; [congruence|].
  destruct (bytes_eqb _ _); [subst r; exact Ac|].
  destruct (Ascii.eqb c slash);
    (destruct (bytes_eqb _ _); [subst r; exact Ar|]).
  - apply (path_walk_allocated st _ _ ROOT_INODE_NUM r Hok Ar W Hr).
  - apply (path_walk_allocated st _ _ (cwd st) r Hok Ac W Hr).
Qed.

Lemma cp_from_loop_ext_in st st' : forall blocks s,
  (forall b, In b blocks -> b <> UNUSED_BLOCK -> read_block st' b = read_block st b) ->
  cp_from_loop st' blocks s = cp_from_loop st blocks s.
Proof.
  induction blocks as [|b rest IH]; intros s H; cbn [cp_from_loop]; auto.
  destruct (s <=? 0); [reflexivity|].
  destruct (Z.eqb_spec b UNUSED_BLOCK) as [E|E]; [reflexivity|].
  rewrite (H b) by (simpl; auto). rewrite IH; [reflexivity|].
  intros x Hx. apply H. simpl. auto.
Qed.

(** X18.  After [ln target link] in a consistent state (the link's parent
    directory without holes and with room, a data block free for it, the
    link name new and at most 255 bytes), the link and the target resolve
    to the same inode, whose link count went up by one, and exporting
    through the link gives what exporting the target gave. *)
Theorem ln_then_resolve env st target (abs : bool) comps leaf :
  let link := mkpath abs (comps ++ [leaf]) in
  let p := walk_components st (if abs then ROOT_INODE_NUM else cwd st) comps in
  let t := get_path_inode st target in
  alloc_ok st = true ->
  Forall (fun c => valid_component c = true) comps ->
  valid_component leaf = true -> nul_free leaf = true -> (length leaf <= 255)%nat ->
  p <> -1 -> mode (read_inode st p) = 1 ->
  find_entry_in_dir st p leaf = -1 ->
  packed st (read_inode st p) = true ->
  size (read_inode st p) / sizeof_DirectoryEntry < 180 ->
  1 <= free_data_blocks st ->
  t <> -1 -> mode (read_inode st t) <> 1 ->
  let st' := do_ln env st target link in
  get_path_inode st' link = t
  /\ get_path_inode st' target = t
  /\ link_count (read_inode st' t) = wrap32 (link_count (read_inode st t) + 1)
  /\ snd (do_cp_from_vdisk st' link) = snd (do_cp_from_vdisk st target).
Proof.
  intros link p t Hok Vs V Hnul Hlen Hp Hmode Hfind Hpacked Hroom Hfree Ht Hmt.
  destruct (alloc_ok_facts st Hok)
    as (Hni & Hig & Hdg & Hdmax & Himax & Aroot & Acwd & _ & _).
  assert (Astart : allocated st (if abs then ROOT_INODE_NUM else cwd st))
    by (destruct abs; assumption).
  assert (Ap : allocated st p)
    by (apply (walk_allocated st comps _ p Hok Astart eq_refl Hp)).
  assert (At : allocated st t)
    by (apply (get_path_inode_allocated st target t Hok eq_refl Ht)).
  assert (Htp : t <> p) by (intros E; rewrite E in Hmt; contradiction).
  destruct (inode_ok_facts st p (alloc_ok_inode st p Hok Ap)) as (Lp & Up & _).
  destruct (inode_ok_facts st t (alloc_ok_inode st t Hok At)) as (Lt & Ut & _).
  subst link. cbv zeta. unfold do_ln. fold t.
  destruct (Z.eqb_spec t (-1)) as [E|_]; [contradiction|].
  destruct (Z.eqb_spec (mode (read_inode st t)) 1) as [E|_]; [contradiction|].
  rewrite (basename_mkpath abs comps leaf V).
  rewrite (get_path_inode_dirname st abs comps leaf Hok Vs V Hp). fold p.
  destruct (Z.eqb_spec p (-1)) as [E|_]; [contradiction|].
  rewrite Hfind. change (negb (-1 =? -1)) with false. cbv iota.
  unfold add_entry_to_dir.
  pose proof (ins_appended env st p (mkDirectoryEntry (strncpy_name leaf) t)) as Hins.
  cbv beta in Hins. cbn [name inode_number] in Hins. rewrite strncpy_name_fit in Hins.
  set (st1 := add_entry_loop env (seq 0 12) st p (read_inode st p)
                             (mkDirectoryEntry (strncpy_name leaf) t)) in *.
  destruct Hins as (M1 & L1 & V1 & I1 & K1 & B1 & IB1 & SB1 & C1 & _).
  { exact Hpacked. }
  { exact Lp. }
  { apply owned_nodup; assumption. }
  { intros b Hb. apply Up. exact Hb. }
  { exact Hfree. }
  { exact Hdg. }
  { exact Hdmax. }
  { apply strncpy_name_live; assumption. }
  { lia. }
  set (t_inode := set_link_count (read_inode st t)
                                 (wrap32 (link_count (read_inode st t) + 1))).
  set (sF := printf (write_inode st1 t t_inode) MsgLinkCreated).
  assert (RI : forall k, read_inode sF k = if k =? t then t_inode else read_inode st1 k)
    by (intros k; apply read_write_inode).
  assert (RB : forall b, read_block sF b = read_block st1 b) by reflexivity.
  assert (HM : forall k, allocated st k ->
                         mode (read_inode sF k) = mode (read_inode st k)).
  { intros k _. rewrite RI. destruct (Z.eqb_spec k t) as [->|Hk]; [reflexivity|].
    destruct (Z.eq_dec k p) as [->|Hkp]; [exact M1|]. rewrite I1 by exact Hkp.
    reflexivity. }
  assert (HV : visible sF (read_inode sF p)
               = visible st (read_inode st p)
                 ++ [mkDirectoryEntry (strncpy_name leaf) (wrap32 t)]).
  { rewrite RI. destruct (Z.eqb_spec p t) as [E|_]; [congruence|].
    rewrite (visible_ext st1 sF) by (intros; apply RB). exact V1. }
  assert (HD : forall k, allocated st k -> k <> p -> mode (read_inode st k) = 1 ->
                         read_inode sF k = read_inode st k).
  { intros k _ Hkp Hk. rewrite RI.
    destruct (Z.eqb_spec k t) as [->|_]; [contradiction|]. apply I1. exact Hkp. }
  assert (HB : forall x, get_bit (data_block_bitmap st) x = true ->
                         ~ In x (used_pointers (read_inode st p)) ->
                         read_block sF x = read_block st x).
  { intros x Hx Hnot. rewrite RB. apply K1; assumption. }
  assert (HC : cwd sF = cwd st) by exact C1.
  set (link := mkpath abs (comps ++ [leaf])).
  assert (Hlink : get_path_inode sF link = t).
  { apply (resolve_new_entry st sF abs comps leaf t); auto.
    destruct At as [R _]. unfold MAX_INODES in Himax. lia. }
  assert (Htarget : get_path_inode sF target = t).
  { apply (frame_get_path st sF p _ Hok Ap HM HV HD HB); assumption. }
  split; [exact Hlink|]. split; [exact Htarget|]. split.
  { rewrite RI, Z.eqb_refl. reflexivity. }
  unfold do_cp_from_vdisk. rewrite Hlink. fold t.
  destruct (Z.eqb_spec t (-1)) as [E|_]; [contradiction|].
  rewrite RI, Z.eqb_refl. unfold t_inode at 1. cbn [mode set_link_count].
  destruct (negb (mode (read_inode st t) =? 0)); [reflexivity|].
  cbn [snd]. f_equal. unfold t_inode. cbn [direct_blocks size set_link_count].
  apply cp_from_loop_ext_in. intros b Hin Hb. apply HB.
  - apply Ut. apply in_firstn_used; assumption.
  - apply (owned_disjoint st t p b Hok At Ap Htp). apply in_firstn_used; assumption.
Qed.

(** ** The block of a new directory *)

Lemma skipn_zeros k n : skipn k (zeros n) = zeros (n - k).
Proof.
  unfold zeros. revert k. induction n as [|n IH]; intros [|k]; cbn [repeat skipn Nat.sub];
    auto.
Qed.

Lemma dot_block_as_puts e0 e1 :
  (de_bytes e0 ++ de_bytes e1) ++ zeros (BLOCK_BYTES - 2 * DE_BYTES)
  = put_de (put_de (zeros BLOCK_BYTES) 0 e0) 1 e1.
Proof.
  unfold put_de at 2. rewrite Nat.mul_0_r. cbn [firstn app Nat.add].
  rewrite skipn_zeros. unfold put_de. rewrite Nat.mul_1_r.
  pose proof (length_de_bytes e0) as L0.
  rewrite firstn_app, L0, Nat.sub_diag. rewrite firstn_all2; [|lia].
  cbn [firstn]. rewrite app_nil_r.
  rewrite skipn_app, L0. rewrite skipn_all2; [|lia]. cbn [app].
  rewrite skipn_zeros. rewrite <- app_assoc.
  replace (BLOCK_BYTES - DE_BYTES - (DE_BYTES + DE_BYTES - DE_BYTES))%nat
    with (BLOCK_BYTES - 2 * DE_BYTES)%nat by (unfold BLOCK_BYTES, DE_BYTES; lia).
  reflexivity.
Qed.

Lemma length_strcpy_into old s :
  (length s + 1 <= length old)%nat -> length (strcpy_into old s) = length old.
Proof.
  intros H. unfold strcpy_into. rewrite !length_app, length_skipn. cbn [length]. lia.
Qed.

Lemma cstr_strcpy_into old s : nul_free s = true -> cstr (strcpy_into old s) = s.
Proof. intros H. unfold strcpy_into. cbn [app]. apply cstr_app_nul. exact H. Qed.

Lemma stack_names env :
  length (firstn NAME_BYTES (map (stack env) (seq 0 (2 * DE_BYTES)))) = NAME_BYTES
  /\ length (firstn NAME_BYTES (skipn DE_BYTES (map (stack env) (seq 0 (2 * DE_BYTES)))))
     = NAME_BYTES.
Proof.
  rewrite !length_firstn, length_skipn, length_map, length_seq.
  unfold NAME_BYTES, DE_BYTES. lia.
Qed.

(** The two entries a new directory starts with, whatever the array they
    were built in held before. *)
Lemma dot_block_slots env self parent :
  let buf := dot_entries env self parent ++ zeros (BLOCK_BYTES - 2 * DE_BYTES) in
  length buf = BLOCK_BYTES
  /\ exists e0 e1 rest,
       block_slots buf = e0 :: e1 :: rest
       /\ live e0 = true /\ live e1 = true
       /\ cstr (name e0) = str "." /\ inode_number e0 = wrap32 self
       /\ cstr (name e1) = str ".." /\ inode_number e1 = wrap32 parent.
Proof.
  cbv zeta. unfold dot_entries. cbv zeta.
  destruct (stack_names env) as [L0 L1].
  set (old0 := firstn NAME_BYTES (map (stack env) (seq 0 (2 * DE_BYTES)))) in *.
  set (old1 := firstn NAME_BYTES (skipn DE_BYTES (map (stack env) (seq 0 (2 * DE_BYTES)))))
    in *.
  set (e0 := mkDirectoryEntry (strcpy_into old0 (str ".")) self).
  set (e1 := mkDirectoryEntry (strcpy_into old1 (str "..")) parent).
  rewrite dot_block_as_puts.
  assert (Lz : length (zeros BLOCK_BYTES) = BLOCK_BYTES) by apply length_zeros.
  assert (Lp : length (put_de (zeros BLOCK_BYTES) 0 e0) = BLOCK_BYTES).
  { apply length_put_de; [exact Lz|unfold entries_per_block; lia]. }
  split.
  { apply length_put_de; [exact Lp|unfold entries_per_block; lia]. }
  assert (N0 : length (strcpy_into old0 (str ".")) = NAME_BYTES).
  { rewrite length_strcpy_into; [exact L0|]. rewrite L0. unfold NAME_BYTES. simpl. lia. }
  assert (N1 : length (strcpy_into old1 (str "..")) = NAME_BYTES).
  { rewrite length_strcpy_into; [exact L1|]. rewrite L1. unfold NAME_BYTES. simpl. lia. }
  set (buf := put_de (put_de (zeros BLOCK_BYTES) 0 e0) 1 e1).
  assert (G0 : get_de buf 0 = mkDirectoryEntry (strcpy_into old0 (str ".")) (wrap32 self)).
  { unfold buf. rewrite get_de_put_de_other, get_de_put_de_same;
      try (unfold entries_per_block; lia); try assumption.
    unfold e0. cbn [name inode_number]. rewrite fit_id by exact N0. reflexivity. }
  assert (G1 : get_de buf 1 = mkDirectoryEntry (strcpy_into old1 (str "..")) (wrap32 parent)).
  { unfold buf. rewrite get_de_put_de_same;
      try (unfold entries_per_block; lia); try assumption.
    unfold e1. cbn [name inode_number]. rewrite fit_id by exact N1. reflexivity. }
  exists (get_de buf 0), (get_de buf 1), (map (get_de buf) (seq 2 13)).
  split; [reflexivity|]. rewrite G0, G1. cbn [name inode_number].
  split; [reflexivity|]. split; [reflexivity|].
  split; [apply cstr_strcpy_into; reflexivity|]. split; [reflexivity|].
  split; [apply cstr_strcpy_into; reflexivity|reflexivity].
Qed.

Lemma visible_inode_fields st i i' :
  size i' = size i -> direct_blocks i' = direct_blocks i -> visible st i' = visible st i.
Proof. intros S D. unfold visible, dir_entries. rewrite S, D. reflexivity. Qed.

Lemma length_set_bit bm n : length (set_bit bm n) = length bm.
Proof. unfold set_bit. destruct (n <? 0); [reflexivity|apply length_upd_nth]. Qed.

(** The entries of a directory that holds one block whose first two slots
    are live and whose size is two entries. *)
Lemma visible_two st inode b e0 e1 rest :
  size inode = 2 * sizeof_DirectoryEntry ->
  direct_blocks inode = fresh_pointers b -> b <> UNUSED_BLOCK ->
  block_slots (read_block st b) = e0 :: e1 :: rest ->
  live e0 = true -> live e1 = true ->
  visible st inode = [e0; e1].
Proof.
  intros S D Hb Hs H0 H1. rewrite visible_spec, S.
  change (Z.to_nat (2 * sizeof_DirectoryEntry / sizeof_DirectoryEntry)) with 2%nat.
  unfold dir_slots. rewrite D. unfold fresh_pointers.
  change (firstn 12 (b :: repeat UNUSED_BLOCK 11)) with (b :: repeat UNUSED_BLOCK 11).
  cbn [repeat used_prefix].
  destruct (Z.eqb_spec b UNUSED_BLOCK) as [E|_]; [contradiction|].
  change (UNUSED_BLOCK =? UNUSED_BLOCK) with true. cbv iota.
  cbn [flat_map]. rewrite Hs, app_nil_r. cbn [filter]. rewrite H0, H1. reflexivity.
Qed.

Lemma lookup_two_dot e0 e1 :
  cstr (name e0) = str "." -> cstr (name e1) = str ".." ->
  lookup_in [e0; e1] (str ".") = to_int (inode_number e0)
  /\ lookup_in [e0; e1] (str "..") = to_int (inode_number e1).
Proof.
  intros H0 H1. unfold lookup_in, strcmp_eq. cbn [find]. rewrite H0, H1. split; reflexivity.
Qed.

(** X17.  After a successful [mkdir] in a consistent state (the parent
    directory without holes and with room, two data blocks free and an
    inode free whose record lies inside one block of the inode table, the
    name new and at most 255 bytes): the path resolves to a newly
    allocated inode, which is a directory whose [.] is itself and whose
    [..] is the parent; [cd] to the path enters it; and the parent has one
    link more. *)
Theorem mkdir_then_resolve env st (abs : bool) comps leaf :
  let path := mkpath abs (comps ++ [leaf]) in
  let p := walk_components st (if abs then ROOT_INODE_NUM else cwd st) comps in
  alloc_ok st = true ->
  Forall (fun c => valid_component c = true) comps ->
  valid_component leaf = true -> nul_free leaf = true -> (length leaf <= 255)%nat ->
  p <> -1 -> mode (read_inode st p) = 1 ->
  find_entry_in_dir st p leaf = -1 ->
  packed st (read_inode st p) = true ->
  size (read_inode st p) / sizeof_DirectoryEntry < 180 ->
  1 <= free_inodes st ->
  inode_in_block (fst (alloc_inode st)) = true ->
  2 <= free_data_blocks st ->
  let st' := do_mkdir env st path in
  exists n,
    get_bit (inode_bitmap st) n = false
    /\ get_bit (inode_bitmap st') n = true
    /\ get_path_inode st' path = n
    /\ mode (read_inode st' n) = 1
    /\ find_entry_in_dir st' n (str ".") = n
    /\ find_entry_in_dir st' n (str "..") = p
    /\ cwd (do_cd st' path) = n
    /\ link_count (read_inode st' p) = wrap32 (link_count (read_inode st p) + 1).
Proof.
  intros path p Hok Vs V Hnul Hlen Hp Hmode Hfind Hpacked Hroom Hfi _ Hfd.
  destruct (alloc_ok_facts st Hok)
    as (Hni & Hig & Hdg & Hdmax & Himax & Aroot & Acwd & _ & _).
  assert (Astart : allocated st (if abs then ROOT_INODE_NUM else cwd st))
    by (destruct abs; assumption).
  assert (Ap : allocated st p)
    by (apply (walk_allocated st comps _ p Hok Astart eq_refl Hp)).
  destruct (inode_ok_facts st p (alloc_ok_inode st p Hok Ap)) as (Lp & Up & _).
  subst path. cbv zeta. unfold do_mkdir.
  rewrite (basename_mkpath abs comps leaf V).
  rewrite (get_path_inode_dirname st abs comps leaf Hok Vs V Hp). fold p.
  destruct (Z.eqb_spec p (-1)) as [E|_]; [contradiction|].
  rewrite Hfind. change (negb (-1 =? -1)) with false. cbv iota.
  destruct (alloc_inode_succeeds st Hfi Hig) as (n & Han & Hn & Hnclear & Hnset).
  rewrite Han.
  destruct (Z.eqb_spec n (-1)) as [E|_]; [lia|].
  set (st1 := with_inode_bitmap st (set_bit (inode_bitmap st) n)).
  destruct (alloc_data_block_succeeds st1) as (b & Hab & Hb & Hbclear & Hbset & Hbf).
  { change (free_data_blocks st1) with (free_data_blocks st). lia. }
  { exact Hdg. }
  rewrite Hab.
  destruct (Z.eqb_spec b (-1)) as [E|_]; [lia|].
  change (data_block_bitmap st1) with (data_block_bitmap st) in Hbclear, Hbset.
  set (st2 := with_data_bitmap st1 (set_bit (data_block_bitmap st1) b)) in *.
  set (new_inode := mkInode 1 (2 * sizeof_DirectoryEntry) 2 (now env) (now env)
                            (fresh_pointers b)).
  set (buffer := dot_entries env n p ++ zeros (BLOCK_BYTES - 2 * DE_BYTES)).
  destruct (dot_block_slots env n p)
    as (Lbuf & e0 & e1 & rest & Hslots & Hl0 & Hl1 & Hc0 & Hi0 & Hc1 & Hi1).
  fold buffer in Lbuf, Hslots.
  set (st4 := write_block (write_inode st2 n new_inode) b buffer).
  assert (Hpn : p <> n) by (destruct Ap as [_ Bp]; congruence).
  assert (Hbu : b <> UNUSED_BLOCK)
    by (unfold UNUSED_BLOCK, MAX_DATA_BLOCKS in *;
        change (sb st1) with (sb st) in Hb; lia).
  assert (R4 : read_inode st4 p = read_inode st p).
  { unfold st4. change (read_inode (write_block (write_inode st2 n new_inode) b buffer) p)
      with (read_inode (write_inode st2 n new_inode) p).
    rewrite read_write_inode. destruct (Z.eqb_spec p n); [contradiction|reflexivity]. }
  assert (B4 : forall x, get_bit (data_block_bitmap st) x = true ->
                         read_block st4 x = read_block st x
                         /\ get_bit (data_block_bitmap st4) x = true).
  { intros x Hx. assert (x <> b) by congruence. split.
    - unfold st4. rewrite read_write_block.
      destruct (Z.eqb_spec x b); [contradiction|reflexivity].
    - change (data_block_bitmap st4) with (set_bit (data_block_bitmap st) b).
      rewrite get_bit_set_bit_other by congruence. exact Hx. }
  assert (X4 : forall x, In x (used_pointers (read_inode st p)) ->
                         read_block st4 x = read_block st x).
  { intros x Hx. apply B4. apply Up. exact Hx. }
  unfold add_entry_to_dir.
  pose proof (ins_appended env st4 p (mkDirectoryEntry (strncpy_name leaf) n)) as Hins.
  cbv beta in Hins. cbn [name inode_number] in Hins. rewrite strncpy_name_fit in Hins.
  set (st5 := add_entry_loop env (seq 0 12) st4 p (read_inode st4 p)
                             (mkDirectoryEntry (strncpy_name leaf) n)) in *.
  rewrite R4 in Hins.
  destruct Hins as (M5 & L5 & V5 & I5 & K5 & Bits5 & IB5 & SB5 & C5 & LC5 & _).
  { rewrite (packed_ext st st4 _ X4). exact Hpacked. }
  { exact Lp. }
  { apply owned_nodup; assumption. }
  { intros x Hx. apply B4. apply Up. exact Hx. }
  { change (free_data_blocks st4) with (free_data_blocks st2). rewrite Hbf.
    change (free_data_blocks st1) with (free_data_blocks st). lia. }
  { change (sb st4) with (sb st).
    change (data_block_bitmap st4) with (set_bit (data_block_bitmap st) b).
    rewrite length_set_bit. exact Hdg. }
  { exact Hdmax. }
  { apply strncpy_name_live; assumption. }
  { lia. }
  set (p_inode := set_link_count (read_inode st5 p)
                                 (wrap32 (link_count (read_inode st5 p) + 1))).
  set (sF := printf (sync_bitmaps (write_inode st5 p p_inode)) MsgDirectoryCreated).
  assert (RI : forall k, read_inode sF k = if k =? p then p_inode else read_inode st5 k)
    by (intros k; apply read_write_inode).
  assert (RB : forall x, read_block sF x = read_block st5 x) by reflexivity.
  assert (R5n : read_inode st5 n = new_inode).
  { rewrite I5 by auto. unfold st4.
    change (read_inode (write_block (write_inode st2 n new_inode) b buffer) n)
      with (read_inode (write_inode st2 n new_inode) n).
    rewrite read_write_inode, Z.eqb_refl. reflexivity. }
  assert (HM : forall k, allocated st k ->
                         mode (read_inode sF k) = mode (read_inode st k)).
  { intros k Ak. rewrite RI. destruct (Z.eqb_spec k p) as [->|Hk].
    - unfold p_inode. cbn [mode set_link_count]. exact M5.
    - rewrite I5 by exact Hk. unfold st4.
      change (read_inode (write_block (write_inode st2 n new_inode) b buffer) k)
        with (read_inode (write_inode st2 n new_inode) k).
      rewrite read_write_inode. destruct (Z.eqb_spec k n) as [->|_]; [|reflexivity].
      destruct Ak as [_ Bk]. congruence. }
  assert (HV : visible sF (read_inode sF p)
               = visible st (read_inode st p)
                 ++ [mkDirectoryEntry (strncpy_name leaf) (wrap32 n)]).
  { rewrite RI, Z.eqb_refl.
    rewrite (visible_inode_fields sF (read_inode st5 p) p_inode) by reflexivity.
    rewrite (visible_ext st5 sF) by (intros; apply RB).
    rewrite V5. rewrite (visible_ext st st4 _ X4). reflexivity. }
  assert (HD : forall k, allocated st k -> k <> p -> mode (read_inode st k) = 1 ->
                         read_inode sF k = read_inode st k).
  { intros k Ak Hkp _. rewrite RI.
    destruct (Z.eqb_spec k p) as [|_]; [contradiction|]. rewrite I5 by exact Hkp.
    unfold st4.
    change (read_inode (write_block (write_inode st2 n new_inode) b buffer) k)
      with (read_inode (write_inode st2 n new_inode) k).
    rewrite read_write_inode. destruct (Z.eqb_spec k n) as [->|_]; [|reflexivity].
    destruct Ak as [_ Bk]. congruence. }
  assert (HB : forall x, get_bit (data_block_bitmap st) x = true ->
                         ~ In x (used_pointers (read_inode st p)) ->
                         read_block sF x = read_block st x).
  { intros x Hx Hnot. rewrite RB. destruct (B4 x Hx) as [Rx Sx]. rewrite K5; auto. }
  assert (HC : cwd sF = cwd st) by exact C5.
  assert (Hn31 : 0 <= n < 2147483648) by (unfold MAX_INODES in Himax; lia).
  assert (Hp31 : 0 <= p < 2147483648)
    by (destruct Ap as [R _]; unfold MAX_INODES in Himax; lia).
  set (path := mkpath abs (comps ++ [leaf])).
  assert (Hpath : get_path_inode sF path = n)
    by (apply (resolve_new_entry st sF abs comps leaf n); auto).
  assert (RFn : read_inode sF n = new_inode).
  { rewrite RI. destruct (Z.eqb_spec n p); [congruence|exact R5n]. }
  assert (Hblock : read_block sF b = buffer).
  { rewrite RB, K5.
    - unfold st4. rewrite read_write_block, Z.eqb_refl. apply fit_id. exact Lbuf.
    - change (data_block_bitmap st4) with (set_bit (data_block_bitmap st) b).
      exact Hbset.
    - intros Hin. destruct (Up b Hin) as [_ Sb]. congruence. }
  assert (Hvis : visible sF new_inode = [e0; e1]).
  { apply (visible_two sF new_inode b e0 e1 rest); auto. rewrite Hblock. exact Hslots. }
  destruct (lookup_two_dot e0 e1 Hc0 Hc1) as [Ldot Ldotdot].
  exists n.
  split; [exact Hnclear|]. split.
  { change (inode_bitmap sF) with (inode_bitmap (write_inode st5 p p_inode)).
    change (inode_bitmap (write_inode st5 p p_inode)) with (inode_bitmap st5).
    rewrite IB5. exact Hnset. }
  split; [exact Hpath|]. split; [rewrite RFn; reflexivity|].
  split.
  { rewrite find_entry_in_dir_lookup, RFn. cbn [mode new_inode Z.eqb Pos.eqb negb].
    rewrite Hvis, Ldot, Hi0. apply to_int_wrap32_small. exact Hn31. }
  split.
  { rewrite find_entry_in_dir_lookup, RFn. cbn [mode new_inode Z.eqb Pos.eqb negb].
    rewrite Hvis, Ldotdot, Hi1. apply to_int_wrap32_small. exact Hp31. }
  split.
  { unfold do_cd. destruct path as [|c0 tl] eqn:Epath.
    - cbn in Hpath. lia.
    - rewrite Hpath. destruct (Z.eqb_spec n (-1)) as [E|_]; [lia|].
      rewrite RFn. reflexivity. }
  rewrite RI, Z.eqb_refl. unfold p_inode. cbn [link_count set_link_count].
  rewrite LC5. reflexivity.
Qed.

(** ** Removing a directory *)

(** X19.  [rmdir] of a path other than [/] that resolves to a directory:
    with more than two visible entries it is refused and nothing changes;
    otherwise the inode's bit is cleared, and of the data bitmap exactly
    the bit of the block behind the directory's first pointer. *)
Theorem rmdir_outcomes st path :
  let i := get_path_inode st path in
  let inode := read_inode st i in
  let b0 := nth 0 (direct_blocks inode) UNUSED_BLOCK in
  path <> str "/" -> i <> -1 -> mode inode = 1 ->
  (2 < Z.of_nat (length (dir_entries st inode)) ->
     do_rmdir st path = printf st ErrDirectoryNotEmpty)
  /\ (Z.of_nat (length (dir_entries st inode)) <= 2 ->
      let st' := do_rmdir st path in
      (forall m, get_bit (inode_bitmap st') m
                 = if m =? i then false else get_bit (inode_bitmap st) m)
      /\ (forall m, get_bit (data_block_bitmap st') m
                    = if negb (b0 =? UNUSED_BLOCK) && (m =? to_int b0) then false
                      else get_bit (data_block_bitmap st) m)).
Proof.
  intros i inode b0 Hroot Hi Hm.
  assert (E1 : bytes_eqb path (str "/") = false).
  { destruct (bytes_eqb path (str "/")) eqn:E; [|reflexivity].
    apply bytes_eqb_eq in E. contradiction. }
  unfold do_rmdir. rewrite E1. fold i. fold inode.
  destruct (Z.eqb_spec i (-1)) as [|_]; [contradiction|].
  rewrite Hm. cbn [Z.eqb Pos.eqb negb]. fold b0.
  split; intros Hk.
  - destruct (Z.gtb_spec (Z.of_nat (length (dir_entries st inode))) 2); [reflexivity|lia].
  - destruct (Z.gtb_spec (Z.of_nat (length (dir_entries st inode))) 2); [lia|].
    cbv zeta.
    set (pp := get_path_inode st (dirname path)).
    destruct (do_rm_entry_bitmaps st pp (basename path)) as (I1 & D1 & _).
    set (st1 := do_rm_entry st pp (basename path)) in *.
    split; intros m.
    + cbn [inode_bitmap printf sync_bitmaps with_disk free_inode with_inode_bitmap].
      rewrite get_bit_clear_bit, (Z.eqb_sym i m).
      destruct (m =? i); [reflexivity|].
      destruct (b0 =? UNUSED_BLOCK); exact (f_equal (fun bm => get_bit bm m) I1).
    + cbn [data_block_bitmap printf sync_bitmaps with_disk free_inode with_inode_bitmap].
      destruct (b0 =? UNUSED_BLOCK); cbn [negb andb].
      * exact (f_equal (fun bm => get_bit bm m) D1).
      * unfold free_data_block. cbn [data_block_bitmap with_data_bitmap write_inode with_disk].
        rewrite get_bit_clear_bit, (Z.eqb_sym (to_int b0) m).
        destruct (m =? to_int b0); [reflexivity|].
        exact (f_equal (fun bm => get_bit bm m) D1).
Qed.

(** ** Appending inside the last block *)

Lemma firstn_zero_range rb off n :
  (off + n <= length rb)%nat ->
  firstn (off + n) (zero_range rb off n) = firstn off rb ++ zeros n.
Proof.
  intros H. unfold zero_range. rewrite app_assoc.
  rewrite firstn_app, length_app, length_firstn, length_zeros.
  replace (off + n - (Nat.min off (length rb) + n))%nat with 0%nat by lia.
  cbn [firstn]. rewrite app_nil_r. apply firstn_all2.
  rewrite length_app, length_firstn, length_zeros. lia.
Qed.

Lemma length_zero_range rb off n :
  (off + n <= length rb)%nat -> length (zero_range rb off n) = length rb.
Proof.
  intros H. unfold zero_range.
  rewrite !length_app, length_firstn, length_zeros, length_skipn. lia.
Qed.

(** The export after [n] bytes of the last block were zeroed and the size
    grew by [n]: the old export followed by [n] zero bytes. *)
Lemma cp_from_loop_after_tail st st' b n :
  0 < n ->
  (forall x, x <> b -> read_block st' x = read_block st x) ->
  forall blocks s,
    0 < s -> s mod BLOCK_SIZE <> 0 -> n <= BLOCK_SIZE - s mod BLOCK_SIZE ->
    read_block st' b
    = zero_range (read_block st b) (Z.to_nat (s mod BLOCK_SIZE)) (Z.to_nat n) ->
    let last := Z.to_nat ((s - 1) / BLOCK_SIZE) in
    (last < length blocks)%nat ->
    (forall idx, (idx <= last)%nat -> nth idx blocks UNUSED_BLOCK <> UNUSED_BLOCK) ->
    nth last blocks UNUSED_BLOCK = b ->
    (forall idx, (idx < last)%nat -> nth idx blocks UNUSED_BLOCK <> b) ->
    cp_from_loop st' blocks (s + n) = cp_from_loop st blocks s ++ zeros (Z.to_nat n).
Proof.
  intros Hn Hother.
  assert (BS : BLOCK_SIZE = 4096) by reflexivity.
  assert (BB : BLOCK_BYTES = 4096%nat) by reflexivity.
  induction blocks as [|x rest IH]; intros s Hs Hmod Hfit Hb last Hlen Hused Hlast Halias;
    [simpl in Hlen; lia|].
  rewrite BS in *.
  cbn [cp_from_loop].
  destruct (Z.leb_spec (s + n) 0); [lia|]. destruct (Z.leb_spec s 0); [lia|].
  assert (Hx : x <> UNUSED_BLOCK) by (apply (Hused 0%nat); lia).
  destruct (Z.eqb_spec x UNUSED_BLOCK) as [|_]; [contradiction|].
  pose proof (length_read_block st x) as Lx. rewrite BB in Lx.
  pose proof (Z.mod_pos_bound s 4096 ltac:(lia)) as Hmb.
  destruct (Z.gtb_spec s BLOCK_SIZE) as [G|G]; rewrite BS in G.
  - (* a full block before the last one *)
    assert (Hq : (s - 1) / 4096 = (s - 4096 - 1) / 4096 + 1).
    { replace (s - 1) with (1 * 4096 + (s - 4096 - 1)) by lia.
      rewrite Z.div_add_l by lia. lia. }
    assert (Hq0 : 0 <= (s - 4096 - 1) / 4096) by (apply Z.div_pos; lia).
    assert (Hl : last = S (Z.to_nat ((s - 4096 - 1) / 4096)))
      by (unfold last; rewrite BS, Hq; lia).
    assert (Hm' : (s - 4096) mod 4096 = s mod 4096).
    { replace (s - 4096) with (s + (-1) * 4096) by lia. apply Z.mod_add. lia. }
    destruct (Z.gtb_spec (s + n) BLOCK_SIZE) as [_|G']; [|lia].
    assert (Hxb : x <> b) by (apply (Halias 0%nat); lia).
    rewrite (Hother x Hxb). rewrite BS. rewrite <- app_assoc. f_equal.
    replace (s + n - 4096) with ((s - 4096) + n) by lia.
    apply IH.
    + lia.
    + rewrite ?BS, Hm'. exact Hmod.
    + rewrite ?BS, Hm'. exact Hfit.
    + rewrite ?BS, Hm'. exact Hb.
    + rewrite ?BS. simpl in Hlen. lia.
    + rewrite ?BS. intros idx Hidx. apply (Hused (S idx)). lia.
    + rewrite ?BS. rewrite Hl in Hlast. exact Hlast.
    + rewrite ?BS. intros idx Hidx. apply (Halias (S idx)). lia.
  - (* the last block *)
    assert (Hne : s <> 4096) by (intros ->; apply Hmod; reflexivity).
    assert (Hsm : s mod 4096 = s) by (apply Z.mod_small; lia).
    assert (Hq : (s - 1) / 4096 = 0) by (apply Z.div_small; lia).
    assert (Hl : last = 0%nat) by (unfold last; rewrite BS, Hq; reflexivity).
    rewrite Hl in Hlast. cbn [nth] in Hlast. subst x.
    rewrite Hsm in *.
    destruct (Z.gtb_spec (s + n) BLOCK_SIZE) as [G'|_]; [rewrite BS in G'; lia|].
    rewrite !Z.sub_diag, !cp_from_loop_nothing, !app_nil_r by lia.
    rewrite Hb. rewrite Z2Nat.inj_add by lia.
    apply firstn_zero_range. rewrite length_read_block, BB. lia.
Qed.

Lemma path_walk_ext_allocated st st' :
  alloc_ok st = true ->
  (forall d nm, allocated st d ->
                find_entry_in_dir st' d nm = find_entry_in_dir st d nm) ->
  (forall k, allocated st k -> mode (read_inode st' k) = mode (read_inode st k)) ->
  forall fuel rest c, allocated st c ->
                      path_walk fuel st' rest c = path_walk fuel st rest c.
Proof.
  intros Hok F M. induction fuel as [|fuel IH]; intros rest c A; cbn [path_walk]; auto.
  destruct (strtok_r rest) as [[token rest']|]; [|reflexivity].
  cbv zeta. rewrite (F c token A).
  destruct (Z.eqb_spec (find_entry_in_dir st c token) (-1)) as [E|E]; [reflexivity|].
  destruct (find_entry_allocated st c token _ Hok A eq_refl E) as [_ Aq].
  rewrite (M _ Aq). destruct (_ && _); [reflexivity|]. apply IH. exact Aq.
Qed.

Lemma get_path_inode_ext_allocated st st' path :
  alloc_ok st = true ->
  (forall d nm, allocated st d ->
                find_entry_in_dir st' d nm = find_entry_in_dir st d nm) ->
  (forall k, allocated st k -> mode (read_inode st' k) = mode (read_inode st k)) ->
  cwd st' = cwd st ->
  get_path_inode st' path = get_path_inode st path.
Proof.
  intros Hok F M C. unfold get_path_inode. unfold cwd in C. rewrite C.
  destruct (alloc_ok_facts st Hok) as (_ & _ & _ & _ & _ & Ar & Ac & _).
  destruct path as [|c tl]; [reflexivity|].
  destruct (bytes_eqb _ _); [reflexivity|].
  destruct (Ascii.eqb c slash); (destruct (bytes_eqb _ _); [reflexivity|]);
    apply path_walk_ext_allocated; assumption.
Qed.

Lemma NoDup_filter_nth {A} (f : A -> bool) d : forall l i j,
  NoDup (filter f l) -> (i < j)%nat -> (j < length l)%nat ->
  f (nth i l d) = true -> nth i l d <> nth j l d.
Proof.
  induction l as [|a l IH]; intros i j N Hij Hj Hf; [simpl in Hj; lia|].
  destruct j as [|j]; [lia|]. cbn [length] in Hj.
  destruct i as [|i]; cbn [nth] in *.
  - cbn [filter] in N. rewrite Hf in N. inversion N as [|? ? Hn _]; subst.
    intros E. apply Hn. apply filter_In. split; [rewrite E; apply nth_In; lia|exact Hf].
  - apply IH; try lia; auto. cbn [filter] in N. destruct (f a); [|exact N].
    inversion N; assumption.
Qed.

Lemma to_int_small z : 0 <= z < 2147483648 -> to_int z = z.
Proof.
  intros H. unfold to_int, wrap32. rewrite Z.mod_small by lia.
  destruct (Z.ltb_spec z 2147483648); lia.
Qed.

(** X20.  [append] of [n] bytes that fit into the last, partly filled block
    of a file without holes, in a consistent state: the size grows by [n],
    no block is allocated and no pointer changes, and the export gives the
    old contents followed by [n] zero bytes. *)
Theorem append_within_last_block env st path n :
  let i := get_path_inode st path in
  let inode := read_inode st i in
  let s := size inode in
  alloc_ok st = true ->
  i <> -1 -> mode inode = 0 ->
  0 < s <= INODE_DIRECT_POINTERS * BLOCK_SIZE -> s mod BLOCK_SIZE <> 0 ->
  0 < n <= BLOCK_SIZE - s mod BLOCK_SIZE ->
  (forall idx, (idx <= Z.to_nat ((s - 1) / BLOCK_SIZE))%nat ->
               nth idx (direct_blocks inode) UNUSED_BLOCK <> UNUSED_BLOCK) ->
  exists st' old,
    do_append env st path n = Done st'
    /\ size (read_inode st' i) = s + n
    /\ direct_blocks (read_inode st' i) = direct_blocks inode
    /\ inode_bitmap st' = inode_bitmap st
    /\ data_block_bitmap st' = data_block_bitmap st
    /\ snd (do_cp_from_vdisk st path) = Some old
    /\ snd (do_cp_from_vdisk st' path) = Some (old ++ zeros (Z.to_nat n)).
Proof.
  intros i inode s Hok Hi Hm Hs Hmod Hn Hused.
  assert (BS : BLOCK_SIZE = 4096) by reflexivity.
  assert (IP : INODE_DIRECT_POINTERS = 12) by reflexivity.
  rewrite BS, IP in *.
  pose proof (Z.mod_pos_bound s 4096 ltac:(lia)) as Hmb.
  assert (Ai : allocated st i)
    by (apply (get_path_inode_allocated st path i Hok eq_refl Hi)).
  destruct (inode_ok_facts st i (alloc_ok_inode st i Hok Ai)) as (Li & Ui & _).
  fold inode in Li, Ui.
  destruct (alloc_ok_facts st Hok) as (_ & _ & _ & Hdmax & _).
  set (L := (s - 1) / 4096) in *.
  assert (HL : 0 <= L < 12).
  { unfold L. split; [apply Z.div_pos; lia|apply Z.div_lt_upper_bound; lia]. }
  set (b := nth (Z.to_nat L) (direct_blocks inode) UNUSED_BLOCK).
  assert (Hbu : b <> UNUSED_BLOCK) by (apply Hused; lia).
  assert (Hbin : In b (used_pointers inode)).
  { unfold used_pointers. apply filter_In. split.
    - apply nth_In. lia.
    - apply negb_true_iff, Z.eqb_neq. exact Hbu. }
  assert (Hbr : 0 <= b < 2147483648).
  { destruct (Ui b Hbin) as [R _]. unfold MAX_DATA_BLOCKS in Hdmax. lia. }
  assert (Hq : Z.quot (s - 1) 4096 = L) by (apply Z.quot_div_nonneg; lia).
  assert (Hr : Z.rem s 4096 = s mod 4096) by (apply Z.rem_mod_nonneg; lia).
  assert (Hsum : s + n <= 12 * 4096).
  { assert (Hne : s <> 12 * 4096) by (intros E; apply Hmod; rewrite E; reflexivity).
    assert (Hd : s / 4096 < 12) by (apply Z.div_lt_upper_bound; lia).
    pose proof (Z.div_mod s 4096 ltac:(lia)). lia. }
  set (off := s mod 4096) in *.
  set (st1 := write_block st b (zero_range (read_block st b) (Z.to_nat off) (Z.to_nat n))).
  set (inode2 := set_modification_time (set_size inode (s + n)) (now env)).
  set (st' := printf (sync_bitmaps (write_inode st1 i inode2)) (MsgAppended n)).
  assert (Hrun : do_append env st path n = Done st').
  { unfold do_append. fold i. fold inode. fold s.
    destruct (Z.leb_spec n 0); [lia|].
    destruct (Z.eqb_spec i (-1)); [contradiction|].
    rewrite Hm. cbn [Z.eqb negb]. rewrite BS, IP.
    destruct (Z.gtb_spec (s + n) (12 * 4096)); [lia|].
    destruct (Z.gtb_spec s 0); [|lia]. rewrite Hq, Hr. fold off.
    destruct (Z.eqb_spec off 0); [contradiction|]. cbn [andb negb].
    unfold direct_block_at. rewrite IP.
    destruct (Z.leb_spec 0 L); [|lia]. destruct (Z.ltb_spec L 12); [|lia]. cbn [andb].
    rewrite (nth_error_nth' _ UNUSED_BLOCK) by lia. fold b.
    rewrite (to_int_small b Hbr).
    assert (Hbw : (if n <? 4096 - off then n else 4096 - off) = n)
      by (destruct (Z.ltb_spec n (4096 - off)); lia).
    rewrite Hbw, Z.sub_diag. fold st1.
    cbn [append_loop Z.gtb Z.compare]. rewrite !Z.sub_0_r.
    unfold wrap32. rewrite Z.mod_small by lia. reflexivity. }
  assert (RB : forall x, x <> b -> read_block st' x = read_block st x).
  { intros x Hx. change (read_block st' x) with (read_block st1 x).
    unfold st1. rewrite read_write_block.
    destruct (Z.eqb_spec x b); [contradiction|reflexivity]. }
  assert (RBb : read_block st' b
                = zero_range (read_block st b) (Z.to_nat off) (Z.to_nat n)).
  { change (read_block st' b) with (read_block st1 b).
    unfold st1. rewrite read_write_block, Z.eqb_refl. apply fit_id.
    rewrite length_zero_range; rewrite length_read_block; [reflexivity|].
    change BLOCK_BYTES with 4096%nat. lia. }
  assert (RI : forall k, read_inode st' k = if k =? i then inode2 else read_inode st k)
    by (intros k; rewrite <- (read_write_inode st i inode2 k); reflexivity).
  assert (Hpath : get_path_inode st' path = i).
  { apply get_path_inode_ext_allocated; [exact Hok| | |reflexivity].
    - intros d nm Ad. destruct (Z.eq_dec d i) as [->|Hd].
      + unfold find_entry_in_dir. rewrite RI, Z.eqb_refl.
        unfold inode2. cbn [mode set_modification_time set_size].
        fold inode. rewrite Hm. reflexivity.
      + apply find_entry_in_dir_ext.
        * rewrite RI. destruct (Z.eqb_spec d i); [contradiction|reflexivity].
        * intros x Hx. apply RB. intros ->.
          apply (owned_disjoint st d i b Hok Ad Ai Hd Hx). exact Hbin.
    - intros k _. rewrite RI. destruct (Z.eqb_spec k i) as [->|_]; [|reflexivity].
      reflexivity. }
  exists st', (cp_from_loop st (firstn 12 (direct_blocks inode)) s).
  split; [exact Hrun|].
  split; [rewrite RI, Z.eqb_refl; reflexivity|].
  split; [rewrite RI, Z.eqb_refl; reflexivity|].
  split; [reflexivity|]. split; [reflexivity|].
  split.
  { unfold do_cp_from_vdisk. fold i. destruct (Z.eqb_spec i (-1)); [contradiction|].
    fold inode. rewrite Hm. reflexivity. }
  unfold do_cp_from_vdisk. rewrite Hpath.
  destruct (Z.eqb_spec i (-1)); [contradiction|].
  rewrite RI, Z.eqb_refl. unfold inode2 at 1. cbn [mode set_modification_time set_size].
  rewrite Hm. cbn [Z.eqb negb snd]. f_equal.
  unfold inode2. cbn [size direct_blocks set_modification_time set_size].
  rewrite firstn_all2 by lia.
  apply (cp_from_loop_after_tail st st' b n); rewrite ?BS; try lia; auto.
  - fold L. fold b. intros idx Hidx.
    apply (NoDup_filter_nth (fun x => negb (x =? UNUSED_BLOCK)) UNUSED_BLOCK
                            (direct_blocks inode) idx (Z.to_nat L)).
    + apply (owned_nodup st i Hok Ai).
    + exact Hidx.
    + lia.
    + apply negb_true_iff, Z.eqb_neq. apply Hused. lia.
Qed.

(** ** Removal from a directory without holes *)

Lemma clear_de_splice buf j :
  clear_de buf j
  = firstn (DE_BYTES * j) buf ++ zeros DE_BYTES
    ++ skipn (DE_BYTES * j + length (zeros DE_BYTES)) buf.
Proof. rewrite length_zeros. reflexivity. Qed.

Lemma length_clear_de buf j :
  length buf = BLOCK_BYTES -> (j < entries_per_block)%nat ->
  length (clear_de buf j) = BLOCK_BYTES.
Proof.
  intros L Hj. pose proof (de_offsets j Hj).
  rewrite clear_de_splice, length_splice; auto. rewrite length_zeros. lia.
Qed.

Lemma get_de_clear_de_other buf j j' :
  length buf = BLOCK_BYTES -> (j < entries_per_block)%nat ->
  (j' < entries_per_block)%nat -> j <> j' ->
  get_de (clear_de buf j) j' = get_de buf j'.
Proof.
  intros L Hj Hj' Hne. pose proof (de_offsets j Hj) as Ho.
  pose proof (de_offsets j' Hj') as Ho'.
  assert (D : DE_BYTES = 260%nat) by reflexivity.
  assert (N : NAME_BYTES = 256%nat) by reflexivity.
  unfold get_de. rewrite clear_de_splice.
  f_equal.
  - apply slice_of_splice_outside; rewrite ?length_zeros; try lia.
  - f_equal. apply slice_of_splice_outside; rewrite ?length_zeros; try lia.
Qed.

Lemma get_de_clear_de_same buf j :
  length buf = BLOCK_BYTES -> (j < entries_per_block)%nat ->
  live (get_de (clear_de buf j) j) = false.
Proof.
  intros L Hj. pose proof (de_offsets j Hj) as Ho.
  assert (D : DE_BYTES = 260%nat) by reflexivity.
  assert (N : NAME_BYTES = 256%nat) by reflexivity.
  unfold live, get_de. cbn [name]. rewrite clear_de_splice.
  replace (DE_BYTES * j)%nat with (DE_BYTES * j + 0)%nat at 1 by lia.
  rewrite slice_of_splice_inside; rewrite ?length_zeros; try lia.
  reflexivity.
Qed.

Lemma scan_slots_in buf total : forall js found r f,
  scan_slots buf total found js = (r, f) ->
  forall je, In je r ->
    In (fst je) js /\ snd je = get_de buf (fst je) /\ live (snd je) = true.
Proof.
  induction js as [|j js IH]; intros found r f H je Hin; cbn [scan_slots] in H.
  - injection H as <- <-. destruct Hin.
  - destruct (found >=? total); [injection H as <- <-; destruct Hin|].
    cbv zeta in H.
    destruct (live (get_de buf j)) eqn:Lv.
    + destruct (scan_slots buf total (found + 1) js) as [r' f'] eqn:E.
      injection H as <- <-. destruct Hin as [<-|Hin].
      * cbn [fst snd]. split; [left; reflexivity|]. split; [reflexivity|exact Lv].
      * destruct (IH _ _ _ E je Hin) as (I1 & I2 & I3). split; [right; exact I1|]. auto.
    + destruct (IH _ _ _ H je Hin) as (I1 & I2 & I3). split; [right; exact I1|]. auto.
Qed.

(** Where a visited entry sits: pointer index, slot, contents. *)
Lemma scan_blocks_in st total : forall blocks i0 found x,
  In x (scan_blocks st blocks i0 total found) ->
  exists i j,
    x = ((i0 + i)%nat, j, get_de (read_block st (nth i (used_prefix blocks) UNUSED_BLOCK)) j)
    /\ (i < length (used_prefix blocks))%nat /\ (j < entries_per_block)%nat
    /\ live (snd x) = true.
Proof.
  induction blocks as [|b blocks IH]; intros i0 found x Hin;
    cbn [scan_blocks used_prefix] in *; [destruct Hin|].
  destruct (Z.eqb_spec b UNUSED_BLOCK) as [E|E]; cbn [orb] in Hin; [destruct Hin|].
  destruct (found >=? total); [destruct Hin|].
  destruct (scan_slots _ _ _ _) as [r f] eqn:Es.
  apply in_app_or in Hin. destruct Hin as [Hin|Hin].
  - apply in_map_iff in Hin. destruct Hin as (je & <- & Hje).
    destruct (scan_slots_in _ _ _ _ _ _ Es je Hje) as (I1 & I2 & I3).
    exists 0%nat, (fst je). cbn [nth length snd].
    rewrite Nat.add_0_r, <- I2. split; [reflexivity|]. split; [lia|].
    split; [apply in_seq in I1; lia|exact I3].
  - destruct (IH _ _ _ Hin) as (i & j & -> & Hi & Hj & Hl).
    exists (S i), j. cbn [nth length snd] in *.
    replace (i0 + S i)%nat with (S i0 + i)%nat by lia.
    split; [reflexivity|]. split; [lia|]. split; [exact Hj|exact Hl].
Qed.

Lemma forallb_firstn {A} (f : A -> bool) n : forall l,
  forallb f l = true -> forallb f (firstn n l) = true.
Proof.
  induction n as [|n IH]; intros [|x l] H; cbn [firstn forallb] in *; auto.
  apply andb_true_iff in H. destruct H as [H1 H2]. rewrite H1. cbn [andb]. auto.
Qed.

Lemma forallb_skipn {A} (f : A -> bool) n : forall l,
  forallb f l = true -> forallb f (skipn n l) = true.
Proof.
  induction n as [|n IH]; intros [|x l] H; cbn [skipn forallb] in *; auto.
  apply andb_true_iff in H. destruct H as [H1 H2]. auto.
Qed.

(** Two lists that differ in one place, where the second fails [f]. *)
Lemma filter_kill {A} (f : A -> bool) (l l' : list A) q d :
  length l' = length l -> (q < length l)%nat ->
  f (nth q l' d) = false ->
  (forall k, (k < length l)%nat -> k <> q -> nth k l' d = nth k l d) ->
  filter f l' = filter f (firstn q l) ++ filter f (skipn (S q) l).
Proof.
  intros L Hq Hf Hk.
  rewrite (list_split_at l l' q (nth q l' d) d); try lia; auto.
  - rewrite filter_app. cbn [filter]. rewrite Hf. f_equal. f_equal.
    apply (nth_ext _ _ d d).
    + rewrite !length_skipn. lia.
    + intros k Hlt. rewrite length_skipn in Hlt. rewrite !nth_skipn.
      apply Hk; lia.
  - intros k Hlt. apply Hk; lia.
Qed.

Lemma filter_nil_find {A} (f : A -> bool) l : filter f l = [] -> find f l = None.
Proof.
  induction l as [|x l IH]; cbn [filter find]; auto.
  destruct (f x); [discriminate|exact IH].
Qed.

Lemma find_remove_other {A} (f : A -> bool) a x b :
  f x = false -> find f (a ++ b) = find f (a ++ x :: b).
Proof.
  intros H. induction a as [|y a IH]; cbn [app find]; [rewrite H; reflexivity|].
  destruct (f y); auto.
Qed.

(** What a walk sees after [do_rm_entry] and the size update of its
    callers: the entries it saw before, without the one cleared. *)
Lemma rm_entry_visible st d nm st' inode' :
  packed st (read_inode st d) = true ->
  length (direct_blocks (read_inode st d)) = 12%nat ->
  NoDup (used_pointers (read_inode st d)) ->
  find (fun e => strcmp_eq (name e) nm) (visible st (read_inode st d)) <> None ->
  direct_blocks inode' = direct_blocks (read_inode st d) ->
  size inode' = size (read_inode st d) - sizeof_DirectoryEntry ->
  (forall b, read_block st' b = read_block (do_rm_entry st d nm) b) ->
  exists a x b,
    visible st (read_inode st d) = a ++ x :: b
    /\ strcmp_eq (name x) nm = true
    /\ visible st' inode' = a ++ b.
Proof.
  intros Hpacked Hlen Hnodup Hfind Hdb Hsz Hrd.
  set (inode := read_inode st d) in *.
  set (bs := direct_blocks inode) in *.
  set (prefix := used_prefix (firstn 12 bs)).
  set (t := Z.to_nat (size inode / sizeof_DirectoryEntry)).
  set (slots := dir_slots st inode).
  assert (E15 : entries_per_block = 15%nat) by reflexivity.
  assert (S260 : sizeof_DirectoryEntry = 260) by reflexivity.
  destruct (find (fun x => strcmp_eq (name (snd x)) nm) (dir_entries st inode))
    as [[[i j] e]|] eqn:F.
  2:{ exfalso. apply Hfind. unfold visible.
      rewrite <- (find_snd (fun e => strcmp_eq (name e) nm)). rewrite F. reflexivity. }
  destruct (find_some _ _ F) as [Hin Hm]. cbn [snd] in Hm.
  unfold dir_entries in Hin.
  destruct (scan_blocks_in _ _ _ _ _ _ Hin) as (i' & j' & Hx & Hi & Hj & Hl).
  cbn [snd] in Hl.
  pose proof (f_equal (fun x => fst (fst x)) Hx) as Ei.
  pose proof (f_equal (fun x => snd (fst x)) Hx) as Ej.
  pose proof (f_equal snd Hx) as He. clear Hx.
  cbn [fst snd] in Ei, Ej, He. change (0 + i')%nat with i' in Ei. subst i' j'.
  fold bs prefix in Hi, He.
  destruct (ins_prefix_used st d Hlen i Hi) as [P1 P2]. fold inode bs prefix in P1, P2.
  set (bI := nth i bs UNUSED_BLOCK) in *.
  set (q := (entries_per_block * i + j)%nat).
  assert (Hq : (q < t)%nat).
  { destruct (Nat.lt_ge_cases q t) as [|Hge]; [assumption|]. exfalso.
    pose proof (ins_slot_dead st d e Hpacked Hlen i j Hi Hj Hge) as Hd.
    fold inode bs bI in Hd. rewrite <- P1, <- He in Hd. congruence. }
  destruct (packed_facts _ _ Hpacked) as (Z1 & Z2 & Z3 & Z4).
  fold t slots in Z1, Z2, Z3, Z4.
  assert (Hst1 : do_rm_entry st d nm = write_block st bI (clear_de (read_block st bI) j)).
  { unfold do_rm_entry. fold inode. rewrite F. reflexivity. }
  assert (Lslots : length slots = (entries_per_block * length prefix)%nat)
    by apply length_dir_slots.
  set (slots' := dir_slots st' inode').
  assert (Pre' : used_prefix (firstn 12 (direct_blocks inode')) = prefix).
  { rewrite Hdb. reflexivity. }
  assert (Lslots' : length slots' = length slots).
  { unfold slots'. rewrite length_dir_slots, Pre'. lia. }
  pose proof (ins_nodup_prefix st d Hlen Hnodup) as ND. fold inode bs prefix in ND.
  assert (Hnth' : forall i1 j1, (i1 < length prefix)%nat -> (j1 < entries_per_block)%nat ->
            nth (entries_per_block * i1 + j1) slots' e
            = get_de (read_block (do_rm_entry st d nm) (nth i1 prefix UNUSED_BLOCK)) j1).
  { intros i1 j1 H1 H2. unfold slots'. rewrite nth_dir_slots; rewrite ?Pre'; auto.
    rewrite Hrd. reflexivity. }
  assert (Hnth : forall i1 j1, (i1 < length prefix)%nat -> (j1 < entries_per_block)%nat ->
            nth (entries_per_block * i1 + j1) slots e
            = get_de (read_block st (nth i1 prefix UNUSED_BLOCK)) j1).
  { intros i1 j1 H1 H2. apply nth_dir_slots; assumption. }
  assert (Hkill : filter live slots'
                  = filter live (firstn q slots) ++ filter live (skipn (S q) slots)).
  { apply (filter_kill live slots slots' q e); [exact Lslots'|lia| |].
    - unfold q. rewrite Hnth' by assumption. rewrite P1, Hst1, read_write_block.
      fold bI. rewrite Z.eqb_refl.
      rewrite fit_id by (apply length_clear_de; [apply length_read_block|assumption]).
      apply get_de_clear_de_same; [apply length_read_block|assumption].
    - intros k Hk Hne. rewrite Lslots in Hk.
      pose proof (Nat.div_mod_eq k entries_per_block) as Dk.
      assert (Hj1 : (k mod entries_per_block < entries_per_block)%nat)
        by (apply Nat.mod_upper_bound; lia).
      assert (Hi1 : (k / entries_per_block < length prefix)%nat)
        by (apply Nat.Div0.div_lt_upper_bound; lia).
      rewrite Dk. rewrite Hnth', Hnth by assumption.
      rewrite Hst1, read_write_block.
      destruct (Z.eqb_spec (nth (k / entries_per_block) prefix UNUSED_BLOCK) bI) as [Eb|Eb];
        [|reflexivity].
      assert (Ei : (k / entries_per_block)%nat = i).
      { apply (proj1 (NoDup_nth prefix UNUSED_BLOCK) ND); try assumption.
        rewrite Eb, P1. reflexivity. }
      rewrite fit_id by (apply length_clear_de; [apply length_read_block|assumption]).
      rewrite Eb. apply get_de_clear_de_other;
        [apply length_read_block|assumption|assumption|].
      intros Ej. apply Hne. unfold q. rewrite Dk, Ei, <- Ej. reflexivity. }
  set (V := firstn t slots) in *.
  assert (LV : length V = t) by (unfold V; rewrite length_firstn; lia).
  assert (Sl : slots = V ++ skipn t slots) by (unfold V; rewrite firstn_skipn; reflexivity).
  assert (F1 : firstn q slots = firstn q V).
  { unfold V. rewrite firstn_firstn. f_equal. lia. }
  assert (F2 : skipn (S q) slots = skipn (S q) V ++ skipn t slots).
  { rewrite Sl at 1. rewrite skipn_app. f_equal.
    rewrite LV. replace (S q - t)%nat with 0%nat by lia. reflexivity. }
  rewrite F1, F2, filter_app in Hkill.
  rewrite (filter_all _ _ (forallb_firstn live q V Z3)) in Hkill.
  rewrite (filter_all _ _ (forallb_skipn live (S q) V Z3)) in Hkill.
  rewrite (filter_none _ _ Z4), app_nil_r in Hkill.
  exists (firstn q V), e, (skipn (S q) V).
  assert (Vis : visible st inode = V) by (apply visible_packed; exact Hpacked).
  split; [|split].
  - rewrite Vis. rewrite <- (firstn_skipn q V) at 1. f_equal.
    rewrite (skipn_nth_cons V q e) by lia. f_equal.
    unfold V. rewrite nth_firstn.
    destruct (Nat.ltb_spec q t) as [_|]; [|lia].
    unfold q. rewrite Hnth by assumption. symmetry. exact He.
  - exact Hm.
  - rewrite visible_spec. fold slots'. rewrite Hkill.
    assert (T' : Z.to_nat (size inode' / sizeof_DirectoryEntry) = (t - 1)%nat).
    { rewrite Hsz, Z1, S260.
      replace (260 * Z.of_nat t - 260) with (Z.of_nat (t - 1) * 260) by lia.
      rewrite Z.div_mul by lia. lia. }
    rewrite T'.
    apply firstn_all2. rewrite length_app, length_firstn, length_skipn, LV. lia.
Qed.

Lemma do_rm_disk st3 (c : Z) blocks (last : bool) m :
  let st4 := if last then free_inode (free_used_blocks st3 blocks) c else st3 in
  (forall k, read_inode (printf (sync_bitmaps st4) m) k = read_inode st3 k)
  /\ (forall b, read_block (printf (sync_bitmaps st4) m) b = read_block st3 b).
Proof.
  cbv zeta. unfold read_inode, read_block.
  cbn [printf sync_bitmaps with_disk virtual_disk dk_inodes dk_data].
  destruct last; [|split; reflexivity].
  cbn [free_inode with_inode_bitmap virtual_disk].
  destruct (free_used_blocks_frame blocks st3) as [-> _]. split; reflexivity.
Qed.

(** X25.  [rm] of a name that resolves to a file, in a directory without
    holes: the directory shrinks by one entry, every other name looks up as
    before, and the removed name is gone unless a second entry carries it. *)
Theorem rm_then_lookup st path :
  let p := get_path_inode st (dirname path) in
  let c := find_entry_in_dir st p (basename path) in
  let st' := do_rm st path in
  p <> -1 -> c <> -1 -> mode (read_inode st c) <> 1 ->
  packed st (read_inode st p) = true ->
  length (direct_blocks (read_inode st p)) = 12%nat ->
  nodupb (used_pointers (read_inode st p)) = true ->
  size (read_inode st' p) = size (read_inode st p) - sizeof_DirectoryEntry
  /\ (forall nm, strcmp_eq (basename path) nm = false ->
        find_entry_in_dir st' p nm = find_entry_in_dir st p nm)
  /\ (length (filter (fun e => strcmp_eq (name e) (basename path))
                     (visible st (read_inode st p))) = 1%nat ->
      find_entry_in_dir st' p (basename path) = -1).
Proof.
  intros p c st' Hp Hc Hm Hpacked Hlen Hnodupb.
  pose proof (nodupb_NoDup _ Hnodupb) as Hnodup.
  assert (S260 : sizeof_DirectoryEntry = 260) by reflexivity.
  assert (E15 : entries_per_block = 15%nat) by reflexivity.
  assert (Mp : mode (read_inode st p) = 1).
  { unfold c in Hc. rewrite find_entry_in_dir_lookup in Hc.
    destruct (Z.eqb_spec (mode (read_inode st p)) 1) as [E|E]; [exact E|].
    cbn [negb] in Hc. contradiction. }
  assert (Hcp : c <> p) by (intros E; rewrite E in Hm; contradiction).
  assert (Hfind : find (fun e => strcmp_eq (name e) (basename path))
                       (visible st (read_inode st p)) <> None).
  { unfold c in Hc. rewrite find_entry_in_dir_lookup, Mp in Hc. cbn [Z.eqb Pos.eqb negb] in Hc.
    unfold lookup_in in Hc. destruct (find _ _); [discriminate|contradiction]. }
  (* the size stays a 32-bit value *)
  pose proof (ins_size st p Hpacked) as Z1.
  pose proof (ins_t_le st p Hpacked) as Z2.
  pose proof (ins_prefix_le st p Hlen) as Z3.
  set (t := Z.to_nat (size (read_inode st p) / sizeof_DirectoryEntry)) in *.
  assert (Ht : (1 <= t)%nat).
  { destruct (Nat.eq_dec t 0) as [E0|]; [|lia]. exfalso. apply Hfind.
    rewrite visible_spec. fold t. rewrite E0. reflexivity. }
  assert (W : wrap32 (size (read_inode st p) - sizeof_DirectoryEntry)
              = size (read_inode st p) - sizeof_DirectoryEntry).
  { unfold wrap32. apply Z.mod_small. rewrite Z1, S260. lia. }
  (* the state after the command *)
  destruct (do_rm_entry_bitmaps st p (basename path)) as (_ & _ & R1).
  assert (St : exists (last : bool) blocks m,
            st' = printf (sync_bitmaps
                    (if last
                     then free_inode
                            (free_used_blocks
                               (write_inode
                                  (write_inode (do_rm_entry st p (basename path)) p
                                     (set_size (read_inode st p)
                                        (size (read_inode st p) - sizeof_DirectoryEntry)))
                                  c (set_link_count (read_inode st c)
                                       (wrap32 (link_count (read_inode st c) - 1))))
                               blocks) c
                     else write_inode
                            (write_inode (do_rm_entry st p (basename path)) p
                               (set_size (read_inode st p)
                                  (size (read_inode st p) - sizeof_DirectoryEntry)))
                            c (set_link_count (read_inode st c)
                                 (wrap32 (link_count (read_inode st c) - 1)))))
                   m).
  { unfold st', do_rm. fold p. fold c.
    destruct (Z.eqb_spec p (-1)) as [E|_]; [contradiction|].
    destruct (Z.eqb_spec c (-1)) as [E|_]; [contradiction|].
    destruct (Z.eqb_spec (mode (read_inode st c)) 1) as [E|_]; [contradiction|].
    cbv zeta. rewrite R1, W.
    do 3 eexists. reflexivity. }
  destruct St as (last & blocks & m & St).
  match type of St with
  | _ = printf (sync_bitmaps (if _ then free_inode (free_used_blocks ?s _) _ else _)) _ =>
    destruct (do_rm_disk s c blocks last m) as [RI RB]; set (st3 := s) in *
  end.
  cbv zeta in RI, RB. rewrite <- St in RI, RB.
  assert (Ip : read_inode st' p
               = set_size (read_inode st p) (size (read_inode st p) - sizeof_DirectoryEntry)).
  { rewrite RI. unfold st3. rewrite !read_write_inode.
    destruct (Z.eqb_spec p c) as [E|_]; [congruence|]. rewrite Z.eqb_refl. reflexivity. }
  assert (Bp : forall b, read_block st' b = read_block (do_rm_entry st p (basename path)) b).
  { intros b. rewrite RB. reflexivity. }
  destruct (rm_entry_visible st p (basename path) st' (read_inode st' p)
              Hpacked Hlen Hnodup Hfind) as (a & x & b & V & Mx & V').
  { rewrite Ip. reflexivity. }
  { rewrite Ip. reflexivity. }
  { exact Bp. }
  assert (Mp' : mode (read_inode st' p) = 1) by (rewrite Ip; exact Mp).
  split; [rewrite Ip; reflexivity|]. split.
  - intros nm Hne. rewrite (find_entry_in_dir_lookup st'), (find_entry_in_dir_lookup st).
    rewrite Mp, Mp'. cbn [Z.eqb Pos.eqb negb]. unfold lookup_in. rewrite V, V'.
    rewrite (find_remove_other (fun e => strcmp_eq (name e) nm) a x b); [reflexivity|].
    unfold strcmp_eq in *. apply bytes_eqb_eq in Mx. rewrite Mx. exact Hne.
  - intros Hone. rewrite (find_entry_in_dir_lookup st'), Mp'. cbn [Z.eqb Pos.eqb negb].
    unfold lookup_in. rewrite V'. rewrite V in Hone.
    rewrite filter_app in Hone. cbn [filter] in Hone. rewrite Mx in Hone.
    rewrite length_app in Hone. cbn [length] in Hone.
    rewrite filter_nil_find; [reflexivity|].
    rewrite filter_app.
    destruct (filter _ a); [|cbn [length] in Hone; lia].
    destruct (filter _ b); [reflexivity|cbn [length] in Hone; lia].
Qed.

(** X26.  A successful [rmdir] below a parent directory without holes: the
    parent loses one entry and one link, every other name in it looks up
    as before, and the removed name is gone unless a second entry carries
    it. *)
Theorem rmdir_then_lookup st path :
  let i := get_path_inode st path in
  let p := get_path_inode st (dirname path) in
  let st' := do_rmdir st path in
  path <> str "/" -> i <> -1 -> mode (read_inode st i) = 1 ->
  Z.of_nat (length (dir_entries st (read_inode st i))) <= 2 ->
  find_entry_in_dir st p (basename path) <> -1 ->
  packed st (read_inode st p) = true ->
  length (direct_blocks (read_inode st p)) = 12%nat ->
  nodupb (used_pointers (read_inode st p)) = true ->
  size (read_inode st' p) = size (read_inode st p) - sizeof_DirectoryEntry
  /\ link_count (read_inode st' p) = wrap32 (link_count (read_inode st p) - 1)
  /\ (forall nm, strcmp_eq (basename path) nm = false ->
        find_entry_in_dir st' p nm = find_entry_in_dir st p nm)
  /\ (length (filter (fun e => strcmp_eq (name e) (basename path))
                     (visible st (read_inode st p))) = 1%nat ->
      find_entry_in_dir st' p (basename path) = -1).
Proof.
  intros i p st' Hroot Hi Hm Hk Hc Hpacked Hlen Hnodupb.
  pose proof (nodupb_NoDup _ Hnodupb) as Hnodup.
  assert (S260 : sizeof_DirectoryEntry = 260) by reflexivity.
  assert (E15 : entries_per_block = 15%nat) by reflexivity.
  assert (Mp : mode (read_inode st p) = 1).
  { rewrite find_entry_in_dir_lookup in Hc.
    destruct (Z.eqb_spec (mode (read_inode st p)) 1) as [E|E]; [exact E|].
    cbn [negb] in Hc. contradiction. }
  assert (Hfind : find (fun e => strcmp_eq (name e) (basename path))
                       (visible st (read_inode st p)) <> None).
  { rewrite find_entry_in_dir_lookup, Mp in Hc. cbn [Z.eqb Pos.eqb negb] in Hc.
    unfold lookup_in in Hc. destruct (find _ _); [discriminate|contradiction]. }
  pose proof (ins_size st p Hpacked) as Z1.
  pose proof (ins_t_le st p Hpacked) as Z2.
  pose proof (ins_prefix_le st p Hlen) as Z3.
  set (t := Z.to_nat (size (read_inode st p) / sizeof_DirectoryEntry)) in *.
  assert (Ht : (1 <= t)%nat).
  { destruct (Nat.eq_dec t 0) as [E0|]; [|lia]. exfalso. apply Hfind.
    rewrite visible_spec. fold t. rewrite E0. reflexivity. }
  assert (W : wrap32 (size (read_inode st p) - sizeof_DirectoryEntry)
              = size (read_inode st p) - sizeof_DirectoryEntry).
  { unfold wrap32. apply Z.mod_small. rewrite Z1, S260. lia. }
  destruct (do_rm_entry_bitmaps st p (basename path)) as (_ & _ & R1).
  assert (E1 : bytes_eqb path (str "/") = false).
  { destruct (bytes_eqb path (str "/")) eqn:E; [|reflexivity].
    apply bytes_eqb_eq in E. contradiction. }
  assert (Ip : read_inode st' p
               = set_link_count
                   (set_size (read_inode st p)
                             (size (read_inode st p) - sizeof_DirectoryEntry))
                   (wrap32 (link_count (read_inode st p) - 1))).
  { unfold st', do_rmdir. rewrite E1. fold i.
    destruct (Z.eqb_spec i (-1)) as [|_]; [contradiction|].
    rewrite Hm. cbn [Z.eqb Pos.eqb negb].
    destruct (Z.gtb_spec (Z.of_nat (length (dir_entries st (read_inode st i)))) 2); [lia|].
    cbv zeta. fold p. rewrite R1, W.
    destruct (nth 0 (direct_blocks (read_inode st i)) UNUSED_BLOCK =? UNUSED_BLOCK);
      cbn [read_inode printf sync_bitmaps with_disk virtual_disk dk_inodes free_inode
           with_inode_bitmap free_data_block with_data_bitmap write_inode];
      rewrite Z.eqb_refl; reflexivity. }
  assert (Bp : forall b, read_block st' b = read_block (do_rm_entry st p (basename path)) b).
  { intros b. unfold st', do_rmdir. rewrite E1. fold i.
    destruct (Z.eqb_spec i (-1)) as [|_]; [contradiction|].
    rewrite Hm. cbn [Z.eqb Pos.eqb negb].
    destruct (Z.gtb_spec (Z.of_nat (length (dir_entries st (read_inode st i)))) 2); [lia|].
    cbv zeta. fold p.
    destruct (nth 0 (direct_blocks (read_inode st i)) UNUSED_BLOCK =? UNUSED_BLOCK);
      reflexivity. }
  destruct (rm_entry_visible st p (basename path) st' (read_inode st' p)
              Hpacked Hlen Hnodup Hfind) as (a & x & b & V & Mx & V').
  { rewrite Ip. reflexivity. }
  { rewrite Ip. reflexivity. }
  { exact Bp. }
  assert (Mp' : mode (read_inode st' p) = 1) by (rewrite Ip; exact Mp).
  split; [rewrite Ip; reflexivity|]. split; [rewrite Ip; reflexivity|]. split.
  - intros nm Hne. rewrite (find_entry_in_dir_lookup st'), (find_entry_in_dir_lookup st).
    rewrite Mp, Mp'. cbn [Z.eqb Pos.eqb negb]. unfold lookup_in. rewrite V, V'.
    rewrite (find_remove_other (fun e => strcmp_eq (name e) nm) a x b); [reflexivity|].
    unfold strcmp_eq in *. apply bytes_eqb_eq in Mx. rewrite Mx. exact Hne.
  - intros Hone. rewrite (find_entry_in_dir_lookup st'), Mp'. cbn [Z.eqb Pos.eqb negb].
    unfold lookup_in. rewrite V'. rewrite V in Hone.
    rewrite filter_app in Hone. cbn [filter] in Hone. rewrite Mx in Hone.
    rewrite length_app in Hone. cbn [length] in Hone.
    rewrite filter_nil_find; [reflexivity|].
    rewrite filter_app.
    destruct (filter _ a); [|cbn [length] in Hone; lia].
    destruct (filter _ b); [reflexivity|cbn [length] in Hone; lia].
Qed.

(** ** The name of an inode *)

Lemma find_after_clean {A} (f : A -> bool) a x b :
  filter f a = [] -> f x = true -> find f (a ++ x :: b) = Some x.
Proof.
  intros Ha Hx. induction a as [|y a IH]; cbn [app find filter] in *.
  - rewrite Hx. reflexivity.
  - destruct (f y); [discriminate|]. apply IH. exact Ha.
Qed.

Lemma find_pointwise {A} (f g : A -> bool) l :
  (forall x, f x = g x) -> find f l = find g l.
Proof.
  intros E. induction l as [|x l IH]; cbn [find]; [reflexivity|].
  rewrite E, IH. reflexivity.
Qed.

Lemma strcmp_eq_refl s : strcmp_eq s s = true.
Proof. apply bytes_eqb_refl. Qed.

(** X27.  In a directory no two visible entries of which carry the same
    name, the name [find_name_for_inode] reports for an inode is neither
    [.] nor [..], and [find_entry_in_dir] on that name gives the inode
    back. *)
Theorem find_name_then_find_entry st p c nm :
  forallb (fun e => (length (filter (fun e' => strcmp_eq (name e') (name e))
                                    (visible st (read_inode st p))) =? 1)%nat)
          (visible st (read_inode st p)) = true ->
  0 <= c < 2147483648 ->
  find_name_for_inode st p c = Some nm ->
  find_entry_in_dir st p nm = c /\ nm <> str "." /\ nm <> str "..".
Proof.
  intros Huniq Hc H.
  unfold find_name_for_inode in H.
  rewrite find_entry_in_dir_lookup.
  destruct (negb (mode (read_inode st p) =? 1)); [discriminate|].
  destruct (find _ (dir_entries st (read_inode st p))) as [[[i j] e]|] eqn:F; [|discriminate].
  injection H as <-.
  destruct (find_some _ _ F) as [Hin Hp]. cbn [snd] in Hp.
  apply andb_true_iff in Hp. destruct Hp as [Hp Hdd].
  apply andb_true_iff in Hp. destruct Hp as [Hn Hd].
  apply Z.eqb_eq in Hn. apply negb_true_iff in Hd, Hdd.
  assert (Hv : In e (visible st (read_inode st p))).
  { unfold visible. apply in_map_iff. exists (i, j, e). split; [reflexivity|exact Hin]. }
  destruct (in_split _ _ Hv) as (a & b & V).
  rewrite forallb_forall in Huniq. pose proof (Huniq e Hv) as U.
  apply Nat.eqb_eq in U. rewrite V in U.
  rewrite filter_app in U. cbn [filter] in U. rewrite strcmp_eq_refl in U.
  rewrite length_app in U. cbn [length] in U.
  assert (Ha : filter (fun e' => strcmp_eq (name e') (name e)) a = []).
  { destruct (filter _ a); [reflexivity|cbn [length] in U; lia]. }
  split; [|split].
  - unfold lookup_in. rewrite V.
    assert (Ef : forall e', strcmp_eq (name e') (cstr (name e))
                            = strcmp_eq (name e') (name e)).
    { intros e'. unfold strcmp_eq. rewrite cstr_idem. reflexivity. }
    rewrite (find_pointwise _ _ _ Ef).
    rewrite (find_after_clean _ a e b Ha (strcmp_eq_refl _)).
    rewrite Hn. apply to_int_wrap32_small. exact Hc.
  - intros E. unfold strcmp_eq in Hd. rewrite E in Hd.
    change (cstr (str ".")) with (str ".") in Hd. rewrite bytes_eqb_refl in Hd. discriminate.
  - intros E. unfold strcmp_eq in Hdd. rewrite E in Hdd.
    change (cstr (str "..")) with (str "..") in Hdd. rewrite bytes_eqb_refl in Hdd.
    discriminate.
Qed.

(** ** Evaluations of the code on concrete command sequences *)

(** C1 (size law for directories).  [mkdir /a; mkdir /b; rmdir /a; mkdir /c]
    on a fresh 1 MiB image: [add_entry_to_dir] puts [c] into the slot [a]
    left behind, which lies below the high-water mark, so the size is not
    grown although a live entry was added.  The root then has four live
    slots and [size / sizeof(DirectoryEntry) = 3], and the walk bounded by
    that count no longer finds [b]. *)
Theorem size_law_fails_after_tombstone_reuse :
  match run env0 (fresh env0 MiB) tombstone_reuse with
  | Done st =>
    get_bit (inode_bitmap st) ROOT_INODE_NUM = true
    /\ mode (read_inode st ROOT_INODE_NUM) = 1
    /\ size (read_inode st ROOT_INODE_NUM) / sizeof_DirectoryEntry = 3
    /\ live_slots st (read_inode st ROOT_INODE_NUM) = 4%nat
    /\ ~ size_law st ROOT_INODE_NUM
    /\ find_entry_in_dir st ROOT_INODE_NUM (str "b") = -1
    /\ find_entry_in_dir st ROOT_INODE_NUM (str "c") = 1
  | OutOfBounds _ => False
  end.
Proof.
  vm_compute. repeat split; try reflexivity. discriminate.
Qed.

(** C2 (atomicity of mkdir on failure).  On an image with fifteen data
    blocks whose root block is full, [mkdir /x] takes inode 14 and the last
    free data block, and the insertion into the root then fails for want of
    a block.  Nothing is rolled back: both bitmaps and the inode table have
    changed, and no entry [x] exists. *)
Theorem mkdir_insert_failure_is_not_rolled_back :
  match run env0 (fresh env0 small_image) thirteen_dirs with
  | Done st =>
    let st' := do_mkdir env0 st (str "/x") in
    free_inodes st = 498 /\ free_data_blocks st = 1
    /\ stdout st' = stdout st ++ [ErrOutOfDataBlocks; MsgDirectoryCreated]
    /\ find_entry_in_dir st' ROOT_INODE_NUM (str "x") = -1
    /\ get_bit (inode_bitmap st) 14 = false
    /\ get_bit (inode_bitmap st') 14 = true
    /\ get_bit (data_block_bitmap st) 14 = false
    /\ get_bit (data_block_bitmap st') 14 = true
    /\ mode (read_inode st 14) = 0
    /\ mode (read_inode st' 14) = 1
    /\ link_count (read_inode st' ROOT_INODE_NUM)
       = link_count (read_inode st ROOT_INODE_NUM) + 1
  | OutOfBounds _ => False
  end.
Proof.
  vm_compute. repeat split; reflexivity.
Qed.

(** C3 (bitmap consistency).  After importing a file of exactly one block
    and appending one byte, [do_append] has stored the new block in the
    pointer that held the old one: data block 1 keeps its bit and no
    allocated inode lists it. *)
Theorem append_leaks_a_data_block :
  match run env0 (fresh env0 MiB) append_after_full_block with
  | Done st =>
    get_bit (data_block_bitmap st) 1 = true
    /\ listed_by_allocated_inode st 1 = false
    /\ ~ bitmap_consistent st
  | OutOfBounds _ => False
  end.
Proof.
  assert (F : match run env0 (fresh env0 MiB) append_after_full_block with
              | Done st => num_data_blocks (sb st) = 243
                           /\ get_bit (data_block_bitmap st) 1 = true
                           /\ listed_by_allocated_inode st 1 = false
              | OutOfBounds _ => False
              end) by (vm_compute; auto).
  destruct (run env0 (fresh env0 MiB) append_after_full_block) as [st|]; [|exact F].
  destruct F as (Hn & Hb & Hl). repeat split; trivial.
  intros (_ & H & _). specialize (H 1). rewrite Hn, Hl in H.
  assert (false = true) by (apply H; [lia | exact Hb]). discriminate.
Qed.

(** [do_rmdir] frees [direct_blocks[0]] only: the second block of a
    directory that once held more than fifteen entries stays allocated. *)
Lemma rmdir_leaks_the_second_block :
  match run env0 (fresh env0 MiB) grow_and_remove with
  | Done st =>
    allocated_inodes st = [0]
    /\ get_bit (data_block_bitmap st) 16 = true
    /\ listed_by_allocated_inode st 16 = false
  | OutOfBounds _ => False
  end.
Proof.
  vm_compute. repeat split; reflexivity.
Qed.

(** A directory whose entry was hidden by the defect of C1 survives the
    removal of its parent: its inode keeps its bit and cannot be reached. *)
Lemma hidden_directory_is_orphaned :
  match run env0 (fresh env0 MiB) hide_then_remove_parent with
  | Done st =>
    allocated_inodes st = [0; 3]
    /\ reachable_from_root st 3 = false
  | OutOfBounds _ => False
  end.
Proof.
  vm_compute. repeat split; reflexivity.
Qed.

(** [rmdir /a/.] removes the entry [.] of [/a] itself and frees inode 1,
    which the root still names. *)
Lemma rmdir_dot_leaves_a_dangling_entry :
  match run env0 (fresh env0 MiB) [Mkdir (str "/a"); Rmdir (str "/a/.")] with
  | Done st =>
    find_entry_in_dir st ROOT_INODE_NUM (str "a") = 1
    /\ get_bit (inode_bitmap st) 1 = false
  | OutOfBounds _ => False
  end.
Proof.
  vm_compute. repeat split; reflexivity.
Qed.

(** C5 (append contract).  A file of exactly 4096 bytes of ['A'], one byte
    appended: the size becomes 4097, but the pointer of the full block was
    overwritten with the fresh zero block, so the export yields 4096 zero
    bytes: the old contents are gone and the file reads one byte short. *)
Theorem append_after_full_block_loses_the_block :
  match run env0 (fresh env0 MiB) append_after_full_block with
  | Done st =>
    size (read_inode st 1) = 4096 + 1
    /\ nth 0 (direct_blocks (read_inode st 1)) UNUSED_BLOCK = 2
    /\ nth 1 (direct_blocks (read_inode st 1)) UNUSED_BLOCK = UNUSED_BLOCK
    /\ snd (do_cp_from_vdisk st (str "/f")) = Some (zeros BLOCK_BYTES)
    /\ snd (do_cp_from_vdisk st (str "/f")) <> Some (block_of_A ++ [NUL])
  | OutOfBounds _ => False
  end.
Proof.
  vm_compute. repeat split; try reflexivity. discriminate.
Qed.

(** C9 (indices of append).  Appending to an empty file stores the first new
    block at index [-1] of [direct_blocks]. *)
Theorem append_to_empty_file_indexes_minus_one :
  run env0 (fresh env0 MiB) append_to_empty_file = OutOfBounds (-1).
Proof.
  vm_compute. reflexivity.
Qed.

(** C8 (idempotent mkfs).  Two runs with the same size and even the same
    clock: the name bytes after the terminators of [.] and [..] are
    whatever the automatic array [entries] held, and they reach the root
    directory block. *)
Theorem mkfs_writes_uninitialised_name_bytes :
  let d1 := do_mkfs (mkEnv 1700000000 (stack_of NUL)) MiB in
  let d2 := do_mkfs (mkEnv 1700000000 (stack_of "A"%char)) MiB in
  dk_inodes d1 ROOT_INODE_NUM = dk_inodes d2 ROOT_INODE_NUM
  /\ nth 2 (dk_data d1 0) NUL = NUL
  /\ nth 2 (dk_data d2 0) NUL = "A"%char
  /\ dk_data d1 0 <> dk_data d2 0.
Proof.
  vm_compute. repeat split; try reflexivity. discriminate.
Qed.

(** ** Counterexamples to the claims that are amended below *)

(** C10.  [mkdir /a; cd /a; rmdir /a]: [do_rmdir] has no check against the
    CWD, so the CWD inode is freed under the session. *)
Lemma rmdir_frees_the_cwd :
  match run env0 (fresh env0 MiB) rmdir_of_cwd with
  | Done st =>
    cwd st = 1
    /\ get_bit (inode_bitmap st) (cwd st) = false
    /\ ~ cwd_valid st
  | OutOfBounds _ => False
  end.
Proof.
  vm_compute. repeat split; try reflexivity. intros [H _]. discriminate H.
Qed.



(** ** Instances of the general theorems *)

Lemma truncate_contract_witness :
  0 < 4097
  /\ get_path_inode two_block_state (str "/big") <> -1
  /\ mode (read_inode two_block_state (get_path_inode two_block_state (str "/big"))) = 0
  /\ size (read_inode (do_truncate env0 two_block_state (str "/big") 4097)
                      (get_path_inode two_block_state (str "/big")))
     = Z.max 0 (size (read_inode two_block_state
                                 (get_path_inode two_block_state (str "/big"))) - 4097).
Proof.
  assert (H1 : 0 < 4097) by lia.
  assert (H2 : get_path_inode two_block_state (str "/big") <> -1)
    by (vm_compute; discriminate).
  assert (H3 : mode (read_inode two_block_state
                                (get_path_inode two_block_state (str "/big"))) = 0)
    by (vm_compute; reflexivity).
  split; [exact H1|]. split; [exact H2|]. split; [exact H3|].
  exact (proj1 (truncate_contract env0 two_block_state (str "/big") 4097 H1 H2 H3)).
Defined.

Lemma cwd_stays_valid_witness :
  cwd_valid two_levels_state
  /\ cwd (do_mkdir env0 two_levels_state (str "/c")) = cwd two_levels_state
  /\ cwd_valid (do_mkdir env0 two_levels_state (str "/c")).
Proof.
  assert (V : cwd_valid two_levels_state) by (vm_compute; auto).
  assert (I : inode_in_block (fst (alloc_inode two_levels_state)) = true)
    by (vm_compute; reflexivity).
  split; [exact V|].
  exact (cwd_stays_valid env0 two_levels_state (Mkdir (str "/c")) _ V eq_refl
           (fun _ => I) (fun p H => ltac:(discriminate H))).
Defined.



(** ** Instances of the further properties *)

Lemma bitmap_write_then_read_witness :
  get_bit (set_bit (zeros 4) 10) 10 = true
  /\ get_bit (clear_bit (zeros 4) 10) 10 = false.
Proof.
  assert (H1 : 0 <= 10) by lia.
  assert (H2 : (Z.to_nat (10 / 8) < length (zeros 4))%nat) by (vm_compute; lia).
  exact (bitmap_write_then_read (zeros 4) 10 10 H1 H2).
Defined.

Lemma alloc_data_block_takes_lowest_free_witness :
  0 <= fst (alloc_data_block two_levels_state)
  < num_data_blocks (sb two_levels_state).
Proof.
  assert (H1 : 1 <= free_data_blocks two_levels_state) by (vm_compute; discriminate).
  assert (H2 : num_data_blocks (sb two_levels_state)
               <= 8 * Z.of_nat (length (data_block_bitmap two_levels_state)))
    by (vm_compute; discriminate).
  exact (proj1 (alloc_data_block_takes_lowest_free two_levels_state H1 H2)).
Defined.

Lemma allocators_fail_when_exhausted_witness :
  free_data_blocks no_block_state = 0
  /\ alloc_data_block no_block_state = (-1, no_block_state).
Proof.
  assert (H1 : free_data_blocks no_block_state = 0) by (vm_compute; reflexivity).
  split; [exact H1|].
  exact (proj2 (allocators_fail_when_exhausted no_block_state) H1).
Defined.

Lemma alloc_inode_takes_lowest_free_witness :
  0 <= fst (alloc_inode two_levels_state) < num_inodes (sb two_levels_state).
Proof.
  assert (H1 : 1 <= free_inodes two_levels_state) by (vm_compute; discriminate).
  assert (H2 : num_inodes (sb two_levels_state)
               <= 8 * Z.of_nat (length (inode_bitmap two_levels_state)))
    by (vm_compute; discriminate).
  exact (proj1 (alloc_inode_takes_lowest_free two_levels_state H1 H2)).
Defined.

Lemma alloc_then_free_data_block_witness :
  free_data_blocks
    (free_data_block (snd (alloc_data_block two_levels_state))
                     (fst (alloc_data_block two_levels_state)))
  = free_data_blocks two_levels_state.
Proof.
  assert (H1 : 1 <= free_data_blocks two_levels_state) by (vm_compute; discriminate).
  assert (H2 : num_data_blocks (sb two_levels_state)
               <= 8 * Z.of_nat (length (data_block_bitmap two_levels_state)))
    by (vm_compute; discriminate).
  exact (proj2 (alloc_then_free_data_block two_levels_state H1 H2)).
Defined.

Lemma directory_slot_round_trip_witness :
  get_de (put_de (zeros BLOCK_BYTES) 3 (mkDirectoryEntry (fit NAME_BYTES (str "a")) 7)) 3
  = mkDirectoryEntry (fit NAME_BYTES (str "a")) 7.
Proof.
  assert (H1 : length (zeros BLOCK_BYTES) = BLOCK_BYTES) by (vm_compute; reflexivity).
  assert (H2 : (3 < entries_per_block)%nat) by (vm_compute; lia).
  assert (H3 : length (name (mkDirectoryEntry (fit NAME_BYTES (str "a")) 7)) = NAME_BYTES)
    by (vm_compute; reflexivity).
  assert (H4 : 0 <= inode_number (mkDirectoryEntry (fit NAME_BYTES (str "a")) 7)
               < 4294967296) by (vm_compute; split; [discriminate|reflexivity]).
  exact (proj1 (directory_slot_round_trip (zeros BLOCK_BYTES) 3
                  (mkDirectoryEntry (fit NAME_BYTES (str "a")) 7) H1 H2 H3 H4)).
Defined.

Lemma add_entry_then_find_witness :
  find_entry_in_dir two_levels_state ROOT_INODE_NUM (str "f") = -1
  /\ find_entry_in_dir
       (add_entry_to_dir env0 two_levels_state ROOT_INODE_NUM (str "f") 5)
       ROOT_INODE_NUM (str "f") = 5.
Proof.
  assert (H1 : alloc_ok two_levels_state = true) by (vm_compute; reflexivity).
  assert (H2 : allocated two_levels_state ROOT_INODE_NUM)
    by (vm_compute; split; [split; [discriminate|reflexivity]|reflexivity]).
  assert (H3 : mode (read_inode two_levels_state ROOT_INODE_NUM) = 1)
    by (vm_compute; reflexivity).
  assert (H4 : packed two_levels_state (read_inode two_levels_state ROOT_INODE_NUM) = true)
    by (vm_compute; reflexivity).
  assert (H5 : size (read_inode two_levels_state ROOT_INODE_NUM) / sizeof_DirectoryEntry
               < 180) by (vm_compute; reflexivity).
  assert (H6 : 1 <= free_data_blocks two_levels_state) by (vm_compute; discriminate).
  assert (H7 : str "f" <> []) by (vm_compute; discriminate).
  assert (H8 : nul_free (str "f") = true) by (vm_compute; reflexivity).
  assert (H9 : (length (str "f") <= 255)%nat) by (vm_compute; lia).
  assert (H10 : 0 <= 5 < 2147483648) by lia.
  assert (H11 : find_entry_in_dir two_levels_state ROOT_INODE_NUM (str "f") = -1)
    by (vm_compute; reflexivity).
  split; [exact H11|].
  exact (proj1 (add_entry_then_find env0 two_levels_state ROOT_INODE_NUM (str "f") 5
                  H1 H2 H3 H4 H5 H6 H7 H8 H9 H10 H11)).
Defined.

Lemma add_entry_to_full_directory_witness :
  add_entry_to_dir env0 full_root_state ROOT_INODE_NUM (str "x") 7
  = printf full_root_state ErrDirectoryFull.
Proof.
  assert (H : packed full_root_state (read_inode full_root_state ROOT_INODE_NUM) = true
              /\ length (direct_blocks (read_inode full_root_state ROOT_INODE_NUM)) = 12%nat
              /\ size (read_inode full_root_state ROOT_INODE_NUM) / sizeof_DirectoryEntry
                 = 180)
    by (vm_compute; split; [reflexivity|split; reflexivity]).
  exact (add_entry_to_full_directory env0 full_root_state ROOT_INODE_NUM (str "x") 7
           (proj1 H) (proj1 (proj2 H)) (proj2 (proj2 H))).
Defined.

Lemma add_entry_without_free_block_witness :
  add_entry_to_dir env0 no_block_state ROOT_INODE_NUM (str "x") 7
  = printf no_block_state ErrOutOfDataBlocks.
Proof.
  assert (H1 : packed no_block_state (read_inode no_block_state ROOT_INODE_NUM) = true)
    by (vm_compute; reflexivity).
  assert (H2 : length (direct_blocks (read_inode no_block_state ROOT_INODE_NUM)) = 12%nat)
    by (vm_compute; reflexivity).
  assert (H3 : Z.to_nat (size (read_inode no_block_state ROOT_INODE_NUM)
                         / sizeof_DirectoryEntry)
               = (entries_per_block
                  * length (used_prefix
                              (firstn 12 (direct_blocks
                                            (read_inode no_block_state ROOT_INODE_NUM)))))%nat)
    by (vm_compute; reflexivity).
  assert (H4 : size (read_inode no_block_state ROOT_INODE_NUM) / sizeof_DirectoryEntry
               < 180) by (vm_compute; reflexivity).
  assert (H5 : free_data_blocks no_block_state = 0) by (vm_compute; reflexivity).
  exact (add_entry_without_free_block env0 no_block_state ROOT_INODE_NUM (str "x") 7
           H1 H2 H3 H4 H5).
Defined.

Lemma path_resolution_by_components_witness :
  get_path_inode two_levels_state (mkpath true [str "a"; str "b"])
  = walk_components two_levels_state ROOT_INODE_NUM [str "a"; str "b"].
Proof.
  assert (H1 : Forall (fun nm => valid_component nm = true) [str "a"; str "b"])
    by (repeat constructor).
  assert (H2 : [str "a"; str "b"] <> []) by discriminate.
  assert (H3 : true = false -> join_components [str "a"; str "b"] <> str ".")
    by discriminate.
  exact (proj2 (proj2 (proj2 (path_resolution_by_components two_levels_state true
                                [str "a"; str "b"] H1))) H2 H3).
Defined.

Lemma path_resolution_stops_at_files_witness :
  mode (read_inode two_block_state
          (walk_components two_block_state ROOT_INODE_NUM ([] ++ [str "big"]))) <> 1
  /\ get_path_inode two_block_state (mkpath true ([] ++ str "big" :: [str "x"])) = -1.
Proof.
  assert (H1 : Forall (fun nm => valid_component nm = true) ([] ++ str "big" :: [str "x"]))
    by (repeat constructor).
  assert (H2 : [str "x"] <> []) by discriminate.
  assert (H3 : mode (read_inode two_block_state
                       (walk_components two_block_state ROOT_INODE_NUM
                                        ([] ++ [str "big"]))) <> 1)
    by (vm_compute; discriminate).
  split; [exact H3|].
  exact (path_resolution_stops_at_files two_block_state true [] (str "big") [str "x"]
           H1 H2 (or_intror H3)).
Defined.

Lemma failed_import_restores_bitmaps_witness :
  (exists out,
     stdout (do_cp_to_vdisk env0 (fresh env0 two_data_blocks)
                            (Some (repeat "A"%char 5000)) (str "/f"))
     = out ++ [MsgCopied])
  \/ ((forall m, get_bit (inode_bitmap
                            (do_cp_to_vdisk env0 (fresh env0 two_data_blocks)
                                            (Some (repeat "A"%char 5000)) (str "/f"))) m
                 = get_bit (inode_bitmap (fresh env0 two_data_blocks)) m)
      /\ (forall m, get_bit (data_block_bitmap
                               (do_cp_to_vdisk env0 (fresh env0 two_data_blocks)
                                               (Some (repeat "A"%char 5000)) (str "/f"))) m
                    = get_bit (data_block_bitmap (fresh env0 two_data_blocks)) m)
      /\ (forall k, read_inode (do_cp_to_vdisk env0 (fresh env0 two_data_blocks)
                                               (Some (repeat "A"%char 5000)) (str "/f")) k
                    = read_inode (fresh env0 two_data_blocks) k)
      /\ cwd (do_cp_to_vdisk env0 (fresh env0 two_data_blocks)
                             (Some (repeat "A"%char 5000)) (str "/f"))
         = cwd (fresh env0 two_data_blocks)).
Proof.
  assert (H1 : num_data_blocks (sb (fresh env0 two_data_blocks))
               <= 8 * Z.of_nat (length (data_block_bitmap (fresh env0 two_data_blocks))))
    by (vm_compute; discriminate).
  assert (H2 : inode_in_block (fst (alloc_inode (fresh env0 two_data_blocks))) = true)
    by (vm_compute; reflexivity).
  exact (failed_import_restores_bitmaps env0 (fresh env0 two_data_blocks)
           (Some (repeat "A"%char 5000)) (str "/f") H1 H2).
Defined.

Lemma truncate_then_export_witness :
  exists old,
    snd (do_cp_from_vdisk two_block_state (str "/big")) = Some old
    /\ snd (do_cp_from_vdisk (do_truncate env0 two_block_state (str "/big") 4097)
                             (str "/big"))
       = Some (firstn (Z.to_nat (size (read_inode two_block_state
                                         (get_path_inode two_block_state (str "/big")))
                                 - 4097)) old).
Proof.
  assert (H1 : 0 < 4097) by lia.
  assert (H2 : get_path_inode two_block_state (str "/big") <> -1)
    by (vm_compute; discriminate).
  assert (H3 : mode (read_inode two_block_state
                                (get_path_inode two_block_state (str "/big"))) = 0)
    by (vm_compute; reflexivity).
  exact (truncate_then_export env0 two_block_state (str "/big") 4097 H1 H2 H3).
Defined.

Lemma read_only_commands_witness :
  exists st',
    step env0 two_levels_state (Ls (str "/a")) = Done st'
    /\ virtual_disk st' = virtual_disk two_levels_state
    /\ inode_bitmap st' = inode_bitmap two_levels_state
    /\ data_block_bitmap st' = data_block_bitmap two_levels_state
    /\ sb st' = sb two_levels_state
    /\ cwd st' = cwd two_levels_state.
Proof.
  exact (read_only_commands env0 two_levels_state (Ls (str "/a")) I).
Defined.

Lemma bitmaps_survive_remount_witness :
  inode_bitmap (mount (virtual_disk (sync_bitmaps two_levels_state)))
  = inode_bitmap two_levels_state.
Proof.
  assert (H1 : length (inode_bitmap two_levels_state) = INODE_BITMAP_BYTES)
    by (vm_compute; reflexivity).
  assert (H2 : length (data_block_bitmap two_levels_state) = DATA_BITMAP_BYTES)
    by (vm_compute; reflexivity).
  exact (proj1 (bitmaps_survive_remount two_levels_state H1 H2)).
Defined.

Lemma mkfs_gives_consistent_state_witness : alloc_ok (fresh env0 MiB) = true.
Proof.
  assert (H1 : 14 * BLOCK_SIZE <= MiB < 2147483648 * BLOCK_SIZE)
    by (vm_compute; split; [discriminate|reflexivity]).
  exact (proj1 (mkfs_gives_consistent_state env0 MiB H1)).
Defined.

Lemma rm_frees_on_last_link_witness :
  get_bit (inode_bitmap (do_rm two_block_state (str "/big")))
          (find_entry_in_dir two_block_state
             (get_path_inode two_block_state (dirname (str "/big")))
             (basename (str "/big"))) = false.
Proof.
  assert (H1 : get_path_inode two_block_state (dirname (str "/big")) <> -1)
    by (vm_compute; discriminate).
  assert (H2 : find_entry_in_dir two_block_state
                 (get_path_inode two_block_state (dirname (str "/big")))
                 (basename (str "/big")) <> -1)
    by (vm_compute; discriminate).
  assert (H3 : mode (read_inode two_block_state
                       (find_entry_in_dir two_block_state
                          (get_path_inode two_block_state (dirname (str "/big")))
                          (basename (str "/big")))) <> 1)
    by (vm_compute; discriminate).
  assert (H4 : wrap32 (link_count
                         (read_inode two_block_state
                            (find_entry_in_dir two_block_state
                               (get_path_inode two_block_state (dirname (str "/big")))
                               (basename (str "/big")))) - 1) = 0)
    by (vm_compute; reflexivity).
  exact (proj1 (proj1 (rm_frees_on_last_link two_block_state (str "/big") H1 H2 H3) H4)).
Defined.

Lemma rmdir_outcomes_witness :
  get_bit (inode_bitmap (do_rmdir two_levels_state (str "/a/b")))
          (get_path_inode two_levels_state (str "/a/b")) = false.
Proof.
  assert (H1 : str "/a/b" <> str "/") by (vm_compute; discriminate).
  assert (H2 : get_path_inode two_levels_state (str "/a/b") <> -1)
    by (vm_compute; discriminate).
  assert (H3 : mode (read_inode two_levels_state
                                (get_path_inode two_levels_state (str "/a/b"))) = 1)
    by (vm_compute; reflexivity).
  assert (H4 : Z.of_nat (length (dir_entries two_levels_state
                                   (read_inode two_levels_state
                                      (get_path_inode two_levels_state (str "/a/b")))))
               <= 2) by (vm_compute; discriminate).
  assert (R := proj1 (proj2 (rmdir_outcomes two_levels_state (str "/a/b") H1 H2 H3) H4)
                     (get_path_inode two_levels_state (str "/a/b"))).
  rewrite Z.eqb_refl in R. exact R.
Defined.

Lemma mkdir_then_resolve_witness :
  exists n,
    get_bit (inode_bitmap two_levels_state) n = false
    /\ get_bit (inode_bitmap
                  (do_mkdir env0 two_levels_state
                            (mkpath true ([str "a"; str "b"] ++ [str "c"])))) n = true
    /\ get_path_inode (do_mkdir env0 two_levels_state
                                (mkpath true ([str "a"; str "b"] ++ [str "c"])))
                      (mkpath true ([str "a"; str "b"] ++ [str "c"])) = n
    /\ mode (read_inode (do_mkdir env0 two_levels_state
                                  (mkpath true ([str "a"; str "b"] ++ [str "c"]))) n) = 1
    /\ find_entry_in_dir (do_mkdir env0 two_levels_state
                                   (mkpath true ([str "a"; str "b"] ++ [str "c"])))
                         n (str ".") = n
    /\ find_entry_in_dir (do_mkdir env0 two_levels_state
                                   (mkpath true ([str "a"; str "b"] ++ [str "c"])))
                         n (str "..")
       = walk_components two_levels_state ROOT_INODE_NUM [str "a"; str "b"]
    /\ cwd (do_cd (do_mkdir env0 two_levels_state
                            (mkpath true ([str "a"; str "b"] ++ [str "c"])))
                  (mkpath true ([str "a"; str "b"] ++ [str "c"]))) = n
    /\ link_count (read_inode (do_mkdir env0 two_levels_state
                                        (mkpath true ([str "a"; str "b"] ++ [str "c"])))
                              (walk_components two_levels_state ROOT_INODE_NUM
                                               [str "a"; str "b"]))
       = wrap32 (link_count (read_inode two_levels_state
                               (walk_components two_levels_state ROOT_INODE_NUM
                                                [str "a"; str "b"])) + 1).
Proof.
  assert (H1 : alloc_ok two_levels_state = true) by (vm_compute; reflexivity).
  assert (H3 : Forall (fun c => valid_component c = true) [str "a"; str "b"])
    by (repeat constructor).
  assert (H4 : valid_component (str "c") = true) by reflexivity.
  assert (H5 : nul_free (str "c") = true) by reflexivity.
  assert (H6 : (length (str "c") <= 255)%nat) by (vm_compute; lia).
  assert (H7 : walk_components two_levels_state ROOT_INODE_NUM [str "a"; str "b"] <> -1)
    by (vm_compute; discriminate).
  assert (H8 : mode (read_inode two_levels_state
                       (walk_components two_levels_state ROOT_INODE_NUM
                                        [str "a"; str "b"])) = 1)
    by (vm_compute; reflexivity).
  assert (H9 : find_entry_in_dir two_levels_state
                 (walk_components two_levels_state ROOT_INODE_NUM [str "a"; str "b"])
                 (str "c") = -1)
    by (vm_compute; reflexivity).
  assert (H10 : packed two_levels_state
                  (read_inode two_levels_state
                     (walk_components two_levels_state ROOT_INODE_NUM
                                      [str "a"; str "b"])) = true)
    by (vm_compute; reflexivity).
  assert (H11 : size (read_inode two_levels_state
                        (walk_components two_levels_state ROOT_INODE_NUM
                                         [str "a"; str "b"]))
                / sizeof_DirectoryEntry < 180)
    by (vm_compute; reflexivity).
  assert (H12 : 1 <= free_inodes two_levels_state) by (vm_compute; discriminate).
  assert (HI : inode_in_block (fst (alloc_inode two_levels_state)) = true)
    by (vm_compute; reflexivity).
  assert (H13 : 2 <= free_data_blocks two_levels_state) by (vm_compute; discriminate).
  exact (mkdir_then_resolve env0 two_levels_state true [str "a"; str "b"] (str "c")
           H1 H3 H4 H5 H6 H7 H8 H9 H10 H11 H12 HI H13).
Defined.

Lemma ln_then_resolve_witness :
  get_path_inode (do_ln env0 small_file_state (str "/h") (mkpath true ([] ++ [str "l"])))
                 (mkpath true ([] ++ [str "l"]))
  = get_path_inode small_file_state (str "/h").
Proof.
  assert (H1 : alloc_ok small_file_state = true) by (vm_compute; reflexivity).
  assert (H3 : Forall (fun c => valid_component c = true) []) by constructor.
  assert (H4 : valid_component (str "l") = true) by reflexivity.
  assert (H5 : nul_free (str "l") = true) by reflexivity.
  assert (H6 : (length (str "l") <= 255)%nat) by (vm_compute; lia).
  assert (H7 : walk_components small_file_state ROOT_INODE_NUM [] <> -1)
    by (vm_compute; discriminate).
  assert (H8 : mode (read_inode small_file_state
                       (walk_components small_file_state ROOT_INODE_NUM [])) = 1)
    by (vm_compute; reflexivity).
  assert (H9 : find_entry_in_dir small_file_state
                 (walk_components small_file_state ROOT_INODE_NUM []) (str "l") = -1)
    by (vm_compute; reflexivity).
  assert (H10 : packed small_file_state
                  (read_inode small_file_state
                     (walk_components small_file_state ROOT_INODE_NUM [])) = true)
    by (vm_compute; reflexivity).
  assert (H11 : size (read_inode small_file_state
                        (walk_components small_file_state ROOT_INODE_NUM []))
                / sizeof_DirectoryEntry < 180)
    by (vm_compute; reflexivity).
  assert (H12 : 1 <= free_data_blocks small_file_state) by (vm_compute; discriminate).
  assert (H13 : get_path_inode small_file_state (str "/h") <> -1)
    by (vm_compute; discriminate).
  assert (H14 : mode (read_inode small_file_state
                        (get_path_inode small_file_state (str "/h"))) <> 1)
    by (vm_compute; discriminate).
  exact (proj1 (ln_then_resolve env0 small_file_state (str "/h") true [] (str "l")
                  H1 H3 H4 H5 H6 H7 H8 H9 H10 H11 H12 H13 H14)).
Defined.

Lemma append_within_last_block_witness :
  exists st' old,
    do_append env0 small_file_state (str "/h") 10 = Done st'
    /\ size (read_inode st' (get_path_inode small_file_state (str "/h")))
       = size (read_inode small_file_state (get_path_inode small_file_state (str "/h")))
         + 10
    /\ direct_blocks (read_inode st' (get_path_inode small_file_state (str "/h")))
       = direct_blocks (read_inode small_file_state
                          (get_path_inode small_file_state (str "/h")))
    /\ inode_bitmap st' = inode_bitmap small_file_state
    /\ data_block_bitmap st' = data_block_bitmap small_file_state
    /\ snd (do_cp_from_vdisk small_file_state (str "/h")) = Some old
    /\ snd (do_cp_from_vdisk st' (str "/h")) = Some (old ++ zeros (Z.to_nat 10)).
Proof.
  assert (H1 : alloc_ok small_file_state = true) by (vm_compute; reflexivity).
  assert (H2 : get_path_inode small_file_state (str "/h") <> -1)
    by (vm_compute; discriminate).
  assert (H3 : mode (read_inode small_file_state
                       (get_path_inode small_file_state (str "/h"))) = 0)
    by (vm_compute; reflexivity).
  assert (H4 : 0 < size (read_inode small_file_state
                           (get_path_inode small_file_state (str "/h")))
               <= INODE_DIRECT_POINTERS * BLOCK_SIZE)
    by (vm_compute; split; [reflexivity|discriminate]).
  assert (H5 : size (read_inode small_file_state
                       (get_path_inode small_file_state (str "/h"))) mod BLOCK_SIZE <> 0)
    by (vm_compute; discriminate).
  assert (H6 : 0 < 10 <= BLOCK_SIZE
                         - size (read_inode small_file_state
                                   (get_path_inode small_file_state (str "/h")))
                           mod BLOCK_SIZE)
    by (vm_compute; split; [reflexivity|discriminate]).
  assert (H7 : forall idx,
             (idx <= Z.to_nat ((size (read_inode small_file_state
                                        (get_path_inode small_file_state (str "/h"))) - 1)
                               / BLOCK_SIZE))%nat ->
             nth idx (direct_blocks (read_inode small_file_state
                                       (get_path_inode small_file_state (str "/h"))))
                 UNUSED_BLOCK <> UNUSED_BLOCK).
  { intros idx Hidx.
    assert (E : Z.to_nat ((size (read_inode small_file_state
                                   (get_path_inode small_file_state (str "/h"))) - 1)
                          / BLOCK_SIZE) = 0%nat) by (vm_compute; reflexivity).
    rewrite E in Hidx. assert (idx = 0%nat) by lia. subst idx.
    vm_compute. discriminate. }
  exact (append_within_last_block env0 small_file_state (str "/h") 10
           H1 H2 H3 H4 H5 H6 H7).
Defined.

Lemma import_accounting_witness :
  free_inodes (do_cp_to_vdisk env0 two_levels_state (Some (str "hello"))
                              (mkpath true ([str "a"; str "b"] ++ [str "f"])))
  = free_inodes two_levels_state - 1.
Proof.
  assert (H1 : alloc_ok two_levels_state = true) by (vm_compute; reflexivity).
  assert (H2 : Z.of_nat (length (str "hello")) <= INODE_DIRECT_POINTERS * BLOCK_SIZE)
    by (vm_compute; discriminate).
  assert (H3 : Forall (fun c => valid_component c = true) [str "a"; str "b"])
    by (repeat constructor).
  assert (H4 : valid_component (str "f") = true) by reflexivity.
  assert (H5 : nul_free (str "f") = true) by reflexivity.
  assert (H7 : walk_components two_levels_state ROOT_INODE_NUM [str "a"; str "b"] <> -1)
    by (vm_compute; discriminate).
  assert (H8 : mode (read_inode two_levels_state
                       (walk_components two_levels_state ROOT_INODE_NUM
                                        [str "a"; str "b"])) = 1)
    by (vm_compute; reflexivity).
  assert (H9 : find_entry_in_dir two_levels_state
                 (walk_components two_levels_state ROOT_INODE_NUM [str "a"; str "b"])
                 (str "f") = -1)
    by (vm_compute; reflexivity).
  assert (H10 : packed two_levels_state
                  (read_inode two_levels_state
                     (walk_components two_levels_state ROOT_INODE_NUM
                                      [str "a"; str "b"])) = true)
    by (vm_compute; reflexivity).
  assert (H11 : size (read_inode two_levels_state
                        (walk_components two_levels_state ROOT_INODE_NUM
                                         [str "a"; str "b"]))
                / sizeof_DirectoryEntry < 180)
    by (vm_compute; reflexivity).
  assert (H12 : 1 <= free_inodes two_levels_state) by (vm_compute; discriminate).
  assert (HI : inode_in_block (fst (alloc_inode two_levels_state)) = true)
    by (vm_compute; reflexivity).
  assert (H13 : blocks_needed (length (str "hello")) + 1
                <= free_data_blocks two_levels_state)
    by (vm_compute; discriminate).
  exact (proj1 (import_accounting env0 two_levels_state true [str "a"; str "b"]
                  (str "f") (str "hello") H1 H2 H3 H4 H5 H7 H8 H9 H10 H11 H12 HI H13)).
Defined.

Lemma rm_then_lookup_witness :
  find_entry_in_dir (do_rm small_file_state (str "/h"))
                    (get_path_inode small_file_state (dirname (str "/h")))
                    (basename (str "/h")) = -1.
Proof.
  assert (H1 : get_path_inode small_file_state (dirname (str "/h")) <> -1)
    by (vm_compute; discriminate).
  assert (H2 : find_entry_in_dir small_file_state
                 (get_path_inode small_file_state (dirname (str "/h")))
                 (basename (str "/h")) <> -1)
    by (vm_compute; discriminate).
  assert (H3 : mode (read_inode small_file_state
                       (find_entry_in_dir small_file_state
                          (get_path_inode small_file_state (dirname (str "/h")))
                          (basename (str "/h")))) <> 1)
    by (vm_compute; discriminate).
  assert (H4 : packed small_file_state
                 (read_inode small_file_state
                    (get_path_inode small_file_state (dirname (str "/h")))) = true)
    by (vm_compute; reflexivity).
  assert (H5 : length (direct_blocks
                 (read_inode small_file_state
                    (get_path_inode small_file_state (dirname (str "/h"))))) = 12%nat)
    by (vm_compute; reflexivity).
  assert (H6 : nodupb (used_pointers
                 (read_inode small_file_state
                    (get_path_inode small_file_state (dirname (str "/h"))))) = true)
    by (vm_compute; reflexivity).
  assert (H7 : length (filter (fun e => strcmp_eq (name e) (basename (str "/h")))
                         (visible small_file_state
                            (read_inode small_file_state
                               (get_path_inode small_file_state (dirname (str "/h"))))))
               = 1%nat)
    by (vm_compute; reflexivity).
  exact (proj2 (proj2 (rm_then_lookup small_file_state (str "/h") H1 H2 H3 H4 H5 H6)) H7).
Defined.

Lemma rmdir_then_lookup_witness :
  find_entry_in_dir (do_rmdir two_levels_state (str "/a/b"))
                    (get_path_inode two_levels_state (dirname (str "/a/b")))
                    (basename (str "/a/b")) = -1.
Proof.
  assert (H1 : str "/a/b" <> str "/") by (vm_compute; discriminate).
  assert (H2 : get_path_inode two_levels_state (str "/a/b") <> -1)
    by (vm_compute; discriminate).
  assert (H3 : mode (read_inode two_levels_state
                                (get_path_inode two_levels_state (str "/a/b"))) = 1)
    by (vm_compute; reflexivity).
  assert (H4 : Z.of_nat (length (dir_entries two_levels_state
                                   (read_inode two_levels_state
                                      (get_path_inode two_levels_state (str "/a/b")))))
               <= 2) by (vm_compute; discriminate).
  assert (H5 : find_entry_in_dir two_levels_state
                 (get_path_inode two_levels_state (dirname (str "/a/b")))
                 (basename (str "/a/b")) <> -1)
    by (vm_compute; discriminate).
  assert (H6 : packed two_levels_state
                 (read_inode two_levels_state
                    (get_path_inode two_levels_state (dirname (str "/a/b")))) = true)
    by (vm_compute; reflexivity).
  assert (H7 : length (direct_blocks
                 (read_inode two_levels_state
                    (get_path_inode two_levels_state (dirname (str "/a/b"))))) = 12%nat)
    by (vm_compute; reflexivity).
  assert (H8 : nodupb (used_pointers
                 (read_inode two_levels_state
                    (get_path_inode two_levels_state (dirname (str "/a/b"))))) = true)
    by (vm_compute; reflexivity).
  assert (H9 : length (filter (fun e => strcmp_eq (name e) (basename (str "/a/b")))
                         (visible two_levels_state
                            (read_inode two_levels_state
                               (get_path_inode two_levels_state (dirname (str "/a/b"))))))
               = 1%nat)
    by (vm_compute; reflexivity).
  exact (proj2 (proj2 (proj2 (rmdir_then_lookup two_levels_state (str "/a/b")
                                H1 H2 H3 H4 H5 H6 H7 H8))) H9).
Defined.

Lemma find_name_then_find_entry_witness :
  find_entry_in_dir two_levels_state ROOT_INODE_NUM (str "a")
  = get_path_inode two_levels_state (str "/a").
Proof.
  assert (H1 : forallb
                 (fun e => (length (filter (fun e' => strcmp_eq (name e') (name e))
                                      (visible two_levels_state
                                         (read_inode two_levels_state ROOT_INODE_NUM)))
                            =? 1)%nat)
                 (visible two_levels_state (read_inode two_levels_state ROOT_INODE_NUM))
               = true)
    by (vm_compute; reflexivity).
  assert (H2 : 0 <= get_path_inode two_levels_state (str "/a") < 2147483648)
    by (vm_compute; split; [discriminate|reflexivity]).
  assert (H3 : find_name_for_inode two_levels_state ROOT_INODE_NUM
                 (get_path_inode two_levels_state (str "/a")) = Some (str "a"))
    by (vm_compute; reflexivity).
  exact (proj1 (find_name_then_find_entry two_levels_state ROOT_INODE_NUM
                  (get_path_inode two_levels_state (str "/a")) (str "a") H1 H2 H3)).
Defined.

